(* ===== verification/_CoqProject ===== *)
-Q . S2P
Prelude.v
Core.v
Enums.v
OMap.v
Bytes.v
Codec.v
Evidence.v
Authority.v
Policy.v
Topology.v
State.v
Intervention.v
Hysteresis.v
Propagation.v
Explanation.v
Evaluator.v
Planner.v
Frame.v
Messages.v
Publisher.v
Channel.v
Process.v
ProcessWindows.v
Lifecycle.v
Journal.v
StoreCodec.v
Snapshot.v
Store.v
Fabric.v
FabricInvariant.v
FabricSafety.v
FabricDurability.v
Coordinator.v
CoordinatorSafety.v
Conversation.v
Args.v
Node.v
Tools.v
Bench.v
Scenarios.v
FabricScenarios.v
RuntimeScenarios.v
