(* ===== verification/Prelude.v ===== *)
(** * Network Congestion Fabric: verification library

    The program turns published measurements of queues, links and ports into an
    authoritative congestion state per domain, and plans bounded, authorized
    interventions from it; what it decides is committed to a crash-safe store, and
    what it is told arrives in checksummed frames.  This library is a shallow
    embedding of the program: its decision core, its durability layer, the fabric
    that coordinates them, the processes around it and their channels.  Every
    function is translated from the C++ and can be evaluated: the scenario files
    run evaluations, restarts and whole conversations by [vm_compute].

    ** How the parts interact

    A publisher ([Publisher]) observes, builds a batch of [EvidenceSample]s, frames
    it and writes it to a channel ([Channel]).  The coordinator ([Lifecycle] for its
    threads, [Coordinator] for what a thread does) reads bytes, cuts them into
    frames ([Frame], [Messages]) and calls the fabric ([Fabric]): a hello registers
    an incarnation, evidence is ingested and the domains it touched are evaluated,
    the end of the connection fences the incarnation.

    The fabric keeps the current evidence, the states of the domains, the
    registrations, the fences and the live authority.  An evaluation takes its
    evidence, the prior [DomainState] and a context, and runs: scope, admission,
    contradiction detection, classification per resource, propagation along the
    topology, aggregation per domain, one hysteresis step.  The outcome feeds the
    planner, which asks the authority vector before it seals an intent.  An epoch
    advance, a fence or a change of policy invalidates what was decided before.

    What the fabric changes it commits: a mutation of the durable document is
    encoded by the store codec and appended to the journal as three records
    (intent, payload, commit); only then is it applied in memory.  Opening a store
    loads the snapshot, replays the journal, reports unfinished attempts and cuts a
    torn tail; a checkpoint writes a verified snapshot and rebases the journal.  The
    programs ([Node], [Tools], [Bench]) read a command line ([Args]) and start,
    inspect or measure all this.

    ** Files

    - [Prelude]: record update, the reflection and case-splitting tactics, hint
      databases, [size64], lemmas on lists and options.
    - [Core]: include/ncf/core and src/core.  [Result]/[Status], checked and
      saturating words, ticks, FNV-1a, textual identities, limits.
    - [Enums]: model/enums.  Enumerations, names, parsers, the metric table.
    - [OMap]: std::map as an ordered association list over the [KeyOrder] class.
    - [Evidence], [Authority], [Policy], [Topology], [State], [Intervention],
      [Explanation]: the model headers and sources of the same names (fence.hpp is
      in [Authority], evaluation.hpp in [State]).
    - [Hysteresis], [Propagation]: src/eval/hysteresis.cpp, propagation.cpp.
    - [Evaluator]: CongestionEvaluator of src/eval/evaluator.cpp, phase by phase:
      [scope], [admit_samples], [detect_contradictions], [classify_resources],
      [propagate_domain], [aggregate], [proposal_of], [make_outcome].
    - [Planner]: InterventionPlanner::plan of the same file.
    - [Bytes]: core/crc32c.hpp and the little-endian helpers of journal.cpp,
      snapshot.cpp and frame.cpp (the same code three times, one definition).
    - [Codec]: durability/codec.  [ByteWriter] and [ByteReader], whose first
      failure is kept, as state transformers; [br_cast] and the like are the
      casts, loops and checks the decoders are written with.
    - [Frame]: transport/frame, the frame codec, the incremental decoder and the
      sequence window.  [Messages]: the payload codecs of the same source.
    - [Journal]: durability/journal and the file reading of internal/io.cpp.
      [StoreCodec]: store_codec.cpp.  [Snapshot]: durability/snapshot.
      [Store]: durability/store.
    - [Fabric]: fabric/fabric, every entry point as a function on one record, the
      state under the mutex.  [FabricInvariant]: the invariant of that record and
      its preservation by every call.  [FabricSafety]: reachable fabrics and what
      they never do.  [FabricDurability]: opening, and what is on disk when a call
      returns.
    - [Coordinator]: what the threads of runtime/coordinator.cpp do with a
      connection, a batch and a sweep.  [CoordinatorSafety]: their effects on the
      fabric.  [Conversation]: the specification of a conversation with one peer,
      which calls of the fabric each message asks for.  [Lifecycle]: the threads
      themselves, with the registry, the accept loop, run and stop; where a worker
      blocks and what ends its wait.
    - [Publisher]: runtime/publisher.  [Channel]: ipc/channel, both platforms behind
      one class.  [Process]: ipc/process, the POSIX branch, the capture and the
      command line.  [ProcessWindows]: the Windows branch of the same source.
    - [Args]: cli/args.  [Node]: the coordinator role of ncf_node_main.cpp.
      [Tools]: its other roles, and ncf_ctl_main.cpp.  [Bench]: ncf_bench_main.cpp.
    - [Scenarios], [FabricScenarios], [RuntimeScenarios]: a concrete fabric, node
      and publisher; the witnesses of the theorems about them and the runs behind
      the findings.

    ** What the theorems show

    - [Hysteresis]: the durable state stays well formed; a change of state needs
      as many consecutive samples for its target as the ladder asks; recovery is
      backed by at least two improved samples, as the policy reads them, and never
      jumps to CLEAR; dwell
      times are kept; an indeterminate sample commits at once; an escalation that
      is supported long enough happens.
    - [Evaluator]: every evaluation with a known scope ends in an outcome; it is
      exactly one hysteresis step from an ordered proposal; authority is claimed
      only over accepted, undisputed evidence; readings of one metric that differ
      by more than the policy tolerates are a conflict, and without a way to resolve
      it the evaluation commits one; CONGESTED needs the configured
      number of different rules on fresh readings of one resource; reports stay
      within the policy's bounds.
    - [Planner]: each authorized intent is justified field by field.
    - [Propagation], [Topology], [Policy], [Evidence], [Explanation], [Core]:
      functional specifications and refinements of the routines the evaluation is
      built on; a rendered explanation keeps its bound.
    - [Bytes], [Codec], [StoreCodec], [Messages]: CRC-32C tells apart any two
      buffers that differ within four consecutive bytes; every message and every
      durable record is decoded back as it was encoded.
    - [Frame]: no frame survives the change of a byte; a stream is delivered
      however it is cut; no sequence number is accepted twice.
    - [Journal], [Snapshot]: what replay recovers from a log that was cut or
      damaged, what an append leaves behind when it fails; a snapshot is replaced
      atomically or not at all, and a damaged one is refused in full.
    - [Store]: a commit is atomic under a crash at any byte; a sequence of commits
      refines the application of the mutations one after the other; opening
      recovers, or refuses a damaged journal; a checkpoint keeps the document;
      every reachable document is well formed.
    - [FabricSafety], [FabricDurability]: every reachable fabric satisfies the
      invariant; a fenced incarnation never comes back; evaluations read only
      evidence of the current epoch from registered incarnations; plans are made
      under the live authority; a cancelled evaluation applies nothing; a restart
      demotes what it restores; what was acknowledged is durable.
    - [CoordinatorSafety], [Conversation]: whatever bytes a connection delivers,
      the calls of the fabric are those its messages ask for, guarded by the
      registration, and the fence at its end; a stream is served frame by frame
      however it is cut; a connection that ends without a goodbye leaves its
      incarnation fenced; a peer that never says hello reaches nothing, whatever
      bytes it sends.
    - [Lifecycle]: the registry holds exactly the channels being served, workers
      stay within their bound; a shutdown ends within a bound of rounds in which
      each thread is scheduled once, whatever the peers do, because the draining
      loop keeps cancelling the reads and writes that block.
    - [Publisher], [Channel]: a batch arrives as it was built; a run that reports no
      error sent everything and read each acknowledgement before it sent the next
      batch; the frames that were written whole cross a channel whatever partial
      writes it makes, while the reader keeps up; an accept keeps the listener
      listening.
    - [Process], [ProcessWindows]: a child process is collected once, unless a wait
      fails, and what was opened for it is closed; the capture keeps its bound and
      counts what it drops.
    - [Args], [Node], [Tools], [Bench]: a command line is read back as it was
      written; a node that says it is ready serves what it was asked for; a store
      the tool calls clean can be opened; a benchmark counts what completed.

    ** The operating system and the other threads

    Files are byte lists in the state ([j_file], [SnapshotFiles], [Directory]).
    What a system call does is a parameter: [Io] (how many bytes a write stores,
    whether a flush, a truncation or a reopening succeeds), [FileIo] and
    [StoreIo].  The theorems hold for every such parameter unless a hypothesis
    says that the calls of a start succeed ([working_io]).  A crash is the loss of
    a suffix of the journal.

    Channels, listeners and processes take the answers of their system calls as
    lists or arguments; a result of [None] means that the answers ended while the
    operation was still in progress.  Open handles are a set, so that a leak is a
    handle left in it.  A clock is a function of the number of its readings.

    Every call of the fabric holds its mutex from its first access to its last, so
    it is one function of the state; plan and plan_cancellable, which take the mutex
    twice, are two.  What the other threads do between two calls of one connection
    is the parameter [others], any function whose result is reachable from its
    argument.  In [Lifecycle] each step is what one thread does under the registry's
    mutex or between two uses of it, and any thread may take the next one.

    ** Conventions, bounds and fuel

    - Unsigned words are [N], with [w8] .. [w64] where the C++ wraps; signed words
      are [Z].  Identities ([StrongId<Tag>]) are their 64-bit value: the tags are
      a static discipline of the C++ type system.
    - A counter incremented once per element of a container in memory is written
      without its wrap: reaching 2^64 would need that many elements.
    - std::map is [OMap]; std::unordered_map and std::unordered_set, whose order
      the sources never observe, are [gmap] and [gset].  std::sort followed by
      std::unique is [sort_unique]; propagation sources are sorted by resource,
      and the evaluator passes distinct resources, so the unstable order of equal
      keys is not observed.
    - An out-of-range [at] in the topology index is [None] from [build];
      [build_total] shows that it never happens.
    - The containment walk of a topology uses [kMaxResourceDepth] as fuel, the
      bound of the C++ loop; the propagation loop uses the policy's depth.  The
      hex loop of [to_hex] has 16 steps of fuel, one per digit of a 64-bit word.
    - The loop over the frames of a chunk has the bytes buffered plus one as fuel:
      each turn that goes on consumes a byte ([fd_next_consumes]).  The loops that
      wait for an answer have the reads that are left plus one ([await_replies_fuel]).
    - A read completes at most [kMaxBurst] frames, those the decoder's buffer holds;
      [shutdown_rounds] is a bound, not an estimate.

    ** Not modelled

    - What is printed, the usage texts, and the timing of the benchmark.
    - The watcher threads and the stop file of the node; stop() called by another
      thread while run() drains; the polling sleeps.
    - The path of the executable, the sleeps, wall and steady clocks.
    - The stdio calls behind [Io]; sync_file and remove_if_exists, which the store
      does not call.
    - The tests and the example client. *)

From stdpp Require Export base numbers list gmap strings sorting.
From Stdlib Require Export Ascii NArith ZArith Lia.

#[export] Set Default Goal Selector "!".
#[export] Set Warnings "-clear-no-such-hyp".

Declare Scope ncf_scope.
Delimit Scope ncf_scope with ncf.

(** ** Functional record update

    [r <| f := v |>] is the C++ assignment [r.f = v] on a copy of [r].  A record
    type declares its constructor and fields once, in a [Settable] instance;
    the setter of a field is then found by instance search. *)

Definition rec_pure {E A : Type} (a : A) : E -> A := fun _ => a.
Definition rec_ap {E A B : Type} (g : E -> A -> B) (x : E -> A) : E -> B :=
  fun e => g e (x e).

Class Settable (R : Type) := { rebuild : R -> R }.
Class Setter {R T : Type} (proj : R -> T) := set : (T -> T) -> R -> R.
Arguments set {R T} proj {_} _ _ /.

Notation "'fields!' mk < f1 ; .. ; fn >" :=
  {| rebuild := (rec_ap .. (rec_ap (rec_pure mk) f1) .. fn) |}
  (at level 0, mk at level 10, f1 at level 9, fn at level 9, only parsing).

Ltac build_setter :=
  match goal with
  | |- @Setter ?R ?T ?p =>
      let i := constr:(_ : Settable R) in
      let i' := eval hnf in i in
      match i' with
      | {| rebuild := ?e |} =>
          let e' := eval cbv beta delta [rec_ap rec_pure] in e in
          let g := eval pattern p in e' in
          match g with
          | ?body _ =>
              let t := eval cbv beta in (fun f : T -> T => body (fun r => f (p r))) in
              exact t
          end
      end
  end.

#[export] Hint Extern 1 (Setter _) => build_setter : typeclass_instances.

Notation "r <| f := v |>" := (set f (fun _ => v) r)
  (at level 1, f at level 0, v at level 200, left associativity,
   format "r  <|  f  :=  v  |>") : ncf_scope.
Notation "r <| f ::= g |>" := (set f g r)
  (at level 1, f at level 0, g at level 200, left associativity,
   format "r  <|  f  ::=  g  |>") : ncf_scope.
#[global] Open Scope ncf_scope.

(** ** Tactics of the development *)

(** Split every [match]/[if] of the goal or of the hypotheses whose scrutinee
    is not itself a [match]. *)
Ltac split_match :=
  match goal with
  | |- context [match ?x with _ => _ end] =>
      lazymatch x with context [match _ with _ => _ end] => fail | _ => destruct x eqn:? end
  end.
Ltac split_match_in H :=
  match type of H with
  | context [match ?x with _ => _ end] =>
      lazymatch x with context [match _ with _ => _ end] => fail | _ => destruct x eqn:? end
  end.

(** Turn boolean tests of the context into propositions. *)
Ltac reflect_bools :=
  repeat match goal with
  | H : andb _ _ = true |- _ => apply andb_true_iff in H; destruct H
  | H : andb _ _ = false |- _ => apply andb_false_iff in H
  | H : orb _ _ = false |- _ => apply orb_false_iff in H; destruct H
  | H : orb _ _ = true |- _ => apply orb_true_iff in H
  | H : negb _ = true |- _ => apply negb_true_iff in H
  | H : negb _ = false |- _ => apply negb_false_iff in H
  | H : N.ltb _ _ = true |- _ => apply N.ltb_lt in H
  | H : N.ltb _ _ = false |- _ => apply N.ltb_ge in H
  | H : N.leb _ _ = true |- _ => apply N.leb_le in H
  | H : N.leb _ _ = false |- _ => apply N.leb_gt in H
  | H : N.eqb _ _ = true |- _ => apply N.eqb_eq in H
  | H : N.eqb _ _ = false |- _ => apply N.eqb_neq in H
  | H : bool_decide _ = true |- _ => apply bool_decide_eq_true in H
  | H : bool_decide _ = false |- _ => apply bool_decide_eq_false in H
  end.

(** Take apart a conjunction of [Forall]s over explicit lists. *)
Ltac split_words H := hnf in H; rewrite ?Forall_cons in H; decompose [and] H; clear H.

(** A hypothesis that is the goal to the letter; [assumption] would unify the goal
    with every hypothesis in turn. *)
Ltac same_fact := match goal with H : ?P |- ?Q => constr_eq P Q; exact H end.

(** ** Generic lemmas *)

Section Folds.
Context {A B : Type}.

(** Invariant rule for the accumulating loops of the source. *)
Lemma foldl_inv (P : B -> Prop) (f : B -> A -> B) (l : list A) (b : B) :
  P b -> (forall acc x, x ∈ l -> P acc -> P (f acc x)) -> P (foldl f b l).
Proof.
  revert b. induction l as [|x l IH]; intros b Hb Hf; simpl; [done|].
  apply IH.
  - apply Hf; [set_solver|done].
  - intros acc y Hy. apply Hf. set_solver.
Qed.

(** The same rule with the already visited prefix in view. *)
Lemma foldl_inv_prefix (P : list A -> B -> Prop) (f : B -> A -> B) (l : list A) (b : B) :
  P [] b ->
  (forall pre x acc, (pre ++ [x]) `prefix_of` l -> P pre acc -> P (pre ++ [x]) (f acc x)) ->
  P l (foldl f b l).
Proof.
  intros Hb Hf.
  enough (forall suf pre acc, l = pre ++ suf -> P pre acc -> P l (foldl f acc suf)) as H
    by exact (H l [] b eq_refl Hb).
  induction suf as [|x suf IH]; intros pre acc Hl HP; simpl.
  - by rewrite app_nil_r in Hl; subst.
  - apply (IH (pre ++ [x])); [by rewrite <- app_assoc|].
    apply Hf; [|done]. exists suf. by rewrite <- app_assoc.
Qed.
End Folds.

(** Two folds over the same list stay related. *)
Lemma foldl_rel {A B C : Type} (R : B -> C -> Prop) (f : B -> A -> B) (g : C -> A -> C)
    (l : list A) (b : B) (c : C) :
  R b c -> (forall x b' c', x ∈ l -> R b' c' -> R (f b' x) (g c' x)) ->
  R (foldl f b l) (foldl g c l).
Proof.
  revert b c. induction l as [|x l IH]; intros b c H0 Hf; simpl; [done|].
  apply IH; [apply Hf; [set_solver|done]|]. intros. apply Hf; [set_solver|done].
Qed.

(** The number of elements of a list, as the 64-bit size the code computes. *)
Definition size64 {A : Type} (l : list A) : N := N.of_nat (length l).

Lemma size64_app {A : Type} (l k : list A) : size64 (l ++ k) = (size64 l + size64 k)%N.
Proof. unfold size64. rewrite length_app. lia. Qed.

Lemma size64_cons {A : Type} (x : A) (l : list A) : size64 (x :: l) = (size64 l + 1)%N.
Proof. unfold size64. simpl. lia. Qed.

Lemma size64_nil {A : Type} : size64 (@nil A) = 0%N.
Proof. done. Qed.

Lemma size64_map {A B : Type} (f : A -> B) (l : list A) : size64 (map f l) = size64 l.
Proof. unfold size64. by rewrite length_map. Qed.

Lemma size64_zero {A : Type} (l : list A) : size64 l = 0%N -> l = [].
Proof. destruct l; [done|]. unfold size64. simpl. lia. Qed.

Create HintDb ncf.
Create Rewrite HintDb ncf.
#[export] Hint Rewrite @size64_app @size64_cons @size64_nil : ncf.

(** A loop over a list with early return: the first [Some] wins. *)
Fixpoint first_error {A E : Type} (check : A -> option E) (l : list A) : option E :=
  match l with
  | [] => None
  | x :: l' => match check x with Some e => Some e | None => first_error check l' end
  end.

Lemma first_error_None {A E : Type} (check : A -> option E) (l : list A) :
  first_error check l = None <-> Forall (fun x => check x = None) l.
Proof.
  induction l as [|x l IH]; simpl; [split; [constructor|done]|].
  rewrite Forall_cons. destruct (check x) eqn:Hc; [|tauto].
  split; [done|]. intros [? ?]. congruence.
Qed.

Lemma first_error_Some {A E : Type} (check : A -> option E) (l : list A) (e : E) :
  first_error check l = Some e -> exists x, x ∈ l /\ check x = Some e.
Proof.
  induction l as [|x l IH]; simpl; [done|]. destruct (check x) as [e'|] eqn:Hx.
  - intros [= ->]. exists x. split; [constructor|done].
  - intros H. destruct (IH H) as (y & Hy & He). exists y. split; [by constructor|done].
Qed.

(** [std::lower_bound] on a range whose [before] elements come first: the
    number of leading elements that are before the probe. *)
Fixpoint lower_bound {A : Type} (before : A -> bool) (l : list A) : nat :=
  match l with
  | [] => 0
  | x :: l' => if before x then S (lower_bound before l') else 0
  end.

Lemma lower_bound_le {A : Type} (before : A -> bool) (l : list A) :
  lower_bound before l <= length l.
Proof. induction l as [|x l IH]; simpl; [lia|]. destruct (before x); lia. Qed.

Lemma lower_bound_take {A : Type} (before : A -> bool) (l : list A) :
  Forall (fun x => before x = true) (take (lower_bound before l) l).
Proof. induction l as [|x l IH]; simpl; [constructor|]. by destruct (before x) eqn:?; constructor. Qed.

(** [vector::insert(position, x)]. *)
Definition insert_at {A : Type} (i : nat) (x : A) (l : list A) : list A :=
  take i l ++ x :: drop i l.

Lemma insert_at_perm {A : Type} (i : nat) (x : A) (l : list A) : insert_at i x l ≡ₚ x :: l.
Proof.
  unfold insert_at. rewrite <- Permutation_middle. by rewrite take_drop.
Qed.
