(* ===== verification/Core.v ===== *)
(** * Core: include/ncf/core and src/core

    Error values ([Result], [Status], [ErrCode]), hard limits, checked and
    saturating arithmetic on 64-bit words, logical ticks, the FNV-1a hasher and
    the textual form of strong identities.  Unsigned C++ words are [N]; the
    places where the source lets a word wrap around are written with [w8],
    [w16], [w32] and [w64].  Signed 64-bit words are [Z]. *)

From Stdlib Require Import Strings.Byte.
From S2P Require Import Prelude.

Open Scope N_scope.

(** ** Machine words *)

Definition w8 (x : N) : N := x mod 2 ^ 8.
Definition w16 (x : N) : N := x mod 2 ^ 16.
Definition w32 (x : N) : N := x mod 2 ^ 32.
Definition w64 (x : N) : N := x mod 2 ^ 64.

Definition u8_ok (x : N) : Prop := x < 2 ^ 8.
Definition u16_ok (x : N) : Prop := x < 2 ^ 16.
Definition u32_ok (x : N) : Prop := x < 2 ^ 32.
Definition u64_ok (x : N) : Prop := x < 2 ^ 64.

(** ** include/ncf/core/limits.hpp *)

Definition kMaxU64 : N := 0xFFFFFFFFFFFFFFFF.
Definition kMaxDomains : N := 2 ^ 16.
Definition kMaxResourcesPerFabric : N := 2 ^ 22.
Definition kMaxResourcesPerDomain : N := 2 ^ 20.
Definition kMaxResourceDepth : N := 64.
Definition kMaxLinksPerTopology : N := 2 ^ 22.
Definition kMaxPathsPerTopology : N := 2 ^ 20.
Definition kMaxResourcesPerPath : N := 4096.
Definition kMaxMetricReadings : N := 64.
Definition kMaxEvidencePerBatch : N := 2 ^ 16.
Definition kMaxPublishers : N := 4096.
Definition kMaxContradictionPeers : N := 64.
Definition kMaxThresholdRules : N := 128.
Definition kMaxInterventionRules : N := 64.
Definition kMaxHysteresisSamples : N := 2 ^ 20.
Definition kMaxDwellTicks : N := 2 ^ 40.
Definition kMaxExplanationEntries : N := 4096.
Definition kMaxExplanationBytes : N := 2 ^ 20.
Definition kMaxPropagationEdges : N := 2 ^ 20.
Definition kMaxInterventionsPerPlan : N := 1024.
Definition kMaxInterventionHistory : N := 2 ^ 16.
Definition kMaxFramePayload : N := 2 ^ 20.
Definition kMaxSequenceGap : N := 2 ^ 20.
Definition kReplayWindow : N := 4096.
Definition kMaxJournalRecordBytes : N := 2 ^ 22.
Definition kMaxJournalBytes : N := 2 ^ 34.
Definition kMaxSnapshotBytes : N := 2 ^ 31.
Definition kMaxDurableHistoryEntries : N := 2 ^ 24.

(** include/ncf/version.hpp: the durable and on-wire format. *)
Definition kFormatVersion : N := 1.

(** ** include/ncf/core/result.hpp *)

(** [ErrRaw v] is the [ErrCode] [v] places past the last enumerator, which only a
    cast from the wire can produce. *)
Inductive ErrCode :=
| ErrOk | InvalidArgument | OutOfRange | NotFound | AlreadyExists | ErrStale
| Unauthorized | ErrConflict | Contradictory | Malformed | Truncated | Corrupt
| Oversized | LimitExceeded | Cancelled | Unavailable | NotReady | Closed
| Internal | EpochMismatch | GenerationMismatch | BootMismatch
| AttemptMismatch | Fenced | Duplicate | Unsupported | IoError
| IntegrityFailure | PolicyRejected | ErrRaw (v : N).

#[export] Instance ErrCode_eq_dec : EqDecision ErrCode.
Proof. solve_decision. Defined.

(** [to_string]: a code that is no enumerator is unknown. *)
Definition err_code_name (c : ErrCode) : string :=
  match c with
  | ErrOk => "ok" | InvalidArgument => "invalid-argument" | OutOfRange => "out-of-range" | NotFound => "not-found"
  | AlreadyExists => "already-exists" | ErrStale => "stale" | Unauthorized => "unauthorized" | ErrConflict => "conflict"
  | Contradictory => "contradictory" | Malformed => "malformed" | Truncated => "truncated" | Corrupt => "corrupt"
  | Oversized => "oversized" | LimitExceeded => "limit-exceeded" | Cancelled => "cancelled"
  | Unavailable => "unavailable" | NotReady => "not-ready" | Closed => "closed" | Internal => "internal"
  | EpochMismatch => "epoch-mismatch" | GenerationMismatch => "generation-mismatch" | BootMismatch => "boot-mismatch"
  | AttemptMismatch => "attempt-mismatch" | Fenced => "fenced" | Duplicate => "duplicate"
  | Unsupported => "unsupported" | IoError => "io-error" | IntegrityFailure => "integrity-failure"
  | PolicyRejected => "policy-rejected" | ErrRaw _ => "unknown"
  end.

Record Status := mkStatus {
  st_code : ErrCode;
  st_message : string;
  st_detail : string
}.

#[export] Instance Status_eq_dec : EqDecision Status.
Proof. solve_decision. Defined.

(** [Status::describe]. *)
Definition describe (s : Status) : string :=
  if String.eqb (st_detail s) "" then st_message s
  else (st_message s ++ ": " ++ st_detail s)%string.

(** [Result<T>]: either a [Status] or a value.  [Result<void>] is
    [Result unit]. *)
Inductive Result (A : Type) :=
| Err (s : Status)
| Ok (v : A).
Arguments Err {A} s.
Arguments Ok {A} v.

Definition fail {A : Type} (c : ErrCode) (m : string) : Result A := Err (mkStatus c m "").
Definition fail_detail {A : Type} (c : ErrCode) (m d : string) : Result A :=
  Err (mkStatus c m d).

Definition ok {A : Type} (r : Result A) : bool :=
  match r with Ok _ => true | Err _ => false end.

(** The code of a failure, [None] on success. *)
Definition err_code {A : Type} (r : Result A) : option ErrCode :=
  match r with Ok _ => None | Err s => Some (st_code s) end.

Definition res_bind {A B : Type} (m : Result A) (k : A -> Result B) : Result B :=
  match m with Ok a => k a | Err s => Err s end.

Notation "'let?' x := m 'in' k" := (res_bind m (fun x => k))
  (at level 10, x pattern, m at level 200, k at level 200) : ncf_scope.

(** An early return: [guard b c m k] is [if (b) return Status(c, m); k]. *)
Definition guard {A : Type} (b : bool) (c : ErrCode) (m : string) (k : Result A) : Result A :=
  if b then fail c m else k.

Lemma guard_Ok {A : Type} (b : bool) c m (k : Result A) (v : A) :
  guard b c m k = Ok v -> b = false /\ k = Ok v.
Proof. unfold guard. destruct b; [done|]. done. Qed.

Lemma guard_Ok_iff {A : Type} (b : bool) c m (k : Result A) (v : A) :
  guard b c m k = Ok v <-> b = false /\ k = Ok v.
Proof. unfold guard. destruct b; [split; [done|by intros [? _]]|]. split; [done|by intros [_ ?]]. Qed.

(** [injection] would compute the two values. *)
Lemma Ok_inj {A : Type} (a b : A) : Ok a = Ok b -> a = b.
Proof. by intros [= ->]. Qed.

Lemma res_bind_Ok {A B : Type} (m : Result A) (k : A -> Result B) (v : B) :
  res_bind m k = Ok v -> exists a, m = Ok a /\ k a = Ok v.
Proof. destruct m; simpl; [done|eauto]. Qed.

(** Take apart a hypothesis that a chain of early returns succeeded. *)
Ltac peel_guards H :=
  repeat first
    [ let Hg := fresh "Hg" in apply guard_Ok in H as [Hg H]
    | let x := fresh "x" in let Hx := fresh "Hx" in apply res_bind_Ok in H as (x & Hx & H) ].

(** ** include/ncf/core/checked.hpp *)

Definition checked_add (a b : N) : Result N :=
  if kMaxU64 - b <? a then fail OutOfRange "unsigned addition overflow" else Ok (w64 (a + b)).

Definition checked_sub (a b : N) : Result N :=
  if a <? b then fail OutOfRange "unsigned subtraction underflow" else Ok (a - b).

Definition checked_mul (a b : N) : Result N :=
  if negb (a =? 0) && (kMaxU64 / a <? b) then fail OutOfRange "unsigned multiplication overflow"
  else Ok (w64 (a * b)).

Definition checked_div (a b : N) : Result N :=
  if b =? 0 then fail InvalidArgument "division by zero" else Ok (a / b).

Definition i64_min : Z := (- 2 ^ 63)%Z.
Definition i64_max : Z := (2 ^ 63 - 1)%Z.
Definition i64_ok (z : Z) : Prop := (i64_min <= z <= i64_max)%Z.

Definition checked_add_i64 (a b : Z) : Result Z :=
  if (0 <? b)%Z && (i64_max - b <? a)%Z then fail OutOfRange "signed addition overflow"
  else if (b <? 0)%Z && (a <? i64_min - b)%Z then fail OutOfRange "signed addition underflow"
  else Ok (a + b)%Z.

Definition checked_sub_i64 (a b : Z) : Result Z :=
  if (b <? 0)%Z && (i64_max + b <? a)%Z then fail OutOfRange "signed subtraction overflow"
  else if (0 <? b)%Z && (a <? i64_min + b)%Z then fail OutOfRange "signed subtraction underflow"
  else Ok (a - b)%Z.

Definition saturating_add (a b : N) : N := if kMaxU64 - b <? a then kMaxU64 else w64 (a + b).
Definition saturating_sub (a b : N) : N := if a <? b then 0 else a - b.
Definition saturating_mul (a b : N) : N :=
  if (a =? 0) || (b =? 0) then 0
  else if kMaxU64 / b <? a then kMaxU64
  else w64 (a * b).

Definition clamp_u64 (v lo hi : N) : N := if v <? lo then lo else if hi <? v then hi else v.

(** [narrow<T>], for the unsigned type whose largest value is [max_value]. *)
Definition narrow (max_value v : N) : Result N :=
  if max_value <? v then fail OutOfRange "narrowing conversion would truncate" else Ok v.

Definition fits (max_value v : N) : bool := v <=? max_value.

Definition require_range (v lo hi : N) (what : string) : Result unit :=
  if (v <? lo) || (hi <? v) then fail LimitExceeded what else Ok tt.

Definition apply_ppm (magnitude ppm : N) : N :=
  let whole := magnitude / 1000000 in
  let rem := magnitude mod 1000000 in
  saturating_add (saturating_mul whole ppm) (w64 (rem * ppm) / 1000000).

(** ** include/ncf/core/time.hpp *)

Definition kNoTick : N := 0.

Record TickAge := mkTickAge { ta_age : N; ta_from_future : bool }.

Definition tick_age (now observed : N) : TickAge :=
  if now <? observed then mkTickAge (observed - now) true else mkTickAge (now - observed) false.

Definition within (a : TickAge) (max_age : N) : bool :=
  negb (ta_from_future a) && (ta_age a <=? max_age).
Definition is_stale (a : TickAge) (max_age : N) : bool :=
  ta_from_future a || (max_age <? ta_age a).
Definition tick_newer (observed reference : N) : bool := reference <? observed.

(** [ManualClock]: its constructor, [advance] and [set]. *)
Definition manual_clock (start : N) : N := if start =? kNoTick then 1 else start.
Definition manual_advance (now delta : N) : N := saturating_add now delta.
Definition manual_set (value : N) : N := if value =? kNoTick then 1 else value.

(** ** Bytes *)

Definition byte_of_N (n : N) : byte :=
  match Byte.of_N (n mod 256) with Some b => b | None => x00 end.
Definition N_of_byte (b : byte) : N := Byte.to_N b.

(** The bytes of a [std::string]. *)
Definition bytes_of_string (s : string) : list byte := String.list_byte_of_string s.
Definition string_of_bytes (l : list byte) : string := String.string_of_list_byte l.

(** ** src/core/hash.cpp: FNV-1a *)

Definition kFnvOffset : N := 0xCBF29CE484222325.
Definition kFnvPrime : N := 0x100000001B3.

(** The [Hasher]'s state is one word. *)
Definition hasher : N := kFnvOffset.
Definition update_u8 (state v : N) : N := w64 (N.lxor state (w8 v) * kFnvPrime).
Definition update (state : N) (data : list byte) : N :=
  foldl (fun s b => w64 (N.lxor s (N_of_byte b) * kFnvPrime)) state data.
Definition update_u16 (state v : N) : N :=
  update_u8 (update_u8 state (N.land v 0xFF)) (N.land (N.shiftr v 8) 0xFF).
Definition update_shifts (shifts : list N) (state v : N) : N :=
  foldl (fun s shift => update_u8 s (N.land (N.shiftr v shift) 0xFF)) state shifts.
Definition update_u32 (state v : N) : N := update_shifts [0; 8; 16; 24] state v.
Definition update_u64 (state v : N) : N :=
  update_shifts [0; 8; 16; 24; 32; 40; 48; 56] state v.
Definition update_i64 (state : N) (v : Z) : N := update_u64 state (Z.to_N (v mod 2 ^ 64)).
Definition update_bool (state : N) (v : bool) : N := update_u8 state (if v then 1 else 0).
Definition update_text (state : N) (text : string) : N := update state (bytes_of_string text).
Definition update_text_framed (state : N) (text : string) : N :=
  update_text (update_u64 state (N.of_nat (String.length text))) text.

Definition finish (state : N) : N :=
  let s1 := N.lxor state 0xA5A5A5A5A5A5A5A5 in
  let s2 := w64 (s1 * kFnvPrime) in
  let s3 := N.lxor s2 (N.shiftr s2 29) in
  let s4 := w64 (s3 * 0xBF58476D1CE4E5B9) in
  let s5 := N.lxor s4 (N.shiftr s4 32) in
  if s5 =? 0 then kFnvOffset else s5.

(** [hash_combine] of include/ncf/core/hash.hpp. *)
Definition hash_combine (seed value : N) : N :=
  N.lxor seed (w64 (value + 0x9E3779B97F4A7C15 + w64 (N.shiftl seed 6) + N.shiftr seed 2)).

(** ** include/ncf/core/strong_id.hpp *)

(** Strong identities are their representation word; the C++ tag types have no
    run-time content. *)
Definition valid (id : N) : bool := negb (id =? 0).

Definition kDigits : string := "0123456789abcdef".
Definition hex_digit (d : N) : Ascii.ascii :=
  match String.get (N.to_nat d) kDigits with Some c => c | None => "0"%char end.

(** The digit loop of [to_hex]: [buffer] is filled from the least significant
    digit and read back reversed, which is the accumulator. *)
Fixpoint hex_loop (fuel : nat) (remaining : N) (acc : string) : string :=
  match fuel with
  | O => acc
  | S fuel' =>
      if remaining =? 0 then acc
      else hex_loop fuel' (N.shiftr remaining 4) (String (hex_digit (N.land remaining 0xF)) acc)
  end.

Definition to_hex (value : N) : string :=
  if value =? 0 then "0"%string else hex_loop 16 value "".

(** [to_string(StrongId<Tag>)], for the tag's name. *)
Definition id_to_string (name : string) (id : N) : string := (name ++ ":" ++ to_hex id)%string.

Definition hex_digit_value (c : Ascii.ascii) : option N :=
  let n := Ascii.N_of_ascii c in
  if (48 <=? n) && (n <=? 57) then Some (n - 48)
  else if (97 <=? n) && (n <=? 102) then Some (n - 97 + 10)
  else if (65 <=? n) && (n <=? 70) then Some (n - 65 + 10)
  else None.

Fixpoint parse_digits (value : N) (text : string) : option N :=
  match text with
  | EmptyString => Some value
  | String c rest =>
      match hex_digit_value c with
      | None => None
      | Some digit => parse_digits (N.lor (w64 (N.shiftl value 4)) digit) rest
      end
  end.

Definition remove_prefix (n : nat) (s : string) : string :=
  String.substring n (String.length s - n) s.

(** The two optional prefixes [parse_id] strips: "<tag>:" and "0x". *)
Definition strip_tag (name view : string) : string :=
  if (String.length name + 1 <? String.length view)%nat
     && String.eqb (String.substring 0 (String.length name) view) name
     && match String.get (String.length name) view with
        | Some c => Ascii.eqb c ":" | None => false end
  then remove_prefix (String.length name + 1) view else view.

Definition strip_0x (view : string) : string :=
  match view with
  | String c0 (String c1 (String _ _)) =>
      if Ascii.eqb c0 "0" && (Ascii.eqb c1 "x" || Ascii.eqb c1 "X")
      then remove_prefix 2 view else view
  | _ => view
  end.

(** [parse_id<Tag, std::uint64_t>]. *)
Definition parse_id (name text : string) : option N :=
  let view := strip_0x (strip_tag name text) in
  if (String.length view =? 0)%nat || (16 <? String.length view)%nat then None
  else parse_digits 0 view.

(** * Properties *)

(** ** Words and checked arithmetic *)

Lemma w64_small (x : N) : u64_ok x -> w64 x = x.
Proof. unfold u64_ok, w64. apply N.mod_small. Qed.

Lemma w64_ok (x : N) : u64_ok (w64 x).
Proof. unfold u64_ok, w64. by apply N.mod_lt. Qed.

Lemma u64_ok_max (x : N) : u64_ok x <-> x <= kMaxU64.
Proof. unfold u64_ok, kMaxU64. lia. Qed.

#[export] Hint Resolve w64_ok : ncf.

(** The exact sum when it fits a word, an error otherwise. *)
Lemma checked_add_spec (a b : N) :
  u64_ok a -> u64_ok b ->
  checked_add a b = if a + b <=? kMaxU64 then Ok (a + b)
                    else fail OutOfRange "unsigned addition overflow".
Proof.
  unfold u64_ok, checked_add. intros Ha Hb.
  destruct (N.ltb_spec (kMaxU64 - b) a) as [H|H], (N.leb_spec (a + b) kMaxU64) as [H'|H'];
    unfold kMaxU64 in *; try lia; [done|].
  rewrite w64_small; [done|]. unfold u64_ok. lia.
Qed.

Lemma checked_sub_spec (a b : N) :
  checked_sub a b = if b <=? a then Ok (a - b)
                    else fail OutOfRange "unsigned subtraction underflow".
Proof.
  unfold checked_sub. destruct (N.ltb_spec a b), (N.leb_spec b a); [lia|done|done|lia].
Qed.

Lemma div_lt_iff (m a b : N) : 0 < a -> (m / a < b <-> m < a * b).
Proof.
  intros Ha. split; intros H.
  - pose proof (N.mul_succ_div_gt m a ltac:(lia)). nia.
  - apply N.Div0.div_lt_upper_bound. lia.
Qed.

Lemma checked_mul_spec (a b : N) :
  u64_ok a -> u64_ok b ->
  checked_mul a b = if a * b <=? kMaxU64 then Ok (a * b)
                    else fail OutOfRange "unsigned multiplication overflow".
Proof.
  intros Ha Hb. unfold checked_mul. destruct (N.eqb_spec a 0) as [->|Ha0]; simpl; [done|].
  destruct (N.ltb_spec (kMaxU64 / a) b) as [H|H], (N.leb_spec (a * b) kMaxU64) as [H'|H'].
  - apply div_lt_iff in H; lia.
  - done.
  - rewrite w64_small; [done|]. by apply u64_ok_max.
  - exfalso. apply (div_lt_iff _ a b) in H'; lia.
Qed.

(** Signed addition never leaves the 64-bit range, and refuses exactly when the
    mathematical sum does. *)
Lemma checked_add_i64_spec (a b : Z) :
  i64_ok a -> i64_ok b ->
  (exists v, checked_add_i64 a b = Ok v /\ v = (a + b)%Z /\ i64_ok v) \/
  (err_code (checked_add_i64 a b) = Some OutOfRange /\ ~ i64_ok (a + b)).
Proof.
  unfold i64_ok, i64_min, i64_max, checked_add_i64, i64_max, i64_min. intros Ha Hb.
  destruct (Z.ltb_spec 0 b), (Z.ltb_spec (2 ^ 63 - 1 - b) a), (Z.ltb_spec b 0),
    (Z.ltb_spec a (- 2 ^ 63 - b)); simpl;
    first [lia | left; eexists; split; [reflexivity|lia] | right; split; [reflexivity|lia]].
Qed.

Lemma saturating_add_spec (a b : N) :
  u64_ok a -> u64_ok b -> saturating_add a b = N.min kMaxU64 (a + b).
Proof.
  unfold saturating_add. intros Ha Hb. apply u64_ok_max in Ha, Hb.
  destruct (N.ltb_spec (kMaxU64 - b) a); [lia|].
  rewrite w64_small; [lia|]. apply u64_ok_max. lia.
Qed.

Lemma saturating_sub_spec (a b : N) : saturating_sub a b = a - b.
Proof. unfold saturating_sub. destruct (N.ltb_spec a b); lia. Qed.

Lemma saturating_mul_spec (a b : N) :
  u64_ok a -> u64_ok b -> saturating_mul a b = N.min kMaxU64 (a * b).
Proof.
  unfold saturating_mul. intros Ha Hb.
  destruct (N.eqb_spec a 0) as [->|]; simpl; [done|].
  destruct (N.eqb_spec b 0) as [->|]; simpl; [rewrite N.mul_0_r; done|].
  destruct (N.ltb_spec (kMaxU64 / b) a) as [H|H].
  - apply div_lt_iff in H; lia.
  - assert (~ kMaxU64 < b * a) by (intros Hlt; apply (div_lt_iff _ b a) in Hlt; lia).
    rewrite w64_small; [lia|]. apply u64_ok_max. lia.
Qed.

Lemma saturating_add_ge (a b : N) : u64_ok a -> u64_ok b -> a <= saturating_add a b.
Proof. intros Ha Hb. rewrite saturating_add_spec by done. apply u64_ok_max in Ha. lia. Qed.

(** [apply_ppm] is the exact scaled value, cut off at the largest word. *)
Lemma apply_ppm_spec (magnitude ppm : N) :
  u64_ok magnitude -> u32_ok ppm ->
  apply_ppm magnitude ppm = N.min kMaxU64 (magnitude * ppm / 1000000).
Proof.
  intros Hm Hp. unfold apply_ppm.
  assert (Hdiv : magnitude * ppm / 1000000
                 = magnitude / 1000000 * ppm + (magnitude mod 1000000 * ppm) / 1000000).
  { rewrite <- N.div_add_l by done. f_equal.
    rewrite (N.div_mod' magnitude 1000000) at 1. lia. }
  pose proof (N.mod_lt magnitude 1000000 ltac:(done)) as Hr.
  assert (Hrem : magnitude mod 1000000 * ppm < 2 ^ 52).
  { unfold u32_ok in Hp. nia. }
  assert (u64_ok ppm) by (unfold u64_ok, u32_ok in *; lia).
  assert (u64_ok (magnitude / 1000000)).
  { unfold u64_ok in *. apply N.Div0.div_lt_upper_bound. lia. }
  rewrite w64_small by (unfold u64_ok; lia).
  rewrite saturating_mul_spec by done. rewrite Hdiv.
  generalize dependent (magnitude mod 1000000 * ppm). intros q _ Hq.
  assert (q / 1000000 < 2 ^ 52) by (apply N.Div0.div_lt_upper_bound; lia).
  generalize (magnitude / 1000000 * ppm) as p. generalize dependent (q / 1000000).
  intros d Hd p. rewrite saturating_add_spec; [lia| |unfold u64_ok; lia].
  apply u64_ok_max. lia.
Qed.

(** Bits below [2 ^ k] do not meet a multiple of [2 ^ k]. *)
Lemma lor_low (k q d : N) : d < 2 ^ k -> N.lor (q * 2 ^ k) d = q * 2 ^ k + d.
Proof.
  intros Hd. assert (N.land (q * 2 ^ k) d = 0) as H0.
  { apply N.bits_inj_0. intros j. rewrite N.land_spec. destruct (N.lt_ge_cases j k).
    - by rewrite N.mul_pow2_bits_low.
    - rewrite <- (N.mod_small d (2 ^ k)) by done.
      rewrite N.mod_pow2_bits_high by done. apply andb_false_r. }
  by rewrite <- N.lxor_lor, N.add_nocarry_lxor.
Qed.

(** ** Error codes *)

(** The name of an enumerator is its own. *)
Lemma err_code_name_inj (c d : ErrCode) :
  err_code_name c = err_code_name d -> c = d \/ err_code_name c = "unknown"%string.
Proof. intros H. destruct c; destruct d; (by left) || (by right) || discriminate H. Qed.

(** ** Ticks *)

Lemma tick_age_within (now observed max_age : N) :
  within (tick_age now observed) max_age = true <-> observed <= now /\ now - observed <= max_age.
Proof.
  unfold within, tick_age. destruct (N.ltb_spec now observed); simpl.
  - split; [done|lia].
  - rewrite N.leb_le. lia.
Qed.

Lemma is_stale_within (a : TickAge) (m : N) : is_stale a m = negb (within a m).
Proof.
  unfold is_stale, within. destruct (ta_from_future a); simpl; [done|].
  rewrite N.ltb_antisym. done.
Qed.

(** ** Hashing *)

(** A fingerprint is never the null identity, so an identity computed from
    content is always [valid]. *)
Lemma finish_valid (s : N) : valid (finish s) = true.
Proof.
  unfold finish, valid. cbv zeta.
  match goal with |- context [if ?b then _ else _] => destruct b eqn:E end; [done|].
  by rewrite E.
Qed.

Lemma lxor_lt (n a b : N) : a < 2 ^ n -> b < 2 ^ n -> N.lxor a b < 2 ^ n.
Proof.
  intros Ha Hb. destruct (N.eq_dec (N.lxor a b) 0) as [->|Hne].
  { apply N.neq_0_lt_0. by apply N.pow_nonzero. }
  assert (forall x, x < 2 ^ n -> N.log2 x < n \/ x = 0) as Hlog.
  { intros x Hx. destruct (N.eq_dec x 0); [by right|left].
    apply N.log2_lt_pow2; lia. }
  apply N.log2_lt_pow2; [lia|].
  eapply N.le_lt_trans; [apply N.log2_lxor|].
  destruct (Hlog a Ha) as [?| ->], (Hlog b Hb) as [?| ->]; try lia.
  - change (N.log2 0) with 0. lia.
  - change (N.log2 0) with 0. lia.
  - by rewrite N.lxor_0_l in Hne.
Qed.

Lemma shiftr_le (a n : N) : N.shiftr a n <= a.
Proof.
  rewrite N.shiftr_div_pow2. apply N.Div0.div_le_upper_bound.
  assert (2 ^ n <> 0) by (by apply N.pow_nonzero). nia.
Qed.

Lemma finish_ok (s : N) : u64_ok (finish s).
Proof.
  unfold finish. cbv zeta. match goal with |- context [if ?b then _ else _] => destruct b end.
  - done.
  - apply lxor_lt; [apply w64_ok|]. eapply N.le_lt_trans; [apply shiftr_le|apply w64_ok].
Qed.

#[export] Hint Resolve finish_valid finish_ok : ncf.

(** ** Textual identities *)

Lemma land_15_mod (x : N) : N.land x 0xF = x mod 16.
Proof. change 0xF with (N.ones 4). by rewrite N.land_ones. Qed.

Lemma hex_digit_value_digit (d : N) : d < 16 -> hex_digit_value (hex_digit d) = Some d.
Proof.
  intros Hd. assert (d ∈ map N.of_nat (seq 0 16)) as Hin.
  { apply list_elem_of_In, in_map_iff. exists (N.to_nat d). split; [lia|]. apply in_seq. lia. }
  assert (Forall (fun d => hex_digit_value (hex_digit d) = Some d) (map N.of_nat (seq 0 16))) as H
    by (repeat constructor).
  rewrite Forall_forall in H. by apply H.
Qed.

Lemma parse_hex_loop (fuel : nat) (r : N) (acc : string) :
  r < 16 ^ N.of_nat fuel -> u64_ok r ->
  parse_digits 0 (hex_loop fuel r acc) = parse_digits r acc.
Proof.
  revert r acc. induction fuel as [|fuel IH]; intros r acc Hr Hw; cbn [hex_loop].
  - change (16 ^ N.of_nat 0) with 1 in Hr. by replace r with 0 by lia.
  - destruct (N.eqb_spec r 0) as [->|Hne]; [done|].
    rewrite N.shiftr_div_pow2. change (2 ^ 4) with 16.
    rewrite Nat2N.inj_succ, N.pow_succ_r' in Hr. unfold u64_ok in *.
    rewrite IH; [|by apply N.Div0.div_lt_upper_bound|apply N.Div0.div_lt_upper_bound; lia].
    cbn [parse_digits]. rewrite land_15_mod, hex_digit_value_digit by (apply N.mod_lt; done).
    f_equal. rewrite N.shiftl_mul_pow2. change (2 ^ 4) with 16.
    pose proof (N.Div0.mul_div_le r 16) as Hle.
    rewrite w64_small by (unfold u64_ok; rewrite N.mul_comm; eapply N.le_lt_trans; done).
    change 16 with (2 ^ 4). rewrite lor_low by by apply N.mod_lt.
    rewrite N.mul_comm. symmetry. apply N.div_mod'.
Qed.

(** Only hexadecimal digits are written, and at most as many as the fuel. *)
Inductive hex_text : string -> Prop :=
| hex_nil : hex_text ""
| hex_cons d s : d < 16 -> hex_text s -> hex_text (String (hex_digit d) s).

Lemma hex_loop_text (fuel : nat) (r : N) (acc : string) :
  hex_text acc -> hex_text (hex_loop fuel r acc).
Proof.
  revert r acc. induction fuel as [|fuel IH]; intros r acc H; cbn [hex_loop]; [done|].
  destruct (r =? 0); [done|]. apply IH. constructor; [|done].
  rewrite land_15_mod. by apply N.mod_lt.
Qed.

Lemma hex_loop_length (fuel : nat) (r : N) (acc : string) :
  (String.length acc <= String.length (hex_loop fuel r acc) <= fuel + String.length acc)%nat.
Proof.
  revert r acc. induction fuel as [|fuel IH]; intros r acc; cbn [hex_loop]; [lia|].
  destruct (r =? 0); [lia|]. specialize (IH (N.shiftr r 4) (String (hex_digit (N.land r 0xF)) acc)).
  cbn [String.length] in IH. lia.
Qed.

Lemma to_hex_shape (v : N) :
  hex_text (to_hex v) /\ (1 <= String.length (to_hex v) <= 16)%nat.
Proof.
  unfold to_hex. destruct (N.eqb_spec v 0).
  - split; [apply (hex_cons 0); [done|constructor]|simpl; lia].
  - split; [apply hex_loop_text; constructor|].
    change (hex_loop 16 v "") with (if v =? 0 then ""%string else
      hex_loop 15 (N.shiftr v 4) (String (hex_digit (N.land v 0xF)) "")).
    rewrite (proj2 (N.eqb_neq v 0)) by done.
    pose proof (hex_loop_length 15 (N.shiftr v 4) (String (hex_digit (N.land v 0xF)) "")) as H.
    cbn [String.length] in H. lia.
Qed.

Lemma strip_0x_hex (s : string) : hex_text s -> strip_0x s = s.
Proof.
  intros [|d0 s' Hd [|d1 s'' Hd1 _]]; [done|done|]. unfold strip_0x.
  destruct s'' as [|c s'']; [done|].
  enough (Ascii.eqb (hex_digit d1) "x" || Ascii.eqb (hex_digit d1) "X" = false) as ->
    by (by rewrite andb_false_r).
  pose proof (hex_digit_value_digit d1 Hd1) as H.
  destruct (Ascii.eqb_spec (hex_digit d1) "x") as [E|]; [by rewrite E in H|].
  destruct (Ascii.eqb_spec (hex_digit d1) "X") as [E|]; [by rewrite E in H|done].
Qed.

Lemma string_length_app (a b : string) :
  String.length (a ++ b) = (String.length a + String.length b)%nat.
Proof. induction a as [|c a IH]; simpl; [done|]. by rewrite IH. Qed.

Lemma substring_all (s : string) : String.substring 0 (String.length s) s = s.
Proof. induction s as [|c s IH]; simpl; [done|]. by rewrite IH. Qed.

Lemma substring_prefix (a b : string) : String.substring 0 (String.length a) (a ++ b) = a.
Proof. induction a as [|c a IH]; simpl; [by destruct b|]. by rewrite IH. Qed.

Lemma remove_prefix_app (a b : string) : remove_prefix (String.length a) (a ++ b) = b.
Proof.
  unfold remove_prefix. rewrite string_length_app.
  replace (String.length a + String.length b - String.length a)%nat with (String.length b) by lia.
  induction a as [|c a IH]; simpl; [apply substring_all|done].
Qed.

Lemma get_app (a : string) (c : Ascii.ascii) (b : string) :
  String.get (String.length a) (a ++ String c b) = Some c.
Proof. induction a as [|x a IH]; simpl; done. Qed.

Lemma strip_tag_string (name s : string) :
  s <> ""%string -> strip_tag name (name ++ ":" ++ s) = s.
Proof.
  intros Hs. unfold strip_tag. rewrite !string_length_app.
  change (String.length ":") with 1%nat. change (":" ++ s)%string with (String ":" s).
  rewrite substring_prefix, String.eqb_refl, get_app.
  destruct s as [|c s]; [done|]. cbn [String.length].
  destruct (Nat.ltb_spec (String.length name + 1) (String.length name + (1 + S (String.length s))));
    [|lia]. simpl.
  replace (name ++ String ":" (String c s))%string with ((name ++ ":") ++ String c s)%string.
  - change 1%nat with (String.length ":"). rewrite <- string_length_app. apply remove_prefix_app.
  - clear. induction name as [|x name IH]; [done|]. exact (f_equal (String x) IH).
Qed.

(** The printed form of an identity parses back to it. *)
Theorem parse_id_to_string (name : string) (v : N) (Hv : u64_ok v) :
  parse_id name (id_to_string name v) = Some v.
Proof.
  destruct (to_hex_shape v) as [Htext Hlen]. unfold parse_id, id_to_string.
  rewrite strip_tag_string, strip_0x_hex; [|done|by intros E; rewrite E in Hlen; simpl in Hlen; lia].
  destruct (Nat.eqb_spec (String.length (to_hex v)) 0); [lia|].
  destruct (Nat.ltb_spec 16 (String.length (to_hex v))); [lia|]. simpl.
  unfold to_hex. destruct (N.eqb_spec v 0) as [->|]; [done|].
  rewrite parse_hex_loop; [done| |done]. exact Hv.
Qed.

Lemma parse_id_to_string_witness :
  id_to_string "domain" 0xAB = "domain:ab"%string /\
  parse_id "domain" (id_to_string "domain" 0xAB) = Some 0xAB.
Proof. split; [reflexivity|]. exact (parse_id_to_string "domain" 0xAB eq_refl). Defined.

(** On 64-bit words the checked operations give the exact result or refuse, and
    the saturating ones give the exact result cut off at the word's range;
    scaling by parts per million loses nothing to overflow. *)
Theorem word_arithmetic (a b ppm : N) (Ha : u64_ok a) (Hb : u64_ok b) (Hp : u32_ok ppm) :
  checked_add a b = (if a + b <=? kMaxU64 then Ok (a + b)
                     else fail OutOfRange "unsigned addition overflow") /\
  checked_sub a b = (if b <=? a then Ok (a - b)
                     else fail OutOfRange "unsigned subtraction underflow") /\
  checked_mul a b = (if a * b <=? kMaxU64 then Ok (a * b)
                     else fail OutOfRange "unsigned multiplication overflow") /\
  saturating_add a b = N.min kMaxU64 (a + b) /\
  saturating_sub a b = a - b /\
  saturating_mul a b = N.min kMaxU64 (a * b) /\
  apply_ppm a ppm = N.min kMaxU64 (a * ppm / 1000000).
Proof.
  repeat match goal with |- _ /\ _ => split end;
    auto using checked_add_spec, checked_sub_spec, checked_mul_spec, saturating_add_spec,
      saturating_sub_spec, saturating_mul_spec, apply_ppm_spec.
Qed.

Lemma word_arithmetic_witness :
  saturating_add kMaxU64 7 = kMaxU64 /\ checked_mul 3 5 = Ok 15 /\ apply_ppm 2000000 500000 = 1000000 /\
  checked_add kMaxU64 7 = fail OutOfRange "unsigned addition overflow".
Proof.
  split; [reflexivity|]. split; [reflexivity|]. split; [reflexivity|].
  exact (proj1 (word_arithmetic kMaxU64 7 0 eq_refl eq_refl eq_refl)).
Defined.
