(* ===== verification/Enums.v ===== *)
(** * Enums: include/ncf/model/enums.hpp and src/model/enums.cpp

    The closed vocabularies of the fabric.  An enumeration whose values the
    program casts in from durable or wire bytes ([static_cast] of an integer that
    was read) has one more constructor, [...Raw v], for the value [v] places past
    the last enumerator; [..._val] is the underlying integer and [..._of] (for
    [CongestionState], [state_cast]) the cast.  The underlying value is injective,
    so equality in the model is equality in the C++. *)

From S2P Require Import Prelude Core.

Open Scope N_scope.

(** ** Severity and state *)

Inductive Severity :=
| SevClear | SevWatch | SevCongested | SevSevere | SevRaw (v : N).

#[export] Instance Severity_eq_dec : EqDecision Severity.
Proof. solve_decision. Defined.

Definition sev_val (x : Severity) : N :=
  match x with
  | SevClear => 0
  | SevWatch => 1
  | SevCongested => 2
  | SevSevere => 3
  | SevRaw v => 4 + v
  end.

Definition sev_of (v : N) : Severity :=
  match v with
  | 0 => SevClear
  | 1 => SevWatch
  | 2 => SevCongested
  | 3 => SevSevere
  | _ => SevRaw (v - 4)
  end.

(** The comparison operators of [enum class Severity]. *)
Definition sev_ltb (a b : Severity) : bool := sev_val a <? sev_val b.
Definition sev_leb (a b : Severity) : bool := sev_val a <=? sev_val b.
Definition sev_max (a b : Severity) : Severity := if sev_ltb a b then b else a.

Inductive CongestionState :=
| StUnknown | StClear | StWatch | StCongested | StSevere | StRecovering | StStale
| StConflict | StRaw (v : N).

#[export] Instance CongestionState_eq_dec : EqDecision CongestionState.
Proof. solve_decision. Defined.

Definition state_val (x : CongestionState) : N :=
  match x with
  | StUnknown => 0
  | StClear => 1
  | StWatch => 2
  | StCongested => 3
  | StSevere => 4
  | StRecovering => 5
  | StStale => 6
  | StConflict => 7
  | StRaw v => 8 + v
  end.

Definition state_cast (v : N) : CongestionState :=
  match v with
  | 0 => StUnknown
  | 1 => StClear
  | 2 => StWatch
  | 3 => StCongested
  | 4 => StSevere
  | 5 => StRecovering
  | 6 => StStale
  | 7 => StConflict
  | _ => StRaw (v - 8)
  end.

Definition is_authoritative (s : CongestionState) : bool :=
  match s with
  | StClear | StWatch | StCongested | StSevere | StRecovering => true
  | _ => false
  end.

Definition is_indeterminate (s : CongestionState) : bool :=
  match s with
  | StUnknown | StStale | StConflict => true
  | _ => false
  end.

Definition severity_of (s : CongestionState) : option Severity :=
  match s with
  | StClear => Some SevClear
  | StWatch => Some SevWatch
  | StCongested => Some SevCongested
  | StSevere => Some SevSevere
  | StRecovering => Some SevWatch
  | _ => None
  end.

Definition state_of (s : Severity) : CongestionState :=
  match s with
  | SevClear => StClear
  | SevWatch => StWatch
  | SevCongested => StCongested
  | SevSevere => StSevere
  | SevRaw _ => StUnknown
  end.

(** The name tables and the searches of them. *)
Definition kSeverityNames : list (string * N) :=
  [("clear", 0); ("watch", 1); ("congested", 2); ("severe", 3)]%string.

Definition kStateNames : list (string * N) :=
  [("unknown", 0); ("clear", 1); ("watch", 2); ("congested", 3); ("severe", 4);
   ("recovering", 5); ("stale", 6); ("conflict", 7)]%string.

Fixpoint lookup_name (text : string) (table : list (string * N)) : option N :=
  match table with
  | [] => None
  | (name, value) :: rest => if String.eqb name text then Some value else lookup_name text rest
  end.

Definition name_at (table : list (string * N)) (index : N) : string :=
  match table !! N.to_nat index with Some (name, _) => name | None => "unknown" end.

Definition severity_to_string (s : Severity) : string := name_at kSeverityNames (sev_val s).
Definition state_to_string (s : CongestionState) : string := name_at kStateNames (state_val s).
Definition parse_severity (text : string) : option Severity :=
  sev_of <$> lookup_name text kSeverityNames.
Definition parse_state (text : string) : option CongestionState :=
  state_cast <$> lookup_name text kStateNames.

(** ** Metrics *)

Inductive MetricKind :=
| MkUnknown | MkQueueOccupancyPpm | MkBufferUtilizationPpm | MkUtilizationPpm
| MkLossRatePpm | MkMarkedFractionPpm | MkDeliveryRatioPpm | MkQueueDepthPackets
| MkDiscardCount | MkIngressRateBps | MkEgressRateBps | MkAdmissibleRateBps
| MkResidualCapacityBps | MkLinkCapacityBps | MkPathCapacityBps | MkLatencyMicros
| MkJitterMicros | MkQueueDelayMicros | MkTopologyVersion | MkCapacityVersion | MkCount
| MkRaw (v : N).

#[export] Instance MetricKind_eq_dec : EqDecision MetricKind.
Proof. solve_decision. Defined.

Definition metric_val (x : MetricKind) : N :=
  match x with
  | MkUnknown => 0
  | MkQueueOccupancyPpm => 1
  | MkBufferUtilizationPpm => 2
  | MkUtilizationPpm => 3
  | MkLossRatePpm => 4
  | MkMarkedFractionPpm => 5
  | MkDeliveryRatioPpm => 6
  | MkQueueDepthPackets => 7
  | MkDiscardCount => 8
  | MkIngressRateBps => 9
  | MkEgressRateBps => 10
  | MkAdmissibleRateBps => 11
  | MkResidualCapacityBps => 12
  | MkLinkCapacityBps => 13
  | MkPathCapacityBps => 14
  | MkLatencyMicros => 15
  | MkJitterMicros => 16
  | MkQueueDelayMicros => 17
  | MkTopologyVersion => 18
  | MkCapacityVersion => 19
  | MkCount => 20
  | MkRaw v => 21 + v
  end.

Definition metric_of (v : N) : MetricKind :=
  match v with
  | 0 => MkUnknown
  | 1 => MkQueueOccupancyPpm
  | 2 => MkBufferUtilizationPpm
  | 3 => MkUtilizationPpm
  | 4 => MkLossRatePpm
  | 5 => MkMarkedFractionPpm
  | 6 => MkDeliveryRatioPpm
  | 7 => MkQueueDepthPackets
  | 8 => MkDiscardCount
  | 9 => MkIngressRateBps
  | 10 => MkEgressRateBps
  | 11 => MkAdmissibleRateBps
  | 12 => MkResidualCapacityBps
  | 13 => MkLinkCapacityBps
  | 14 => MkPathCapacityBps
  | 15 => MkLatencyMicros
  | 16 => MkJitterMicros
  | 17 => MkQueueDelayMicros
  | 18 => MkTopologyVersion
  | 19 => MkCapacityVersion
  | 20 => MkCount
  | _ => MkRaw (v - 21)
  end.

Definition metric_ltb (a b : MetricKind) : bool := metric_val a <? metric_val b.

Definition is_ratio_metric (k : MetricKind) : bool :=
  match k with
  | MkQueueOccupancyPpm | MkBufferUtilizationPpm | MkUtilizationPpm
  | MkLossRatePpm | MkMarkedFractionPpm | MkDeliveryRatioPpm => true
  | _ => false
  end.

Definition higher_is_worse (k : MetricKind) : bool :=
  match k with
  | MkDeliveryRatioPpm | MkResidualCapacityBps | MkAdmissibleRateBps
  | MkLinkCapacityBps | MkPathCapacityBps | MkTopologyVersion
  | MkCapacityVersion | MkUnknown | MkCount => false
  | _ => true
  end.

Record MetricDescriptor := mkMetricDescriptor {
  md_kind : MetricKind;
  md_name : string;
  md_unit : string;
  md_plausible_max : N;
  md_ratio : bool
}.

Definition kMaxRatioPpm : N := 1500000.
Definition kMaxRateBps : N := 1000000000000000.
Definition kMaxLatencyMicros : N := 3600000000.
Definition kMaxCount : N := 1000000000000000.

Definition kMetricTable : list MetricDescriptor := [
  mkMetricDescriptor MkUnknown "unknown" "" 0 false;
  mkMetricDescriptor MkQueueOccupancyPpm "queue-occupancy-ppm" "ppm" kMaxRatioPpm true;
  mkMetricDescriptor MkBufferUtilizationPpm "buffer-utilization-ppm" "ppm" kMaxRatioPpm true;
  mkMetricDescriptor MkUtilizationPpm "utilization-ppm" "ppm" kMaxRatioPpm true;
  mkMetricDescriptor MkLossRatePpm "loss-rate-ppm" "ppm" kMaxRatioPpm true;
  mkMetricDescriptor MkMarkedFractionPpm "marked-fraction-ppm" "ppm" kMaxRatioPpm true;
  mkMetricDescriptor MkDeliveryRatioPpm "delivery-ratio-ppm" "ppm" kMaxRatioPpm true;
  mkMetricDescriptor MkQueueDepthPackets "queue-depth-packets" "packets" kMaxCount false;
  mkMetricDescriptor MkDiscardCount "discard-count" "packets" kMaxCount false;
  mkMetricDescriptor MkIngressRateBps "ingress-rate-bps" "bps" kMaxRateBps false;
  mkMetricDescriptor MkEgressRateBps "egress-rate-bps" "bps" kMaxRateBps false;
  mkMetricDescriptor MkAdmissibleRateBps "admissible-rate-bps" "bps" kMaxRateBps false;
  mkMetricDescriptor MkResidualCapacityBps "residual-capacity-bps" "bps" kMaxRateBps false;
  mkMetricDescriptor MkLinkCapacityBps "link-capacity-bps" "bps" kMaxRateBps false;
  mkMetricDescriptor MkPathCapacityBps "path-capacity-bps" "bps" kMaxRateBps false;
  mkMetricDescriptor MkLatencyMicros "latency-micros" "us" kMaxLatencyMicros false;
  mkMetricDescriptor MkJitterMicros "jitter-micros" "us" kMaxLatencyMicros false;
  mkMetricDescriptor MkQueueDelayMicros "queue-delay-micros" "us" kMaxLatencyMicros false;
  mkMetricDescriptor MkTopologyVersion "topology-version" "generation" kMaxCount false;
  mkMetricDescriptor MkCapacityVersion "capacity-version" "generation" kMaxCount false;
  mkMetricDescriptor MkCount "count" "" 0 false
].

Definition metric_descriptor (k : MetricKind) : MetricDescriptor :=
  match kMetricTable !! N.to_nat (metric_val k) with
  | Some d => d
  | None => mkMetricDescriptor MkUnknown "unknown" "" 0 false
  end.

Definition metric_to_string (k : MetricKind) : string := md_name (metric_descriptor k).
Definition metric_unit (k : MetricKind) : string := md_unit (metric_descriptor k).
Definition metric_plausible_max (k : MetricKind) : N := md_plausible_max (metric_descriptor k).

Fixpoint find_descriptor (text : string) (table : list MetricDescriptor) : option MetricKind :=
  match table with
  | [] => None
  | d :: rest => if String.eqb (md_name d) text then Some (md_kind d) else find_descriptor text rest
  end.
Definition parse_metric_kind (text : string) : option MetricKind := find_descriptor text kMetricTable.

(** [validate_metric_value]: the reason of a refusal, [None] when the value is accepted. *)
Definition validate_metric_value (k : MetricKind) (value : N) : option string :=
  if bool_decide (k = MkUnknown) || bool_decide (k = MkCount) then Some "unknown metric kind"%string
  else if md_plausible_max (metric_descriptor k) <? value
       then Some "metric value outside its plausible range"%string
       else None.

(** ** Topology *)

Inductive ResourceKind :=
| RkUnknown | RkFabric | RkNode | RkPort | RkLinkEndpoint | RkQueueGroup | RkClassLane
| RkPathGroup | RkCount | RkRaw (v : N).

#[export] Instance ResourceKind_eq_dec : EqDecision ResourceKind.
Proof. solve_decision. Defined.

Definition resource_kind_val (x : ResourceKind) : N :=
  match x with
  | RkUnknown => 0
  | RkFabric => 1
  | RkNode => 2
  | RkPort => 3
  | RkLinkEndpoint => 4
  | RkQueueGroup => 5
  | RkClassLane => 6
  | RkPathGroup => 7
  | RkCount => 8
  | RkRaw v => 9 + v
  end.

Definition resource_kind_of (v : N) : ResourceKind :=
  match v with
  | 0 => RkUnknown
  | 1 => RkFabric
  | 2 => RkNode
  | 3 => RkPort
  | 4 => RkLinkEndpoint
  | 5 => RkQueueGroup
  | 6 => RkClassLane
  | 7 => RkPathGroup
  | 8 => RkCount
  | _ => RkRaw (v - 9)
  end.

Definition resource_kind_to_string (x : ResourceKind) : string :=
  match x with
  | RkUnknown => "unknown"
  | RkFabric => "fabric"
  | RkNode => "node"
  | RkPort => "port"
  | RkLinkEndpoint => "link-endpoint"
  | RkQueueGroup => "queue-group"
  | RkClassLane => "class-lane"
  | RkPathGroup => "path-group"
  | RkCount => "count"
  | _ => "unknown"
  end.

Inductive PathFlags :=
| PfNone | PfPrimary | PfAlternate | PfProtected | PfSourceLegalityAsserted.

#[export] Instance PathFlags_eq_dec : EqDecision PathFlags.
Proof. solve_decision. Defined.

Definition path_flag_val (x : PathFlags) : N :=
  match x with
  | PfNone => 0
  | PfPrimary => 1
  | PfAlternate => 2
  | PfProtected => 4
  | PfSourceLegalityAsserted => 8
  end.

(** ** Interventions *)

Inductive InterventionKind :=
| IkNone | IkReduceAdmissibleBudget | IkRequestRateReduction | IkRequestPacing
| IkRequestReroute | IkRequestRebalance | IkRequestBackpressure
| IkProtectCriticalClasses | IkEnterDegradedMode | IkMakeRecoveryPlanEligible | IkCount
| IkRaw (v : N).

#[export] Instance InterventionKind_eq_dec : EqDecision InterventionKind.
Proof. solve_decision. Defined.

Definition intervention_val (x : InterventionKind) : N :=
  match x with
  | IkNone => 0
  | IkReduceAdmissibleBudget => 1
  | IkRequestRateReduction => 2
  | IkRequestPacing => 3
  | IkRequestReroute => 4
  | IkRequestRebalance => 5
  | IkRequestBackpressure => 6
  | IkProtectCriticalClasses => 7
  | IkEnterDegradedMode => 8
  | IkMakeRecoveryPlanEligible => 9
  | IkCount => 10
  | IkRaw v => 11 + v
  end.

Definition intervention_of (v : N) : InterventionKind :=
  match v with
  | 0 => IkNone
  | 1 => IkReduceAdmissibleBudget
  | 2 => IkRequestRateReduction
  | 3 => IkRequestPacing
  | 4 => IkRequestReroute
  | 5 => IkRequestRebalance
  | 6 => IkRequestBackpressure
  | 7 => IkProtectCriticalClasses
  | 8 => IkEnterDegradedMode
  | 9 => IkMakeRecoveryPlanEligible
  | 10 => IkCount
  | _ => IkRaw (v - 11)
  end.

Definition intervention_to_string (x : InterventionKind) : string :=
  match x with
  | IkNone => "none"
  | IkReduceAdmissibleBudget => "reduce-admissible-budget"
  | IkRequestRateReduction => "request-rate-reduction"
  | IkRequestPacing => "request-pacing"
  | IkRequestReroute => "request-reroute"
  | IkRequestRebalance => "request-rebalance"
  | IkRequestBackpressure => "request-backpressure"
  | IkProtectCriticalClasses => "protect-critical-classes"
  | IkEnterDegradedMode => "enter-degraded-mode"
  | IkMakeRecoveryPlanEligible => "make-recovery-plan-eligible"
  | IkCount => "count"
  | _ => "none"
  end.

Definition kInterventionNames : list (string * N) :=
  [("none", 0);
   ("reduce-admissible-budget", 1);
   ("request-rate-reduction", 2);
   ("request-pacing", 3);
   ("request-reroute", 4);
   ("request-rebalance", 5);
   ("request-backpressure", 6);
   ("protect-critical-classes", 7);
   ("enter-degraded-mode", 8);
   ("make-recovery-plan-eligible", 9)]%string.

Definition parse_intervention_kind (text : string) : option InterventionKind :=
  intervention_of <$> lookup_name text kInterventionNames.

Inductive SuppressionReason :=
| SrNone | SrNonAuthoritativeState | SrStaleEvidence | SrMissingEvidence
| SrFutureEvidence | SrAuthorityDenied | SrAuthorityExpired | SrGenerationInvalidated
| SrEpochFenced | SrPolicyDisabled | SrConflictPresent | SrParameterOutOfBounds
| SrTargetNotPresent | SrLimitExceeded | SrAlreadyActive | SrCancelled | SrCount.

#[export] Instance SuppressionReason_eq_dec : EqDecision SuppressionReason.
Proof. solve_decision. Defined.

Definition suppression_to_string (x : SuppressionReason) : string :=
  match x with
  | SrNone => "none"
  | SrNonAuthoritativeState => "non-authoritative-state"
  | SrStaleEvidence => "stale-evidence"
  | SrMissingEvidence => "missing-evidence"
  | SrFutureEvidence => "future-evidence"
  | SrAuthorityDenied => "authority-denied"
  | SrAuthorityExpired => "authority-expired"
  | SrGenerationInvalidated => "generation-invalidated"
  | SrEpochFenced => "epoch-fenced"
  | SrPolicyDisabled => "policy-disabled"
  | SrConflictPresent => "conflict-present"
  | SrParameterOutOfBounds => "parameter-out-of-bounds"
  | SrTargetNotPresent => "target-not-present"
  | SrLimitExceeded => "limit-exceeded"
  | SrAlreadyActive => "already-active"
  | SrCancelled => "cancelled"
  | SrCount => "count"
  end.

Inductive FenceReason :=
| FrNone | FrCoordinatorRestart | FrEpochAdvance | FrAuthorityChange | FrPolicyChange
| FrTopologyChange | FrPublisherDeath | FrIntegrityFailure | FrRevalidationTimeout
| FrManual | FrCount | FrRaw (v : N).

#[export] Instance FenceReason_eq_dec : EqDecision FenceReason.
Proof. solve_decision. Defined.

Definition fence_reason_val (x : FenceReason) : N :=
  match x with
  | FrNone => 0
  | FrCoordinatorRestart => 1
  | FrEpochAdvance => 2
  | FrAuthorityChange => 3
  | FrPolicyChange => 4
  | FrTopologyChange => 5
  | FrPublisherDeath => 6
  | FrIntegrityFailure => 7
  | FrRevalidationTimeout => 8
  | FrManual => 9
  | FrCount => 10
  | FrRaw v => 11 + v
  end.

Definition fence_reason_of (v : N) : FenceReason :=
  match v with
  | 0 => FrNone
  | 1 => FrCoordinatorRestart
  | 2 => FrEpochAdvance
  | 3 => FrAuthorityChange
  | 4 => FrPolicyChange
  | 5 => FrTopologyChange
  | 6 => FrPublisherDeath
  | 7 => FrIntegrityFailure
  | 8 => FrRevalidationTimeout
  | 9 => FrManual
  | 10 => FrCount
  | _ => FrRaw (v - 11)
  end.

Definition fence_reason_to_string (x : FenceReason) : string :=
  match x with
  | FrNone => "none"
  | FrCoordinatorRestart => "coordinator-restart"
  | FrEpochAdvance => "epoch-advance"
  | FrAuthorityChange => "authority-change"
  | FrPolicyChange => "policy-change"
  | FrTopologyChange => "topology-change"
  | FrPublisherDeath => "publisher-death"
  | FrIntegrityFailure => "integrity-failure"
  | FrRevalidationTimeout => "revalidation-timeout"
  | FrManual => "manual"
  | FrCount => "count"
  | _ => "none"
  end.

(** ** Authority *)

Inductive Authority :=
| AuNone | AuObserve | AuEvaluate | AuPlanInterventions | AuReduceAdmissibleBudget
| AuRequestRateReduction | AuRequestPacing | AuRequestReroute | AuRequestRebalance
| AuRequestBackpressure | AuProtectCriticalClasses | AuEnterDegradedMode
| AuMakeRecoveryPlanEligible | AuDurabilityWrite | AuFence | AuAdvanceEpoch
| AuMutatePolicy.

#[export] Instance Authority_eq_dec : EqDecision Authority.
Proof. solve_decision. Defined.

Definition authority_bit (x : Authority) : N :=
  match x with
  | AuNone => 0
  | AuObserve => 2 ^ 0
  | AuEvaluate => 2 ^ 1
  | AuPlanInterventions => 2 ^ 2
  | AuReduceAdmissibleBudget => 2 ^ 3
  | AuRequestRateReduction => 2 ^ 4
  | AuRequestPacing => 2 ^ 5
  | AuRequestReroute => 2 ^ 6
  | AuRequestRebalance => 2 ^ 7
  | AuRequestBackpressure => 2 ^ 8
  | AuProtectCriticalClasses => 2 ^ 9
  | AuEnterDegradedMode => 2 ^ 10
  | AuMakeRecoveryPlanEligible => 2 ^ 11
  | AuDurabilityWrite => 2 ^ 12
  | AuFence => 2 ^ 13
  | AuAdvanceEpoch => 2 ^ 14
  | AuMutatePolicy => 2 ^ 15
  end.

Definition kAuthorityAllBits : N := 0x0000FFFF.

(** The authority required to emit a given intervention intent. *)
Definition required_authority (k : InterventionKind) : Authority :=
  match k with
  | IkReduceAdmissibleBudget => AuReduceAdmissibleBudget
  | IkRequestRateReduction => AuRequestRateReduction
  | IkRequestPacing => AuRequestPacing
  | IkRequestReroute => AuRequestReroute
  | IkRequestRebalance => AuRequestRebalance
  | IkRequestBackpressure => AuRequestBackpressure
  | IkProtectCriticalClasses => AuProtectCriticalClasses
  | IkEnterDegradedMode => AuEnterDegradedMode
  | IkMakeRecoveryPlanEligible => AuMakeRecoveryPlanEligible
  | _ => AuNone
  end.

(** ** Provenance *)

Inductive ProvenanceKind :=
| PkUnknown | PkLocalIngest | PkLocalEvaluation | PkLocalPolicy | PkRemotePublisher
| PkDurableReplay | PkRecovery | PkFence | PkCoordinatorBoot | PkEpochAdvance | PkCount
| PkRaw (v : N).

#[export] Instance ProvenanceKind_eq_dec : EqDecision ProvenanceKind.
Proof. solve_decision. Defined.

Definition provenance_kind_val (x : ProvenanceKind) : N :=
  match x with
  | PkUnknown => 0
  | PkLocalIngest => 1
  | PkLocalEvaluation => 2
  | PkLocalPolicy => 3
  | PkRemotePublisher => 4
  | PkDurableReplay => 5
  | PkRecovery => 6
  | PkFence => 7
  | PkCoordinatorBoot => 8
  | PkEpochAdvance => 9
  | PkCount => 10
  | PkRaw v => 11 + v
  end.

Definition provenance_kind_of (v : N) : ProvenanceKind :=
  match v with
  | 0 => PkUnknown
  | 1 => PkLocalIngest
  | 2 => PkLocalEvaluation
  | 3 => PkLocalPolicy
  | 4 => PkRemotePublisher
  | 5 => PkDurableReplay
  | 6 => PkRecovery
  | 7 => PkFence
  | 8 => PkCoordinatorBoot
  | 9 => PkEpochAdvance
  | 10 => PkCount
  | _ => PkRaw (v - 11)
  end.

Definition provenance_kind_to_string (x : ProvenanceKind) : string :=
  match x with
  | PkUnknown => "unknown"
  | PkLocalIngest => "local-ingest"
  | PkLocalEvaluation => "local-evaluation"
  | PkLocalPolicy => "local-policy"
  | PkRemotePublisher => "remote-publisher"
  | PkDurableReplay => "durable-replay"
  | PkRecovery => "recovery"
  | PkFence => "fence"
  | PkCoordinatorBoot => "coordinator-boot"
  | PkEpochAdvance => "epoch-advance"
  | PkCount => "count"
  | _ => "unknown"
  end.

Inductive AttemptState :=
| AtUnknown | AtPlanned | AtReserved | AtJournaled | AtPerformed | AtVerified
| AtCommitted | AtAborted | AtAmbiguous | AtCount | AtRaw (v : N).

#[export] Instance AttemptState_eq_dec : EqDecision AttemptState.
Proof. solve_decision. Defined.

Definition attempt_state_val (x : AttemptState) : N :=
  match x with
  | AtUnknown => 0
  | AtPlanned => 1
  | AtReserved => 2
  | AtJournaled => 3
  | AtPerformed => 4
  | AtVerified => 5
  | AtCommitted => 6
  | AtAborted => 7
  | AtAmbiguous => 8
  | AtCount => 9
  | AtRaw v => 10 + v
  end.

Definition attempt_state_of (v : N) : AttemptState :=
  match v with
  | 0 => AtUnknown
  | 1 => AtPlanned
  | 2 => AtReserved
  | 3 => AtJournaled
  | 4 => AtPerformed
  | 5 => AtVerified
  | 6 => AtCommitted
  | 7 => AtAborted
  | 8 => AtAmbiguous
  | 9 => AtCount
  | _ => AtRaw (v - 10)
  end.

Definition attempt_state_to_string (x : AttemptState) : string :=
  match x with
  | AtUnknown => "unknown"
  | AtPlanned => "planned"
  | AtReserved => "reserved"
  | AtJournaled => "journaled"
  | AtPerformed => "performed"
  | AtVerified => "verified"
  | AtCommitted => "committed"
  | AtAborted => "aborted"
  | AtAmbiguous => "ambiguous"
  | AtCount => "count"
  | _ => "unknown"
  end.

(** [ResourceCoverage] of include/ncf/model/state.hpp. *)
Inductive ResourceCoverage :=
| CovNone | CovPartial | CovFull.

#[export] Instance ResourceCoverage_eq_dec : EqDecision ResourceCoverage.
Proof. solve_decision. Defined.

Definition coverage_to_string (x : ResourceCoverage) : string :=
  match x with
  | CovNone => "none"
  | CovPartial => "partial"
  | CovFull => "full"
  end.

(** ** Properties *)

Lemma sev_ltb_leb (a b : Severity) : sev_ltb a b = negb (sev_leb b a).
Proof. unfold sev_ltb, sev_leb. apply N.ltb_antisym. Qed.

Lemma sev_max_ge_l (a b : Severity) : sev_leb a (sev_max a b) = true.
Proof.
  unfold sev_max, sev_leb. destruct (sev_ltb a b) eqn:E; unfold sev_ltb in E; reflect_bools;
    apply N.leb_le; lia.
Qed.

Lemma sev_max_ge_r (a b : Severity) : sev_leb b (sev_max a b) = true.
Proof.
  unfold sev_max, sev_leb. destruct (sev_ltb a b) eqn:E; unfold sev_ltb in E; reflect_bools;
    apply N.leb_le; lia.
Qed.

(** A state is authoritative exactly when it implies a severity. *)
Lemma severity_of_authoritative (s : CongestionState) :
  is_authoritative s = true <-> is_Some (severity_of s).
Proof. split; destruct s; simpl; try done; by intros []. Qed.

Lemma state_of_authoritative (s : Severity) :
  sev_leb s SevSevere = true ->
  is_authoritative (state_of s) = true /\ severity_of (state_of s) = Some s.
Proof.
  destruct s as [| | | |v]; [done..|]. unfold sev_leb. cbn [sev_val]. intros Hv.
  reflect_bools. lia.
Qed.

Lemma sev_val_inj (a b : Severity) : sev_val a = sev_val b -> a = b.
Proof. destruct a, b; simpl; intros H; try done; try (f_equal; lia); lia. Qed.

Lemma metric_val_inj (a b : MetricKind) : metric_val a = metric_val b -> a = b.
Proof. destruct a, b; simpl; intros H; try reflexivity; try discriminate; try (f_equal; lia); lia. Qed.

(** Every name parses back to its enumerator. *)
Lemma parse_severity_to_string (s : Severity) :
  (forall v, s <> SevRaw v) -> parse_severity (severity_to_string s) = Some s.
Proof. destruct s; try done. intros H. by destruct (H v). Qed.

Lemma parse_state_to_string (s : CongestionState) :
  (forall v, s <> StRaw v) -> parse_state (state_to_string s) = Some s.
Proof. destruct s; try done. intros H. by destruct (H v). Qed.

Lemma parse_metric_kind_to_string (k : MetricKind) :
  (forall v, k <> MkRaw v) -> parse_metric_kind (metric_to_string k) = Some k.
Proof. destruct k; try done. intros H. by destruct (H v). Qed.

Lemma parse_intervention_kind_to_string (k : InterventionKind) :
  (forall v, k <> IkRaw v) -> k <> IkCount ->
  parse_intervention_kind (intervention_to_string k) = Some k.
Proof. destruct k; try done. intros H. by destruct (H v). Qed.

(** ** Casting an enumerator's value back gives the enumerator *)

(** The cast of [n + v], for a value [v] places past the enumerators. *)
Ltac cast_raw :=
  match goal with
  | v : N |- ?l = _ =>
      match l with context [?n + v] =>
        let w := fresh "w" in let E := fresh "E" in
        remember (n + v)%N as w eqn:E;
        destruct w as [|p]; [lia|];
        do 6 (try (destruct p as [p|p|]; try (exfalso; lia)));
        cbn; f_equal; lia
      end
  end.
Ltac cast_inverse x := destruct x; try reflexivity; cbn [sev_val state_val metric_val resource_kind_val
  intervention_val fence_reason_val provenance_kind_val attempt_state_val]; cast_raw.

Lemma sev_of_val (x : Severity) : sev_of (sev_val x) = x.
Proof. cast_inverse x. Qed.
Lemma state_cast_val (x : CongestionState) : state_cast (state_val x) = x.
Proof. cast_inverse x. Qed.
Lemma metric_of_val (x : MetricKind) : metric_of (metric_val x) = x.
Proof. cast_inverse x. Qed.
Lemma resource_kind_of_val (x : ResourceKind) : resource_kind_of (resource_kind_val x) = x.
Proof. cast_inverse x. Qed.
Lemma intervention_of_val (x : InterventionKind) : intervention_of (intervention_val x) = x.
Proof. cast_inverse x. Qed.
Lemma fence_reason_of_val (x : FenceReason) : fence_reason_of (fence_reason_val x) = x.
Proof. cast_inverse x. Qed.
Lemma provenance_kind_of_val (x : ProvenanceKind) : provenance_kind_of (provenance_kind_val x) = x.
Proof. cast_inverse x. Qed.
Lemma attempt_state_of_val (x : AttemptState) : attempt_state_of (attempt_state_val x) = x.
Proof. cast_inverse x. Qed.

#[export] Hint Resolve sev_of_val state_cast_val metric_of_val resource_kind_of_val intervention_of_val
  fence_reason_of_val provenance_kind_of_val attempt_state_of_val : ncf.
