(* ===== verification/OMap.v ===== *)
(** * Ordered maps: the [std::map] of the sources

    The evaluator and the fabric keep [std::map]s and iterate over them, so the
    key order is observable (report truncation, eviction of [begin()]).  A map is
    modelled as the list of its entries in key order; [KeyOrder] is the interface
    a key type offers ([operator<]), and every lemma below is proved against it. *)

From S2P Require Import Prelude.

Class KeyOrder (K : Type) := {
  key_ltb : K -> K -> bool;
  key_ltb_irrefl : forall a, key_ltb a a = false;
  key_ltb_trans : forall a b c, key_ltb a b = true -> key_ltb b c = true -> key_ltb a c = true;
  key_ltb_total : forall a b, key_ltb a b = false -> key_ltb b a = false -> a = b
}.

#[export] Instance N_key_order : KeyOrder N.
Proof.
  refine {| key_ltb := N.ltb |}.
  - apply N.ltb_irrefl.
  - intros a b c. rewrite !N.ltb_lt. lia.
  - intros a b. rewrite !N.ltb_ge. lia.
Defined.

(** The lexicographic order of [std::pair]; triples associate to the left. *)
#[export] Instance pair_key_order {A B : Type} `{!KeyOrder A, !KeyOrder B} : KeyOrder (A * B).
Proof.
  refine {| key_ltb := fun x y =>
    key_ltb x.1 y.1 || (negb (key_ltb y.1 x.1) && key_ltb x.2 y.2) |}.
  - intros [a b]; simpl. by rewrite !key_ltb_irrefl.
  - intros [a1 b1] [a2 b2] [a3 b3]; simpl. rewrite !orb_true_iff, !andb_true_iff, !negb_true_iff.
    intros [H1|[H1 H1']] [H2|[H2 H2']].
    + left. by eapply key_ltb_trans.
    + left. destruct (key_ltb a2 a3) eqn:E; [by eapply key_ltb_trans|].
      by rewrite <- (key_ltb_total a2 a3).
    + left. destruct (key_ltb a1 a2) eqn:E; [by eapply key_ltb_trans|].
      by rewrite (key_ltb_total a1 a2).
    + destruct (key_ltb a1 a3) eqn:E; [by left|right]. split; [|by eapply key_ltb_trans].
      destruct (key_ltb a3 a1) eqn:E2; [|done].
      destruct (key_ltb a1 a2) eqn:E3.
      { rewrite <- H2. symmetry. by eapply key_ltb_trans. }
      rewrite (key_ltb_total a1 a2) in E2 by done. congruence.
  - intros [a1 b1] [a2 b2]; simpl. rewrite !orb_false_iff, !andb_false_iff, !negb_false_iff.
    intros [H1 H2] [H3 H4]. f_equal; apply key_ltb_total; try done.
    + by destruct H2 as [H2|H2]; [rewrite H2 in H3|].
    + by destruct H4 as [H4|H4]; [rewrite H4 in H1|].
Defined.

Section OMap.
Context {K V : Type} `{!EqDecision K, !KeyOrder K}.
Implicit Types (k : K) (v : V) (m : list (K * V)).

(** [find] / [at]. *)
Fixpoint om_find k m : option V :=
  match m with
  | [] => None
  | (k', v) :: m' => if decide (k = k') then Some v else om_find k m'
  end.

(** [m[k] = v]: replace the value of [k], or insert at its place. *)
Fixpoint om_insert k v m : list (K * V) :=
  match m with
  | [] => [(k, v)]
  | (k', v') :: m' =>
      if decide (k = k') then (k, v) :: m'
      else if key_ltb k k' then (k, v) :: m
      else (k', v') :: om_insert k v m'
  end.

(** [erase(k)]. *)
Definition om_erase k m : list (K * V) := filter (fun e => e.1 <> k) m.

Definition om_sorted m : Prop := StronglySorted (fun a b => key_ltb a.1 b.1 = true) m.

Lemma om_find_insert_eq k v m : om_find k (om_insert k v m) = Some v.
Proof.
  induction m as [|[k' v'] m IH]; simpl; [by rewrite decide_True|].
  destruct (decide (k = k')); [simpl; by rewrite decide_True|].
  destruct (key_ltb k k'); simpl; [by rewrite decide_True|by rewrite decide_False].
Qed.

Lemma om_find_insert_ne k k' v m : k <> k' -> om_find k' (om_insert k v m) = om_find k' m.
Proof.
  intros Hne. induction m as [|[k1 v1] m IH]; simpl; [by rewrite decide_False|].
  destruct (decide (k = k1)) as [<-|]; simpl; [by rewrite !decide_False|].
  destruct (key_ltb k k1); simpl; [by rewrite decide_False|].
  by destruct (decide (k' = k1)).
Qed.

Lemma om_find_erase_eq k m : om_find k (om_erase k m) = None.
Proof.
  unfold om_erase. induction m as [|[k1 v1] m IH]; [done|]. rewrite filter_cons. simpl.
  case_decide as H; simpl; [|done]. by rewrite decide_False.
Qed.

Lemma om_find_erase_ne k k' m : k <> k' -> om_find k' (om_erase k m) = om_find k' m.
Proof.
  intros Hne. unfold om_erase. induction m as [|[k1 v1] m IH]; [done|].
  rewrite filter_cons. simpl. case_decide as H; simpl.
  - by rewrite IH.
  - subst k1. rewrite IH. by rewrite decide_False.
Qed.

Lemma om_find_elem k v m : om_find k m = Some v -> (k, v) ∈ m.
Proof.
  induction m as [|[k1 v1] m IH]; simpl; [done|]. destruct (decide (k = k1)) as [->|].
  - intros [= ->]. constructor.
  - intros H. constructor. by apply IH.
Qed.

Lemma om_find_None k m : om_find k m = None <-> k ∉ m.*1.
Proof.
  induction m as [|[k1 v1] m IH]; simpl; [split; [intros _; apply not_elem_of_nil|done]|].
  rewrite not_elem_of_cons. destruct (decide (k = k1)); [split; [done|tauto]|].
  rewrite IH. tauto.
Qed.

(** Entries after an insertion are old entries or the new one. *)
Lemma om_insert_elem k v m e : e ∈ om_insert k v m -> e = (k, v) \/ e ∈ m.
Proof.
  induction m as [|[k1 v1] m IH]; simpl; [rewrite list_elem_of_singleton; tauto|].
  destruct (decide (k = k1)); [rewrite !elem_of_cons; tauto|].
  destruct (key_ltb k k1); rewrite !elem_of_cons; tauto.
Qed.

Lemma om_insert_Forall (P : K * V -> Prop) k v m :
  P (k, v) -> Forall P m -> Forall P (om_insert k v m).
Proof.
  rewrite !Forall_forall. intros Hk Hm e He. destruct (om_insert_elem k v m e He) as [->|]; auto.
Qed.

Lemma om_erase_elem k m e : e ∈ om_erase k m <-> e.1 <> k /\ e ∈ m.
Proof. unfold om_erase. by rewrite list_elem_of_filter. Qed.

Lemma om_sorted_insert k v m : om_sorted m -> om_sorted (om_insert k v m).
Proof.
  unfold om_sorted. induction m as [|[k1 v1] m IH]; simpl; intros H; [repeat constructor|].
  apply StronglySorted_inv in H as [Hm Hall].
  destruct (decide (k = k1)) as [<-|Hne]; [by constructor|].
  destruct (key_ltb k k1) eqn:E.
  - constructor; [by constructor|]. constructor; [done|].
    eapply Forall_impl; [exact Hall|]. simpl. intros e He. by eapply key_ltb_trans.
  - constructor; [by apply IH|]. apply om_insert_Forall; [|done]. simpl.
    destruct (key_ltb k1 k) eqn:E2; [done|]. by destruct Hne; apply key_ltb_total.
Qed.

Lemma om_sorted_filter (P : K * V -> Prop) `{!forall e, Decision (P e)} m :
  om_sorted m -> om_sorted (filter P m).
Proof.
  unfold om_sorted. induction m as [|e m IH]; [done|]. intros Hs.
  apply StronglySorted_inv in Hs as [Hm Hall]. rewrite filter_cons.
  case_decide; [|by apply IH]. constructor; [by apply IH|].
  rewrite Forall_forall in Hall |- *. intros x [_ Hx]%list_elem_of_filter. by apply Hall.
Qed.

Lemma om_sorted_erase k m : om_sorted m -> om_sorted (om_erase k m).
Proof. apply om_sorted_filter. Qed.

Lemma om_sorted_tail m : om_sorted m -> om_sorted (tail m).
Proof. destruct m; [done|]. by intros [? _]%StronglySorted_inv. Qed.

(** In a map each key has one entry. *)
Lemma om_elem_find k v m : om_sorted m -> (k, v) ∈ m -> om_find k m = Some v.
Proof.
  unfold om_sorted. induction m as [|[k1 v1] m IH]; intros Hs Hin; [by apply not_elem_of_nil in Hin|].
  apply StronglySorted_inv in Hs as [Hm Hall]. simpl.
  apply elem_of_cons in Hin as [[= -> ->]|Hin]; [by rewrite decide_True|].
  rewrite decide_False; [by apply IH|]. intros ->.
  rewrite Forall_forall in Hall. specialize (Hall _ Hin). simpl in Hall.
  by rewrite key_ltb_irrefl in Hall.
Qed.

Lemma om_NoDup m : om_sorted m -> NoDup m.*1.
Proof.
  unfold om_sorted. induction m as [|[k1 v1] m IH]; simpl; intros H; [constructor|].
  apply StronglySorted_inv in H as [Hm Hall]. constructor; [|by apply IH].
  intros ([k2 v2] & Hk & Hin)%list_elem_of_fmap. simpl in Hk. subst k2.
  rewrite Forall_forall in Hall. specialize (Hall _ Hin). simpl in Hall.
  by rewrite key_ltb_irrefl in Hall.
Qed.

(** [size()] after [m[k] = v]. *)
Lemma om_insert_length k v m :
  om_sorted m ->
  length (om_insert k v m)
  = match om_find k m with Some _ => length m | None => S (length m) end.
Proof.
  unfold om_sorted. induction m as [|[k1 v1] m IH]; simpl; intros H; [done|].
  apply StronglySorted_inv in H as [Hm Hall].
  destruct (decide (k = k1)) as [<-|Hne]; [done|].
  destruct (key_ltb k k1) eqn:E; simpl.
  - destruct (om_find k m) eqn:F; [|done]. apply om_find_elem in F.
    rewrite Forall_forall in Hall. specialize (Hall _ F). simpl in Hall.
    pose proof (key_ltb_trans _ _ _ E Hall) as Habs. by rewrite key_ltb_irrefl in Habs.
  - rewrite IH by done. by destruct (om_find k m).
Qed.
End OMap.

#[export] Hint Resolve om_sorted_insert om_sorted_erase om_sorted_filter om_sorted_tail : ncf.
#[export] Hint Rewrite @om_find_insert_eq @om_find_erase_eq : ncf.

(** Case split on whether two keys agree, the way the lookups above do. *)
Ltac om_cases k k' :=
  destruct (decide (k = k')) as [<-|?];
  [rewrite ?om_find_insert_eq, ?om_find_erase_eq
  | rewrite ?om_find_insert_ne, ?om_find_erase_ne by congruence].

(** ** [std::sort] followed by [std::unique]

    Applied to values whose [operator<] is a total order, so the result does
    not depend on the sorting algorithm. *)
Section SortUnique.
Context {K : Type} `{!EqDecision K, !KeyOrder K}.

Fixpoint sort_insert (x : K) (l : list K) : list K :=
  match l with
  | [] => [x]
  | y :: l' => if key_ltb y x then y :: sort_insert x l' else x :: l
  end.
Definition sort_list (l : list K) : list K := foldr sort_insert [] l.

(** [std::unique]: keep the first of every run of equal elements. *)
Fixpoint unique_from (x : K) (l : list K) : list K :=
  match l with
  | [] => [x]
  | y :: l' => if decide (x = y) then unique_from x l' else x :: unique_from y l'
  end.
Definition unique (l : list K) : list K :=
  match l with [] => [] | x :: l' => unique_from x l' end.

Definition sort_unique (l : list K) : list K := unique (sort_list l).

Definition ordered (l : list K) : Prop := StronglySorted (fun a b => key_ltb b a = false) l.
Definition strictly_ordered (l : list K) : Prop := StronglySorted (fun a b => key_ltb a b = true) l.

Lemma sort_insert_perm x l : sort_insert x l ≡ₚ x :: l.
Proof.
  induction l as [|y l IH]; simpl; [done|]. destruct (key_ltb y x); [|done].
  rewrite IH. apply perm_swap.
Qed.

Lemma sort_list_perm l : sort_list l ≡ₚ l.
Proof. induction l as [|x l IH]; simpl; [done|]. by rewrite sort_insert_perm, IH. Qed.

Lemma key_leb_trans (a b c : K) : key_ltb b a = false -> key_ltb c b = false -> key_ltb c a = false.
Proof.
  intros H1 H2. destruct (key_ltb c a) eqn:E; [|done].
  destruct (key_ltb a b) eqn:E2.
  - rewrite <- H2. symmetry. by eapply key_ltb_trans.
  - rewrite <- (key_ltb_total a b E2 H1) in H2. congruence.
Qed.

Lemma sort_insert_ordered x l : ordered l -> ordered (sort_insert x l).
Proof.
  unfold ordered. induction l as [|y l IH]; simpl; intros H; [repeat constructor|].
  apply StronglySorted_inv in H as [Hl Hall]. destruct (key_ltb y x) eqn:E.
  - constructor; [by apply IH|]. rewrite sort_insert_perm. constructor; [|done].
    destruct (key_ltb x y) eqn:E2; [|done].
    pose proof (key_ltb_trans _ _ _ E E2) as Habs. by rewrite key_ltb_irrefl in Habs.
  - constructor; [by constructor|]. constructor; [done|].
    eapply Forall_impl; [exact Hall|]. simpl. intros z Hz. by eapply key_leb_trans.
Qed.

Lemma sort_list_ordered l : ordered (sort_list l).
Proof. induction l; simpl; [constructor|]. by apply sort_insert_ordered. Qed.

Lemma unique_from_elem x l z : z ∈ unique_from x l <-> z ∈ x :: l.
Proof.
  revert x. induction l as [|y l IH]; intros x; simpl; [done|].
  destruct (decide (x = y)) as [<-|]; rewrite ?elem_of_cons, IH, !elem_of_cons; tauto.
Qed.

Lemma unique_from_strict x l : ordered (x :: l) -> strictly_ordered (unique_from x l).
Proof.
  unfold ordered, strictly_ordered. revert x. induction l as [|y l IH]; intros x H; simpl.
  - repeat constructor.
  - apply StronglySorted_inv in H as [Hl Hall]. apply Forall_cons in Hall as [Hxy Hall].
    destruct (decide (x = y)) as [<-|Hne].
    + apply IH. done.
    + constructor; [by apply IH|]. apply Forall_forall. intros z Hz%unique_from_elem.
      assert (key_ltb x y = true) as Hlt.
      { destruct (key_ltb x y) eqn:E; [done|]. by destruct Hne; apply key_ltb_total. }
      apply elem_of_cons in Hz as [->|Hz]; [done|].
      apply StronglySorted_inv in Hl as [_ Hyl]. rewrite Forall_forall in Hyl.
      specialize (Hyl z Hz). destruct (key_ltb y z) eqn:E; [by eapply key_ltb_trans|].
      by rewrite (key_ltb_total y z E Hyl) in Hlt.
Qed.

Lemma sort_unique_elem l z : z ∈ sort_unique l <-> z ∈ l.
Proof.
  unfold sort_unique. rewrite <- (sort_list_perm l) at 2. destruct (sort_list l); [done|].
  apply unique_from_elem.
Qed.

Lemma sort_unique_strict l : strictly_ordered (sort_unique l).
Proof.
  unfold sort_unique. pose proof (sort_list_ordered l) as H. destruct (sort_list l); [constructor|].
  by apply unique_from_strict.
Qed.

Lemma strictly_ordered_NoDup l : strictly_ordered l -> NoDup l.
Proof.
  unfold strictly_ordered. induction l as [|x l IH]; intros H; [constructor|].
  apply StronglySorted_inv in H as [Hl Hall]. constructor; [|by apply IH].
  intros Hin. rewrite Forall_forall in Hall. specialize (Hall _ Hin).
  by rewrite key_ltb_irrefl in Hall.
Qed.
End SortUnique.
