(* ===== verification/Bytes.v ===== *)
(** * Bytes: include/ncf/core/crc32c.hpp and the fixed-offset codecs

    The CRC-32C that frames every durable record and every transport frame, and
    the little-endian [put_*]/[get_*] helpers that src/durability/journal.cpp,
    src/durability/snapshot.cpp and src/transport/frame.cpp each define.  The
    lemmas give the two facts the framings rest on: the helpers are inverse, and
    the checksum tells apart any two buffers that differ within four bytes. *)

From Stdlib Require Import Strings.Byte.
From S2P Require Import Prelude Core.

Open Scope N_scope.

(** ** Little-endian words *)

(** [put_u16], [put_u32], [put_u64]: byte [i] of the loop is
    [(value >> shift) & 0xFF] with [shift] growing by 8. *)
Fixpoint le_put (n : nat) (shift value : N) : list byte :=
  match n with
  | O => []
  | S n' => byte_of_N (N.land (N.shiftr value shift) 0xFF) :: le_put n' (shift + 8) value
  end.
Definition put_u16 (value : N) : list byte := le_put 2 0 value.
Definition put_u32 (value : N) : list byte := le_put 4 0 value.
Definition put_u64 (value : N) : list byte := le_put 8 0 value.

(** [value |= byte << shift]. *)
Fixpoint le_get (shift value : N) (bytes : list byte) : N :=
  match bytes with
  | [] => value
  | b :: bytes' => le_get (shift + 8) (N.lor value (N.shiftl (N_of_byte b) shift)) bytes'
  end.

(** The [n] bytes at [offset] of a buffer. *)
Definition slice (offset n : nat) (bytes : list byte) : list byte := take n (drop offset bytes).

Definition get_u16 (bytes : list byte) (offset : nat) : N := le_get 0 0 (slice offset 2 bytes).
Definition get_u32 (bytes : list byte) (offset : nat) : N := le_get 0 0 (slice offset 4 bytes).
Definition get_u64 (bytes : list byte) (offset : nat) : N := le_get 0 0 (slice offset 8 bytes).

(** ** CRC-32C *)

Definition crc32c_bit (c : N) : N :=
  if negb (N.land c 1 =? 0) then N.lxor 0x82F63B78 (N.shiftr c 1) else N.shiftr c 1.
Definition crc32c_entry (index : N) : N := Nat.iter 8 crc32c_bit index.
Definition kCrc32cTable : list N := map (fun i => crc32c_entry (N.of_nat i)) (seq 0 256).

Definition crc32c_step (crc : N) (b : byte) : N :=
  let index := N.land (N.lxor crc (N_of_byte b)) 0xFF in
  N.lxor (default 0 (kCrc32cTable !! N.to_nat index)) (N.shiftr crc 8).
Definition crc32c_continue (seed : N) (data : list byte) : N :=
  N.lxor (foldl crc32c_step (N.lxor seed 0xFFFFFFFF) data) 0xFFFFFFFF.
Definition crc32c (data : list byte) : N := crc32c_continue 0 data.
Definition crc32c_string (text : string) : N := crc32c (bytes_of_string text).

(** * Properties *)

(** ** Bytes *)

Lemma N_of_byte_lt (b : byte) : N_of_byte b < 256.
Proof. by destruct b. Qed.

Lemma N_of_byte_of_N (n : N) : N_of_byte (byte_of_N n) = n mod 256.
Proof.
  unfold byte_of_N, N_of_byte. destruct (Byte.of_N (n mod 256)) as [b|] eqn:E.
  - by apply Byte.to_of_N in E.
  - apply Byte.of_N_None_iff in E. pose proof (N.mod_lt n 256). lia.
Qed.

Lemma byte_of_N_of_byte (b : byte) : byte_of_N (N_of_byte b) = b.
Proof. by destruct b. Qed.

Lemma N_of_byte_inj (a b : byte) : N_of_byte a = N_of_byte b -> a = b.
Proof. intros H. by rewrite <- (byte_of_N_of_byte a), <- (byte_of_N_of_byte b), H. Qed.

(** ** Little-endian words *)

(** The value of a little-endian buffer. *)
Fixpoint le_value (bytes : list byte) : N :=
  match bytes with [] => 0 | b :: bytes' => N_of_byte b + 256 * le_value bytes' end.

Lemma le_value_lt (bytes : list byte) : le_value bytes < 2 ^ (8 * size64 bytes).
Proof.
  induction bytes as [|b bytes IH]; [done|]. rewrite size64_cons. simpl le_value.
  replace (8 * (size64 bytes + 1)) with (8 + 8 * size64 bytes) by lia. rewrite N.pow_add_r.
  change (2 ^ 8) with 256. pose proof (N_of_byte_lt b). lia.
Qed.

Lemma lor_shift (a w s : N) : a < 2 ^ s -> N.lor a (N.shiftl w s) = a + w * 2 ^ s.
Proof.
  intros Ha. rewrite N.shiftl_mul_pow2. rewrite <- N.lxor_lor, <- N.add_nocarry_lxor; [done| |];
    apply N.bits_inj; intros i; rewrite N.land_spec, N.bits_0, <- N.shiftl_mul_pow2;
    (destruct (N.lt_ge_cases i s) as [Hi|Hi];
     [by rewrite (N.shiftl_spec_low w s i Hi), andb_false_r|]);
    rewrite <- (N.mod_small a (2 ^ s) Ha), N.mod_pow2_bits_high by done; done.
Qed.

Lemma le_get_value (s v : N) (bytes : list byte) :
  v < 2 ^ s -> le_get s v bytes = v + le_value bytes * 2 ^ s.
Proof.
  revert s v. induction bytes as [|b bytes IH]; intros s v Hv; simpl; [lia|].
  pose proof (N_of_byte_lt b) as Hb. rewrite lor_shift by done.
  rewrite IH; rewrite N.pow_add_r; change (2 ^ 8) with 256; nia.
Qed.

Lemma le_get_slice (bytes : list byte) : le_get 0 0 bytes = le_value bytes.
Proof. rewrite le_get_value by (simpl; lia). rewrite N.pow_0_r. lia. Qed.

Lemma length_le_put (n : nat) (s v : N) : length (le_put n s v) = n.
Proof. revert s. induction n as [|n IH]; intros s; simpl; [done|]. by rewrite IH. Qed.

Lemma le_value_put (n : nat) (s v : N) :
  le_value (le_put n s v) = (v / 2 ^ s) mod 2 ^ (8 * N.of_nat n).
Proof.
  revert s. induction n as [|n IH]; intros s; simpl le_put; simpl le_value.
  { change (8 * N.of_nat 0) with 0. by rewrite N.mod_1_r. }
  rewrite IH, N_of_byte_of_N, N.shiftr_div_pow2.
  change 255 with (N.ones 8). rewrite N.land_ones. change (2 ^ 8) with 256.
  rewrite N.Div0.mod_mod. rewrite N.pow_add_r, <- N.Div0.div_div. change (2 ^ 8) with 256.
  replace (8 * N.of_nat (S n)) with (8 + 8 * N.of_nat n) by lia. rewrite N.pow_add_r.
  change (2 ^ 8) with 256. rewrite N.Div0.mod_mul_r. done.
Qed.

(** Writing and reading a word that fits its width. *)
Lemma le_get_put (n : nat) (v : N) : v < 2 ^ (8 * N.of_nat n) -> le_get 0 0 (le_put n 0 v) = v.
Proof. intros Hv. rewrite le_get_slice, le_value_put, N.div_1_r. by apply N.mod_small. Qed.

Lemma le_put_div (n : nat) (s v : N) : le_put n s v = le_put n 0 (v / 2 ^ s).
Proof.
  revert s v. induction n as [|n IH]; intros s v; simpl; [done|].
  rewrite (IH (s + 8)), (IH 8). f_equal.
  - by rewrite N.shiftr_0_r, N.shiftr_div_pow2.
  - by rewrite N.pow_add_r, N.Div0.div_div.
Qed.

(** Reading and writing back the bytes of a word. *)
Lemma le_put_get (bytes : list byte) : le_put (length bytes) 0 (le_get 0 0 bytes) = bytes.
Proof.
  rewrite le_get_slice. induction bytes as [|b bytes IH]; [done|].
  cbn [length le_put]. rewrite le_put_div. pose proof (N_of_byte_lt b) as Hb. f_equal.
  - rewrite N.shiftr_0_r. change 255 with (N.ones 8). rewrite N.land_ones.
    change (2 ^ 8) with 256. simpl le_value. rewrite N.mul_comm, N.Div0.mod_add, N.mod_small by done.
    apply byte_of_N_of_byte.
  - change (2 ^ (0 + 8)) with 256. simpl le_value.
    rewrite N.mul_comm, N.div_add, N.div_small by done. exact IH.
Qed.

Lemma slice_length (offset n : nat) (bytes : list byte) :
  (offset + n <= length bytes)%nat -> length (slice offset n bytes) = n.
Proof. intros H. unfold slice. rewrite length_take, length_drop. lia. Qed.

(** A word is read back where it was put. *)
Lemma slice_app_mid (pre word post : list byte) :
  slice (length pre) (length word) (pre ++ word ++ post) = word.
Proof. unfold slice. rewrite drop_app_length, take_app_length. done. Qed.

(** Consecutive slices of a buffer join up. *)
Lemma slice_drop (o n p : nat) (bytes : list byte) :
  p = (o + n)%nat -> slice o n bytes ++ drop p bytes = drop o bytes.
Proof. intros ->. unfold slice. rewrite <- drop_drop. apply take_drop. Qed.

Lemma slice_to_end (o n : nat) (bytes : list byte) :
  (o + n)%nat = length bytes -> slice o n bytes = drop o bytes.
Proof. intros H. unfold slice. apply take_ge. rewrite length_drop. lia. Qed.

Lemma put_get_slice (offset n : nat) (bytes : list byte) :
  (offset + n <= length bytes)%nat -> le_put n 0 (le_get 0 0 (slice offset n bytes)) = slice offset n bytes.
Proof. intros H. rewrite <- (slice_length offset n bytes H) at 1. apply le_put_get. Qed.

(** Put back the words read from a buffer: every slice but the last is joined with
    what follows it. *)
Ltac join_slices :=
  rewrite !put_get_slice by lia;
  match goal with
  | |- ?l = _ => match l with context [slice ?o ?n ?b] => rewrite (slice_to_end o n b) by lia end
  end;
  rewrite !slice_drop by reflexivity; apply drop_0.

Lemma slice_skip (offset n : nat) (a b : list byte) :
  (length a <= offset)%nat -> slice offset n (a ++ b) = slice (offset - length a) n b.
Proof. intros H. unfold slice. by rewrite drop_app_ge. Qed.

Lemma slice_here (n : nat) (a b : list byte) : length a = n -> slice 0 n (a ++ b) = a.
Proof. intros <-. unfold slice. rewrite drop_0. apply take_app_length. Qed.

Lemma slice_all (n : nat) (a : list byte) : length a = n -> slice 0 n a = a.
Proof. intros H. rewrite <- (app_nil_r a) at 1. by apply slice_here. Qed.

(** Evaluate the slices of a header written as a concatenation of words. *)
Ltac read_words :=
  repeat first
    [ rewrite slice_here by apply length_le_put
    | rewrite slice_all by apply length_le_put
    | rewrite slice_skip by (rewrite length_le_put; lia); rewrite length_le_put; cbn [Nat.sub] ].

(** ** CRC-32C detects short bursts *)

Definition crc_index (crc : N) (b : byte) : N := N.land (N.lxor crc (N_of_byte b)) 0xFF.
Definition crc_entry_at (i : N) : N := default 0 (kCrc32cTable !! N.to_nat i).

Lemma crc32c_step_entry (crc : N) (b : byte) :
  crc32c_step crc b = N.lxor (crc_entry_at (crc_index crc b)) (N.shiftr crc 8).
Proof. done. Qed.

Lemma crc_index_lt (crc : N) (b : byte) : crc_index crc b < 256.
Proof. unfold crc_index. change 255 with (N.ones 8). rewrite N.land_ones. by apply N.mod_lt. Qed.

(** The entries are 32-bit words with pairwise different top bytes. *)
Definition entry_check : bool :=
  bool_decide (NoDup (map (fun c => N.shiftr c 24) kCrc32cTable))
  && forallb (fun c => c <? 2 ^ 32) kCrc32cTable.

Lemma entry_check_ok : entry_check = true.
Proof. vm_compute. reflexivity. Qed.

Lemma table_length : length kCrc32cTable = 256%nat.
Proof. unfold kCrc32cTable. by rewrite length_map, length_seq. Qed.

Lemma entry_lookup (i : N) : i < 256 -> kCrc32cTable !! N.to_nat i = Some (crc_entry_at i).
Proof.
  intros Hi. unfold crc_entry_at.
  destruct (lookup_lt_is_Some_2 kCrc32cTable (N.to_nat i)) as [c Hc]; [rewrite table_length; lia|].
  by rewrite Hc.
Qed.

Lemma entry_ok (i : N) : i < 256 -> u32_ok (crc_entry_at i).
Proof.
  intros Hi. pose proof entry_check_ok as H. unfold entry_check in H. apply andb_true_iff in H as [_ H].
  rewrite forallb_forall in H. specialize (H (crc_entry_at i)). apply N.ltb_lt, H.
  apply list_elem_of_In, (list_elem_of_lookup_2 _ (N.to_nat i)), entry_lookup, Hi.
Qed.

Lemma entry_top_inj (i j : N) :
  i < 256 -> j < 256 -> N.shiftr (crc_entry_at i) 24 = N.shiftr (crc_entry_at j) 24 -> i = j.
Proof.
  intros Hi Hj H. pose proof entry_check_ok as Hc. unfold entry_check in Hc.
  apply andb_true_iff in Hc as [Hc _]. apply bool_decide_eq_true in Hc.
  enough (N.to_nat i = N.to_nat j) by lia.
  eapply NoDup_lookup; [exact Hc| |]; rewrite list_lookup_fmap, entry_lookup by done; simpl;
    [reflexivity|by rewrite H].
Qed.

Lemma lxor_ok (a b : N) : u32_ok a -> u32_ok b -> u32_ok (N.lxor a b).
Proof. unfold u32_ok. apply lxor_lt. Qed.

Lemma crc32c_step_ok (crc : N) (b : byte) : u32_ok crc -> u32_ok (crc32c_step crc b).
Proof.
  intros Hc. rewrite crc32c_step_entry. apply lxor_ok; [apply entry_ok, crc_index_lt|].
  unfold u32_ok in *. pose proof (shiftr_le crc 8). lia.
Qed.

Lemma crc32c_fold_ok (crc : N) (data : list byte) :
  u32_ok crc -> u32_ok (foldl crc32c_step crc data).
Proof. intros H. apply foldl_inv; [done|]. intros. by apply crc32c_step_ok. Qed.

(** The top byte of a step is the table's alone. *)
Lemma crc32c_step_top (crc : N) (b : byte) :
  u32_ok crc -> N.shiftr (crc32c_step crc b) 24 = N.shiftr (crc_entry_at (crc_index crc b)) 24.
Proof.
  intros Hc. rewrite crc32c_step_entry, N.shiftr_lxor, N.shiftr_shiftr.
  rewrite (N.shiftr_div_pow2 crc), N.div_small by exact Hc. apply N.lxor_0_r.
Qed.

(** The table indices the loop visits. *)
Fixpoint crc_indices (crc : N) (data : list byte) : list N :=
  match data with
  | [] => []
  | b :: data' => crc_index crc b :: crc_indices (crc32c_step crc b) data'
  end.

Lemma crc_indices_snoc (crc : N) (data : list byte) (b : byte) :
  crc_indices crc (data ++ [b]) = crc_indices crc data ++ [crc_index (foldl crc32c_step crc data) b].
Proof.
  revert crc. induction data as [|x data IH]; intros crc; simpl; [done|]. by rewrite IH.
Qed.

Lemma lxor_cancel (a b c : N) : N.lxor a b = N.lxor a c -> b = c.
Proof.
  intros H. apply (f_equal (N.lxor a)) in H.
  by rewrite <- !N.lxor_assoc, N.lxor_nilpotent, !N.lxor_0_l in H.
Qed.

(** Equal high bytes at the end force equal indices on the way, for as many
    steps as high bytes are known. *)
Lemma crc_indices_back (c c' : N) (w w' : list byte) (j : N) :
  u32_ok c -> u32_ok c' -> length w = length w' -> 8 * (j + size64 w) <= 32 ->
  N.shiftr (foldl crc32c_step c w) (8 * j) = N.shiftr (foldl crc32c_step c' w') (8 * j) ->
  crc_indices c w = crc_indices c' w'.
Proof.
  intros Hc Hc'. revert w' j. induction w as [|b w IH] using rev_ind; intros w' j Hl Hj H.
  { by destruct w'. }
  destruct w' as [|b' w' _] using rev_ind; [rewrite length_app in Hl; simpl in Hl; lia|].
  rewrite !length_app in Hl. simpl in Hl. rewrite !foldl_app in H. simpl in H.
  rewrite size64_app in Hj. change (size64 [b]) with 1 in Hj.
  pose proof (crc32c_fold_ok c w Hc) as Ho. pose proof (crc32c_fold_ok c' w' Hc') as Ho'.
  rewrite !crc_indices_snoc.
  assert (crc_index (foldl crc32c_step c w) b = crc_index (foldl crc32c_step c' w') b') as Hi.
  { apply entry_top_inj; [apply crc_index_lt..|]. rewrite <- !crc32c_step_top by done.
    apply (f_equal (fun x => N.shiftr x (24 - 8 * j))) in H. rewrite !N.shiftr_shiftr in H.
    by replace (8 * j + (24 - 8 * j)) with 24 in H by lia. }
  rewrite Hi. f_equal. apply (IH w' (j + 1)); [lia|lia|].
  rewrite !crc32c_step_entry, Hi, !N.shiftr_lxor in H. apply lxor_cancel in H.
  rewrite !N.shiftr_shiftr in H. by replace (8 * (j + 1)) with (8 + 8 * j) by lia.
Qed.

Lemma land_lxor (a b m : N) : N.land (N.lxor a b) m = N.lxor (N.land a m) (N.land b m).
Proof.
  apply N.bits_inj. intros i. rewrite !N.lxor_spec, !N.land_spec, N.lxor_spec.
  by destruct (N.testbit a i), (N.testbit b i), (N.testbit m i).
Qed.

(** From the same state, equal indices mean equal bytes. *)
Lemma crc_indices_inj (c : N) (w w' : list byte) : crc_indices c w = crc_indices c w' -> w = w'.
Proof.
  revert c w'. induction w as [|b w IH]; intros c [|b' w']; simpl; try done.
  intros [= Hi Hw].
  assert (b = b') as <-.
  { apply N_of_byte_inj. apply (f_equal (N.lxor (N.land c 0xFF))) in Hi.
    pose proof (N_of_byte_lt b). pose proof (N_of_byte_lt b').
    unfold crc_index in Hi. rewrite !land_lxor in Hi.
    rewrite <- !N.lxor_assoc, N.lxor_nilpotent, !N.lxor_0_l in Hi.
    change 255 with (N.ones 8) in Hi. rewrite !N.land_ones in Hi.
    rewrite !N.mod_small in Hi by done. done. }
  f_equal. by eapply IH.
Qed.

(** One byte cannot make two different states agree again. *)
Lemma crc32c_step_inj (c c' : N) (b : byte) :
  u32_ok c -> u32_ok c' -> crc32c_step c b = crc32c_step c' b -> c = c'.
Proof.
  intros Hc Hc' H.
  assert (crc_index c b = crc_index c' b) as Hi.
  { apply entry_top_inj; [apply crc_index_lt..|]. rewrite <- !crc32c_step_top by done. by rewrite H. }
  rewrite !crc32c_step_entry, Hi in H. apply lxor_cancel in H.
  assert (N.land c 0xFF = N.land c' 0xFF) as Hl.
  { unfold crc_index in Hi. rewrite !land_lxor in Hi. rewrite (N.lxor_comm (N.land c _)), (N.lxor_comm (N.land c' _)) in Hi.
    exact (lxor_cancel _ _ _ Hi). }
  change 255 with (N.ones 8) in Hl. rewrite !N.land_ones in Hl. rewrite !N.shiftr_div_pow2 in H.
  rewrite (N.div_mod c (2 ^ 8)), (N.div_mod c' (2 ^ 8)) by done. congruence.
Qed.

Lemma crc32c_fold_inj (c c' : N) (data : list byte) :
  u32_ok c -> u32_ok c' -> foldl crc32c_step c data = foldl crc32c_step c' data -> c = c'.
Proof.
  revert c c'. induction data as [|b data IH]; intros c c' Hc Hc' H; [done|].
  simpl in H. apply IH in H; [|by apply crc32c_step_ok..]. by eapply crc32c_step_inj.
Qed.

Lemma crc32c_burst (seed : N) (pre w w' post : list byte) :
  u32_ok seed -> length w = length w' -> (length w <= 4)%nat ->
  crc32c_continue seed (pre ++ w ++ post) = crc32c_continue seed (pre ++ w' ++ post) -> w = w'.
Proof.
  intros Hs Hl Hlen H. unfold crc32c_continue in H. rewrite !(fun x => N.lxor_comm x 0xFFFFFFFF) in H.
  apply lxor_cancel in H. rewrite !foldl_app in H.
  assert (u32_ok (N.lxor 0xFFFFFFFF seed)) as H0 by (by apply lxor_ok).
  pose proof (crc32c_fold_ok _ pre H0) as Hp.
  apply crc32c_fold_inj in H; [|by apply crc32c_fold_ok..].
  eapply crc_indices_inj, (crc_indices_back _ _ w w' 0 Hp Hp Hl); [unfold size64; lia|].
  by rewrite H.
Qed.

(** The checksum of a buffer changes whenever up to four consecutive bytes of it
    do. *)
Theorem crc32c_detects_burst (pre w w' post : list byte)
    (Hlen : length w = length w') (Hshort : (length w <= 4)%nat) (Hne : w <> w') :
  crc32c (pre ++ w ++ post) <> crc32c (pre ++ w' ++ post).
Proof. intros H. by apply Hne, (crc32c_burst 0 pre w w' post). Qed.

Lemma crc32c_detects_burst_witness :
  crc32c [x01; x02; x03] <> crc32c [x01; xff; x03].
Proof.
  assert ([x02] <> [xff]) as Hne by discriminate.
  exact (crc32c_detects_burst [x01] [x02] [xff] [x03] eq_refl (le_S _ _ (le_S _ _ (le_S _ _ (le_n 1)))) Hne).
Defined.

(** ** Headers that carry their own checksum *)

(** A header with its four checksum bytes at [c] cleared. *)
Definition zero_field (c : nat) (bytes : list byte) : list byte :=
  take c bytes ++ put_u32 0 ++ drop (c + 4) bytes.

(** The stored checksum is the one of the cleared header. *)
Definition sealed (c : nat) (bytes : list byte) : Prop := crc32c (zero_field c bytes) = get_u32 bytes c.

Lemma crc32c_insert (i : nat) (b : byte) (bytes : list byte) :
  (i < length bytes)%nat -> crc32c (<[i:=b]> bytes) = crc32c bytes -> bytes !! i = Some b.
Proof.
  intros Hi H. destruct (lookup_lt_is_Some_2 bytes i Hi) as [x Hx]. rewrite Hx. f_equal.
  rewrite insert_take_drop in H by done. rewrite <- (take_drop_middle bytes i x Hx) in H at 3.
  apply (crc32c_burst 0 (take i bytes) [b] [x] (drop (S i) bytes)) in H; [congruence|done..|simpl; lia].
Qed.

Lemma get_u32_inj (c : nat) (a b : list byte) :
  (c + 4 <= length a)%nat -> (c + 4 <= length b)%nat -> get_u32 a c = get_u32 b c ->
  slice c 4 a = slice c 4 b.
Proof.
  intros Ha Hb H. unfold get_u32 in H. rewrite <- (put_get_slice c 4 a), <- (put_get_slice c 4 b) by done.
  by rewrite H.
Qed.

Lemma zero_field_length (c : nat) (bytes : list byte) :
  (c + 4 <= length bytes)%nat -> length (zero_field c bytes) = length bytes.
Proof.
  intros H. unfold zero_field, put_u32. rewrite !length_app, length_take, length_drop, length_le_put. lia.
Qed.

Lemma slice_insert_out (c n i : nat) (b : byte) (bytes : list byte) :
  (i < c \/ c + n <= i)%nat -> slice c n (<[i:=b]> bytes) = slice c n bytes.
Proof.
  intros [H|H]; unfold slice.
  - by rewrite drop_insert_lt.
  - rewrite drop_insert_ge, take_insert_ge by lia. done.
Qed.

Lemma zero_field_app (c : nat) (a w b : list byte) :
  length a = c -> length w = 4%nat -> zero_field c (a ++ w ++ b) = a ++ put_u32 0 ++ b.
Proof.
  intros <- Hw. unfold zero_field. rewrite take_app_length.
  by rewrite <- Hw, <- drop_drop, drop_app_length, drop_app_length.
Qed.

(** Changing any one byte of a sealed header breaks the seal. *)
Lemma sealed_insert (c i : nat) (b : byte) (bytes : list byte) :
  (c + 4 <= length bytes)%nat -> (i < length bytes)%nat ->
  sealed c bytes -> sealed c (<[i:=b]> bytes) -> bytes !! i = Some b.
Proof.
  intros Hc Hi Hs Hs'. unfold sealed in *.
  destruct (decide (i < c \/ c + 4 <= i)%nat) as [Ho|Ho].
  - unfold get_u32 in *. rewrite slice_insert_out in Hs' by done. rewrite <- Hs in Hs'.
    assert (zero_field c (<[i:=b]> bytes) = <[i:=b]> (zero_field c bytes)) as Hz.
    { unfold zero_field. destruct Ho as [Ho|Ho].
      - rewrite take_insert_lt, drop_insert_lt, insert_app_l by (rewrite ?length_take; lia). done.
      - rewrite take_insert_ge, drop_insert_ge by lia.
        rewrite insert_app_r_alt by (rewrite length_take; lia).
        rewrite insert_app_r_alt by (unfold put_u32; rewrite length_le_put, length_take; lia).
        unfold put_u32. rewrite length_take, length_le_put. do 3 f_equal. lia. }
    rewrite Hz in Hs'. apply crc32c_insert in Hs'; [|by rewrite zero_field_length].
    unfold zero_field in Hs'. destruct Ho as [Ho|Ho].
    + rewrite lookup_app_l, lookup_take_lt in Hs' by (rewrite ?length_take; lia). done.
    + rewrite lookup_app_r in Hs' by (rewrite length_take; lia).
      rewrite lookup_app_r in Hs' by (unfold put_u32; rewrite length_le_put, length_take; lia).
      rewrite lookup_drop in Hs'. unfold put_u32 in Hs'. rewrite length_take, length_le_put in Hs'.
      by replace (c + 4 + (i - c `min` length bytes - 4))%nat with i in Hs' by lia.
  - assert (zero_field c (<[i:=b]> bytes) = zero_field c bytes) as Hz.
    { unfold zero_field. by rewrite take_insert_ge, drop_insert_lt by lia. }
    rewrite Hz, Hs in Hs'. apply get_u32_inj in Hs'; [|by rewrite ?length_insert..].
    apply (f_equal (fun l => l !! (i - c)%nat)) in Hs'. unfold slice in Hs'.
    rewrite !lookup_take_lt, !lookup_drop in Hs' by lia. replace (c + (i - c))%nat with i in Hs' by lia.
    rewrite list_lookup_insert_eq in Hs' by done. done.
Qed.

Lemma crc32c_ok (data : list byte) : u32_ok (crc32c data).
Proof. apply lxor_ok; [by apply crc32c_fold_ok|done]. Qed.

#[export] Hint Resolve crc32c_ok : ncf.

(** Checksums are reasoned about through the lemmas above, never by unfolding. *)
#[global] Opaque crc32c.
