(* ===== verification/Codec.v ===== *)
(** * Codec: include/ncf/durability/codec.hpp and src/durability/codec.cpp

    The byte writer and the sticky-failing byte reader that every durable payload
    and every control message goes through.  A decoding function is a program of
    the [Reader] monad: it threads the reader, and an early [return Status(...)]
    ends it with [Err].  [Codec] is the interface a pair of field functions
    offers to the message and store codecs: what one writes, the other reads
    back, leaving the rest of the buffer alone. *)

From Stdlib Require Import Strings.Byte.
From S2P Require Import Prelude Core Bytes.

Open Scope N_scope.

Definition kMaxDurableText : N := 4096.
Definition kMaxDurableNote : N := 1024.
Definition kMaxDurableBlob : N := kMaxSnapshotBytes.

(** ** The writer *)

(** [bw_status] is [None] while [status_] is ok. *)
Record ByteWriter := mkByteWriter { bw_buffer : list byte; bw_status : option Status }.

#[export] Instance ByteWriter_settable : Settable ByteWriter :=
  fields! mkByteWriter < bw_buffer; bw_status >.

Definition byte_writer : ByteWriter := mkByteWriter [] None.

Definition Writer : Type := ByteWriter -> ByteWriter.
Definition then_write (first second : Writer) : Writer := fun w => second (first w).
Notation "a ;; b" := (then_write a b) (at level 100, b at level 200, right associativity) : ncf_scope.

Definition bw_fail (code : ErrCode) (message : string) : Writer := fun w =>
  match bw_status w with
  | None => w <| bw_status := Some (mkStatus code message "") |>
  | Some _ => w
  end.
Definition bw_ok (w : ByteWriter) : bool := match bw_status w with None => true | Some _ => false end.

Definition bw_u8 (value : N) : Writer := fun w => w <| bw_buffer ::= fun b => b ++ [byte_of_N value] |>.
Definition bw_u16 (value : N) : Writer :=
  bw_u8 (N.land value 0xFF);; bw_u8 (N.land (N.shiftr value 8) 0xFF).
Definition bw_shifts (value : N) (shifts : list N) : Writer := fun w =>
  foldl (fun w shift => bw_u8 (N.land (N.shiftr value shift) 0xFF) w) w shifts.
Definition bw_u32 (value : N) : Writer := bw_shifts value [0; 8; 16; 24].
Definition bw_u64 (value : N) : Writer := bw_shifts value [0; 8; 16; 24; 32; 40; 48; 56].
Definition bw_i64 (value : Z) : Writer := bw_u64 (Z.to_N (value mod 2 ^ 64)).
Definition bw_boolean (value : bool) : Writer := bw_u8 (if value then 1 else 0).
Definition bw_raw (bytes : list byte) : Writer := fun w =>
  if negb (bw_ok w) then w else w <| bw_buffer ::= fun b => b ++ bytes |>.
Definition bw_blob (bytes : list byte) (max_len : N) : Writer := fun w =>
  if negb (bw_ok w) then w
  else if (max_len <? size64 bytes) || (0xFFFFFFFF <? size64 bytes)
  then bw_fail Oversized "blob exceeds its permitted length" w
  else (bw_u32 (size64 bytes);; bw_raw bytes) w.
Definition bw_text (value : string) (max_len : N) : Writer := fun w =>
  let size := N.of_nat (String.length value) in
  if negb (bw_ok w) then w
  else if (max_len <? size) || (0xFFFFFFFF <? size)
  then bw_fail Oversized "text exceeds its permitted length" w
  else (bw_u32 size;; bw_raw (bytes_of_string value)) w.

(** A loop that writes every element of a vector. *)
Definition bw_each {A : Type} (write : A -> Writer) (l : list A) : Writer := fun w =>
  foldl (fun w x => write x w) w l.

(** [if (!writer.ok()) return writer.status(); return std::move(writer).take();] *)
Definition bw_finish (write : Writer) : Result (list byte) :=
  let w := write byte_writer in
  match bw_status w with Some s => Err s | None => Ok (bw_buffer w) end.

(** ** The reader *)

Record ByteReader := mkByteReader {
  br_data : list byte;
  br_offset : N;
  br_status : option Status
}.

#[export] Instance ByteReader_settable : Settable ByteReader :=
  fields! mkByteReader < br_data; br_offset; br_status >.

Definition byte_reader (data : list byte) : ByteReader := mkByteReader data 0 None.

(** A decoding step: a value, or the [Status] of an early return. *)
Definition Reader (A : Type) : Type := ByteReader -> Result A * ByteReader.
Definition br_ret {A : Type} (a : A) : Reader A := fun r => (Ok a, r).
Definition br_return_error {A : Type} (c : ErrCode) (m : string) : Reader A := fun r => (fail c m, r).
Definition br_bind {A B : Type} (m : Reader A) (k : A -> Reader B) : Reader B := fun r =>
  match m r with
  | (Ok a, r') => k a r'
  | (Err s, r') => (Err s, r')
  end.
Notation "'let!' x := m 'in' k" := (br_bind m (fun x => k))
  (at level 10, x pattern, m at level 200, k at level 200) : ncf_scope.

Definition br_ok (r : ByteReader) : bool := match br_status r with None => true | Some _ => false end.
Definition br_fail (code : ErrCode) (message : string) (r : ByteReader) : ByteReader :=
  match br_status r with
  | None => r <| br_status := Some (mkStatus code message "") |>
  | Some _ => r
  end.
Definition br_remaining (r : ByteReader) : N := size64 (br_data r) - br_offset r.
Definition br_exhausted (r : ByteReader) : bool := br_offset r =? size64 (br_data r).
Definition br_need (count : N) (r : ByteReader) : bool * ByteReader :=
  if negb (br_ok r) then (false, r)
  else if br_remaining r <? count
  then (false, br_fail Truncated "payload ended before the field was complete" r)
  else (true, r).

(** [u8]; the [default] is never taken after [need(1)]. *)
Definition br_u8 : Reader N := fun r =>
  let '(enough, r) := br_need 1 r in
  if enough
  then (Ok (N_of_byte (default x00 (br_data r !! N.to_nat (br_offset r)))), r <| br_offset ::= N.succ |>)
  else (Ok 0, r).
Definition br_u16 : Reader N :=
  let! low := br_u8 in let! high := br_u8 in br_ret (N.lor low (w16 (N.shiftl high 8))).
Fixpoint br_shifts (value : N) (shifts : list N) : Reader N :=
  match shifts with
  | [] => br_ret value
  | shift :: shifts' => let! b := br_u8 in br_shifts (N.lor value (N.shiftl b shift)) shifts'
  end.
Definition br_u32 : Reader N := br_shifts 0 [0; 8; 16; 24].
Definition br_u64 : Reader N := br_shifts 0 [0; 8; 16; 24; 32; 40; 48; 56].
Definition i64_of_u64 (v : N) : Z := if v <? 2 ^ 63 then Z.of_N v else (Z.of_N v - 2 ^ 64)%Z.
Definition br_i64 : Reader Z := let! v := br_u64 in br_ret (i64_of_u64 v).
Definition br_boolean : Reader bool := let! v := br_u8 in br_ret (negb (v =? 0)).

(** [size] bytes after [need(size)], empty when the reader failed. *)
Definition br_take (size : N) : Reader (list byte) := fun r =>
  let '(enough, r) := br_need size r in
  if enough
  then (Ok (slice (N.to_nat (br_offset r)) (N.to_nat size) (br_data r)), r <| br_offset ::= N.add size |>)
  else (Ok [], r).
(** The length prefix of [blob] and [text], and its bound. *)
Definition br_prefixed (max_len : N) (message : string) : Reader (list byte) :=
  let! size := br_u32 in
  fun r =>
    if negb (br_ok r) then (Ok [], r)
    else if max_len <? size then (Ok [], br_fail Oversized message r)
    else br_take size r.
Definition br_blob (max_len : N) : Reader (list byte) :=
  br_prefixed max_len "blob length exceeds its permitted bound".
Definition br_text (max_len : N) : Reader string :=
  let! bytes := br_prefixed max_len "text length exceeds its permitted bound" in
  br_ret (string_of_bytes bytes).
(** [raw(out)]: whether it succeeded, and the bytes. *)
Definition br_raw (size : N) : Reader (bool * list byte) := fun r =>
  let '(enough, r) := br_need size r in
  if enough
  then (Ok (true, slice (N.to_nat (br_offset r)) (N.to_nat size) (br_data r)), r <| br_offset ::= N.add size |>)
  else (Ok (false, []), r).

(** [static_cast<E>(reader.u8())] and the like. *)
Definition br_cast {A B : Type} (cast : A -> B) (m : Reader A) : Reader B := let! v := m in br_ret (cast v).

(** [for (index = 0; index < count && reader.ok(); ++index)] over a state. *)
Fixpoint br_loop {A : Type} (count : nat) (body : A -> Reader A) (acc : A) : Reader A :=
  match count with
  | O => br_ret acc
  | S count' => fun r => if br_ok r then (let! acc := body acc in br_loop count' body acc) r else (Ok acc, r)
  end.
Definition br_vector {A : Type} (count : N) (element : Reader A) : Reader (list A) :=
  br_loop (N.to_nat count) (fun out => let! x := element in br_ret (out ++ [x])) [].

(** A count field that is refused beyond [limit] with an early return. *)
Definition br_count (limit : N) (message : string) : Reader N :=
  let! count := br_u64 in
  if limit <? count then br_return_error Oversized message else br_ret count.

(** [if (!reader.ok()) return reader.status();] *)
Definition br_check : Reader unit := fun r =>
  match br_status r with Some s => (Err s, r) | None => (Ok tt, r) end.

(** A check of a decoding function after its fields. *)
Definition br_guard (b : bool) (c : ErrCode) (m : string) : Reader unit :=
  if b then br_return_error c m else br_ret tt.
(** [return r] for a [Result] computed from what was read. *)
Definition br_lift {A : Type} (x : Result A) : Reader A := fun r => (x, r).

(** Run a decoding function on a payload. *)
Definition br_run {A : Type} (m : Reader A) (payload : list byte) : Result A := (m (byte_reader payload)).1.

(** * Properties *)

(** ** What a writer appends and a reader consumes *)

Definition writes (w : Writer) (bytes : list byte) : Prop :=
  forall s, bw_status s = None -> w s = mkByteWriter (bw_buffer s ++ bytes) None.

(** A healthy reader that has [rest] in front of it. *)
Record stands (r : ByteReader) (rest : list byte) : Prop := {
  st_ok : br_status r = None;
  st_rest : drop (N.to_nat (br_offset r)) (br_data r) = rest;
  st_within : (N.to_nat (br_offset r) <= length (br_data r))%nat
}.

Definition reads {A : Type} (m : Reader A) (bytes : list byte) (a : A) : Prop :=
  forall r rest, stands r (bytes ++ rest) -> exists r', m r = (Ok a, r') /\ stands r' rest.

(** What [w] writes is read back by [m] as [a], whatever follows. *)
Definition round_trip {A : Type} (w : Writer) (m : Reader A) (a : A) : Prop :=
  exists bytes, writes w bytes /\ reads m bytes a.

(** The interface of a field: on its domain, reading inverts writing. *)
Class Codec {A : Type} (enc : A -> Writer) (dec : Reader A) (dom : A -> Prop) : Prop :=
  codec_round_trip : forall a, dom a -> round_trip (enc a) dec a.

Lemma stands_start (data : list byte) : stands (byte_reader data) data.
Proof. split; [done|by rewrite drop_0|simpl; lia]. Qed.

Lemma stands_advance (r : ByteReader) (bytes rest : list byte) :
  stands r (bytes ++ rest) -> stands (r <| br_offset ::= N.add (size64 bytes) |>) rest.
Proof.
  intros [Hs Hr Hw]. unfold size64. simpl.
  assert (length bytes + length rest = length (br_data r) - N.to_nat (br_offset r))%nat as Hl
    by (by rewrite <- length_app, <- Hr, length_drop).
  split; simpl; [done| |lia].
  replace (N.to_nat (N.of_nat (length bytes) + br_offset r))
    with (N.to_nat (br_offset r) + length bytes)%nat by lia.
  rewrite <- drop_drop, Hr. apply drop_app_length.
Qed.

Lemma stands_enough (r : ByteReader) (bytes rest : list byte) :
  stands r (bytes ++ rest) -> br_need (size64 bytes) r = (true, r).
Proof.
  intros [Hs Hr Hw]. unfold br_need, br_ok, br_remaining. rewrite Hs. simpl.
  apply (f_equal (@length byte)) in Hr. rewrite length_drop, length_app in Hr. unfold size64.
  destruct (N.ltb_spec (N.of_nat (length (br_data r)) - br_offset r) (N.of_nat (length bytes))); [lia|done].
Qed.

Lemma stands_slice (r : ByteReader) (bytes rest : list byte) :
  stands r (bytes ++ rest) -> slice (N.to_nat (br_offset r)) (length bytes) (br_data r) = bytes.
Proof. intros [Hs Hr Hw]. unfold slice. rewrite Hr. apply take_app_length. Qed.

Lemma stands_head (r : ByteReader) (b : byte) (rest : list byte) :
  stands r (b :: rest) -> br_data r !! N.to_nat (br_offset r) = Some b.
Proof.
  intros [Hs Hr Hw]. apply (f_equal (fun l => l !! 0%nat)) in Hr. rewrite lookup_drop in Hr.
  by rewrite Nat.add_0_r in Hr.
Qed.

(** ** Sequencing *)

Lemma writes_then (a b : Writer) (x y : list byte) : writes a x -> writes b y -> writes (a;; b) (x ++ y).
Proof.
  intros Ha Hb s Hs. unfold then_write. rewrite (Ha s Hs), Hb by done. simpl. by rewrite <- app_assoc.
Qed.

Lemma writes_nothing : writes (fun w => w) [].
Proof. intros [b s] Hs. simpl in *. by rewrite app_nil_r, Hs. Qed.

Lemma reads_ret {A : Type} (a : A) : reads (br_ret a) [] a.
Proof. intros r rest H. by exists r. Qed.

Lemma reads_bind {A B : Type} (m : Reader A) (k : A -> Reader B) (x y : list byte) (a : A) (b : B) :
  reads m x a -> reads (k a) y b -> reads (br_bind m k) (x ++ y) b.
Proof.
  intros Hm Hk r rest H. rewrite <- app_assoc in H. destruct (Hm r _ H) as (r' & E & H').
  unfold br_bind. rewrite E. by apply Hk.
Qed.

Lemma reads_bind_ret {A B : Type} (m : Reader A) (k : A -> Reader B) (x : list byte) (a : A) (b : B) :
  reads m x a -> reads (k a) [] b -> reads (br_bind m k) x b.
Proof. intros Hm Hk. rewrite <- (app_nil_r x). by eapply reads_bind. Qed.

Lemma reads_check : reads br_check [] tt.
Proof. intros r rest H. exists r. split; [|done]. unfold br_check. by rewrite (st_ok _ _ H). Qed.

Lemma reads_guard (b : bool) (c : ErrCode) (m : string) : b = false -> reads (br_guard b c m) [] tt.
Proof. intros ->. apply reads_ret. Qed.

Lemma reads_lift {A : Type} (x : Result A) (a : A) : x = Ok a -> reads (br_lift x) [] a.
Proof. intros -> r rest H. by exists r. Qed.

Lemma round_trip_then {A B : Type} (w1 w2 : Writer) (m : Reader A) (k : A -> Reader B) (a : A) (b : B) :
  round_trip w1 m a -> round_trip w2 (k a) b -> round_trip (w1;; w2) (br_bind m k) b.
Proof.
  intros (x & Hw1 & Hr1) (y & Hw2 & Hr2). exists (x ++ y).
  split; [by apply writes_then|by eapply reads_bind].
Qed.

(** The last field, followed by steps that consume nothing. *)
Lemma round_trip_last {A B : Type} (w : Writer) (m : Reader A) (k : A -> Reader B) (a : A) (b : B) :
  round_trip w m a -> reads (k a) [] b -> round_trip w (br_bind m k) b.
Proof. intros (x & Hw & Hr) Hk. exists x. split; [done|by eapply reads_bind_ret]. Qed.

(** A whole payload: the encoder succeeds and the decoder returns the value. *)
Lemma round_trip_run {A : Type} (w : Writer) (m : Reader A) (a : A) :
  round_trip w m a -> exists bytes, bw_finish w = Ok bytes /\ br_run m bytes = Ok a.
Proof.
  intros (x & Hw & Hr). exists x. unfold bw_finish, br_run. rewrite !Hw by reflexivity. split; [reflexivity|].
  destruct (Hr (byte_reader x) []) as (r' & E & _); [by rewrite app_nil_r; apply stands_start|].
  by rewrite E.
Qed.

(** ** The fields *)

Lemma reads_u8 (b : byte) : reads br_u8 [b] (N_of_byte b).
Proof.
  intros r rest H. unfold br_u8. pose proof (stands_enough r [b] rest H) as E.
  change (size64 [b]) with 1 in E. rewrite E. rewrite (stands_head r b rest H). simpl.
  eexists. split; [done|]. rewrite <- N.add_1_l. exact (stands_advance r [b] rest H).
Qed.

Lemma writes_u8 (v : N) : writes (bw_u8 v) [byte_of_N v].
Proof. intros [b s] Hs. simpl in *. by subst. Qed.

Fixpoint shifts_of (n : nat) (s : N) : list N :=
  match n with O => [] | S n' => s :: shifts_of n' (s + 8) end.

Lemma writes_shifts (n : nat) (s v : N) : writes (bw_shifts v (shifts_of n s)) (le_put n s v).
Proof.
  revert s. induction n as [|n IH]; intros s; [apply writes_nothing|].
  apply (writes_then _ _ [_] (le_put n (s + 8) v) (writes_u8 _) (IH (s + 8))).
Qed.

Lemma reads_shifts (s acc : N) (bytes : list byte) :
  reads (br_shifts acc (shifts_of (length bytes) s)) bytes (le_get s acc bytes).
Proof.
  revert s acc. induction bytes as [|b bytes IH]; intros s acc; [apply reads_ret|].
  apply (reads_bind _ _ [b] bytes _ _ (reads_u8 b)). apply IH.
Qed.

Lemma round_trip_shifts (n : nat) (v : N) :
  v < 2 ^ (8 * N.of_nat n) -> round_trip (bw_shifts v (shifts_of n 0)) (br_shifts 0 (shifts_of n 0)) v.
Proof.
  intros Hv. exists (le_put n 0 v). split; [apply writes_shifts|].
  pose proof (reads_shifts 0 0 (le_put n 0 v)) as H. by rewrite length_le_put, le_get_put in H.
Qed.

#[export] Instance u8_codec : Codec bw_u8 br_u8 u8_ok.
Proof.
  intros v Hv. exists [byte_of_N v]. split; [apply writes_u8|]. pose proof (reads_u8 (byte_of_N v)) as H.
  by rewrite N_of_byte_of_N, N.mod_small in H.
Qed.

#[export] Instance u16_codec : Codec bw_u16 br_u16 u16_ok.
Proof.
  intros v Hv. exists (le_put 2 0 v). split.
  - change (le_put 2 0 v) with ([byte_of_N (N.land (N.shiftr v 0) 255)] ++ [byte_of_N (N.land (N.shiftr v 8) 255)]).
    rewrite N.shiftr_0_r. apply writes_then; apply writes_u8.
  - intros r rest H. destruct (reads_shifts 0 0 (le_put 2 0 v) r rest H) as (r' & E & H').
    exists r'. split; [|exact H']. rewrite le_get_put in E by exact Hv. revert E.
    unfold br_u16, br_shifts, shifts_of, br_bind. rewrite length_le_put.
    assert (Hb : forall q, exists n, (br_u8 q).1 = Ok n /\ n < 256).
    { intros q. unfold br_u8. destruct (br_need 1 q) as [[] q']; simpl; eexists; (split; [done|]);
        [apply N_of_byte_lt|lia]. }
    destruct (Hb r) as (lo & El & Hlo). destruct (br_u8 r) as [x q]. simpl in El. subst x.
    destruct (Hb q) as (hi & Eh & Hhi). destruct (br_u8 q) as [y q']. simpl in Eh. subst y.
    unfold br_ret. rewrite N.shiftl_0_r, N.lor_0_l. change (0 + 8) with 8.
    unfold w16. rewrite N.mod_small; [done|]. rewrite N.shiftl_mul_pow2. change (2 ^ 8) with 256. lia.
Qed.

#[export] Instance u32_codec : Codec bw_u32 br_u32 u32_ok.
Proof. intros v Hv. exact (round_trip_shifts 4 v Hv). Qed.

#[export] Instance u64_codec : Codec bw_u64 br_u64 u64_ok.
Proof. intros v Hv. exact (round_trip_shifts 8 v Hv). Qed.

#[export] Instance i64_codec : Codec bw_i64 br_i64 i64_ok.
Proof.
  intros v Hv. unfold bw_i64, br_i64. unfold i64_ok, i64_min, i64_max in Hv.
  assert (u64_ok (Z.to_N (v mod 2 ^ 64))) as Hw.
  { unfold u64_ok. pose proof (Z.mod_pos_bound v (2 ^ 64)). lia. }
  eapply round_trip_last; [by apply u64_codec|]. intros r rest H. exists r. split; [|done].
  unfold br_ret, i64_of_u64. f_equal. f_equal.
  destruct (Z.lt_ge_cases v 0) as [Hn|Hn].
  - assert (v mod 2 ^ 64 = v + 2 ^ 64)%Z as -> by (rewrite <- (Z.mod_add v 1), Z.mod_small; lia).
    destruct (N.ltb_spec (Z.to_N (v + 2 ^ 64)) (2 ^ 63)); lia.
  - rewrite Z.mod_small by lia. destruct (N.ltb_spec (Z.to_N v) (2 ^ 63)); lia.
Qed.

#[export] Instance boolean_codec : Codec bw_boolean br_boolean (fun _ => True).
Proof.
  intros v _. unfold br_boolean. eapply round_trip_last; [apply u8_codec; by destruct v|].
  intros r rest H. exists r. by destruct v.
Qed.

Lemma writes_raw (bytes : list byte) : writes (bw_raw bytes) bytes.
Proof. intros [b s] Hs. simpl in *. unfold bw_raw, bw_ok. simpl. by rewrite Hs. Qed.

Lemma reads_take (bytes : list byte) : reads (br_take (size64 bytes)) bytes bytes.
Proof.
  intros r rest H. unfold br_take. rewrite (stands_enough r bytes rest H). eexists.
  split; [|apply (stands_advance r bytes rest H)]. unfold size64. rewrite Nat2N.id.
  by rewrite (stands_slice r bytes rest H).
Qed.

Lemma reads_prefixed (max_len : N) (message : string) (bytes : list byte) :
  size64 bytes <= max_len -> size64 bytes < 2 ^ 32 ->
  reads (br_prefixed max_len message) (le_put 4 0 (size64 bytes) ++ bytes) bytes.
Proof.
  intros Hm Hb. eapply reads_bind.
  { pose proof (reads_shifts 0 0 (le_put 4 0 (size64 bytes))) as H.
    rewrite length_le_put, le_get_put in H by done. exact H. }
  intros r rest H. unfold br_ok. rewrite (st_ok _ _ H). simpl.
  destruct (N.ltb_spec max_len (size64 bytes)); [lia|]. by apply reads_take.
Qed.

Lemma string_bytes_length (s : string) : size64 (bytes_of_string s) = N.of_nat (String.length s).
Proof.
  unfold size64, bytes_of_string, String.list_byte_of_string. f_equal. rewrite length_map.
  induction s as [|c s IH]; [done|]. simpl. by rewrite IH.
Qed.

Lemma string_bytes_roundtrip (s : string) : string_of_bytes (bytes_of_string s) = s.
Proof. apply String.string_of_list_byte_of_string. Qed.

Lemma writes_text (s : string) (max_len : N) :
  N.of_nat (String.length s) <= max_len -> N.of_nat (String.length s) < 2 ^ 32 ->
  writes (bw_text s max_len) (le_put 4 0 (size64 (bytes_of_string s)) ++ bytes_of_string s).
Proof.
  intros Hm Hb w Hw. unfold bw_text, bw_ok. rewrite Hw. simpl negb. cbv iota.
  destruct (N.ltb_spec max_len (N.of_nat (String.length s))); [lia|].
  destruct (N.ltb_spec 0xFFFFFFFF (N.of_nat (String.length s))); [lia|].
  rewrite string_bytes_length. simpl orb. cbv iota.
  apply (writes_then _ _ _ _ (writes_shifts 4 0 _) (writes_raw _)), Hw.
Qed.

#[export] Instance text_codec (max_len : N) :
  Codec (fun s => bw_text s max_len) (br_text max_len)
    (fun s => N.of_nat (String.length s) <= max_len /\ max_len < 2 ^ 32).
Proof.
  intros s [Hm Hb]. eexists. split; [apply writes_text; lia|]. unfold br_text. eapply reads_bind_ret.
  - apply reads_prefixed; rewrite string_bytes_length; lia.
  - rewrite string_bytes_roundtrip. apply reads_ret.
Qed.

(** An enumeration written as its underlying word and cast back. *)
#[export] Instance cast_codec {A B : Type} (enc : A -> Writer) (dec : Reader A) (dom : A -> Prop)
    (val : B -> A) (cast : A -> B) `{Codec A enc dec dom} :
  Codec (fun x => enc (val x)) (br_cast cast dec) (fun x => dom (val x) /\ cast (val x) = x).
Proof.
  intros x [Hd Hc]. unfold br_cast. eapply round_trip_last; [by apply codec_round_trip|].
  rewrite Hc. apply reads_ret.
Qed.

(** ** Vectors *)

Lemma round_trip_loop {A B : Type} (enc : A -> Writer) (dec : Reader B) (f : A -> B) (l : list A) (acc : list B) :
  Forall (fun x => round_trip (enc x) dec (f x)) l ->
  round_trip (bw_each enc l) (br_loop (length l) (fun out => let! x := dec in br_ret (out ++ [x])) acc)
    (acc ++ map f l).
Proof.
  revert acc. induction l as [|x l IH]; intros acc Hl; simpl map.
  { rewrite app_nil_r. exists []. split; [apply writes_nothing|apply reads_ret]. }
  apply Forall_cons in Hl as [(bx & Hwx & Hrx) Hl]. destruct (IH (acc ++ [f x]) Hl) as (bs & Hw & Hr).
  exists (bx ++ bs). split.
  - apply (writes_then (enc x) (bw_each enc l) _ _ Hwx Hw).
  - rewrite <- app_assoc in Hr. intros r rest H. cbn [br_loop length].
    unfold br_ok. rewrite (st_ok _ _ H). revert r rest H.
    eapply (reads_bind _ _ bx bs (acc ++ [f x])); [|exact Hr].
    eapply reads_bind_ret; [exact Hrx|apply reads_ret].
Qed.

Lemma round_trip_vector_map {A B : Type} (enc : A -> Writer) (dec : Reader B) (f : A -> B) (l : list A) :
  Forall (fun x => round_trip (enc x) dec (f x)) l ->
  round_trip (bw_each enc l) (br_vector (size64 l) dec) (map f l).
Proof.
  intros Hl. unfold br_vector, size64. rewrite Nat2N.id. by apply (round_trip_loop enc dec f l []).
Qed.

Lemma round_trip_vector {A : Type} (enc : A -> Writer) (dec : Reader A) (l : list A) :
  Forall (fun x => round_trip (enc x) dec x) l ->
  round_trip (bw_each enc l) (br_vector (size64 l) dec) l.
Proof. intros Hl. rewrite <- (map_id l) at 3. by apply round_trip_vector_map. Qed.

Lemma round_trip_count (limit n : N) (message : string) :
  n <= limit -> u64_ok n -> round_trip (bw_u64 n) (br_count limit message) n.
Proof.
  intros Hl Hn. unfold br_count. eapply round_trip_last; [by apply u64_codec|].
  destruct (N.ltb_spec limit n); [lia|]. apply reads_ret.
Qed.

(** ** What a decoding function returns *)

(** Whatever [m] returns satisfies [P]. *)
Definition yields {A : Type} (m : Reader A) (P : A -> Prop) : Prop :=
  forall r a r', m r = (Ok a, r') -> P a.

Lemma yields_bind {A B : Type} (m : Reader A) (k : A -> Reader B) (P : B -> Prop) :
  (forall a, yields (k a) P) -> yields (br_bind m k) P.
Proof. unfold br_bind. intros Hk r b r' H. destruct (m r) as [[e|a] q]; [done|by apply (Hk a q b r')]. Qed.

Lemma yields_then {A B : Type} (m : Reader A) (k : A -> Reader B) (Q : A -> Prop) (P : B -> Prop) :
  yields m Q -> (forall a, Q a -> yields (k a) P) -> yields (br_bind m k) P.
Proof.
  unfold br_bind. intros Hm Hk r b r' H. destruct (m r) as [[e|a] q] eqn:E; [done|]. apply (Hk a) with q r'; [|done].
  by apply (Hm r a q).
Qed.

Lemma yields_guard {B : Type} (b : bool) (c : ErrCode) (s : string) (k : unit -> Reader B) (P : B -> Prop) :
  (b = false -> yields (k tt) P) -> yields (br_bind (br_guard b c s) k) P.
Proof.
  unfold br_bind, br_guard. intros Hk r x r'. destruct b; simpl; [done|]. by apply Hk.
Qed.

Lemma yields_lift {A B : Type} (x : Result A) (k : A -> Reader B) (P : B -> Prop) :
  (forall a, x = Ok a -> yields (k a) P) -> yields (br_bind (br_lift x) k) P.
Proof. unfold br_bind, br_lift. intros Hk r b r'. destruct x as [e|a]; [done|by apply Hk]. Qed.

Lemma yields_lift_last {A : Type} (x : Result A) (P : A -> Prop) :
  (forall a, x = Ok a -> P a) -> yields (br_lift x) P.
Proof. unfold br_lift. intros Hk r b r' [= Hx _]. by apply Hk. Qed.

Lemma yields_ret {A : Type} (a : A) (P : A -> Prop) : P a -> yields (br_ret a) P.
Proof. intros Hp r b r' [= <- _]. done. Qed.

Lemma yields_loop {A : Type} (count : nat) (element : Reader A) (acc : list A) :
  yields (br_loop count (fun out => br_bind element (fun x => br_ret (out ++ [x]))) acc)
    (fun l => (length l <= length acc + count)%nat).
Proof.
  revert acc. induction count as [|count IH]; intros acc; cbn [br_loop]; [apply yields_ret; lia|].
  intros r l r'. destruct (br_ok r); [|by intros [= <- _]; lia].
  refine (yields_then _ _ (fun out => length out = S (length acc))
    (fun l => (length l <= length acc + S count)%nat) _ _ r l r').
  - apply yields_bind. intros x. apply yields_ret. rewrite length_app. cbn [length]. lia.
  - intros out Hout r1 l1 r1' H. apply IH in H. lia.
Qed.

Lemma yields_vector {A : Type} (count : N) (element : Reader A) :
  yields (br_vector count element) (fun l => size64 l <= count).
Proof. intros r l r' H. apply yields_loop in H. unfold size64. cbn [length] in H. lia. Qed.

Lemma yields_count (limit : N) (message : string) : yields (br_count limit message) (fun n => n <= limit).
Proof.
  apply yields_bind. intros n. destruct (N.ltb_spec limit n); [by intros ? ? ?|by apply yields_ret].
Qed.

Lemma yields_run {A : Type} (m : Reader A) (P : A -> Prop) (payload : list byte) (a : A) :
  yields m P -> br_run m payload = Ok a -> P a.
Proof.
  unfold br_run. intros Hm H. destruct (m (byte_reader payload)) as [x q] eqn:E. simpl in H. subst x.
  by eapply Hm.
Qed.

(** Walk through a decoding function, keeping what its checks established. *)
Ltac yield_fields :=
  repeat (cbv beta zeta;
          first [ apply yields_guard; intros ?
                | apply yields_lift; intros ? ?
                | apply yields_ret
                | apply yields_lift_last; intros ? ?
                | apply yields_bind; intros ? ]).

(** ** Automation

    A record codec is proved field by field: [rt_fields] peels the writer and the
    reader together, leaving the domain of each field to the context and the
    steps after the last field to [rt_tail]. *)

Lemma reads_silent {A B : Type} (m : Reader A) (k : A -> Reader B) (a : A) (b : B) :
  reads m [] a -> reads (k a) [] b -> reads (br_bind m k) [] b.
Proof. intros Hm Hk. by apply (reads_bind m k [] [] a b). Qed.

Lemma rt_u8 (v : N) : u8_ok v -> round_trip (bw_u8 v) br_u8 v.
Proof. apply u8_codec. Qed.
Lemma rt_u16 (v : N) : u16_ok v -> round_trip (bw_u16 v) br_u16 v.
Proof. apply u16_codec. Qed.
Lemma rt_u32 (v : N) : u32_ok v -> round_trip (bw_u32 v) br_u32 v.
Proof. apply u32_codec. Qed.
Lemma rt_u64 (v : N) : u64_ok v -> round_trip (bw_u64 v) br_u64 v.
Proof. apply u64_codec. Qed.
Lemma rt_i64 (v : Z) : i64_ok v -> round_trip (bw_i64 v) br_i64 v.
Proof. apply i64_codec. Qed.
Lemma rt_boolean (v : bool) : round_trip (bw_boolean v) br_boolean v.
Proof. by apply boolean_codec. Qed.
Lemma rt_text (s : string) (max_len : N) :
  N.of_nat (String.length s) <= max_len -> max_len < 2 ^ 32 ->
  round_trip (bw_text s max_len) (br_text max_len) s.
Proof. intros. by apply (text_codec max_len). Qed.
Lemma rt_cast8 {E : Type} (val : E -> N) (cast : N -> E) (x : E) :
  u8_ok (val x) -> cast (val x) = x -> round_trip (bw_u8 (val x)) (br_cast cast br_u8) x.
Proof. intros. by apply (cast_codec bw_u8 br_u8 u8_ok val cast). Qed.
Lemma rt_cast16 {E : Type} (val : E -> N) (cast : N -> E) (x : E) :
  u16_ok (val x) -> cast (val x) = x -> round_trip (bw_u16 (val x)) (br_cast cast br_u16) x.
Proof. intros. by apply (cast_codec bw_u16 br_u16 u16_ok val cast). Qed.

Create HintDb codec.
#[export] Hint Resolve rt_u8 rt_u16 rt_u32 rt_u64 rt_i64 rt_boolean rt_text rt_cast8 rt_cast16
  round_trip_count round_trip_vector : codec.
#[export] Hint Extern 1 (_ < 2 ^ 32) => reflexivity : codec.

(** The integer fields first, by the hypothesis that says the very field fits:
    unification would unfold the bounds of every other hypothesis. *)
Ltac rt_field :=
  first
    [ match goal with
      | |- round_trip (bw_u64 _) br_u64 _ => apply rt_u64; same_fact
      | |- round_trip (bw_u64 _) (br_count _ _) _ => apply round_trip_count; same_fact
      | |- round_trip (bw_u32 _) _ _ => apply rt_u32; same_fact
      | |- round_trip (bw_boolean _) _ _ => apply rt_boolean
      | |- round_trip (bw_u8 _) (br_cast _ _) _ => apply rt_cast8; [same_fact|solve [eauto with ncf]]
      | |- round_trip (bw_u16 _) (br_cast _ _) _ => apply rt_cast16; [same_fact|solve [eauto with ncf]]
      end
    | same_fact
    | solve [eauto with codec ncf] ].
Ltac rt_fields :=
  repeat (eapply round_trip_then; [rt_field|]; cbv beta);
  eapply round_trip_last; [rt_field|]; cbv beta.
Ltac rt_tail :=
  repeat (eapply reads_silent; [first [apply reads_check | apply reads_ret]|]; cbv beta); try apply reads_ret.
