(* ===== verification/Evidence.v ===== *)
(** * Evidence: include/ncf/model/evidence.hpp and src/model/evidence.cpp

    Metric sets (sorted, duplicate-free, bounded), evidence samples and batches,
    and the content identities computed from them. *)

From S2P Require Import Prelude Core Enums OMap.

Open Scope N_scope.

Record MetricReading := mkMetricReading { mr_kind : MetricKind; mr_value : N }.

#[export] Instance MetricReading_eq_dec : EqDecision MetricReading.
Proof. solve_decision. Defined.

(** [MetricSet] is its private vector [readings_]. *)
Definition metric_before (probe : MetricKind) (r : MetricReading) : bool :=
  metric_ltb (mr_kind r) probe.

Definition metric_position (kind : MetricKind) (readings : list MetricReading) : nat :=
  lower_bound (metric_before kind) readings.

Definition metric_has (readings : list MetricReading) (kind : MetricKind) : bool :=
  match readings !! metric_position kind readings with
  | Some r => bool_decide (mr_kind r = kind)
  | None => false
  end.

Definition metric_get (readings : list MetricReading) (kind : MetricKind) : option N :=
  match readings !! metric_position kind readings with
  | Some r => if bool_decide (mr_kind r = kind) then Some (mr_value r) else None
  | None => None
  end.

Definition metric_set (readings : list MetricReading) (kind : MetricKind) (value : N) :
    Result (list MetricReading) :=
  match validate_metric_value kind value with
  | Some reason => fail InvalidArgument reason
  | None =>
      guard (kMaxMetricReadings <=? size64 readings)
        LimitExceeded "metric set exceeds the hard reading bound" (
      guard (metric_has readings kind)
        Duplicate "duplicate metric kind within one sample" (
      Ok (insert_at (metric_position kind readings) (mkMetricReading kind value) readings)))
  end.

Definition metric_fingerprint (readings : list MetricReading) : N :=
  finish (foldl (fun h r => update_u64 (update_u16 h (metric_val (mr_kind r))) (mr_value r))
            (update_u64 hasher (size64 readings)) readings).

Definition kEvidenceFlagNone : N := 0.
Definition kEvidenceFlagResync : N := 2 ^ 0.
Definition kEvidenceFlagHeartbeat : N := 2 ^ 1.
Definition kEvidenceFlagPartial : N := 2 ^ 2.
Definition kEvidenceFlagDegraded : N := 2 ^ 3.

Record EvidenceSample := mkEvidenceSample {
  es_resource : N;
  es_queue : N;
  es_metrics : list MetricReading;
  es_publisher : N;
  es_publisher_boot : N;
  es_epoch : N;
  es_generation : N;
  es_sequence : N;
  es_observed_tick : N;
  es_received_tick : N;
  es_provenance : N;
  es_snapshot : N;
  es_flags : N
}.

#[export] Instance EvidenceSample_settable : Settable EvidenceSample :=
  fields! mkEvidenceSample < es_resource; es_queue; es_metrics; es_publisher;
    es_publisher_boot; es_epoch; es_generation; es_sequence; es_observed_tick;
    es_received_tick; es_provenance; es_snapshot; es_flags >.

#[export] Instance EvidenceSample_eq_dec : EqDecision EvidenceSample.
Proof. solve_decision. Defined.

Definition is_heartbeat (s : EvidenceSample) : bool :=
  negb (N.land (es_flags s) kEvidenceFlagHeartbeat =? 0).
Definition is_partial (s : EvidenceSample) : bool :=
  negb (N.land (es_flags s) kEvidenceFlagPartial =? 0).
Definition is_degraded (s : EvidenceSample) : bool :=
  negb (N.land (es_flags s) kEvidenceFlagDegraded =? 0).

Definition compute_snapshot_id (s : EvidenceSample) : N :=
  let h := update_u64 hasher (es_resource s) in
  let h := update_u64 h (es_queue s) in
  let h := update_u64 h (es_publisher s) in
  let h := update_u64 h (es_publisher_boot s) in
  let h := update_u64 h (es_epoch s) in
  let h := update_u64 h (es_generation s) in
  let h := update_u64 h (es_sequence s) in
  let h := update_u64 h (es_observed_tick s) in
  let h := update_u32 h (es_flags s) in
  finish (update_u64 h (metric_fingerprint (es_metrics s))).

Record EvidenceBatch := mkEvidenceBatch {
  eb_id : N;
  eb_epoch : N;
  eb_provenance : N;
  eb_submitted_tick : N;
  eb_samples : list EvidenceSample
}.

#[export] Instance EvidenceBatch_settable : Settable EvidenceBatch :=
  fields! mkEvidenceBatch < eb_id; eb_epoch; eb_provenance; eb_submitted_tick; eb_samples >.

Definition compute_batch_id (b : EvidenceBatch) : N :=
  let h := update_u64 hasher (eb_epoch b) in
  let h := update_u64 h (eb_provenance b) in
  let h := update_u64 h (eb_submitted_tick b) in
  let h := update_u64 h (size64 (eb_samples b)) in
  finish (foldl (fun h s => update_u64 h (es_snapshot s)) h (eb_samples b)).

Definition compute_provenance_id (kind : ProvenanceKind) (publisher boot epoch recorded_tick : N) : N :=
  let h := update_u16 hasher (provenance_kind_val kind) in
  let h := update_u64 h publisher in
  let h := update_u64 h boot in
  let h := update_u64 h epoch in
  finish (update_u64 h recorded_tick).

(** Origin record attached to durable artifacts; [pv_wall] is [WallStamp]. *)
Record Provenance := mkProvenance {
  pv_id : N;
  pv_kind : ProvenanceKind;
  pv_publisher : N;
  pv_boot : N;
  pv_epoch : N;
  pv_attempt : N;
  pv_recorded_tick : N;
  pv_wall : Z;
  pv_note : string
}.

Definition select_metrics (readings : list MetricReading) (kinds : list MetricKind) :
    list MetricReading :=
  foldl (fun out kind =>
           match metric_get readings kind with
           | Some value => out ++ [mkMetricReading kind value]
           | None => out
           end) [] kinds.

(** ** The metric set invariant *)

Definition reading_before (a b : MetricReading) : Prop :=
  metric_val (mr_kind a) < metric_val (mr_kind b).

(** What [MetricSet] promises of its readings: strictly ordered by kind (so no
    kind occurs twice), each one valid, no more than the hard bound. *)
Record metric_set_ok (l : list MetricReading) : Prop := {
  mso_sorted : StronglySorted reading_before l;
  mso_valid : Forall (fun r => validate_metric_value (mr_kind r) (mr_value r) = None) l;
  mso_bound : size64 l <= kMaxMetricReadings
}.

Lemma metric_set_ok_nil : metric_set_ok [].
Proof. split; [constructor|constructor|done]. Qed.

#[export] Hint Resolve metric_set_ok_nil : ncf.

Lemma metric_set_ok_prefix (l k : list MetricReading) : metric_set_ok (l ++ k) -> metric_set_ok l.
Proof.
  intros [Hs Hv Hb]. split; [|by apply Forall_app in Hv as [? _]|rewrite size64_app in Hb; lia].
  revert Hs. clear. induction l as [|r l IH]; intros Hs; [constructor|].
  apply StronglySorted_inv in Hs as [Hs Hr]. constructor; [by apply IH|]. by apply Forall_app in Hr as [? _].
Qed.

Lemma metric_drop_ge (kind : MetricKind) (l : list MetricReading) :
  StronglySorted reading_before l ->
  Forall (fun r => metric_val kind <= metric_val (mr_kind r)) (drop (metric_position kind l) l).
Proof.
  unfold metric_position. induction l as [|r l IH]; simpl; intros H; [constructor|].
  apply StronglySorted_inv in H as [Hl Hall].
  destruct (metric_before kind r) eqn:E; simpl; [by apply IH|].
  unfold metric_before, metric_ltb in E. reflect_bools.
  constructor; [done|]. eapply Forall_impl; [exact Hall|].
  unfold reading_before. simpl. intros. lia.
Qed.

(** A lookup is a search through the readings. *)
Lemma metric_get_elem (l : list MetricReading) (kind : MetricKind) (v : N) :
  StronglySorted reading_before l ->
  metric_get l kind = Some v <-> mkMetricReading kind v ∈ l.
Proof.
  unfold metric_get, metric_position. induction l as [|r l IH]; simpl; intros Hs.
  { split; [done|]. by intros ?%not_elem_of_nil. }
  apply StronglySorted_inv in Hs as [Hl Hall]. specialize (IH Hl).
  destruct (metric_before kind r) eqn:E; unfold metric_before, metric_ltb in E; reflect_bools; simpl.
  - rewrite IH. rewrite elem_of_cons. split; [by right|]. intros [<-|]; [|done].
    cbn in E. lia.
  - case_bool_decide as Hk.
    + split.
      * intros [= <-]. subst kind. destruct r. constructor.
      * intros [<-|Hin]%elem_of_cons; [done|].
        rewrite Forall_forall in Hall. specialize (Hall _ Hin). unfold reading_before in Hall.
        simpl in Hall. subst kind. lia.
    + split; [done|]. intros [<-|Hin]%elem_of_cons; [done|].
      rewrite Forall_forall in Hall. specialize (Hall _ Hin). unfold reading_before in Hall.
      simpl in Hall. destruct Hk. lia.
Qed.

Lemma metric_has_get (l : list MetricReading) (kind : MetricKind) :
  metric_has l kind = bool_decide (is_Some (metric_get l kind)).
Proof.
  unfold metric_has, metric_get. destruct (l !! _) as [r|]; [|done].
  case_bool_decide; done.
Qed.

Lemma metric_has_elem (l : list MetricReading) (kind : MetricKind) :
  StronglySorted reading_before l ->
  metric_has l kind = true <-> kind ∈ map mr_kind l.
Proof.
  intros Hs. rewrite metric_has_get, bool_decide_eq_true. split.
  - intros [v Hv%metric_get_elem]; [|done]. apply list_elem_of_fmap. by exists (mkMetricReading kind v).
  - intros ([k v] & -> & Hin)%list_elem_of_fmap. exists v. by apply metric_get_elem.
Qed.

Lemma metric_take_lt (kind : MetricKind) (l : list MetricReading) :
  Forall (fun r => metric_val (mr_kind r) < metric_val kind) (take (metric_position kind l) l).
Proof.
  eapply Forall_impl; [apply lower_bound_take|]. unfold metric_before, metric_ltb.
  intros r Hr. simpl in Hr. by reflect_bools.
Qed.

Lemma sorted_app_mid {A : Type} (R : A -> A -> Prop) (l k : list A) (x : A) :
  (forall a b c, R a b -> R b c -> R a c) ->
  StronglySorted R l -> StronglySorted R k ->
  Forall (fun a => R a x) l -> Forall (R x) k -> StronglySorted R (l ++ x :: k).
Proof.
  intros Htr Hl Hk Hlx Hxk. induction l as [|a l IH]; simpl; [by constructor|].
  apply StronglySorted_inv in Hl as [Hl Ha]. apply Forall_cons in Hlx as [Hax Hlx].
  constructor; [by apply IH|]. apply Forall_app. split; [done|]. constructor; [done|].
  eapply Forall_impl; [exact Hxk|]. simpl. intros b. by apply Htr.
Qed.

Lemma sorted_take_drop {A : Type} (R : A -> A -> Prop) (l : list A) (i : nat) :
  StronglySorted R l -> StronglySorted R (take i l) /\ StronglySorted R (drop i l).
Proof.
  revert i. induction l as [|x l IH]; intros [|i] H; simpl;
    [split; constructor|split; constructor|split; [constructor|done]|].
  apply StronglySorted_inv in H as [Hl Hx]. destruct (IH i Hl) as [? ?]. split; [|done].
  constructor; [done|]. by apply Forall_take.
Qed.

(** [set] on a well-formed set: the exact error of every refusal, and on success
    a well-formed set that holds the new reading. *)
Lemma metric_set_Ok (l l' : list MetricReading) (kind : MetricKind) (v : N) :
  metric_set_ok l -> metric_set l kind v = Ok l' ->
  metric_set_ok l' /\ l' ≡ₚ mkMetricReading kind v :: l.
Proof.
  intros [Hs Hv Hb] H. unfold metric_set in H.
  destruct (validate_metric_value kind v) eqn:Hval; [done|]. peel_guards H.
  injection H as <-. split; [|apply insert_at_perm].
  destruct (sorted_take_drop _ l (metric_position kind l) Hs) as [Ht Hd].
  split.
  - unfold insert_at. apply sorted_app_mid; try done.
    + unfold reading_before. intros. lia.
    + apply metric_take_lt.
    + pose proof (metric_drop_ge kind l Hs) as Hge. rewrite Forall_forall in Hge |- *.
      intros r Hr. unfold reading_before. simpl. specialize (Hge r Hr). simpl in Hge.
      destruct (N.eq_dec (metric_val kind) (metric_val (mr_kind r))) as [E|]; [|lia].
      exfalso. apply metric_val_inj in E. subst kind.
      assert (metric_has l (mr_kind r) = true) as Hhas; [|congruence].
      apply metric_has_elem; [done|]. apply list_elem_of_fmap. exists r. split; [done|].
      rewrite <- (take_drop (metric_position (mr_kind r) l) l). apply elem_of_app. by right.
  - rewrite insert_at_perm. by constructor.
  - unfold size64 in *. rewrite insert_at_perm. simpl. reflect_bools.
    unfold kMaxMetricReadings in *. lia.
Qed.

Lemma metric_get_set (l l' : list MetricReading) (kind k : MetricKind) (v : N) :
  metric_set_ok l -> metric_set l kind v = Ok l' ->
  metric_get l' k = if bool_decide (k = kind) then Some v else metric_get l k.
Proof.
  intros Hok H. destruct (metric_set_Ok _ _ _ _ Hok H) as [Hok' Hperm].
  apply option_eq. intros w. rewrite metric_get_elem by apply Hok'. rewrite Hperm, elem_of_cons.
  case_bool_decide as Hk.
  - subst k. split; [|intros [= ->]; by left]. intros [[= ->]|Hin]; [done|].
    exfalso. unfold metric_set in H. destruct (validate_metric_value _ _); [done|]. peel_guards H.
    rewrite (proj2 (metric_has_elem l kind ltac:(apply Hok))) in *; [done|].
    apply list_elem_of_fmap. by exists (mkMetricReading kind w).
  - rewrite <- metric_get_elem by apply Hok. split; [|by right]. intros [[= -> _]|]; done.
Qed.

Lemma select_metrics_acc (l : list MetricReading) (kinds : list MetricKind) (out : list MetricReading) :
  foldl (fun out kind => match metric_get l kind with
           | Some value => out ++ [mkMetricReading kind value] | None => out end) out kinds
  = out ++ select_metrics l kinds.
Proof.
  unfold select_metrics. revert out. induction kinds as [|k kinds IH]; intros out; simpl.
  - by rewrite app_nil_r.
  - destruct (metric_get l k); [|apply IH].
    rewrite IH, (IH [_]). by rewrite <- app_assoc.
Qed.

Lemma select_metrics_elem (l : list MetricReading) (kinds : list MetricKind) (r : MetricReading) :
  r ∈ select_metrics l kinds <-> mr_kind r ∈ kinds /\ metric_get l (mr_kind r) = Some (mr_value r).
Proof.
  induction kinds as [|k kinds IH].
  - unfold select_metrics; simpl. split; [by intros ?%not_elem_of_nil|].
    by intros [?%not_elem_of_nil _].
  - unfold select_metrics. cbn [foldl]. rewrite select_metrics_acc, elem_of_app, IH, elem_of_cons.
    destruct (metric_get l k) as [v|] eqn:E; simpl.
    + rewrite list_elem_of_singleton. split.
      * intros [->|[? ?]]; simpl; tauto.
      * destruct r as [kr vr]. simpl. intros [[<-|Hin] Hg]; [left; congruence|tauto].
    + split.
      * intros [?%not_elem_of_nil|[? ?]]; [done|tauto].
      * intros [[<-|Hin] Hg]; [congruence|tauto].
Qed.

(** ** The metric set as a finite map *)

(** [set] on a well-formed set either adds exactly the new reading, keeping the
    set sorted, duplicate free, valid and bounded, or refuses for the one reason
    that applies. *)
Theorem metric_set_refines (l : list MetricReading) (kind : MetricKind) (v : N)
    (Hok : metric_set_ok l) :
  match metric_set l kind v with
  | Ok l' => metric_set_ok l' /\
      (forall k, metric_get l' k = if bool_decide (k = kind) then Some v else metric_get l k)
  | Err e =>
      (st_code e = InvalidArgument /\ validate_metric_value kind v <> None) \/
      (st_code e = LimitExceeded /\ size64 l = kMaxMetricReadings) \/
      (st_code e = Duplicate /\ is_Some (metric_get l kind))
  end.
Proof.
  destruct (metric_set l kind v) as [e|l'] eqn:H.
  - unfold metric_set, guard in H. destruct (validate_metric_value kind v) as [reason|].
    { injection H as <-. by left. }
    destruct (N.leb_spec kMaxMetricReadings (size64 l)).
    { injection H as <-. right. left. split; [done|]. pose proof (mso_bound l Hok). lia. }
    destruct (metric_has l kind) eqn:Hh; [|done]. injection H as <-. right. right. split; [done|].
    by rewrite metric_has_get, bool_decide_eq_true in Hh.
  - split; [by eapply metric_set_Ok|]. intros k. by apply (metric_get_set l l' kind k v).
Qed.

Lemma metric_set_refines_witness :
  match metric_set [mkMetricReading MkLossRatePpm 5] MkUtilizationPpm 9 with
  | Ok l' => metric_get l' MkLossRatePpm = Some 5
  | Err _ => False
  end.
Proof.
  assert (metric_set_ok [mkMetricReading MkLossRatePpm 5]) as Hok.
  { split; [repeat constructor|repeat constructor|]. cbv. discriminate. }
  exact (proj2 (metric_set_refines [mkMetricReading MkLossRatePpm 5] MkUtilizationPpm 9 Hok) MkLossRatePpm).
Defined.
