(* ===== verification/Authority.v ===== *)
(** * Authority: include/ncf/model/authority.hpp, fence.hpp and src/model/authority.cpp

    Capability sets, the authority vector every decision is bound to, the
    authority check with its refusal reason, and the durable fence and
    revalidation records. *)

From S2P Require Import Prelude Core Enums.

Open Scope N_scope.

(** [AuthoritySet] is its 32-bit word. *)
Definition auth_none : N := 0.
Definition auth_all : N := kAuthorityAllBits.
Definition auth_of (value : Authority) : N := authority_bit value.
Definition auth_grant (bits : N) (value : Authority) : N := N.lor bits (authority_bit value).
Definition auth_revoke (bits : N) (value : Authority) : N :=
  N.land bits (w32 (N.lnot (authority_bit value) 32)).
Definition auth_grants (bits : N) (value : Authority) : bool :=
  negb (N.land bits (authority_bit value) =? 0).
Definition auth_empty (bits : N) : bool := bits =? 0.

Definition kAuthorityNames : list (Authority * string) := [
  (AuObserve, "observe");
  (AuEvaluate, "evaluate");
  (AuPlanInterventions, "plan-interventions");
  (AuReduceAdmissibleBudget, "reduce-admissible-budget");
  (AuRequestRateReduction, "request-rate-reduction");
  (AuRequestPacing, "request-pacing");
  (AuRequestReroute, "request-reroute");
  (AuRequestRebalance, "request-rebalance");
  (AuRequestBackpressure, "request-backpressure");
  (AuProtectCriticalClasses, "protect-critical-classes");
  (AuEnterDegradedMode, "enter-degraded-mode");
  (AuMakeRecoveryPlanEligible, "make-recovery-plan-eligible");
  (AuDurabilityWrite, "durability-write");
  (AuFence, "fence");
  (AuAdvanceEpoch, "advance-epoch");
  (AuMutatePolicy, "mutate-policy")]%string.

Definition authority_describe (bits : N) : string :=
  if bits =? 0 then "none"%string
  else
    let out := foldl (fun out entry =>
      if N.land bits (authority_bit entry.1) =? 0 then out
      else (if String.eqb out "" then entry.2 else out ++ "," ++ entry.2)%string)
      ""%string kAuthorityNames in
    if String.eqb out "" then "none"%string else out.

Record AuthorityVector := mkAuthorityVector {
  av_epoch : N;
  av_generation : N;
  av_policy : N;
  av_policy_fingerprint : N;
  av_coordinator_boot : N;
  av_granted : N;
  av_denied : N;
  av_issued_tick : N;
  av_expires_tick : N;
  av_provenance : N
}.

#[export] Instance AuthorityVector_settable : Settable AuthorityVector :=
  fields! mkAuthorityVector < av_epoch; av_generation; av_policy; av_policy_fingerprint;
    av_coordinator_boot; av_granted; av_denied; av_issued_tick; av_expires_tick; av_provenance >.

#[export] Instance AuthorityVector_eq_dec : EqDecision AuthorityVector.
Proof. solve_decision. Defined.

Definition expired_at (v : AuthorityVector) (now : N) : bool :=
  negb (av_expires_tick v =? 0) && (av_expires_tick v <? now).
Definition valid_at (v : AuthorityVector) (now : N) : bool :=
  valid (av_epoch v) && negb (expired_at v now).
Definition av_allows (v : AuthorityVector) (value : Authority) : bool :=
  auth_grants (av_granted v) value && negb (auth_grants (av_denied v) value).
Definition allows_kind (v : AuthorityVector) (kind : InterventionKind) : bool :=
  negb (bool_decide (required_authority kind = AuNone)) && av_allows v (required_authority kind).

Record AuthorityDecision := mkAuthorityDecision {
  ad_allowed : bool;
  ad_reason : SuppressionReason;
  ad_detail : string
}.

Definition check_authority (v : AuthorityVector) (now : N) (required : Authority) : AuthorityDecision :=
  if bool_decide (required = AuNone) then
    mkAuthorityDecision false SrAuthorityDenied "intervention class maps to no authority bit"
  else if negb (valid (av_epoch v)) then
    mkAuthorityDecision false SrEpochFenced "authority vector is not bound to an epoch"
  else if expired_at v now then
    mkAuthorityDecision false SrAuthorityExpired "authority vector expired before the decision tick"
  else if auth_grants (av_denied v) required then
    mkAuthorityDecision false SrAuthorityDenied "capability is explicitly withheld"
  else if negb (auth_grants (av_granted v) required) then
    mkAuthorityDecision false SrAuthorityDenied "capability was never granted"
  else mkAuthorityDecision true SrNone "".

(** ** include/ncf/model/fence.hpp *)

Record PublisherRegistration := mkPublisherRegistration {
  pr_publisher : N;
  pr_boot : N;
  pr_epoch : N;
  pr_connection : N;
  pr_registered_tick : N;
  pr_last_seen_tick : N;
  pr_last_generation : N;
  pr_last_sequence : N;
  pr_granted : N;
  pr_alive : bool;
  pr_fenced : bool;
  pr_fence_reason : FenceReason;
  pr_provenance : N
}.

#[export] Instance PublisherRegistration_settable : Settable PublisherRegistration :=
  fields! mkPublisherRegistration < pr_publisher; pr_boot; pr_epoch; pr_connection;
    pr_registered_tick; pr_last_seen_tick; pr_last_generation; pr_last_sequence; pr_granted;
    pr_alive; pr_fenced; pr_fence_reason; pr_provenance >.

#[export] Instance PublisherRegistration_eq_dec : EqDecision PublisherRegistration.
Proof. solve_decision. Defined.

Record FenceRecord := mkFenceRecord {
  fr_id : N;
  fr_epoch : N;
  fr_publisher : N;
  fr_boot : N;
  fr_last_generation : N;
  fr_reason : FenceReason;
  fr_issued_tick : N;
  fr_provenance : N;
  fr_detail : string
}.

#[export] Instance FenceRecord_settable : Settable FenceRecord :=
  fields! mkFenceRecord < fr_id; fr_epoch; fr_publisher; fr_boot; fr_last_generation;
    fr_reason; fr_issued_tick; fr_provenance; fr_detail >.

#[export] Instance FenceRecord_eq_dec : EqDecision FenceRecord.
Proof. solve_decision. Defined.

Record RevalidationRecord := mkRevalidationRecord {
  rr_domain : N;
  rr_previous_epoch : N;
  rr_epoch : N;
  rr_restored_state : CongestionState;
  rr_effective_state : CongestionState;
  rr_state_restored : bool;
  rr_authority_restored : bool;
  rr_freshness_restored : bool;
  rr_recorded_tick : N;
  rr_provenance : N;
  rr_detail : string
}.

#[export] Instance RevalidationRecord_eq_dec : EqDecision RevalidationRecord.
Proof. solve_decision. Defined.

(** * Properties *)

Lemma authority_bit_pow (a : Authority) :
  a <> AuNone -> exists k, k < 16 /\ authority_bit a = 2 ^ k.
Proof. destruct a; intros ?; [done|..]; eexists; (split; [|reflexivity]); lia. Qed.

Lemma auth_grants_testbit (bits k : N) (a : Authority) :
  authority_bit a = 2 ^ k -> auth_grants bits a = N.testbit bits k.
Proof.
  intros E. unfold auth_grants. rewrite E.
  destruct (N.testbit bits k) eqn:Hb.
  - apply negb_true_iff, N.eqb_neq. intros H0.
    assert (N.testbit (N.land bits (2 ^ k)) k = false) as Hf by (rewrite H0; apply N.bits_0).
    rewrite N.land_spec, Hb, N.pow2_bits_true in Hf. done.
  - apply negb_false_iff, N.eqb_eq. apply N.bits_inj_0. intros j.
    rewrite N.land_spec. destruct (N.eq_dec j k) as [->|]; [by rewrite Hb|].
    rewrite N.pow2_bits_false by done. apply andb_false_r.
Qed.

(** A capability set is a set: a granted capability is granted, a revoked one is
    not, and neither operation changes any other capability. *)
Lemma auth_grants_grant (bits : N) (a b : Authority) :
  a <> AuNone -> b <> AuNone ->
  auth_grants (auth_grant bits a) b = bool_decide (a = b) || auth_grants bits b.
Proof.
  intros Ha Hb. destruct (authority_bit_pow a Ha) as (i & Hi & Ea).
  destruct (authority_bit_pow b Hb) as (j & Hj & Eb).
  rewrite !(auth_grants_testbit _ j) by done. unfold auth_grant. rewrite Ea, N.lor_spec.
  rewrite orb_comm. f_equal. rewrite N.pow2_bits_eqb.
  destruct (N.eqb_spec i j) as [->|Hne]; symmetry.
  - apply bool_decide_eq_true. destruct a, b; vm_compute in Ea, Eb; congruence.
  - apply bool_decide_eq_false. intros ->. rewrite Ea in Eb. apply N.pow_inj_r in Eb; [done|lia].
Qed.

Lemma auth_grants_revoke (bits : N) (a b : Authority) :
  a <> AuNone -> b <> AuNone ->
  auth_grants (auth_revoke bits a) b = negb (bool_decide (a = b)) && auth_grants bits b.
Proof.
  intros Ha Hb. destruct (authority_bit_pow a Ha) as (i & Hi & Ea).
  destruct (authority_bit_pow b Hb) as (j & Hj & Eb).
  rewrite !(auth_grants_testbit _ j) by done. unfold auth_revoke. rewrite Ea, N.land_spec.
  unfold w32. rewrite N.mod_pow2_bits_low by lia.
  rewrite N.lnot_spec_low by lia. rewrite andb_comm. f_equal. f_equal.
  rewrite N.pow2_bits_eqb. destruct (N.eqb_spec i j) as [->|Hne]; symmetry.
  - apply bool_decide_eq_true. destruct a, b; vm_compute in Ea, Eb; congruence.
  - apply bool_decide_eq_false. intros ->. rewrite Ea in Eb. apply N.pow_inj_r in Eb; [done|lia].
Qed.

(** The check allows exactly what the vector allows while it is valid. *)
Lemma check_authority_allowed (v : AuthorityVector) (now : N) (required : Authority) :
  ad_allowed (check_authority v now required)
  = negb (bool_decide (required = AuNone)) && valid_at v now && av_allows v required.
Proof.
  unfold check_authority, valid_at, av_allows. case_bool_decide; simpl; [done|].
  destruct (valid (av_epoch v)), (expired_at v now), (auth_grants (av_denied v) required),
    (auth_grants (av_granted v) required); done.
Qed.

(** A refusal always names a reason. *)
Lemma check_authority_reason (v : AuthorityVector) (now : N) (required : Authority) :
  ad_allowed (check_authority v now required) = true
  <-> ad_reason (check_authority v now required) = SrNone.
Proof. unfold check_authority. repeat split_match; simpl; split; congruence. Qed.
