(* ===== verification/Policy.v ===== *)
(** * Policy: include/ncf/model/policy.hpp and src/model/policy.cpp

    The versioned congestion policy: threshold rules and their classification
    with and without the downgrade margin, the fingerprint over every
    decision-relevant field, validation and the default policy. *)

From S2P Require Import Prelude Core Enums Authority.

Open Scope N_scope.

(** ** Data *)

(** [OpRaw] is any other byte a decoded policy can carry. *)
Inductive ThresholdOp := AtLeast | AtMost | OpRaw (v : N).

#[export] Instance ThresholdOp_eq_dec : EqDecision ThresholdOp.
Proof. solve_decision. Defined.

Definition op_val (o : ThresholdOp) : N :=
  match o with AtLeast => 0 | AtMost => 1 | OpRaw v => 2 + v end.
Definition op_of (v : N) : ThresholdOp :=
  match v with 0 => AtLeast | 1 => AtMost | _ => OpRaw (v - 2) end.

Record ThresholdRule := mkThresholdRule {
  tr_metric : MetricKind;
  tr_op : ThresholdOp;
  tr_watch : N;
  tr_congested : N;
  tr_severe : N;
  tr_required : bool;
  tr_max_age_ticks : N;
  tr_weight : N
}.

#[export] Instance ThresholdRule_eq_dec : EqDecision ThresholdRule.
Proof. solve_decision. Defined.

Record HysteresisPolicy := mkHysteresisPolicy {
  hp_escalate_samples : N;
  hp_deescalate_samples : N;
  hp_min_dwell_ticks : N;
  hp_downgrade_margin_ppm : N;
  hp_require_all_rules_agree_on_downgrade : bool;
  hp_apply_dwell_on_escalation : bool
}.

Record RecoveryPolicy := mkRecoveryPolicy {
  rp_enabled : bool;
  rp_min_improved_samples : N;
  rp_allow_single_sample : bool;
  rp_clear_samples : N;
  rp_recovering_hold_ticks : N
}.

Record PropagationPolicy := mkPropagationPolicy {
  pp_enabled : bool;
  pp_max_depth : N;
  pp_decay_ppm : N;
  pp_max_induced_severity : Severity;
  pp_follow_links : bool;
  pp_follow_paths : bool;
  pp_min_pressure_ppm : N
}.

Record FreshnessPolicy := mkFreshnessPolicy {
  fp_default_max_age_ticks : N;
  fp_max_future_skew_ticks : N;
  fp_heartbeat_refreshes_freshness : bool
}.

Inductive ContradictionMode := CmReject | CmPreferHighestPriority | CmPreferNewest | CmRaw (v : N).

#[export] Instance ContradictionMode_eq_dec : EqDecision ContradictionMode.
Proof. solve_decision. Defined.

Definition cmode_val (m : ContradictionMode) : N :=
  match m with
  | CmReject => 0 | CmPreferHighestPriority => 1 | CmPreferNewest => 2 | CmRaw v => 3 + v
  end.
Definition cmode_of (v : N) : ContradictionMode :=
  match v with
  | 0 => CmReject | 1 => CmPreferHighestPriority | 2 => CmPreferNewest | _ => CmRaw (v - 3)
  end.

Record ContradictionPolicy := mkContradictionPolicy {
  cp_mode : ContradictionMode;
  cp_absolute_tolerance : N;
  cp_relative_tolerance_ppm : N;
  cp_min_distinct_publishers : N;
  cp_priority_order : list N
}.

Record InterventionRule := mkInterventionRule {
  ir_at_least : Severity;
  ir_kind : InterventionKind;
  ir_target_class : N;
  ir_target_domain : N;
  ir_require_fresh_evidence : bool;
  ir_require_authoritative_state : bool;
  ir_parameter_min : N;
  ir_parameter_max : N;
  ir_parameter_default : N;
  ir_priority : N;
  ir_min_repeat_interval_ticks : N
}.

#[export] Instance InterventionRule_eq_dec : EqDecision InterventionRule.
Proof. solve_decision. Defined.

Record PolicyLimits := mkPolicyLimits {
  pl_max_resources_per_domain : N;
  pl_max_metrics_per_sample : N;
  pl_max_paths_considered : N;
  pl_max_domain_depth : N;
  pl_max_explanation_entries : N;
  pl_max_interventions_per_plan : N;
  pl_max_conflict_reports : N;
  pl_max_stale_reports : N
}.

Record CongestionPolicy := mkCongestionPolicy {
  cpol_id : N;
  cpol_version : N;
  cpol_name : string;
  cpol_rules : list ThresholdRule;
  cpol_hysteresis : HysteresisPolicy;
  cpol_recovery : RecoveryPolicy;
  cpol_propagation : PropagationPolicy;
  cpol_freshness : FreshnessPolicy;
  cpol_contradiction : ContradictionPolicy;
  cpol_interventions : list InterventionRule;
  cpol_limits : PolicyLimits;
  cpol_min_agreeing_rules_for_watch : N;
  cpol_min_agreeing_rules_for_congested : N;
  cpol_min_agreeing_rules_for_severe : N;
  cpol_fingerprint : N
}.

#[export] Instance CongestionPolicy_settable : Settable CongestionPolicy :=
  fields! mkCongestionPolicy < cpol_id; cpol_version; cpol_name; cpol_rules; cpol_hysteresis;
    cpol_recovery; cpol_propagation; cpol_freshness; cpol_contradiction; cpol_interventions;
    cpol_limits; cpol_min_agreeing_rules_for_watch; cpol_min_agreeing_rules_for_congested;
    cpol_min_agreeing_rules_for_severe; cpol_fingerprint >.

Definition kMaxPolicyNameBytes : N := 256.

(** ** Classification *)

Definition margin_of (threshold margin_ppm : N) : N :=
  w64 (w64 ((threshold / 1000000) * margin_ppm) + w64 ((threshold mod 1000000) * margin_ppm) / 1000000).

Definition scale_down_by_margin (threshold margin_ppm : N) : N :=
  let drop := margin_of threshold margin_ppm in
  if drop <? threshold then threshold - drop else 0.

Definition scale_up_by_margin (threshold margin_ppm : N) : N :=
  saturating_add threshold (margin_of threshold margin_ppm).

Record RuleShape := mkRuleShape { rs_watch : N; rs_congested : N; rs_severe : N }.

Definition shape (rule : ThresholdRule) (margin_ppm : N) : RuleShape :=
  if margin_ppm =? 0 then mkRuleShape (tr_watch rule) (tr_congested rule) (tr_severe rule)
  else if bool_decide (tr_op rule = AtLeast) then
    mkRuleShape (scale_down_by_margin (tr_watch rule) margin_ppm)
      (scale_down_by_margin (tr_congested rule) margin_ppm)
      (scale_down_by_margin (tr_severe rule) margin_ppm)
  else
    mkRuleShape (scale_up_by_margin (tr_watch rule) margin_ppm)
      (scale_up_by_margin (tr_congested rule) margin_ppm)
      (scale_up_by_margin (tr_severe rule) margin_ppm).

Definition classify_shape (rule : ThresholdRule) (bounds : RuleShape) (value : N) : Severity :=
  if bool_decide (tr_op rule = AtLeast) then
    if rs_severe bounds <=? value then SevSevere
    else if rs_congested bounds <=? value then SevCongested
    else if rs_watch bounds <=? value then SevWatch
    else SevClear
  else
    if value <=? rs_severe bounds then SevSevere
    else if value <=? rs_congested bounds then SevCongested
    else if value <=? rs_watch bounds then SevWatch
    else SevClear.

(** [ThresholdRule::classify]. *)
Definition classify (rule : ThresholdRule) (value : N) : Severity :=
  if tr_weight rule =? 0 then SevClear
  else classify_shape rule (mkRuleShape (tr_watch rule) (tr_congested rule) (tr_severe rule)) value.

Definition classify_rule_with_margin (rule : ThresholdRule) (value margin_ppm : N) : Severity :=
  if tr_weight rule =? 0 then SevClear
  else classify_shape rule (shape rule margin_ppm) value.

Fixpoint max_age_in (default : N) (rules : list ThresholdRule) (kind : MetricKind) : N :=
  match rules with
  | [] => default
  | rule :: rest =>
      if bool_decide (tr_metric rule = kind) && negb (tr_max_age_ticks rule =? 0)
      then tr_max_age_ticks rule else max_age_in default rest kind
  end.

Definition max_age_for (p : CongestionPolicy) (kind : MetricKind) : N :=
  max_age_in (fp_default_max_age_ticks (cpol_freshness p)) (cpol_rules p) kind.

(** ** Fingerprint *)

Definition fingerprint_rule (h : N) (rule : ThresholdRule) : N :=
  let h := update_u16 h (metric_val (tr_metric rule)) in
  let h := update_u8 h (op_val (tr_op rule)) in
  let h := update_u64 h (tr_watch rule) in
  let h := update_u64 h (tr_congested rule) in
  let h := update_u64 h (tr_severe rule) in
  let h := update_bool h (tr_required rule) in
  let h := update_u64 h (tr_max_age_ticks rule) in
  update_u32 h (tr_weight rule).

Definition fingerprint_intervention (h : N) (rule : InterventionRule) : N :=
  let h := update_u8 h (sev_val (ir_at_least rule)) in
  let h := update_u8 h (intervention_val (ir_kind rule)) in
  let h := update_u64 h (ir_target_class rule) in
  let h := update_u64 h (ir_target_domain rule) in
  let h := update_bool h (ir_require_fresh_evidence rule) in
  let h := update_bool h (ir_require_authoritative_state rule) in
  let h := update_u64 h (ir_parameter_min rule) in
  let h := update_u64 h (ir_parameter_max rule) in
  let h := update_u64 h (ir_parameter_default rule) in
  let h := update_u32 h (ir_priority rule) in
  update_u64 h (ir_min_repeat_interval_ticks rule).

Definition fingerprint_hysteresis (h : N) (p : HysteresisPolicy) : N :=
  let h := update_u32 h (hp_escalate_samples p) in
  let h := update_u32 h (hp_deescalate_samples p) in
  let h := update_u64 h (hp_min_dwell_ticks p) in
  let h := update_u32 h (hp_downgrade_margin_ppm p) in
  let h := update_bool h (hp_require_all_rules_agree_on_downgrade p) in
  update_bool h (hp_apply_dwell_on_escalation p).

Definition fingerprint_recovery (h : N) (p : RecoveryPolicy) : N :=
  let h := update_bool h (rp_enabled p) in
  let h := update_u32 h (rp_min_improved_samples p) in
  let h := update_bool h (rp_allow_single_sample p) in
  let h := update_u32 h (rp_clear_samples p) in
  update_u64 h (rp_recovering_hold_ticks p).

Definition fingerprint_propagation (h : N) (p : PropagationPolicy) : N :=
  let h := update_bool h (pp_enabled p) in
  let h := update_u32 h (pp_max_depth p) in
  let h := update_u32 h (pp_decay_ppm p) in
  let h := update_u8 h (sev_val (pp_max_induced_severity p)) in
  let h := update_bool h (pp_follow_links p) in
  let h := update_bool h (pp_follow_paths p) in
  update_u32 h (pp_min_pressure_ppm p).

Definition fingerprint_contradiction (h : N) (p : ContradictionPolicy) : N :=
  let h := update_u8 h (cmode_val (cp_mode p)) in
  let h := update_u64 h (cp_absolute_tolerance p) in
  let h := update_u32 h (cp_relative_tolerance_ppm p) in
  let h := update_u64 h (cp_min_distinct_publishers p) in
  let h := update_u64 h (size64 (cp_priority_order p)) in
  foldl update_u64 h (cp_priority_order p).

Definition fingerprint_limits (h : N) (l : PolicyLimits) : N :=
  let h := update_u64 h (pl_max_resources_per_domain l) in
  let h := update_u64 h (pl_max_metrics_per_sample l) in
  let h := update_u64 h (pl_max_paths_considered l) in
  let h := update_u32 h (pl_max_domain_depth l) in
  let h := update_u64 h (pl_max_explanation_entries l) in
  let h := update_u64 h (pl_max_interventions_per_plan l) in
  let h := update_u64 h (pl_max_conflict_reports l) in
  update_u64 h (pl_max_stale_reports l).

Definition fingerprint_policy (p : CongestionPolicy) : N :=
  let h := update_u64 hasher (cpol_id p) in
  let h := update_u32 h (cpol_version p) in
  let h := update_text_framed h (cpol_name p) in
  let h := update_u64 h (size64 (cpol_rules p)) in
  let h := foldl fingerprint_rule h (cpol_rules p) in
  let h := fingerprint_hysteresis h (cpol_hysteresis p) in
  let h := fingerprint_recovery h (cpol_recovery p) in
  let h := fingerprint_propagation h (cpol_propagation p) in
  let h := update_u64 h (fp_default_max_age_ticks (cpol_freshness p)) in
  let h := update_u64 h (fp_max_future_skew_ticks (cpol_freshness p)) in
  let h := update_bool h (fp_heartbeat_refreshes_freshness (cpol_freshness p)) in
  let h := fingerprint_contradiction h (cpol_contradiction p) in
  let h := update_u64 h (size64 (cpol_interventions p)) in
  let h := foldl fingerprint_intervention h (cpol_interventions p) in
  let h := fingerprint_limits h (cpol_limits p) in
  let h := update_u32 h (cpol_min_agreeing_rules_for_watch p) in
  let h := update_u32 h (cpol_min_agreeing_rules_for_congested p) in
  finish (update_u32 h (cpol_min_agreeing_rules_for_severe p)).

(** ** Validation *)

Definition reject_if (b : bool) (message : string) (k : Result unit) : Result unit :=
  guard b PolicyRejected message k.

(** One iteration of the rule loop, after the duplicate check. *)
Definition validate_threshold_rule (default_max_age : N) (rule : ThresholdRule) : Result unit :=
  reject_if (tr_weight rule =? 0) "threshold rule has a zero weight" (
  let plausible := metric_plausible_max (tr_metric rule) in
  reject_if ((plausible <? tr_watch rule) || (plausible <? tr_congested rule)
             || (plausible <? tr_severe rule))
    "threshold rule exceeds the metric plausible range" (
  reject_if (bool_decide (tr_op rule = AtLeast)
             && negb ((tr_watch rule <=? tr_congested rule) && (tr_congested rule <=? tr_severe rule)))
    "AtLeast thresholds must be non-decreasing" (
  reject_if (negb (bool_decide (tr_op rule = AtLeast))
             && negb ((tr_severe rule <=? tr_congested rule) && (tr_congested rule <=? tr_watch rule)))
    "AtMost thresholds must be non-increasing" (
  reject_if (w64 (w64 (default_max_age * 1000) + 1) <? tr_max_age_ticks rule)
    "threshold rule freshness override is implausibly large" (Ok tt))))).

Fixpoint validate_threshold_rules (default_max_age : N) (seen : list MetricKind)
    (rules : list ThresholdRule) : Result unit :=
  match rules with
  | [] => Ok tt
  | rule :: rest =>
      reject_if (bool_decide (tr_metric rule = MkUnknown) || bool_decide (tr_metric rule = MkCount))
        "threshold rule names an unknown metric kind" (
      reject_if (bool_decide (tr_metric rule ∈ seen))
        "threshold rule metric kind is duplicated" (
      let? _ := validate_threshold_rule default_max_age rule in
      validate_threshold_rules default_max_age (seen ++ [tr_metric rule]) rest))
  end.

Definition validate_hysteresis (h : HysteresisPolicy) : Result unit :=
  reject_if ((hp_escalate_samples h =? 0) || (kMaxHysteresisSamples <? hp_escalate_samples h))
    "escalation sample count is outside the permitted range" (
  reject_if ((hp_deescalate_samples h =? 0) || (kMaxHysteresisSamples <? hp_deescalate_samples h))
    "de-escalation sample count is outside the permitted range" (
  reject_if (kMaxDwellTicks <? hp_min_dwell_ticks h)
    "hysteresis dwell exceeds the permitted range" (
  reject_if (1000000 <? hp_downgrade_margin_ppm h)
    "downgrade margin exceeds 100 percent" (Ok tt)))).

Definition validate_recovery (r : RecoveryPolicy) : Result unit :=
  reject_if ((rp_min_improved_samples r =? 0) || (kMaxHysteresisSamples <? rp_min_improved_samples r))
    "recovery sample count is outside the permitted range" (
  reject_if (negb (rp_allow_single_sample r) && (rp_min_improved_samples r <? 2))
    "recovery must require at least two improved samples unless single-sample recovery is enabled" (
  reject_if ((rp_clear_samples r =? 0) || (kMaxHysteresisSamples <? rp_clear_samples r))
    "recovery clear sample count is outside the permitted range" (Ok tt))).

Definition validate_propagation (p : PropagationPolicy) : Result unit :=
  reject_if (1000000 <? pp_decay_ppm p) "propagation decay exceeds 100 percent" (
  reject_if (kMaxResourceDepth <? pp_max_depth p) "propagation depth exceeds the hard bound" (
  reject_if (sev_val SevSevere <? sev_val (pp_max_induced_severity p))
    "propagation induced severity is not a valid severity" (Ok tt))).

Definition validate_freshness (f : FreshnessPolicy) : Result unit :=
  reject_if (fp_default_max_age_ticks f =? 0) "freshness default max age must be positive" (
  reject_if (3600000000 <? fp_default_max_age_ticks f)
    "freshness default max age exceeds one hour" (
  reject_if (fp_default_max_age_ticks f <? fp_max_future_skew_ticks f)
    "future skew bound exceeds the freshness bound" (Ok tt))).

Definition validate_contradiction (c : ContradictionPolicy) : Result unit :=
  reject_if (1000000 <? cp_relative_tolerance_ppm c)
    "contradiction relative tolerance exceeds 100 percent" (
  reject_if (cp_min_distinct_publishers c <? 2)
    "contradiction requires at least two distinct publishers" (
  reject_if (kMaxPublishers <? size64 (cp_priority_order c))
    "contradiction priority order exceeds the publisher bound" (Ok tt))).

Definition validate_intervention_rule (rule : InterventionRule) : Result unit :=
  reject_if (bool_decide (ir_kind rule = IkNone) || bool_decide (ir_kind rule = IkCount))
    "intervention rule names an invalid kind" (
  reject_if (bool_decide (required_authority (ir_kind rule) = AuNone))
    "intervention rule maps to no authority bit" (
  reject_if (ir_parameter_max rule <? ir_parameter_min rule)
    "intervention parameter envelope is inverted" (
  reject_if ((ir_parameter_default rule <? ir_parameter_min rule)
             || (ir_parameter_max rule <? ir_parameter_default rule))
    "intervention default parameter is outside its envelope" (
  reject_if (kMaxDwellTicks <? ir_min_repeat_interval_ticks rule)
    "intervention repeat interval exceeds the permitted range" (Ok tt))))).

Fixpoint validate_intervention_rules (rules : list InterventionRule) : Result unit :=
  match rules with
  | [] => Ok tt
  | rule :: rest => let? _ := validate_intervention_rule rule in validate_intervention_rules rest
  end.

Definition validate_limits (l : PolicyLimits) : Result unit :=
  reject_if ((pl_max_resources_per_domain l =? 0)
             || (kMaxResourcesPerDomain <? pl_max_resources_per_domain l))
    "per-domain resource limit is outside the permitted range" (
  reject_if ((pl_max_metrics_per_sample l =? 0) || (kMaxMetricReadings <? pl_max_metrics_per_sample l))
    "per-sample metric limit is outside the permitted range" (
  reject_if (kMaxPathsPerTopology <? pl_max_paths_considered l)
    "path consideration limit exceeds the hard bound" (
  reject_if ((pl_max_domain_depth l =? 0) || (kMaxResourceDepth <? pl_max_domain_depth l))
    "domain depth limit is outside the permitted range" (
  reject_if ((pl_max_explanation_entries l =? 0)
             || (kMaxExplanationEntries <? pl_max_explanation_entries l))
    "explanation entry limit is outside the permitted range" (
  reject_if ((pl_max_interventions_per_plan l =? 0)
             || (kMaxInterventionsPerPlan <? pl_max_interventions_per_plan l))
    "intervention plan limit is outside the permitted range" (
  reject_if (kMaxExplanationEntries <? pl_max_conflict_reports l)
    "conflict report limit exceeds the hard bound" (
  reject_if (kMaxExplanationEntries <? pl_max_stale_reports l)
    "stale report limit exceeds the hard bound" (Ok tt)))))))).

Definition validate_gates (p : CongestionPolicy) : Result unit :=
  reject_if (cpol_min_agreeing_rules_for_watch p =? 0)
    "watch corroboration gate must be at least one" (
  let rule_count := w32 (size64 (cpol_rules p)) in
  reject_if ((rule_count <? cpol_min_agreeing_rules_for_congested p)
             || (rule_count <? cpol_min_agreeing_rules_for_severe p))
    "corroboration gate exceeds the number of threshold rules" (
  reject_if (rule_count <? cpol_min_agreeing_rules_for_watch p)
    "watch corroboration gate exceeds the number of threshold rules" (
  reject_if (cpol_min_agreeing_rules_for_severe p <? cpol_min_agreeing_rules_for_congested p)
    "severe corroboration gate is below the congested gate" (Ok tt)))).

Definition validate_header (p : CongestionPolicy) : Result unit :=
  reject_if (negb (valid (cpol_id p))) "policy id is the null identity" (
  reject_if (cpol_version p =? 0) "policy version must be positive" (
  reject_if (kMaxPolicyNameBytes <? N.of_nat (String.length (cpol_name p)))
    "policy name is longer than the durable text bound" (
  reject_if (kMaxThresholdRules <? size64 (cpol_rules p))
    "policy exceeds the threshold rule bound" (
  reject_if (kMaxInterventionRules <? size64 (cpol_interventions p))
    "policy exceeds the intervention rule bound" (
  reject_if (size64 (cpol_rules p) =? 0) "policy declares no threshold rules" (Ok tt)))))).

(** [validate_policy]: the policy it leaves behind carries its fingerprint. *)
Definition validate_policy (p : CongestionPolicy) : Result CongestionPolicy :=
  let? _ := validate_header p in
  let? _ := validate_threshold_rules (fp_default_max_age_ticks (cpol_freshness p)) [] (cpol_rules p) in
  let? _ := validate_hysteresis (cpol_hysteresis p) in
  let? _ := validate_recovery (cpol_recovery p) in
  let? _ := validate_propagation (cpol_propagation p) in
  let? _ := validate_freshness (cpol_freshness p) in
  let? _ := validate_contradiction (cpol_contradiction p) in
  let? _ := validate_intervention_rules (cpol_interventions p) in
  let? _ := validate_limits (cpol_limits p) in
  let? _ := validate_gates p in
  Ok (p <| cpol_fingerprint := fingerprint_policy p |>).

Definition default_rule (metric : MetricKind) (watch congested severe : N) (required : bool) :
    ThresholdRule :=
  mkThresholdRule metric AtLeast watch congested severe required 0 1.

Definition default_intervention (at_least : Severity) (kind : InterventionKind)
    (pmin pmax pdefault priority : N) : InterventionRule :=
  mkInterventionRule at_least kind 0 0 true true pmin pmax pdefault priority 0.

Definition make_default_policy : CongestionPolicy :=
  let p := mkCongestionPolicy 0x4E43465F44454631 1 "ncf-default-v1"
    [ default_rule MkUtilizationPpm 700000 850000 950000 true;
      default_rule MkQueueOccupancyPpm 150000 500000 850000 false;
      default_rule MkLossRatePpm 1000 20000 200000 false;
      default_rule MkLatencyMicros 2000 10000 50000 false ]
    (mkHysteresisPolicy 1 3 0 50000 true false)
    (mkRecoveryPolicy true 2 false 2 0)
    (mkPropagationPolicy true 1 500000 SevWatch true true 1)
    (mkFreshnessPolicy 1000000 1000 false)
    (mkContradictionPolicy CmReject 0 10000 2 [])
    [ default_intervention SevCongested IkReduceAdmissibleBudget 100000 900000 500000 10;
      default_intervention SevCongested IkRequestReroute 1 100 25 20;
      default_intervention SevSevere IkProtectCriticalClasses 100000 1000000 500000 5;
      default_intervention SevSevere IkEnterDegradedMode 1 1 1 1;
      default_intervention SevWatch IkMakeRecoveryPlanEligible 1 1 1 200 ]
    (mkPolicyLimits 4096 kMaxMetricReadings 1024 8 1024 64 32 64)
    1 2 2 0 in
  p <| cpol_fingerprint := fingerprint_policy p |>.

(** * Properties *)

(** ** Classification *)

Lemma scale_down_le (t m : N) : scale_down_by_margin t m <= t.
Proof. unfold scale_down_by_margin. destruct (N.ltb_spec (margin_of t m) t); lia. Qed.

Lemma scale_up_ge (t m : N) : u64_ok t -> t <= scale_up_by_margin t m.
Proof. intros Ht. apply saturating_add_ge; [done|]. apply w64_ok. Qed.

(** Thresholds a rule actually carries are 64-bit words. *)
Definition rule_words (rule : ThresholdRule) : Prop :=
  u64_ok (tr_watch rule) /\ u64_ok (tr_congested rule) /\ u64_ok (tr_severe rule).

(** The relaxed thresholds of [shape] are on the lenient side of the rule's. *)
Lemma shape_lenient (rule : ThresholdRule) (m : N) :
  rule_words rule ->
  let s := shape rule m in
  if bool_decide (tr_op rule = AtLeast)
  then rs_watch s <= tr_watch rule /\ rs_congested s <= tr_congested rule /\ rs_severe s <= tr_severe rule
  else tr_watch rule <= rs_watch s /\ tr_congested rule <= rs_congested s /\ tr_severe rule <= rs_severe s.
Proof.
  intros (? & ? & ?). unfold shape. destruct (m =? 0); simpl; [by case_bool_decide|].
  case_bool_decide; simpl; repeat split; first [apply scale_down_le | by apply scale_up_ge].
Qed.

Ltac classify_cases :=
  repeat match goal with
  | |- context [N.leb ?a ?b] => destruct (N.leb_spec a b); simpl; try done; try lia
  end.

Lemma classify_margin_lenient (rule : ThresholdRule) (value m : N) :
  rule_words rule ->
  sev_leb (classify rule value) (classify_rule_with_margin rule value m) = true.
Proof.
  intros Hw. pose proof (shape_lenient rule m Hw) as Hs. cbv zeta in Hs.
  unfold classify, classify_rule_with_margin. destruct (tr_weight rule =? 0); [done|].
  unfold classify_shape. simpl. case_bool_decide; classify_cases.
Qed.

(** Severity follows the reading in the rule's direction. *)
Lemma classify_monotone (rule : ThresholdRule) (value value' : N) :
  value <= value' ->
  if bool_decide (tr_op rule = AtLeast)
  then sev_leb (classify rule value) (classify rule value') = true
  else sev_leb (classify rule value') (classify rule value) = true.
Proof.
  intros H. unfold classify, classify_shape. destruct (tr_weight rule =? 0), (bool_decide _); simpl;
    try done; classify_cases.
Qed.

(** ** What a validated policy guarantees *)

Record threshold_rule_ok (default_max_age : N) (rule : ThresholdRule) : Prop := {
  tro_kind : tr_metric rule <> MkUnknown /\ tr_metric rule <> MkCount;
  tro_weight : tr_weight rule <> 0;
  tro_range : N.max (tr_watch rule) (N.max (tr_congested rule) (tr_severe rule))
              <= metric_plausible_max (tr_metric rule);
  tro_order : if bool_decide (tr_op rule = AtLeast)
              then tr_watch rule <= tr_congested rule <= tr_severe rule
              else tr_severe rule <= tr_congested rule <= tr_watch rule;
  tro_age : tr_max_age_ticks rule <= w64 (w64 (default_max_age * 1000) + 1)
}.

Record intervention_rule_ok (rule : InterventionRule) : Prop := {
  iro_authority : required_authority (ir_kind rule) <> AuNone;
  iro_envelope : ir_parameter_min rule <= ir_parameter_default rule <= ir_parameter_max rule;
  iro_repeat : ir_min_repeat_interval_ticks rule <= kMaxDwellTicks
}.

Record policy_ok (p : CongestionPolicy) : Prop := {
  po_identity : cpol_id p <> 0 /\ cpol_version p <> 0 /\
                N.of_nat (String.length (cpol_name p)) <= kMaxPolicyNameBytes;
  po_counts : 0 < size64 (cpol_rules p) <= kMaxThresholdRules /\
              size64 (cpol_interventions p) <= kMaxInterventionRules;
  po_rules : Forall (threshold_rule_ok (fp_default_max_age_ticks (cpol_freshness p))) (cpol_rules p);
  po_distinct : NoDup (map tr_metric (cpol_rules p));
  po_hysteresis : let h := cpol_hysteresis p in
    0 < hp_escalate_samples h <= kMaxHysteresisSamples /\
    0 < hp_deescalate_samples h <= kMaxHysteresisSamples /\
    hp_min_dwell_ticks h <= kMaxDwellTicks /\ hp_downgrade_margin_ppm h <= 1000000;
  po_recovery : let r := cpol_recovery p in
    0 < rp_min_improved_samples r <= kMaxHysteresisSamples /\
    (rp_allow_single_sample r = false -> 2 <= rp_min_improved_samples r) /\
    0 < rp_clear_samples r <= kMaxHysteresisSamples;
  po_propagation : let q := cpol_propagation p in
    pp_decay_ppm q <= 1000000 /\ pp_max_depth q <= kMaxResourceDepth /\
    sev_leb (pp_max_induced_severity q) SevSevere = true;
  po_freshness : let f := cpol_freshness p in
    0 < fp_default_max_age_ticks f <= 3600000000 /\
    fp_max_future_skew_ticks f <= fp_default_max_age_ticks f;
  po_contradiction : let c := cpol_contradiction p in
    cp_relative_tolerance_ppm c <= 1000000 /\ 2 <= cp_min_distinct_publishers c /\
    size64 (cp_priority_order c) <= kMaxPublishers;
  po_interventions : Forall intervention_rule_ok (cpol_interventions p);
  po_limits : let l := cpol_limits p in
    0 < pl_max_resources_per_domain l <= kMaxResourcesPerDomain /\
    0 < pl_max_metrics_per_sample l <= kMaxMetricReadings /\
    pl_max_paths_considered l <= kMaxPathsPerTopology /\
    0 < pl_max_domain_depth l <= kMaxResourceDepth /\
    0 < pl_max_explanation_entries l <= kMaxExplanationEntries /\
    0 < pl_max_interventions_per_plan l <= kMaxInterventionsPerPlan /\
    pl_max_conflict_reports l <= kMaxExplanationEntries /\
    pl_max_stale_reports l <= kMaxExplanationEntries;
  po_gates : let n := size64 (cpol_rules p) in
    0 < cpol_min_agreeing_rules_for_watch p <= n /\
    cpol_min_agreeing_rules_for_congested p <= cpol_min_agreeing_rules_for_severe p /\
    cpol_min_agreeing_rules_for_severe p <= n
}.

Lemma reject_if_Ok (b : bool) m (k : Result unit) (u : unit) :
  reject_if b m k = Ok u <-> b = false /\ k = Ok u.
Proof.
  unfold reject_if, guard. destruct b; [split; [done|by intros [? _]]|]. split; [done|by intros [_ ?]].
Qed.

Lemma bind_unit_Ok {A : Type} (m : Result unit) (k : unit -> Result A) (v : A) :
  res_bind m k = Ok v <-> m = Ok tt /\ k tt = Ok v.
Proof. destruct m as [|[]]; simpl; [split; [done|by intros [? _]]|]. split; [done|by intros [_ ?]]. Qed.

Lemma ok_tt_iff (u : unit) : @Ok unit tt = Ok u <-> True.
Proof. by destruct u. Qed.

(** Turn "this chain of rejections accepted" into the conjunction of its tests. *)
Ltac accept_iff :=
  rewrite ?bind_unit_Ok, ?reject_if_Ok, ?bind_unit_Ok, ?ok_tt_iff, ?orb_false_iff, ?andb_false_iff, ?negb_false_iff,
    ?andb_true_iff, ?N.ltb_ge, ?N.leb_le, ?N.eqb_neq, ?bool_decide_eq_false, ?bool_decide_eq_true.

Lemma validate_threshold_rule_Ok (d : N) (rule : ThresholdRule) :
  tr_metric rule <> MkUnknown /\ tr_metric rule <> MkCount ->
  validate_threshold_rule d rule = Ok tt <-> threshold_rule_ok d rule.
Proof.
  intros Hk. unfold validate_threshold_rule. cbv zeta. accept_iff. split.
  - intros (? & [[? ?] ?] & Hal & Ham & ? & _). split; try done; [lia|].
    case_bool_decide; [destruct Hal; [done|lia]|]. destruct Ham; [done|lia].
  - intros [_ ? ? Ho ?]. case_bool_decide; repeat split; try done; try lia; try (by right); try (by left); auto.
Qed.

Lemma validate_threshold_rules_Ok (d : N) (seen : list MetricKind) (rules : list ThresholdRule) :
  validate_threshold_rules d seen rules = Ok tt
  <-> Forall (threshold_rule_ok d) rules /\ NoDup (map tr_metric rules) /\
      Forall (fun r => tr_metric r ∉ seen) rules.
Proof.
  revert seen. induction rules as [|rule rules IH]; intros seen; cbn [validate_threshold_rules map].
  { split; [|done]. intros _. repeat split; constructor. }
  rewrite !Forall_cons, NoDup_cons. accept_iff. split.
  - intros ([Hu Hc] & Hseen & Hrule & Hrest).
    apply validate_threshold_rule_Ok in Hrule; [|done]. apply IH in Hrest as (Hall & Hnd & Hns).
    rewrite Forall_forall in Hns. repeat split; try done; try apply Hrule.
    + intros (r & E & Hr)%list_elem_of_fmap. apply (Hns r Hr). rewrite <- E.
      apply elem_of_app. right. constructor.
    + apply Forall_forall. intros r Hr Hin. apply (Hns r Hr). apply elem_of_app. by left.
  - intros ([Hrule Hall] & [Hnotin Hnd] & [Hseen Hns]). split; [apply Hrule|]. split; [done|].
    split; [apply validate_threshold_rule_Ok; [apply Hrule|done]|].
    apply IH. repeat split; try done. rewrite Forall_forall in Hns |- *.
    intros r Hr [Hin|E%list_elem_of_singleton]%elem_of_app; [by apply (Hns r Hr)|].
    apply Hnotin, list_elem_of_fmap. by exists r.
Qed.

Lemma validate_intervention_rule_Ok (rule : InterventionRule) :
  validate_intervention_rule rule = Ok tt <-> intervention_rule_ok rule.
Proof.
  unfold validate_intervention_rule. accept_iff. split.
  - intros (? & ? & ? & [? ?] & ? & _). split; [done|lia|done].
  - intros [Ha [? ?] ?]. repeat split; try done; try lia; intros E; rewrite E in Ha; done.
Qed.

Lemma validate_intervention_rules_Ok (rules : list InterventionRule) :
  validate_intervention_rules rules = Ok tt <-> Forall intervention_rule_ok rules.
Proof.
  induction rules as [|rule rules IH]; cbn [validate_intervention_rules]; [by split; [constructor|]|].
  rewrite Forall_cons, bind_unit_Ok, validate_intervention_rule_Ok, IH. done.
Qed.

Lemma validate_gates_Ok (p : CongestionPolicy) :
  size64 (cpol_rules p) <= kMaxThresholdRules ->
  let n := size64 (cpol_rules p) in
  validate_gates p = Ok tt
  <-> 0 < cpol_min_agreeing_rules_for_watch p <= n /\
      cpol_min_agreeing_rules_for_congested p <= cpol_min_agreeing_rules_for_severe p /\
      cpol_min_agreeing_rules_for_severe p <= n.
Proof.
  intros Hn. cbv zeta. unfold validate_gates. cbv zeta.
  replace (w32 (size64 (cpol_rules p))) with (size64 (cpol_rules p))
    by (symmetry; apply N.mod_small; unfold kMaxThresholdRules in Hn; lia).
  accept_iff. lia.
Qed.

Lemma allow_single_iff (b : bool) (n : N) : (b = true \/ 2 <= n) <-> (b = false -> 2 <= n).
Proof. destruct b; simpl; split; intros H; try tauto; [by intros|]. destruct H; [done|auto]. Qed.

(** Validation accepts exactly the well-formed policies, and stamps the
    fingerprint of what it accepted. *)
Lemma validate_policy_iff (p p' : CongestionPolicy) :
  validate_policy p = Ok p'
  <-> policy_ok p /\ p' = (p <| cpol_fingerprint := fingerprint_policy p |>).
Proof.
  unfold validate_policy. rewrite !bind_unit_Ok.
  rewrite validate_threshold_rules_Ok, validate_intervention_rules_Ok.
  unfold validate_header, validate_hysteresis, validate_recovery, validate_propagation,
    validate_freshness, validate_contradiction, validate_limits.
  rewrite !reject_if_Ok, !ok_tt_iff, !orb_false_iff, !andb_false_iff, !negb_false_iff, !N.ltb_ge,
    !N.eqb_neq, allow_single_iff.
  unfold valid. rewrite negb_true_iff, N.eqb_neq.
  split.
  - intros ((?&?&?&?&?&?&_)&(?&?&?)&((?&?)&(?&?)&?&?&_)&((?&?)&?&(?&?)&_)&(?&?&?&_)&(?&?&?&_)
            &(?&?&?&_)&?&((?&?)&(?&?)&?&(?&?)&(?&?)&(?&?)&?&?&_)&Hg&[= <-]).
    split; [|done]. apply validate_gates_Ok in Hg; [|done].
    split; cbv zeta; repeat match goal with |- _ /\ _ => split end; try assumption; try lia.
    unfold sev_leb. by apply N.leb_le.
  - intros [[(?&?&?) ((?&?)&?) ? ? ((?&?)&(?&?)&?&?) ((?&?)&?&(?&?)) (?&?&?%N.leb_le) ((?&?)&?) (?&?&?)
            ? ((?&?)&(?&?)&?&(?&?)&(?&?)&(?&?)&?&?) Hg] ->].
    apply validate_gates_Ok in Hg; [|done].
    repeat match goal with |- _ /\ _ => split end; try assumption; try lia; try exact I; try reflexivity.
    apply Forall_forall; intros ? ? ?%not_elem_of_nil. done.
Qed.

Lemma default_policy_ok : policy_ok make_default_policy.
Proof.
  assert (validate_policy make_default_policy = Ok make_default_policy) as H by (vm_compute; reflexivity).
  apply validate_policy_iff in H. apply H.
Qed.

(** Under a validated rule the four severities partition the readings at the
    three thresholds, in the direction of the rule. *)
Lemma classify_at_least (d : N) (rule : ThresholdRule) (value : N) :
  threshold_rule_ok d rule -> tr_op rule = AtLeast ->
  (sev_leb SevWatch (classify rule value) = true <-> tr_watch rule <= value) /\
  (sev_leb SevCongested (classify rule value) = true <-> tr_congested rule <= value) /\
  (sev_leb SevSevere (classify rule value) = true <-> tr_severe rule <= value).
Proof.
  intros [_ Hw _ Ho _] E. rewrite bool_decide_eq_true_2 in Ho by done.
  unfold classify, classify_shape. rewrite (proj2 (N.eqb_neq _ _)) by done.
  rewrite bool_decide_eq_true_2 by done. simpl.
  repeat split; repeat split_match; reflect_bools; simpl in *; unfold sev_leb; simpl; try done; lia.
Qed.

Lemma classify_at_most (d : N) (rule : ThresholdRule) (value : N) :
  threshold_rule_ok d rule -> tr_op rule <> AtLeast ->
  (sev_leb SevWatch (classify rule value) = true <-> value <= tr_watch rule) /\
  (sev_leb SevCongested (classify rule value) = true <-> value <= tr_congested rule) /\
  (sev_leb SevSevere (classify rule value) = true <-> value <= tr_severe rule).
Proof.
  intros [_ Hw _ Ho _] E. rewrite bool_decide_eq_false_2 in Ho by done.
  unfold classify, classify_shape. rewrite (proj2 (N.eqb_neq _ _)) by done.
  rewrite bool_decide_eq_false_2 by done. simpl.
  repeat split; repeat split_match; reflect_bools; simpl in *; unfold sev_leb; simpl; try done; lia.
Qed.

(** ** The policy contract *)

(** Validation accepts exactly the well-formed policies: distinct known metric
    kinds, thresholds ordered in the rule's direction and within the plausible
    range, bounded sample counts and limits, a recovery of at least two samples
    unless opted out, and satisfiable corroboration gates; the accepted policy
    carries its fingerprint and is otherwise unchanged. *)
Theorem validate_policy_exact (p p' : CongestionPolicy) :
  validate_policy p = Ok p'
  <-> policy_ok p /\ p' = (p <| cpol_fingerprint := fingerprint_policy p |>).
Proof. apply validate_policy_iff. Qed.

(** A reading meets a threshold in the direction of its rule. *)
Definition meets (rule : ThresholdRule) (threshold value : N) : Prop :=
  if bool_decide (tr_op rule = AtLeast) then threshold <= value else value <= threshold.

(** Classification is exactly the three thresholds of a validated rule, and the
    margin-adjusted classification used for de-escalation is never below it. *)
Theorem classify_thresholds (d : N) (rule : ThresholdRule) (value margin : N)
    (Hok : threshold_rule_ok d rule) (Hw : rule_words rule) :
  (sev_leb SevWatch (classify rule value) = true <-> meets rule (tr_watch rule) value) /\
  (sev_leb SevCongested (classify rule value) = true <-> meets rule (tr_congested rule) value) /\
  (sev_leb SevSevere (classify rule value) = true <-> meets rule (tr_severe rule) value) /\
  sev_leb (classify rule value) (classify_rule_with_margin rule value margin) = true.
Proof.
  unfold meets. pose proof (classify_margin_lenient rule value margin Hw) as Hm.
  case_bool_decide as E.
  - destruct (classify_at_least d rule value Hok E) as (? & ? & ?). done.
  - destruct (classify_at_most d rule value Hok E) as (? & ? & ?). done.
Qed.

Lemma classify_thresholds_witness :
  let rule := default_rule MkUtilizationPpm 700000 850000 950000 true in
  classify rule 840000 = SevWatch /\ classify_rule_with_margin rule 840000 50000 = SevCongested /\
  sev_leb (classify rule 840000) (classify_rule_with_margin rule 840000 50000) = true.
Proof.
  cbv zeta. split; [reflexivity|]. split; [reflexivity|].
  refine (proj2 (proj2 (proj2 (classify_thresholds 1000000
    (default_rule MkUtilizationPpm 700000 850000 950000 true) 840000 50000 _ _)))).
  - split; cbv; repeat split; discriminate.
  - repeat split; reflexivity.
Defined.
