(* ===== verification/Topology.v ===== *)
(** * Topology: include/ncf/model/topology.hpp and src/model/topology.cpp

    Topology and capacity snapshots, their validation, and the adjacency index
    every evaluation reads.  An [unordered_map] from identities to slots is a
    [gmap]; the indexed vectors are lists indexed by slot. *)

From S2P Require Import Prelude Core Enums OMap.

Open Scope N_scope.

(** ** Data *)

Record ResourceRecord := mkResourceRecord {
  rc_id : N;
  rc_domain : N;
  rc_parent : N;
  rc_serving_class : N;
  rc_kind : ResourceKind;
  rc_depth : N;
  rc_nominal_capacity_bps : N;
  rc_flags : N
}.

#[export] Instance ResourceRecord_eq_dec : EqDecision ResourceRecord.
Proof. solve_decision. Defined.

Record LinkRecord := mkLinkRecord {
  lk_id : N;
  lk_from : N;
  lk_to : N;
  lk_capacity_bps : N;
  lk_latency_micros : N;
  lk_weight : N
}.

Record PathRecord := mkPathRecord {
  pa_id : N;
  pa_hops : list N;
  pa_capacity_bps : N;
  pa_flags : N
}.

Definition has_flag (p : PathRecord) (flag : PathFlags) : bool :=
  negb (N.land (pa_flags p) (path_flag_val flag) =? 0).

Record TopologySnapshot := mkTopologySnapshot {
  ts_id : N;
  ts_generation : N;
  ts_epoch : N;
  ts_observed_tick : N;
  ts_resources : list ResourceRecord;
  ts_links : list LinkRecord;
  ts_paths : list PathRecord;
  ts_fingerprint : N
}.

#[export] Instance TopologySnapshot_settable : Settable TopologySnapshot :=
  fields! mkTopologySnapshot < ts_id; ts_generation; ts_epoch; ts_observed_tick; ts_resources;
    ts_links; ts_paths; ts_fingerprint >.

Definition ts_empty (s : TopologySnapshot) : bool := bool_decide (ts_resources s = []).

Record CapacityEntry := mkCapacityEntry {
  ce_resource : N;
  ce_capacity_bps : N;
  ce_residual_bps : N;
  ce_admissible_bps : N
}.

Record CapacitySnapshot := mkCapacitySnapshot {
  cs_id : N;
  cs_generation : N;
  cs_epoch : N;
  cs_observed_tick : N;
  cs_entries : list CapacityEntry;
  cs_fingerprint : N
}.

#[export] Instance CapacitySnapshot_settable : Settable CapacitySnapshot :=
  fields! mkCapacitySnapshot < cs_id; cs_generation; cs_epoch; cs_observed_tick; cs_entries;
    cs_fingerprint >.

(** [CapacitySnapshot::find]. *)
Definition capacity_find (s : CapacitySnapshot) (resource : N) : option CapacityEntry :=
  match cs_entries s !! lower_bound (fun e => ce_resource e <? resource) (cs_entries s) with
  | Some e => if ce_resource e =? resource then Some e else None
  | None => None
  end.

Definition fingerprint_resource (h : N) (r : ResourceRecord) : N :=
  let h := update_u64 h (rc_id r) in
  let h := update_u64 h (rc_domain r) in
  let h := update_u64 h (rc_parent r) in
  let h := update_u64 h (rc_serving_class r) in
  let h := update_u16 h (resource_kind_val (rc_kind r)) in
  let h := update_u32 h (rc_depth r) in
  let h := update_u64 h (rc_nominal_capacity_bps r) in
  update_u32 h (rc_flags r).

Definition fingerprint_link (h : N) (l : LinkRecord) : N :=
  let h := update_u64 h (lk_id l) in
  let h := update_u64 h (lk_from l) in
  let h := update_u64 h (lk_to l) in
  let h := update_u64 h (lk_capacity_bps l) in
  let h := update_u64 h (lk_latency_micros l) in
  update_u32 h (lk_weight l).

Definition fingerprint_path (h : N) (p : PathRecord) : N :=
  let h := update_u64 h (pa_id p) in
  let h := update_u64 h (pa_capacity_bps p) in
  let h := update_u32 h (pa_flags p) in
  let h := update_u64 h (size64 (pa_hops p)) in
  foldl update_u64 h (pa_hops p).

Definition fingerprint_topology (s : TopologySnapshot) : N :=
  let h := update_u64 hasher (ts_id s) in
  let h := update_u64 h (ts_generation s) in
  let h := update_u64 h (ts_epoch s) in
  let h := update_u64 h (size64 (ts_resources s)) in
  let h := foldl fingerprint_resource h (ts_resources s) in
  let h := update_u64 h (size64 (ts_links s)) in
  let h := foldl fingerprint_link h (ts_links s) in
  let h := update_u64 h (size64 (ts_paths s)) in
  finish (foldl fingerprint_path h (ts_paths s)).

Definition fingerprint_entry (h : N) (e : CapacityEntry) : N :=
  let h := update_u64 h (ce_resource e) in
  let h := update_u64 h (ce_capacity_bps e) in
  let h := update_u64 h (ce_residual_bps e) in
  update_u64 h (ce_admissible_bps e).

Definition fingerprint_capacity (s : CapacitySnapshot) : N :=
  let h := update_u64 hasher (cs_id s) in
  let h := update_u64 h (cs_generation s) in
  let h := update_u64 h (cs_epoch s) in
  let h := update_u64 h (size64 (cs_entries s)) in
  finish (foldl fingerprint_entry h (cs_entries s)).

(** ** Validation *)

Definition id_text (label : string) (value : N) : string := (label ++ " " ++ to_hex value)%string.

(** The resource loop; the result is the set of identities seen. *)
Fixpoint validate_resources (ids : gset N) (l : list ResourceRecord) : Result (gset N) :=
  match l with
  | [] => Ok ids
  | record :: rest =>
      guard (negb (valid (rc_id record))) InvalidArgument "resource id is the null identity" (
      guard (negb (valid (rc_domain record))) InvalidArgument "resource has no congestion domain" (
      guard (kMaxResourceDepth <? rc_depth record)
        LimitExceeded "resource depth exceeds the hard bound" (
      guard (metric_plausible_max MkLinkCapacityBps <? rc_nominal_capacity_bps record)
        OutOfRange "resource nominal capacity is outside the plausible range" (
      guard (bool_decide (rc_id record ∈ ids))
        Duplicate (id_text "duplicate resource id" (rc_id record)) (
      validate_resources ({[rc_id record]} ∪ ids) rest)))))
  end.

(** [by_id]: the first record of each identity. *)
Definition index_by_id (l : list ResourceRecord) : gmap N ResourceRecord :=
  foldl (fun m r => if decide (is_Some (m !! rc_id r)) then m else <[rc_id r := r]> m) ∅ l.

(** The containment walk from one record; [remaining] is
    [kMaxResourceDepth - steps]. *)
Fixpoint containment_walk (by_id : gmap N ResourceRecord) (self : N) (remaining : nat) (cursor : N) :
    Result unit :=
  if cursor =? 0 then Ok tt
  else
    match by_id !! cursor with
    | None => fail NotFound (id_text "containment parent is not a known resource" cursor)
    | Some found =>
        guard (rc_id found =? self) InvalidArgument "containment forest contains a cycle" (
        match remaining with
        | O => fail LimitExceeded "containment forest is deeper than the hard bound"
        | S remaining' => containment_walk by_id self remaining' (rc_parent found)
        end)
    end.

Fixpoint validate_containment (by_id : gmap N ResourceRecord) (l : list ResourceRecord) : Result unit :=
  match l with
  | [] => Ok tt
  | record :: rest =>
      if negb (valid (rc_parent record)) then validate_containment by_id rest
      else
        guard (rc_parent record =? rc_id record)
          InvalidArgument "resource is its own containment parent" (
        let? _ := containment_walk by_id (rc_id record) (N.to_nat kMaxResourceDepth)
                    (rc_parent record) in
        validate_containment by_id rest)
  end.

Fixpoint validate_links (resource_ids link_ids : gset N) (l : list LinkRecord) : Result unit :=
  match l with
  | [] => Ok tt
  | link :: rest =>
      guard (negb (valid (lk_from link)) || negb (valid (lk_to link)))
        InvalidArgument "link endpoint is the null identity" (
      guard (bool_decide (lk_from link ∉ resource_ids))
        NotFound (id_text "link source is not a known resource" (lk_from link)) (
      guard (bool_decide (lk_to link ∉ resource_ids))
        NotFound (id_text "link destination is not a known resource" (lk_to link)) (
      guard (metric_plausible_max MkLinkCapacityBps <? lk_capacity_bps link)
        OutOfRange "link capacity is outside the plausible range" (
      guard (metric_plausible_max MkLatencyMicros <? lk_latency_micros link)
        OutOfRange "link latency is outside the plausible range" (
      guard (valid (lk_id link) && bool_decide (lk_id link ∈ link_ids))
        Duplicate (id_text "duplicate link id" (lk_id link)) (
      validate_links resource_ids
        (if valid (lk_id link) then {[lk_id link]} ∪ link_ids else link_ids) rest))))))
  end.

Fixpoint validate_hops (resource_ids : gset N) (hops : list N) : Result unit :=
  match hops with
  | [] => Ok tt
  | hop :: rest =>
      guard (bool_decide (hop ∉ resource_ids))
        NotFound (id_text "path hop is not a known resource" hop) (
      validate_hops resource_ids rest)
  end.

Fixpoint validate_paths (resource_ids path_ids : gset N) (l : list PathRecord) : Result unit :=
  match l with
  | [] => Ok tt
  | path :: rest =>
      guard (negb (valid (pa_id path))) InvalidArgument "path id is the null identity" (
      guard (bool_decide (pa_id path ∈ path_ids))
        Duplicate (id_text "duplicate path id" (pa_id path)) (
      guard (size64 (pa_hops path) =? 0) InvalidArgument "path carries no hops" (
      guard (kMaxResourcesPerPath <? size64 (pa_hops path))
        LimitExceeded "path exceeds the hop bound" (
      guard (metric_plausible_max MkPathCapacityBps <? pa_capacity_bps path)
        OutOfRange "path capacity is outside the plausible range" (
      let? _ := validate_hops resource_ids (pa_hops path) in
      validate_paths resource_ids ({[pa_id path]} ∪ path_ids) rest)))))
  end.

Definition validate_topology (s : TopologySnapshot) : Result unit :=
  guard (kMaxResourcesPerFabric <? size64 (ts_resources s))
    LimitExceeded "topology exceeds the resource bound" (
  guard (kMaxLinksPerTopology <? size64 (ts_links s))
    LimitExceeded "topology exceeds the link bound" (
  guard (kMaxPathsPerTopology <? size64 (ts_paths s))
    LimitExceeded "topology exceeds the path bound" (
  guard (ts_empty s) InvalidArgument "topology has no resources" (
  let? resource_ids := validate_resources ∅ (ts_resources s) in
  let? _ := validate_containment (index_by_id (ts_resources s)) (ts_resources s) in
  let? _ := validate_links resource_ids ∅ (ts_links s) in
  validate_paths resource_ids ∅ (ts_paths s))))).

Fixpoint validate_entry_order (l : list CapacityEntry) : Result unit :=
  match l with
  | e :: ((e' :: _) as rest) =>
      guard (negb (ce_resource e <? ce_resource e'))
        InvalidArgument "capacity entries must be strictly ordered by resource" (
      validate_entry_order rest)
  | _ => Ok tt
  end.

Fixpoint validate_entries (l : list CapacityEntry) : Result unit :=
  match l with
  | [] => Ok tt
  | e :: rest =>
      guard (negb (valid (ce_resource e)))
        InvalidArgument "capacity entry has the null resource identity" (
      guard (metric_plausible_max MkLinkCapacityBps <? ce_capacity_bps e)
        OutOfRange "capacity entry capacity is outside the plausible range" (
      guard (ce_capacity_bps e <? ce_residual_bps e)
        OutOfRange "residual capacity exceeds link capacity" (
      guard (ce_capacity_bps e <? ce_admissible_bps e)
        OutOfRange "admissible rate exceeds link capacity" (
      validate_entries rest))))
  end.

Definition validate_capacity (s : CapacitySnapshot) : Result unit :=
  guard (kMaxResourcesPerFabric <? size64 (cs_entries s))
    LimitExceeded "capacity snapshot exceeds the entry bound" (
  let? _ := validate_entry_order (cs_entries s) in
  validate_entries (cs_entries s)).

(** ** The adjacency index *)

Record TopologyIndex := mkTopologyIndex {
  ti_snapshot : TopologySnapshot;
  ti_resource_slot : gmap N nat;
  ti_path_slot : gmap N nat;
  ti_domain_slot : gmap N nat;
  ti_out_edges : list (list N);
  ti_in_edges : list (list N);
  ti_domain_resources : list (list N);
  ti_resource_paths : list (list N);
  ti_domains : list N
}.

(** [emplace]: the first insertion of a key stays. *)
Definition emplace_slot (m : gmap N nat) (key : N) (slot : nat) : gmap N nat :=
  if decide (is_Some (m !! key)) then m else <[key := slot]> m.

(** [v[slot].push_back(x)]. *)
Definition push_slot (slot : nat) (x : N) (v : list (list N)) : list (list N) :=
  alter (fun l => l ++ [x]) slot v.

Definition slots_of {A : Type} (key : A -> N) (l : list A) : gmap N nat :=
  foldl (fun m p => emplace_slot m (key p.2) p.1) ∅ (imap pair l).

(** The link loop; [None] is the [std::out_of_range] of [resource_slot_.at]. *)
Fixpoint build_edges (slots : gmap N nat) (links : list LinkRecord) (out_edges in_edges : list (list N)) :
    option (list (list N) * list (list N)) :=
  match links with
  | [] => Some (out_edges, in_edges)
  | link :: rest =>
      match slots !! lk_from link, slots !! lk_to link with
      | Some from_slot, Some to_slot =>
          build_edges slots rest (push_slot from_slot (lk_to link) out_edges)
            (push_slot to_slot (lk_from link) in_edges)
      | _, _ => None
      end
  end.

Definition build_resource_paths (slots : gmap N nat) (paths : list PathRecord) (start : list (list N)) :
    list (list N) :=
  foldl (fun acc record =>
           foldl (fun acc hop =>
                    match slots !! hop with
                    | Some slot => push_slot slot (pa_id record) acc
                    | None => acc
                    end) acc (pa_hops record)) start paths.

(** The domain loop's state: [domain_slot], [domains_] and [domain_resources_]. *)
Definition add_domain_member (st : gmap N nat * list N * list (list N)) (r : ResourceRecord) :
    gmap N nat * list N * list (list N) :=
  let '(slots, domains, members) := st in
  match slots !! rc_domain r with
  | Some slot => (slots, domains, push_slot slot (rc_id r) members)
  | None =>
      (<[rc_domain r := length domains]> slots, domains ++ [rc_domain r],
       push_slot (length domains) (rc_id r) (members ++ [[]]))
  end.

Definition build_domains (l : list ResourceRecord) : gmap N nat * list N * list (list N) :=
  foldl add_domain_member (∅, [], []) l.

(** [TopologyIndex::build]; [None] stands for an uncaught exception. *)
Definition build (s : TopologySnapshot) : option (Result TopologyIndex) :=
  match validate_topology s with
  | Err e => Some (Err e)
  | Ok _ =>
      let slots := slots_of rc_id (ts_resources s) in
      let start := replicate (length (ts_resources s)) [] in
      match build_edges slots (ts_links s) start start with
      | None => None
      | Some (out_edges, in_edges) =>
          let paths := filter (fun p => valid (pa_id p) = true) (ts_paths s) in
          let '(domain_slot, domains, members) := build_domains (ts_resources s) in
          Some (Ok {|
            ti_snapshot := s <| ts_fingerprint := fingerprint_topology s |> <| ts_paths := paths |>;
            ti_resource_slot := slots;
            ti_path_slot := slots_of pa_id paths;
            ti_domain_slot := domain_slot;
            ti_out_edges := map sort_unique out_edges;
            ti_in_edges := map sort_unique in_edges;
            ti_domain_resources := map sort_list members;
            ti_resource_paths := map sort_unique (build_resource_paths slots paths start);
            ti_domains := take (length members) domains
          |})
      end
  end.

Definition topo_resource (t : TopologyIndex) (id : N) : option ResourceRecord :=
  match ti_resource_slot t !! id with
  | Some slot => ts_resources (ti_snapshot t) !! slot
  | None => None
  end.

Definition topo_path (t : TopologyIndex) (id : N) : option PathRecord :=
  match ti_path_slot t !! id with
  | Some slot => ts_paths (ti_snapshot t) !! slot
  | None => None
  end.

Definition topo_contains (t : TopologyIndex) (id : N) : bool := bool_decide (is_Some (topo_resource t id)).

Definition slot_span (slots : gmap N nat) (v : list (list N)) (id : N) : list N :=
  match slots !! id with
  | Some slot => default [] (v !! slot)
  | None => []
  end.

Definition successors (t : TopologyIndex) (id : N) : list N :=
  slot_span (ti_resource_slot t) (ti_out_edges t) id.
Definition predecessors (t : TopologyIndex) (id : N) : list N :=
  slot_span (ti_resource_slot t) (ti_in_edges t) id.
Definition domain_resources (t : TopologyIndex) (domain : N) : list N :=
  slot_span (ti_domain_slot t) (ti_domain_resources t) domain.
Definition resource_paths (t : TopologyIndex) (id : N) : list N :=
  slot_span (ti_resource_slot t) (ti_resource_paths t) id.

Definition resource_count (t : TopologyIndex) : nat := length (ts_resources (ti_snapshot t)).
Definition domain_count (t : TopologyIndex) : nat := length (ti_domain_resources t).
Definition edge_count (t : TopologyIndex) : nat := length (ts_links (ti_snapshot t)).
Definition path_count (t : TopologyIndex) : nat := length (ts_paths (ti_snapshot t)).

(** * Properties *)

(** ** What a validated topology guarantees *)

Definition resource_ids (s : TopologySnapshot) : list N := map rc_id (ts_resources s).

(** One step up the containment forest. *)
Definition contained_in (s : TopologySnapshot) (child parent : N) : Prop :=
  parent <> 0 /\ exists r, r ∈ ts_resources s /\ rc_id r = child /\ rc_parent r = parent.

Record topology_ok (s : TopologySnapshot) : Prop := {
  tpo_ids : NoDup (resource_ids s);
  tpo_resources : Forall (fun r => rc_id r <> 0 /\ rc_domain r <> 0 /\ rc_depth r <= kMaxResourceDepth)
                    (ts_resources s);
  tpo_parents : forall a b, contained_in s a b -> b ∈ resource_ids s;
  tpo_acyclic : forall a, ~ tc (contained_in s) a a;
  tpo_links : Forall (fun l => lk_from l ∈ resource_ids s /\ lk_to l ∈ resource_ids s) (ts_links s);
  tpo_paths : NoDup (map pa_id (ts_paths s));
  tpo_hops : Forall (fun p => pa_id p <> 0 /\ pa_hops p <> [] /\
                       Forall (fun h => h ∈ resource_ids s) (pa_hops p)) (ts_paths s)
}.

Lemma valid_neq (x : N) : negb (valid x) = false -> x <> 0.
Proof. unfold valid. rewrite !negb_false_iff, negb_true_iff. apply N.eqb_neq. Qed.

Lemma validate_resources_Ok (l : list ResourceRecord) (ids out : gset N) :
  validate_resources ids l = Ok out ->
  NoDup (map rc_id l) /\ Forall (fun r => rc_id r ∉ ids) l /\
  Forall (fun r => rc_id r <> 0 /\ rc_domain r <> 0 /\ rc_depth r <= kMaxResourceDepth) l /\
  (forall x, x ∈ out <-> x ∈ ids \/ x ∈ map rc_id l).
Proof.
  revert ids. induction l as [|r l IH]; intros ids H; cbn [validate_resources map] in *.
  { injection H as <-. repeat split; try constructor; try tauto.
    intros [|?%not_elem_of_nil]; done. }
  peel_guards H. apply IH in H as (Hnd & Hns & Hok & Hout). rewrite Forall_forall in Hns.
  reflect_bools. repeat split.
  - constructor; [|done]. intros (r' & E & Hr')%list_elem_of_fmap.
    apply (Hns r' Hr'). rewrite <- E. set_solver.
  - constructor; [done|]. apply Forall_forall. intros r' Hr' Hin. apply (Hns r' Hr'). set_solver.
  - constructor; [|done]. unfold valid in *. reflect_bools. done.
  - intros [[->%elem_of_singleton|]%elem_of_union|]%Hout; rewrite elem_of_cons; tauto.
  - rewrite elem_of_cons. intros [|[->|]]; apply Hout; set_solver.
Qed.

Lemma index_by_id_lookup (l : list ResourceRecord) (m : gmap N ResourceRecord) (k : N) (r : ResourceRecord) :
  foldl (fun m r => if decide (is_Some (m !! rc_id r)) then m else <[rc_id r := r]> m) m l !! k = Some r ->
  m !! k = Some r \/ (r ∈ l /\ rc_id r = k).
Proof.
  revert m. induction l as [|x l IH]; intros m H; simpl in H; [by left|].
  apply IH in H as [H|[Hin ?]]; [|right; split; [by constructor|done]].
  case_decide; [by left|]. apply lookup_insert_Some in H as [[? ?]|[? ?]]; [|by left].
  subst. right. split; [constructor|done].
Qed.

(** The parent the walk follows from a resource. *)
Definition parent_step (by_id : gmap N ResourceRecord) (c : N) : N :=
  match by_id !! c with Some r => rc_parent r | None => 0 end.

Lemma containment_walk_Ok (by_id : gmap N ResourceRecord) (self : N) (n : nat) (c : N) :
  by_id !! 0 = None ->
  containment_walk by_id self n c = Ok tt ->
  (exists k, (k <= S n)%nat /\ Nat.iter k (parent_step by_id) c = 0) /\
  (c = 0 \/ is_Some (by_id !! c)).
Proof.
  intros H0. revert c. induction n as [|n IH]; intros c H; cbn [containment_walk] in H.
  - destruct (N.eqb_spec c 0) as [Hz|Hc]; [split; [exists 0%nat; split; [lia|done]|by left]|].
    destruct (by_id !! c) as [r|] eqn:Hr; [|done]. by peel_guards H.
  - destruct (N.eqb_spec c 0) as [Hz|Hc]; [split; [exists 0%nat; split; [lia|done]|by left]|].
    destruct (by_id !! c) as [r|] eqn:Hr; [|done]. peel_guards H.
    apply IH in H as [(k & Hk & Hz) _]. split; [|right; by eexists].
    exists (S k). split; [lia|]. rewrite Nat.iter_succ_r. unfold parent_step at 2. by rewrite Hr.
Qed.

Lemma validate_containment_Ok (by_id : gmap N ResourceRecord) (l : list ResourceRecord) :
  by_id !! 0 = None ->
  validate_containment by_id l = Ok tt ->
  Forall (fun r => is_Some (by_id !! rc_parent r) \/ rc_parent r = 0) l /\
  Forall (fun r => exists k, Nat.iter k (parent_step by_id) (rc_parent r) = 0) l.
Proof.
  intros H0. induction l as [|r l IH]; cbn [validate_containment]; intros H; [split; constructor|].
  unfold valid in H. destruct (N.eqb_spec (rc_parent r) 0) as [E|E]; cbn [negb] in H.
  - destruct (IH H) as [H1 H2]. split; constructor; auto. by exists 0%nat.
  - peel_guards H. destruct (IH H) as [H1 H2]. destruct x.
    apply containment_walk_Ok in Hx as [(k & _ & Hk) Hc]; [|done].
    split; constructor; auto; [tauto|by exists k].
Qed.

Lemma iter_zero (f : N -> N) (k : nat) : f 0 = 0 -> Nat.iter k f 0 = 0.
Proof. intros Hf. induction k as [|k IH]; simpl; [done|]. by rewrite IH. Qed.

(** A function that leads every point to the fixed point 0 has no cycle. *)
Lemma no_cycle (f : N -> N) (a : N) (k m : nat) :
  f 0 = 0 -> Nat.iter k f a = 0 -> Nat.iter (S m) f a = a -> a = 0.
Proof.
  intros Hf Hk Hm.
  assert (forall j, Nat.iter (j * S m) f a = a) as Hj.
  { induction j as [|j IH]; [done|]. cbn [Nat.mul]. by rewrite Nat.iter_add, IH. }
  rewrite <- (Hj k). replace (k * S m)%nat with ((k * m) + k)%nat by lia.
  rewrite Nat.iter_add, Hk. by apply iter_zero.
Qed.

Lemma validate_links_Ok (ids seen : gset N) (l : list LinkRecord) (u : unit) :
  validate_links ids seen l = Ok u -> Forall (fun k => lk_from k ∈ ids /\ lk_to k ∈ ids) l.
Proof.
  revert seen. induction l as [|k l IH]; intros seen H; cbn [validate_links] in H; [constructor|].
  peel_guards H. reflect_bools. constructor; [|by eapply IH].
  split; by apply dec_stable.
Qed.

Lemma validate_hops_Ok (ids : gset N) (hops : list N) (u : unit) :
  validate_hops ids hops = Ok u -> Forall (fun h => h ∈ ids) hops.
Proof.
  induction hops as [|h hops IH]; intros H; cbn [validate_hops] in H; [constructor|].
  peel_guards H. reflect_bools. constructor; [by apply dec_stable|by apply IH].
Qed.

Lemma validate_paths_Ok (ids seen : gset N) (l : list PathRecord) (u : unit) :
  validate_paths ids seen l = Ok u ->
  NoDup (map pa_id l) /\ Forall (fun p => pa_id p ∉ seen) l /\
  Forall (fun p => pa_id p <> 0 /\ pa_hops p <> [] /\ Forall (fun h => h ∈ ids) (pa_hops p)) l.
Proof.
  revert seen. induction l as [|p l IH]; intros seen H; cbn [validate_paths map] in *.
  { repeat split; constructor. }
  peel_guards H. apply IH in H as (Hnd & Hns & Hok). rewrite Forall_forall in Hns.
  reflect_bools. repeat split.
  - constructor; [|done]. intros (p' & E & Hp')%list_elem_of_fmap.
    apply (Hns p' Hp'). rewrite <- E. set_solver.
  - constructor; [done|]. apply Forall_forall. intros p' Hp' Hin. apply (Hns p' Hp'). set_solver.
  - constructor; [|done]. split; [unfold valid in *; by reflect_bools|].
    split; [by intros E; rewrite E in *|]. by eapply validate_hops_Ok.
Qed.

Lemma index_by_id_cover (l : list ResourceRecord) (m : gmap N ResourceRecord) (r : ResourceRecord) :
  NoDup (map rc_id l) -> r ∈ l -> m !! rc_id r = None ->
  foldl (fun m r => if decide (is_Some (m !! rc_id r)) then m else <[rc_id r := r]> m) m l
    !! rc_id r = Some r.
Proof.
  assert (forall l' (m' : gmap N ResourceRecord) k r', m' !! k = Some r' ->
    foldl (fun m r => if decide (is_Some (m !! rc_id r)) then m else <[rc_id r := r]> m) m' l'
      !! k = Some r') as Hkeep.
  { induction l' as [|y l' IH]; intros m' k r' Hm; simpl; [done|]. apply IH.
    case_decide as Hd; [done|]. rewrite lookup_insert_ne; [done|].
    intros E. apply Hd. rewrite E. by exists r'. }
  revert m. induction l as [|x l IH]; intros m Hnd Hin Hm; [by apply not_elem_of_nil in Hin|].
  apply NoDup_cons in Hnd as [Hx Hnd]. simpl.
  apply elem_of_cons in Hin as [->|Hin].
  - rewrite decide_False by (rewrite Hm; by intros []). apply Hkeep. apply lookup_insert_eq.
  - apply IH; [done|done|]. case_decide; [done|]. rewrite lookup_insert_ne; [done|].
    intros E. apply Hx. rewrite E. apply list_elem_of_fmap. by exists r.
Qed.

Lemma validate_topology_Ok (s : TopologySnapshot) :
  validate_topology s = Ok tt -> topology_ok s.
Proof.
  intros H. unfold validate_topology in H. peel_guards H. destruct x0, x1.
  apply validate_resources_Ok in Hx as (Hnd & _ & Hres & Hids).
  apply validate_links_Ok in Hx1. apply validate_paths_Ok in H as (Hpn & _ & Hp).
  assert (forall y, y ∈ x <-> y ∈ resource_ids s) as Hmem by set_solver.
  set (by_id := index_by_id (ts_resources s)) in *.
  assert (by_id !! 0 = None) as H0.
  { destruct (by_id !! 0) as [r|] eqn:E; [|done].
    apply index_by_id_lookup in E as [?|[Hin E]]; [done|].
    rewrite Forall_forall in Hres. by destruct (Hres r Hin). }
  assert (forall r, r ∈ ts_resources s -> by_id !! rc_id r = Some r) as Hby.
  { intros r Hr. by apply index_by_id_cover. }
  apply validate_containment_Ok in Hx0 as [Hpar Hzero]; [|done].
  rewrite Forall_forall in Hpar, Hzero.
  split; try done.
  - intros a b (Hb & r & Hr & _ & <-). destruct (Hpar r Hr) as [[r' E]|]; [|done].
    apply index_by_id_lookup in E as [?|[Hin <-]]; [done|]. apply list_elem_of_fmap. by exists r'.
  - intros a Htc.
    assert (forall c b, tc (contained_in s) c b ->
      b <> 0 /\ exists m, Nat.iter (S m) (parent_step by_id) c = b) as Hiter.
    { intros c b. induction 1 as [c b (Hb & r & Hr & <- & <-)|c d b (Hd & r & Hr & <- & <-) _ [Hb [m IH]]].
      - split; [done|]. exists 0%nat. simpl. unfold parent_step. by rewrite Hby.
      - split; [done|]. exists (S m). rewrite Nat.iter_succ_r. unfold parent_step at 2. by rewrite Hby. }
    destruct (Hiter a a Htc) as [Ha [m Hm]].
    assert (exists r, r ∈ ts_resources s /\ rc_id r = a) as (r & Hr & Hra).
    { clear -Htc. remember a as b eqn:E in Htc at 2. clear E.
      destruct Htc as [? ? (_ & r & Hr & ? & _)|? ? ? (_ & r & Hr & ? & _) _]; by exists r. }
    destruct (Hzero r Hr) as [k Hk]. apply Ha.
    apply (no_cycle (parent_step by_id) a (S k) m); [unfold parent_step; by rewrite H0| |done].
    rewrite Nat.iter_succ_r. unfold parent_step at 2. by rewrite <- Hra, Hby.
  - eapply Forall_impl; [exact Hx1|]. simpl. intros l. by rewrite !Hmem.
  - eapply Forall_impl; [exact Hp|]. simpl. intros p (? & ? & Hh). split; [done|]. split; [done|].
    eapply Forall_impl; [exact Hh|]. intros h. apply Hmem.
Qed.

(** ** The index refines the snapshot *)

Lemma slots_of_acc {A : Type} (key : A -> N) (l : list A) (m : gmap N nat) (o : nat) (k : N) (i : nat) :
  NoDup (map key l) -> (forall x, x ∈ l -> m !! key x = None) ->
  foldl (fun m p => emplace_slot m (key p.2) p.1) m (imap (fun j x => (o + j, x)%nat) l) !! k = Some i
  <-> m !! k = Some i \/ exists j x, l !! j = Some x /\ key x = k /\ i = (o + j)%nat.
Proof.
  revert m o. induction l as [|x l IH]; intros m o Hnd Hm; simpl.
  { split; [by left|]. intros [|(j & ? & [=] & _)]; done. }
  apply NoDup_cons in Hnd as [Hx Hnd].
  assert (m !! key x = None) as Hmx by (apply Hm; constructor).
  unfold emplace_slot at 2. rewrite decide_False by (rewrite Hmx; by intros []).
  rewrite (imap_ext _ (fun j y => (S o + j, y)%nat)) by (intros; simpl; f_equal; lia).
  rewrite IH; [|done|].
  - rewrite lookup_insert_Some. rewrite Nat.add_0_r. split.
    + intros [[[<- <-]|[? ?]]|(j & y & Hy & <- & ->)].
      * right. exists 0%nat, x. split; [done|]. split; [done|lia].
      * by left.
      * right. exists (S j), y. split; [done|]. split; [done|lia].
    + intros [H|([|j] & y & Hy & <- & ->)].
      * destruct (decide (key x = k)) as [<-|]; [congruence|]. left. by right.
      * injection Hy as <-. left. left. split; [done|lia].
      * right. exists j, y. split; [done|]. split; [done|lia].
  - intros y Hy. rewrite lookup_insert_ne; [apply Hm; by constructor|].
    intros E. apply Hx. rewrite E. apply list_elem_of_fmap. by exists y.
Qed.

Lemma slots_of_spec {A : Type} (key : A -> N) (l : list A) (k : N) (i : nat) :
  NoDup (map key l) ->
  slots_of key l !! k = Some i <-> exists x, l !! i = Some x /\ key x = k.
Proof.
  intros Hnd. unfold slots_of. rewrite (imap_ext _ (fun j x => (0 + j, x)%nat)) by done.
  rewrite slots_of_acc; [|done|by intros; apply lookup_empty]. rewrite lookup_empty. split.
  - intros [[=]|(j & x & ? & ? & ->)]. by exists x.
  - intros (x & ? & ?). right. by exists i, x.
Qed.

Lemma push_slot_lookup (slot i : nat) (x : N) (v : list (list N)) :
  push_slot slot x v !! i = (fun l => if decide (slot = i) then l ++ [x] else l) <$> v !! i.
Proof.
  unfold push_slot. destruct (decide (slot = i)) as [<-|Hne].
  - apply list_lookup_alter_eq.
  - rewrite list_lookup_alter_ne by done. by destruct (v !! i).
Qed.

(** What the loops leave in a slot: its old content and the values pushed to it. *)
Lemma build_edges_spec (slots : gmap N nat) (links : list LinkRecord) (o i o' i' : list (list N)) :
  build_edges slots links o i = Some (o', i') ->
  (forall s, o' !! s = (fun l => l ++ map lk_to (filter (fun k => slots !! lk_from k = Some s) links))
                         <$> o !! s) /\
  (forall s, i' !! s = (fun l => l ++ map lk_from (filter (fun k => slots !! lk_to k = Some s) links))
                         <$> i !! s).
Proof.
  revert o i. induction links as [|k links IH]; intros o i H; cbn [build_edges] in H.
  { injection H as <- <-. split; intros s; simpl; destruct (_ !! s); simpl; by rewrite ?app_nil_r. }
  destruct (slots !! lk_from k) as [f|] eqn:Hf; [|done].
  destruct (slots !! lk_to k) as [t|] eqn:Ht; [|done].
  apply IH in H as [Ho Hi]. split; intros s; rewrite ?Ho, ?Hi, push_slot_lookup, filter_cons.
  - destruct (o !! s); simpl; [|done]. rewrite Hf. f_equal.
    repeat case_decide; try congruence. simpl. by rewrite <- app_assoc.
  - destruct (i !! s); simpl; [|done]. rewrite Ht. f_equal.
    repeat case_decide; try congruence. simpl. by rewrite <- app_assoc.
Qed.

Lemma build_edges_total (slots : gmap N nat) (links : list LinkRecord) (o i : list (list N)) :
  Forall (fun k => is_Some (slots !! lk_from k) /\ is_Some (slots !! lk_to k)) links ->
  is_Some (build_edges slots links o i).
Proof.
  revert o i. induction links as [|k links IH]; intros o i H; cbn [build_edges]; [by eexists|].
  apply Forall_cons in H as [[[f ->] [t ->]] H]. by apply IH.
Qed.

Lemma build_resource_paths_elem (slots : gmap N nat) (paths : list PathRecord) (v : list (list N))
    (s : nat) (y : N) (start : list N) :
  v !! s = Some start ->
  exists l, build_resource_paths slots paths v !! s = Some l /\
    (y ∈ l <-> y ∈ start \/ exists p, p ∈ paths /\ pa_id p = y /\ exists h, h ∈ pa_hops p /\ slots !! h = Some s).
Proof.
  unfold build_resource_paths. revert v start.
  induction paths as [|p paths IH]; intros v start Hv; simpl.
  { exists start. split; [done|]. split; [by left|]. by intros [|(? & ?%not_elem_of_nil & _)]. }
  assert (forall hops v start, v !! s = Some start -> exists l,
    foldl (fun acc hop => match slots !! hop with
             | Some slot => push_slot slot (pa_id p) acc | None => acc end) v hops !! s = Some l /\
    (y ∈ l <-> y ∈ start \/ (pa_id p = y /\ exists h, h ∈ hops /\ slots !! h = Some s))) as Hhops.
  { clear. induction hops as [|h hops IH]; intros v start Hv; simpl.
    { exists start. split; [done|]. split; [by left|]. by intros [|(_ & ? & ?%not_elem_of_nil & _)]. }
    destruct (slots !! h) as [slot|] eqn:Hs.
    - destruct (IH (push_slot slot (pa_id p) v) (if decide (slot = s) then start ++ [pa_id p] else start))
        as (l & Hl & Hy); [by rewrite push_slot_lookup, Hv|].
      exists l. split; [done|]. rewrite Hy. case_decide as E.
      + rewrite elem_of_app, list_elem_of_singleton. split.
        * intros [[|]|(? & h' & ? & ?)]; [by left|right|right].
          -- split; [done|]. exists h. split; [constructor|congruence].
          -- split; [done|]. exists h'. split; [by constructor|done].
        * intros [|(? & h' & _ & ?)]; left; [by left|by right].
      + split.
        * intros [|(? & h' & ? & ?)]; [by left|right]. split; [done|]. exists h'. split; [by constructor|done].
        * intros [|(? & h' & [->|?]%elem_of_cons & ?)]; [by left|congruence|right].
          split; [done|]. by exists h'.
    - destruct (IH v start Hv) as (l & Hl & Hy). exists l. split; [done|]. rewrite Hy. split.
      + intros [|(? & h' & ? & ?)]; [by left|right]. split; [done|]. exists h'. split; [by constructor|done].
      + intros [|(? & h' & [->|?]%elem_of_cons & ?)]; [by left|congruence|right].
        split; [done|]. by exists h'. }
  destruct (Hhops (pa_hops p) v start Hv) as (l1 & Hl1 & Hy1).
  destruct (IH _ _ Hl1) as (l2 & Hl2 & Hy2). exists l2. split; [done|]. rewrite Hy2, Hy1. split.
  - intros [[|(? & ?)]|(p' & ? & ?)]; [by left|right; exists p; split; [constructor|done]|].
    right. exists p'. split; [by constructor|done].
  - intros [|(p' & [->|?]%elem_of_cons & ?)]; [left; by left|left; by right|]. right. by exists p'.
Qed.

Definition members_of (d : N) (l : list ResourceRecord) : list N :=
  map rc_id (filter (fun r => rc_domain r = d) l).

Record domains_ok (l : list ResourceRecord) (st : gmap N nat * list N * list (list N)) : Prop := {
  dmo_length : length st.1.2 = length st.2;
  dmo_some : forall d i, st.1.1 !! d = Some i -> st.2 !! i = Some (members_of d l);
  dmo_none : forall d, st.1.1 !! d = None -> members_of d l = [];
  dmo_inj : forall d d' i, st.1.1 !! d = Some i -> st.1.1 !! d' = Some i -> d = d'
}.

Lemma members_of_snoc (d : N) (l : list ResourceRecord) (r : ResourceRecord) :
  members_of d (l ++ [r]) = members_of d l ++ (if decide (rc_domain r = d) then [rc_id r] else []).
Proof.
  unfold members_of. rewrite filter_app, map_app, filter_cons, filter_nil. by case_decide.
Qed.

Lemma add_domain_member_ok (l : list ResourceRecord) (st : gmap N nat * list N * list (list N))
    (r : ResourceRecord) :
  domains_ok l st -> domains_ok (l ++ [r]) (add_domain_member st r).
Proof.
  destruct st as [[slots domains] members]. intros [Hlen Hsome Hnone Hinj]; simpl in *.
  destruct (slots !! rc_domain r) as [slot|] eqn:Hs; split; simpl.
  - unfold push_slot. by rewrite length_alter.
  - intros d i Hi. rewrite push_slot_lookup, (Hsome d i Hi), members_of_snoc. simpl. f_equal.
    repeat case_decide; subst; try by rewrite ?app_nil_r.
    + destruct H0. by eapply Hinj.
    + congruence.
  - intros d Hd. rewrite members_of_snoc, Hnone by done. rewrite decide_False by congruence. done.
  - done.
  - unfold push_slot. rewrite length_alter, !length_app. simpl. lia.
  - intros d i Hi. rewrite push_slot_lookup, members_of_snoc.
    apply lookup_insert_Some in Hi as [[<- <-]|[Hd Hi]].
    + rewrite Hlen, lookup_app_r, Nat.sub_diag by lia. simpl. rewrite !decide_True by done.
      by rewrite (Hnone _ Hs).
    + pose proof (Hsome _ _ Hi) as Hm. rewrite (decide_False (P := rc_domain r = d)) by done.
      rewrite lookup_app_l by (by eapply lookup_lt_Some). rewrite Hm. simpl.
      rewrite decide_False; [by rewrite app_nil_r|].
      apply lookup_lt_Some in Hm. lia.
  - intros d [Hd Hne]%lookup_insert_None. rewrite members_of_snoc, Hnone by done.
    by rewrite decide_False.
  - intros d d' i [[<- <-]|[Hd Hi]]%lookup_insert_Some [[<- E]|[Hd' Hi']]%lookup_insert_Some;
      try done; try by eapply Hinj.
    + apply Hsome, lookup_lt_Some in Hi'. lia.
    + apply Hsome, lookup_lt_Some in Hi. lia.
Qed.

Lemma build_domains_ok (l : list ResourceRecord) : domains_ok l (build_domains l).
Proof.
  unfold build_domains. apply (foldl_inv_prefix domains_ok); [split; simpl; try done|].
  intros pre x acc _. apply add_domain_member_ok.
Qed.

(** The abstract view of a snapshot that the index answers queries from. *)
Record index_of (s : TopologySnapshot) (t : TopologyIndex) : Prop := {
  ixo_resource : forall id r, topo_resource t id = Some r <-> r ∈ ts_resources s /\ rc_id r = id;
  ixo_path : forall id p, topo_path t id = Some p <-> p ∈ ts_paths s /\ pa_id p = id;
  ixo_successors : forall id y,
    y ∈ successors t id <-> exists k, k ∈ ts_links s /\ lk_from k = id /\ lk_to k = y;
  ixo_predecessors : forall id y,
    y ∈ predecessors t id <-> exists k, k ∈ ts_links s /\ lk_to k = id /\ lk_from k = y;
  ixo_domain : forall d y,
    y ∈ domain_resources t d <-> exists r, r ∈ ts_resources s /\ rc_domain r = d /\ rc_id r = y;
  ixo_paths : forall id y,
    y ∈ resource_paths t id <-> exists p, p ∈ ts_paths s /\ pa_id p = y /\ id ∈ pa_hops p;
  ixo_sorted : forall id, strictly_ordered (successors t id) /\ strictly_ordered (predecessors t id) /\
    strictly_ordered (resource_paths t id);
  ixo_domain_sorted : forall d, ordered (domain_resources t d) /\ NoDup (domain_resources t d)
}.

Lemma slot_span_elem (slots : gmap N nat) (v : list (list N)) (id y : N) :
  y ∈ slot_span slots v id <-> exists i l, slots !! id = Some i /\ v !! i = Some l /\ y ∈ l.
Proof.
  unfold slot_span. destruct (slots !! id) as [i|]; [|split; [by intros ?%not_elem_of_nil|naive_solver]].
  destruct (v !! i) as [l|] eqn:E; simpl; [|split; [by intros ?%not_elem_of_nil|naive_solver]].
  naive_solver.
Qed.

Lemma slot_span_map (P : list N -> Prop) (f : list N -> list N) (slots : gmap N nat)
    (v : list (list N)) (id : N) :
  (forall l, P (f l)) -> P [] -> P (slot_span slots (map f v) id).
Proof.
  intros Hf Hn. unfold slot_span. destruct (slots !! id) as [i|]; [|done].
  change (map f v) with (f <$> v). rewrite list_lookup_fmap. destruct (v !! i); simpl; auto.
Qed.

Lemma filter_valid_paths (s : TopologySnapshot) :
  topology_ok s -> filter (fun p => valid (pa_id p) = true) (ts_paths s) = ts_paths s.
Proof.
  intros [_ _ _ _ _ _ Hp]. induction (ts_paths s) as [|p l IH]; [done|].
  apply Forall_cons in Hp as [[Hp _] Hl]. rewrite filter_cons, decide_True, IH; [done|done|].
  unfold valid. by apply negb_true_iff, N.eqb_neq.
Qed.

Lemma slots_of_ids (s : TopologySnapshot) (id : N) (i : nat) :
  topology_ok s ->
  slots_of rc_id (ts_resources s) !! id = Some i
  <-> exists r, ts_resources s !! i = Some r /\ rc_id r = id.
Proof. intros Hok. apply slots_of_spec, Hok. Qed.

Lemma slots_of_id_inj (s : TopologySnapshot) (id id' : N) (i : nat) :
  topology_ok s -> slots_of rc_id (ts_resources s) !! id = Some i ->
  slots_of rc_id (ts_resources s) !! id' = Some i <-> id' = id.
Proof.
  intros Hok Hi. split; [|by intros ->].
  apply slots_of_ids in Hi as (r & Hr & <-); [|done].
  intros (r' & Hr' & <-)%slots_of_ids; [congruence|done].
Qed.

Lemma slots_of_member (s : TopologySnapshot) (id : N) :
  topology_ok s -> id ∈ resource_ids s -> exists i, slots_of rc_id (ts_resources s) !! id = Some i
    /\ (i < length (ts_resources s))%nat.
Proof.
  intros Hok (r & -> & [i Hi]%list_elem_of_lookup)%list_elem_of_fmap. exists i. split.
  - apply slots_of_ids; [done|]. by exists r.
  - by eapply lookup_lt_Some.
Qed.

(** A slot of the edge vectors holds the far ends of the links at its resource. *)
Lemma edge_slot_elem (s : TopologySnapshot) (near far : LinkRecord -> N) (v : list (list N)) (id y : N) :
  topology_ok s -> Forall (fun k => near k ∈ resource_ids s) (ts_links s) ->
  let slots := slots_of rc_id (ts_resources s) in
  (forall i, v !! i = (fun l => l ++ map far (filter (fun k => slots !! near k = Some i) (ts_links s)))
               <$> replicate (length (ts_resources s)) [] !! i) ->
  y ∈ slot_span slots (map sort_unique v) id
  <-> exists k, k ∈ ts_links s /\ near k = id /\ far k = y.
Proof.
  intros Hok Hnear slots Hv. change (map sort_unique v) with (sort_unique <$> v).
  rewrite slot_span_elem. rewrite Forall_forall in Hnear. split.
  - intros (i & l & Hi & Hl & Hy). rewrite list_lookup_fmap, Hv in Hl.
    destruct (replicate _ _ !! i) as [l0|] eqn:E; [|done]. apply lookup_replicate in E as [-> _].
    simpl in Hl. injection Hl as <-. rewrite sort_unique_elem in Hy.
    apply list_elem_of_fmap in Hy as (k & -> & [Hk Hin]%list_elem_of_filter).
    exists k. split; [done|]. split; [|done]. by eapply slots_of_id_inj.
  - intros (k & Hk & Hid & <-). destruct (slots_of_member s id Hok) as (i & Hi & Hlt).
    { rewrite <- Hid. by apply Hnear. }
    eexists i, _. split; [done|].
    rewrite list_lookup_fmap, Hv, (lookup_replicate_2 _ _ _ Hlt). split; [done|].
    apply sort_unique_elem. simpl. apply list_elem_of_fmap. exists k. split; [done|].
    apply list_elem_of_filter. split; [|done]. by rewrite Hid.
Qed.

(** A slot table answers a lookup with the record of that key. *)
Lemma slot_record_spec {A : Type} (key : A -> N) (l : list A) (id : N) (x : A) :
  NoDup (map key l) ->
  match slots_of key l !! id with Some slot => l !! slot | None => None end = Some x
  <-> x ∈ l /\ key x = id.
Proof.
  intros Hnd. split.
  - destruct (slots_of key l !! id) as [j|] eqn:Hj; [|done]. intros Hx.
    apply slots_of_spec in Hj as (x' & Hx' & <-); [|done]. split; [|congruence].
    by eapply list_elem_of_lookup_2.
  - intros [[j Hj]%list_elem_of_lookup <-].
    rewrite (proj2 (slots_of_spec key l (key x) j Hnd)) by (by exists x). done.
Qed.

Lemma domain_span_elem (s : TopologySnapshot) (st : gmap N nat * list N * list (list N)) (d y : N) :
  domains_ok (ts_resources s) st ->
  y ∈ slot_span st.1.1 (map sort_list st.2) d
  <-> exists r, r ∈ ts_resources s /\ rc_domain r = d /\ rc_id r = y.
Proof.
  intros Hdom. change (map sort_list st.2) with (sort_list <$> st.2). rewrite slot_span_elem. split.
  - intros (j & l & Hj & Hl & Hy). rewrite list_lookup_fmap, (dmo_some _ _ Hdom _ _ Hj) in Hl.
    injection Hl as <-. rewrite sort_list_perm in Hy.
    apply list_elem_of_fmap in Hy as (r & -> & [Hr Hin]%list_elem_of_filter). by exists r.
  - intros (r & Hin & <- & <-).
    assert (rc_id r ∈ members_of (rc_domain r) (ts_resources s)) as Hm.
    { apply list_elem_of_fmap. exists r. split; [done|]. by apply list_elem_of_filter. }
    destruct (st.1.1 !! rc_domain r) as [j|] eqn:Hj.
    + exists j, (sort_list (members_of (rc_domain r) (ts_resources s))). split; [done|].
      rewrite list_lookup_fmap, (dmo_some _ _ Hdom _ _ Hj). split; [done|]. by rewrite sort_list_perm.
    + rewrite (dmo_none _ _ Hdom _ Hj) in Hm. by apply not_elem_of_nil in Hm.
Qed.

Lemma domain_span_NoDup (s : TopologySnapshot) (st : gmap N nat * list N * list (list N)) (d : N) :
  topology_ok s -> domains_ok (ts_resources s) st -> NoDup (slot_span st.1.1 (map sort_list st.2) d).
Proof.
  intros Hok Hdom. unfold slot_span. destruct (st.1.1 !! d) as [j|] eqn:Hj; [|constructor].
  change (map sort_list st.2) with (sort_list <$> st.2).
  rewrite list_lookup_fmap, (dmo_some _ _ Hdom _ _ Hj). simpl. rewrite sort_list_perm.
  eapply sublist_NoDup; [apply (tpo_ids s Hok)|]. apply fmap_sublist, sublist_filter.
Qed.

Lemma path_span_elem (s : TopologySnapshot) (id y : N) :
  topology_ok s ->
  let slots := slots_of rc_id (ts_resources s) in
  y ∈ slot_span slots (map sort_unique
        (build_resource_paths slots (ts_paths s) (replicate (length (ts_resources s)) []))) id
  <-> exists p, p ∈ ts_paths s /\ pa_id p = y /\ id ∈ pa_hops p.
Proof.
  intros Hok slots. set (v := build_resource_paths _ _ _).
  assert (forall j, (j < length (ts_resources s))%nat -> exists l, v !! j = Some l /\
    (y ∈ l <-> exists p, p ∈ ts_paths s /\ pa_id p = y /\ exists h, h ∈ pa_hops p /\ slots !! h = Some j))
    as Hv.
  { intros j Hlt. destruct (build_resource_paths_elem slots (ts_paths s) _ j y []
      (lookup_replicate_2 _ _ _ Hlt)) as (l & Hl & Hmem). exists l. split; [done|]. rewrite Hmem.
    split; [by intros [?%not_elem_of_nil|]|by right]. }
  change (map sort_unique v) with (sort_unique <$> v). rewrite slot_span_elem. split.
  - intros (j & l & Hj & Hl & Hy). rewrite list_lookup_fmap in Hl.
    apply slots_of_ids in Hj as Hr; [|done]. destruct Hr as (r & Hr & _).
    destruct (Hv j) as (l' & Hl' & Hmem); [by eapply lookup_lt_Some|].
    rewrite Hl' in Hl. injection Hl as <-. rewrite sort_unique_elem in Hy.
    apply Hmem in Hy as (p & Hp & <- & h & Hh & Hs). exists p. split; [done|]. split; [done|].
    by rewrite <- (proj1 (slots_of_id_inj s _ _ _ Hok Hj) Hs).
  - intros (p & Hp & <- & Hh). destruct (slots_of_member s id Hok) as (j & Hj & Hlt).
    { pose proof (tpo_hops s Hok) as Hhops. rewrite Forall_forall in Hhops.
      destruct (Hhops p Hp) as (_ & _ & Hall). rewrite Forall_forall in Hall. by apply Hall. }
    destruct (Hv j Hlt) as (l' & Hl' & Hmem). exists j, (sort_unique l'). split; [done|].
    rewrite list_lookup_fmap, Hl'. split; [done|]. apply sort_unique_elem, Hmem.
    exists p. split; [done|]. split; [done|]. by exists id.
Qed.

(** Building never throws: every identity it looks up has a slot. *)
Lemma build_total (s : TopologySnapshot) : is_Some (build s).
Proof.
  unfold build. destruct (validate_topology s) as [e|[]] eqn:E; [by eexists|].
  apply validate_topology_Ok in E as Hok.
  destruct (build_edges_total (slots_of rc_id (ts_resources s)) (ts_links s)
    (replicate (length (ts_resources s)) []) (replicate (length (ts_resources s)) [])) as [[o i] ->].
  - eapply Forall_impl; [apply Hok|]. intros k [Hf Ht].
    destruct (slots_of_member s _ Hok Hf) as (? & -> & _).
    destruct (slots_of_member s _ Hok Ht) as (? & -> & _). by split; eexists.
  - destruct (build_domains (ts_resources s)) as [[? ?] ?]. by eexists.
Qed.

Lemma build_index_of (s : TopologySnapshot) (t : TopologyIndex) :
  build s = Some (Ok t) -> topology_ok s /\ index_of s t.
Proof.
  unfold build. destruct (validate_topology s) as [e|[]] eqn:E; [done|].
  apply validate_topology_Ok in E as Hok. intros H. split; [done|].
  destruct (build_edges _ _ _ _) as [[o i]|] eqn:He; [|done].
  apply build_edges_spec in He as [Ho Hi].
  pose proof (build_domains_ok (ts_resources s)) as Hdom.
  destruct (build_domains (ts_resources s)) as [[dslots domains] members]. injection H as <-.
  rewrite !filter_valid_paths by done. pose proof (tpo_links s Hok) as Hlinks.
  split; simpl.
  - intros id r. apply slot_record_spec, Hok.
  - intros id p. apply slot_record_spec, Hok.
  - intros id y. apply (edge_slot_elem s lk_from lk_to o); [done| |done].
    eapply Forall_impl; [exact Hlinks|]. by intros k [? _].
  - intros id y. apply (edge_slot_elem s lk_to lk_from i); [done| |done].
    eapply Forall_impl; [exact Hlinks|]. by intros k [_ ?].
  - intros d y. by apply (domain_span_elem s (dslots, domains, members)).
  - intros id y. by apply path_span_elem.
  - intros id. repeat split; apply (slot_span_map strictly_ordered); try apply sort_unique_strict; constructor.
  - intros d. split.
    + apply (slot_span_map ordered); [apply sort_list_ordered|constructor].
    + by apply (domain_span_NoDup s (dslots, domains, members)).
Qed.

(** ** Capacity *)

Record capacity_ok (s : CapacitySnapshot) : Prop := {
  cpo_sorted : StronglySorted (fun a b => ce_resource a < ce_resource b) (cs_entries s);
  cpo_entries : Forall (fun e => ce_resource e <> 0 /\ ce_residual_bps e <= ce_capacity_bps e /\
                          ce_admissible_bps e <= ce_capacity_bps e) (cs_entries s)
}.

Lemma validate_entry_order_Ok (l : list CapacityEntry) (u : unit) :
  validate_entry_order l = Ok u -> StronglySorted (fun a b => ce_resource a < ce_resource b) l.
Proof.
  intros H. apply Sorted_StronglySorted; [intros ? ? ?; apply N.lt_trans|].
  induction l as [|e [|e' l] IH]; [constructor|repeat constructor|].
  cbn [validate_entry_order] in H. peel_guards H. reflect_bools. constructor; [by apply IH|].
  by constructor.
Qed.

Lemma validate_entries_Ok (l : list CapacityEntry) (u : unit) :
  validate_entries l = Ok u ->
  Forall (fun e => ce_resource e <> 0 /\ ce_residual_bps e <= ce_capacity_bps e /\
            ce_admissible_bps e <= ce_capacity_bps e) l.
Proof.
  induction l as [|e l IH]; intros H; cbn [validate_entries] in H; [constructor|].
  peel_guards H. reflect_bools. constructor; [|by apply IH]. unfold valid in *. by reflect_bools.
Qed.

Lemma validate_capacity_Ok (s : CapacitySnapshot) (u : unit) :
  validate_capacity s = Ok u -> capacity_ok s.
Proof.
  unfold validate_capacity. intros H. peel_guards H.
  split; [by eapply validate_entry_order_Ok|by eapply validate_entries_Ok].
Qed.

(** The binary search finds exactly the entries of the snapshot. *)
Lemma capacity_find_spec (s : CapacitySnapshot) (e : CapacityEntry) (resource : N) :
  capacity_ok s ->
  capacity_find s resource = Some e <-> e ∈ cs_entries s /\ ce_resource e = resource.
Proof.
  intros [Hs _]. unfold capacity_find. induction (cs_entries s) as [|x l IH]; simpl.
  { split; [done|]. by intros [?%not_elem_of_nil _]. }
  apply StronglySorted_inv in Hs as [Hl Hall]. specialize (IH Hl). rewrite Forall_forall in Hall.
  rewrite elem_of_cons. destruct (N.ltb_spec (ce_resource x) resource); simpl.
  - rewrite IH. split; [tauto|]. intros [[->|] ?]; [lia|tauto].
  - destruct (N.eqb_spec (ce_resource x) resource) as [Ex|Ex].
    + split; [intros [= ->]; tauto|]. intros [[->|Hin] ?]; [done|]. specialize (Hall _ Hin). lia.
    + split; [done|]. intros [[->|Hin] ?]; [done|]. specialize (Hall _ Hin). lia.
Qed.

(** ** The topology contract *)

(** C35. Building an index never throws; it fails exactly with the validation error,
    and otherwise the snapshot is well formed (distinct resources, known
    endpoints and hops, an acyclic containment forest) and every query of the
    index answers from the snapshot. *)
Theorem build_refines (s : TopologySnapshot) :
  match build s with
  | None => False
  | Some (Err e) => validate_topology s = Err e
  | Some (Ok t) => topology_ok s /\ index_of s t
  end.
Proof.
  destruct (build_total s) as [r Hr]. pose proof (build_index_of s) as Hix.
  rewrite Hr in *. destruct r as [e|t]; [|by apply Hix].
  unfold build in Hr. destruct (validate_topology s) as [e'|[]]; [congruence|].
  destruct (build_edges _ _ _ _) as [[o i]|]; [|done].
  by destruct (build_domains (ts_resources s)) as [[? ?] ?].
Qed.

(** In a validated capacity snapshot the binary search finds exactly the entries
    of the snapshot, and no entry promises more than its capacity. *)
Theorem capacity_lookup (s : CapacitySnapshot) (e : CapacityEntry) (resource : N)
    (Hv : validate_capacity s = Ok tt) :
  (capacity_find s resource = Some e <-> e ∈ cs_entries s /\ ce_resource e = resource) /\
  (capacity_find s resource = Some e ->
     ce_residual_bps e <= ce_capacity_bps e /\ ce_admissible_bps e <= ce_capacity_bps e).
Proof.
  apply validate_capacity_Ok in Hv as Hok. pose proof (capacity_find_spec s e resource Hok) as Hspec.
  split; [done|]. intros [Hin _]%Hspec. destruct Hok as [_ Hall]. rewrite Forall_forall in Hall.
  destruct (Hall e Hin) as (_ & ? & ?). done.
Qed.

Lemma capacity_lookup_witness :
  let s := mkCapacitySnapshot 1 1 1 1 [mkCapacityEntry 3 100 40 60; mkCapacityEntry 7 10 10 10] 0 in
  capacity_find s 7 = Some (mkCapacityEntry 7 10 10 10) /\
  mkCapacityEntry 7 10 10 10 ∈ cs_entries s.
Proof.
  cbv zeta. split; [reflexivity|].
  exact (proj1 (proj1 (proj1 (capacity_lookup (mkCapacitySnapshot 1 1 1 1
    [mkCapacityEntry 3 100 40 60; mkCapacityEntry 7 10 10 10] 0) (mkCapacityEntry 7 10 10 10) 7 eq_refl))
    eq_refl)).
Defined.
