(* ===== verification/State.v ===== *)
(** * State: include/ncf/model/state.hpp and evaluation.hpp

    The durable state of a congestion domain, and everything one evaluation
    reports: assessments, bindings, conflicts, stale readings, propagation edges
    and the outcome. *)

From S2P Require Import Prelude Core Enums Evidence Authority Policy.

Open Scope N_scope.

Record ResourceAssessment := mkResourceAssessment {
  ra_resource : N;
  ra_raw_severity : Severity;
  ra_coverage : ResourceCoverage;
  ra_stale : bool;
  ra_contradictory : bool;
  ra_degraded_source : bool;
  ra_samples_considered : N;
  ra_stale_samples : N;
  ra_future_samples : N;
  ra_conflict_samples : N;
  ra_newest_snapshot : N;
  ra_newest_observed_tick : N
}.

#[export] Instance ResourceAssessment_settable : Settable ResourceAssessment :=
  fields! mkResourceAssessment < ra_resource; ra_raw_severity; ra_coverage; ra_stale;
    ra_contradictory; ra_degraded_source; ra_samples_considered; ra_stale_samples;
    ra_future_samples; ra_conflict_samples; ra_newest_snapshot; ra_newest_observed_tick >.

Record DomainState := mkDomainState {
  ds_domain : N;
  ds_state : CongestionState;
  ds_candidate : CongestionState;
  ds_candidate_streak : N;
  ds_last_change_tick : N;
  ds_last_authoritative_tick : N;
  ds_last_evaluated_tick : N;
  ds_last_evaluation : N;
  ds_last_evidence : N;
  ds_epoch : N;
  ds_topology_generation : N;
  ds_capacity_generation : N;
  ds_policy : N;
  ds_policy_fingerprint : N;
  ds_authority_generation : N;
  ds_last_committed_severity : Severity;
  ds_transition_count : N;
  ds_evaluation_count : N;
  ds_requires_revalidation : bool
}.

#[export] Instance DomainState_settable : Settable DomainState :=
  fields! mkDomainState < ds_domain; ds_state; ds_candidate; ds_candidate_streak;
    ds_last_change_tick; ds_last_authoritative_tick; ds_last_evaluated_tick; ds_last_evaluation;
    ds_last_evidence; ds_epoch; ds_topology_generation; ds_capacity_generation; ds_policy;
    ds_policy_fingerprint; ds_authority_generation; ds_last_committed_severity;
    ds_transition_count; ds_evaluation_count; ds_requires_revalidation >.

#[export] Instance DomainState_eq_dec : EqDecision DomainState.
Proof. solve_decision. Defined.

(** A default-constructed [DomainState]. *)
Definition domain_state_default : DomainState :=
  mkDomainState 0 StUnknown StUnknown 0 kNoTick kNoTick kNoTick 0 0 0 0 0 0 0 0 SevClear 0 0 false.

Definition ds_authoritative (s : DomainState) : bool :=
  is_authoritative (ds_state s) && negb (ds_requires_revalidation s).

(** ** include/ncf/model/evaluation.hpp *)

Record ConflictReport := mkConflictReport {
  cr_resource : N;
  cr_queue : N;
  cr_metric : MetricKind;
  cr_low_value : N;
  cr_high_value : N;
  cr_spread : N;
  cr_low_publisher : N;
  cr_high_publisher : N;
  cr_low_observed_tick : N;
  cr_high_observed_tick : N;
  cr_resolved : bool;
  cr_selected_publisher : N
}.

#[export] Instance ConflictReport_settable : Settable ConflictReport :=
  fields! mkConflictReport < cr_resource; cr_queue; cr_metric; cr_low_value; cr_high_value; cr_spread;
    cr_low_publisher; cr_high_publisher; cr_low_observed_tick; cr_high_observed_tick; cr_resolved;
    cr_selected_publisher >.

Record StaleReport := mkStaleReport {
  sr_resource : N;
  sr_queue : N;
  sr_metric : MetricKind;
  sr_publisher : N;
  sr_observed_tick : N;
  sr_age_ticks : N;
  sr_allowed_age_ticks : N;
  sr_from_future : bool;
  sr_beyond_future_skew : bool
}.

Record ThresholdBinding := mkThresholdBinding {
  tb_resource : N;
  tb_queue : N;
  tb_metric : MetricKind;
  tb_op : ThresholdOp;
  tb_value : N;
  tb_watch : N;
  tb_congested : N;
  tb_severe : N;
  tb_level : Severity;
  tb_required : bool;
  tb_stale : bool;
  tb_future : bool;
  tb_degraded_source : bool;
  tb_publisher : N;
  tb_observed_tick : N
}.

Record PropagationEdge := mkPropagationEdge {
  pe_from : N;
  pe_to : N;
  pe_via_path : N;
  pe_hops : N;
  pe_pressure_ppm : N;
  pe_induced : Severity;
  pe_applied : bool
}.

#[export] Instance PropagationEdge_settable : Settable PropagationEdge :=
  fields! mkPropagationEdge < pe_from; pe_to; pe_via_path; pe_hops; pe_pressure_ppm; pe_induced;
    pe_applied >.

Record EvidenceVector := mkEvidenceVector {
  ev_batch : N;
  ev_epoch : N;
  ev_samples_seen : N;
  ev_samples_accepted : N;
  ev_samples_rejected : N;
  ev_samples_duplicate : N;
  ev_stale_samples : N;
  ev_future_samples : N;
  ev_unknown_metric_samples : N;
  ev_heartbeats : N;
  ev_newest_observed_tick : N;
  ev_oldest_accepted_tick : N;
  ev_resources : list ResourceAssessment;
  ev_bindings : list ThresholdBinding;
  ev_conflicts : list ConflictReport;
  ev_stale : list StaleReport;
  ev_propagation : list PropagationEdge;
  ev_truncated_sections : N
}.

#[export] Instance EvidenceVector_settable : Settable EvidenceVector :=
  fields! mkEvidenceVector < ev_batch; ev_epoch; ev_samples_seen; ev_samples_accepted;
    ev_samples_rejected; ev_samples_duplicate; ev_stale_samples; ev_future_samples;
    ev_unknown_metric_samples; ev_heartbeats; ev_newest_observed_tick; ev_oldest_accepted_tick;
    ev_resources; ev_bindings; ev_conflicts; ev_stale; ev_propagation; ev_truncated_sections >.

Definition evidence_vector_default : EvidenceVector :=
  mkEvidenceVector 0 0 0 0 0 0 0 0 0 0 kNoTick kNoTick [] [] [] [] [] 0.

Record EvaluationOutcome := mkEvaluationOutcome {
  eo_id : N;
  eo_domain : N;
  eo_state : CongestionState;
  eo_previous_state : CongestionState;
  eo_severity : Severity;
  eo_transitioned : bool;
  eo_authoritative : bool;
  eo_requires_revalidation : bool;
  eo_evidence : EvidenceVector;
  eo_updated : DomainState;
  eo_authority : AuthorityVector;
  eo_policy : N;
  eo_policy_fingerprint : N;
  eo_topology_generation : N;
  eo_capacity_generation : N;
  eo_evaluated_tick : N;
  eo_reason_code : string;
  eo_reason_detail : list string
}.

#[export] Instance EvaluationOutcome_settable : Settable EvaluationOutcome :=
  fields! mkEvaluationOutcome < eo_id; eo_domain; eo_state; eo_previous_state; eo_severity;
    eo_transitioned; eo_authoritative; eo_requires_revalidation; eo_evidence; eo_updated;
    eo_authority; eo_policy; eo_policy_fingerprint; eo_topology_generation;
    eo_capacity_generation; eo_evaluated_tick; eo_reason_code; eo_reason_detail >.

Record EvaluationRequest := mkEvaluationRequest {
  eq_domain : N;
  eq_evidence : EvidenceBatch;
  eq_epoch : N;
  eq_authority : AuthorityVector;
  eq_now : N;
  eq_only_resource : N
}.
