(* ===== verification/Intervention.v ===== *)
(** * Interventions: include/ncf/model/intervention.hpp and src/model/intervention.cpp

    The intent a plan emits, its self-consistency check, its identity, and the
    records of refused and durable interventions. *)

From S2P Require Import Prelude Core Enums Authority Policy.

Open Scope N_scope.

Record InterventionIntent := mkInterventionIntent {
  ii_id : N;
  ii_kind : InterventionKind;
  ii_domain : N;
  ii_resource : N;
  ii_traffic_class : N;
  ii_basis_severity : Severity;
  ii_basis_state : CongestionState;
  ii_evidence : N;
  ii_evaluation : N;
  ii_epoch : N;
  ii_authority_generation : N;
  ii_policy : N;
  ii_policy_fingerprint : N;
  ii_provenance : N;
  ii_issued_tick : N;
  ii_expires_tick : N;
  ii_parameter : N;
  ii_priority : N;
  ii_parameter_clamped : bool;
  ii_rationale : string
}.

#[export] Instance InterventionIntent_settable : Settable InterventionIntent :=
  fields! mkInterventionIntent < ii_id; ii_kind; ii_domain; ii_resource; ii_traffic_class;
    ii_basis_severity; ii_basis_state; ii_evidence; ii_evaluation; ii_epoch;
    ii_authority_generation; ii_policy; ii_policy_fingerprint; ii_provenance; ii_issued_tick;
    ii_expires_tick; ii_parameter; ii_priority; ii_parameter_clamped; ii_rationale >.

#[export] Instance InterventionIntent_eq_dec : EqDecision InterventionIntent.
Proof. solve_decision. Defined.

Definition intent_expired_at (i : InterventionIntent) (now : N) : bool :=
  negb (ii_expires_tick i =? 0) && (ii_expires_tick i <? now).

Definition bound_to (i : InterventionIntent) (v : AuthorityVector) : bool :=
  (ii_epoch i =? av_epoch v) && (ii_authority_generation i =? av_generation v)
  && (ii_policy i =? av_policy v) && (ii_policy_fingerprint i =? av_policy_fingerprint v).

Record SuppressedIntervention := mkSuppressedIntervention {
  si_kind : InterventionKind;
  si_domain : N;
  si_resource : N;
  si_traffic_class : N;
  si_reason : SuppressionReason;
  si_detail : string
}.

Record InterventionPlan := mkInterventionPlan {
  ip_evaluation : N;
  ip_domain : N;
  ip_epoch : N;
  ip_authority_generation : N;
  ip_policy : N;
  ip_policy_fingerprint : N;
  ip_planned_tick : N;
  ip_authorized : list InterventionIntent;
  ip_suppressed : list SuppressedIntervention
}.

#[export] Instance InterventionPlan_settable : Settable InterventionPlan :=
  fields! mkInterventionPlan < ip_evaluation; ip_domain; ip_epoch; ip_authority_generation;
    ip_policy; ip_policy_fingerprint; ip_planned_tick; ip_authorized; ip_suppressed >.

Definition plan_empty (p : InterventionPlan) : bool :=
  bool_decide (ip_authorized p = []) && (length (ip_suppressed p) =? 0)%nat.

Record InterventionRecord := mkInterventionRecord {
  irec_id : N;
  irec_kind : InterventionKind;
  irec_domain : N;
  irec_resource : N;
  irec_basis_severity : Severity;
  irec_evidence : N;
  irec_evaluation : N;
  irec_epoch : N;
  irec_authority_generation : N;
  irec_policy : N;
  irec_provenance : N;
  irec_recorded_tick : N;
  irec_parameter : N
}.

#[export] Instance InterventionRecord_eq_dec : EqDecision InterventionRecord.
Proof. solve_decision. Defined.

Definition compute_intervention_id (i : InterventionIntent) : N :=
  let h := update_u8 hasher (intervention_val (ii_kind i)) in
  let h := update_u64 h (ii_domain i) in
  let h := update_u64 h (ii_resource i) in
  let h := update_u64 h (ii_traffic_class i) in
  let h := update_u8 h (sev_val (ii_basis_severity i)) in
  let h := update_u8 h (state_val (ii_basis_state i)) in
  let h := update_u64 h (ii_evidence i) in
  let h := update_u64 h (ii_evaluation i) in
  let h := update_u64 h (ii_epoch i) in
  let h := update_u64 h (ii_authority_generation i) in
  let h := update_u64 h (ii_policy i) in
  let h := update_u64 h (ii_policy_fingerprint i) in
  let h := update_u64 h (ii_parameter i) in
  finish (update_u64 h (ii_issued_tick i)).

Definition kMaxRationaleBytes : N := 512.

Definition validate_intent (i : InterventionIntent) : Result unit :=
  guard (bool_decide (ii_kind i = IkNone) || bool_decide (ii_kind i = IkCount))
    InvalidArgument "intervention intent has no kind" (
  guard (negb (valid (ii_domain i))) InvalidArgument "intervention intent has no domain" (
  guard (negb (is_authoritative (ii_basis_state i)))
    Unauthorized "intervention intent is based on a non-authoritative state" (
  guard (negb (valid (ii_evidence i)))
    InvalidArgument "intervention intent is not bound to an evidence snapshot" (
  guard (negb (valid (ii_evaluation i)))
    InvalidArgument "intervention intent is not bound to an evaluation" (
  guard (negb (valid (ii_epoch i)))
    InvalidArgument "intervention intent is not bound to an epoch" (
  guard (negb (valid (ii_authority_generation i)))
    InvalidArgument "intervention intent is not bound to an authority generation" (
  guard (negb (valid (ii_policy i)) || negb (valid (ii_policy_fingerprint i)))
    InvalidArgument "intervention intent is not bound to a policy" (
  guard (ii_issued_tick i =? kNoTick)
    InvalidArgument "intervention intent has no issue tick" (
  guard (negb (ii_expires_tick i =? 0) && (ii_expires_tick i <? ii_issued_tick i))
    InvalidArgument "intervention intent expires before it was issued" (
  guard (kMaxRationaleBytes <? N.of_nat (String.length (ii_rationale i)))
    LimitExceeded "intervention rationale exceeds its bound" (Ok tt))))))))))).

(** What [validate_intent] accepts. *)
Record intent_ok (i : InterventionIntent) : Prop := {
  io_kind : ii_kind i <> IkNone /\ ii_kind i <> IkCount;
  io_domain : ii_domain i <> 0;
  io_state : is_authoritative (ii_basis_state i) = true;
  io_bound : ii_evidence i <> 0 /\ ii_evaluation i <> 0 /\ ii_epoch i <> 0 /\
             ii_authority_generation i <> 0 /\ ii_policy i <> 0 /\ ii_policy_fingerprint i <> 0;
  io_ticks : ii_issued_tick i <> kNoTick /\
             (ii_expires_tick i = 0 \/ ii_issued_tick i <= ii_expires_tick i);
  io_rationale : N.of_nat (String.length (ii_rationale i)) <= kMaxRationaleBytes
}.

Lemma validate_intent_iff (i : InterventionIntent) : validate_intent i = Ok tt <-> intent_ok i.
Proof.
  unfold validate_intent. rewrite !guard_Ok_iff. unfold valid.
  rewrite !orb_false_iff, !andb_false_iff, !negb_false_iff, !negb_true_iff, !bool_decide_eq_false,
    !N.ltb_ge, !N.eqb_neq, !N.eqb_eq. split.
  - intros (? & ? & ? & ? & ? & ? & ? & [? ?] & ? & ? & ? & _). by split.
  - intros [? ? ? (? & ? & ? & ? & ? & ?) [? ?] ?].
    repeat match goal with |- _ /\ _ => split end; tauto.
Qed.
