(* ===== verification/Hysteresis.v ===== *)
(** * Hysteresis: include/ncf/eval/hysteresis.hpp and src/eval/hysteresis.cpp

    The per-domain state machine that commits severities.  [step] is the whole
    of [HysteresisEngine::step]; the [DomainState] it advances in place is
    returned next to the step's outcome. *)

From S2P Require Import Prelude Core Enums Policy State.

Open Scope N_scope.

Record SeverityProposal := mkSeverityProposal {
  sp_upward : Severity;
  sp_downward : Severity;
  sp_has_value : bool;
  sp_indeterminate : CongestionState
}.

Record HysteresisStep := mkHysteresisStep {
  hs_committed : CongestionState;
  hs_transitioned : bool;
  hs_reason : string
}.

Definition at_least_one (value : N) : N := if value =? 0 then 1 else value.
Definition elapsed_since (now since : N) : N := if since <=? now then now - since else 0.

Definition current_severity_of (s : CongestionState) : Severity := default SevClear (severity_of s).

(** The samples a recovery needs. *)
Definition recovery_samples (r : RecoveryPolicy) : N :=
  if rp_allow_single_sample r then 1 else N.max 2 (rp_min_improved_samples r).

(** The ladder's decision: the target state, the samples required to commit it
    and whether it is an escalation; [None] is the branch that stays. *)
Definition ladder (state : DomainState) (p : SeverityProposal) (h : HysteresisPolicy)
    (r : RecoveryPolicy) : option (CongestionState * N * bool) :=
  let current := current_severity_of (ds_state state) in
  if negb (is_authoritative (ds_state state)) then
    if sev_leb SevCongested (sp_upward p) then
      Some (state_of (sp_upward p), at_least_one (hp_escalate_samples h), true)
    else if rp_enabled r && sev_leb SevCongested (ds_last_committed_severity state) then
      Some (StRecovering, recovery_samples r, false)
    else Some (state_of (sp_upward p), 1, false)
  else if sev_ltb current (sp_upward p) then
    Some (state_of (sp_upward p), at_least_one (hp_escalate_samples h), true)
  else if sev_ltb (sp_downward p) current then
    if bool_decide (ds_state state = StRecovering) then
      if bool_decide (sp_downward p = SevClear) then
        Some (StClear, at_least_one (rp_clear_samples r), false)
      else Some (state_of (sp_downward p), at_least_one (hp_deescalate_samples h), false)
    else if rp_enabled r && bool_decide (sp_downward p = SevClear) && sev_leb SevCongested current then
      Some (StRecovering, recovery_samples r, false)
    else Some (state_of (sp_downward p), at_least_one (hp_deescalate_samples h), false)
  else None.

(** The streak after one more qualifying sample for [target]. *)
Definition bump_candidate (state : DomainState) (target : CongestionState) : DomainState :=
  if bool_decide (ds_candidate state = target) && (0 <? ds_candidate_streak state) then
    if ds_candidate_streak state <? kMaxHysteresisSamples
    then state <| ds_candidate_streak := ds_candidate_streak state + 1 |> else state
  else state <| ds_candidate := target |> <| ds_candidate_streak := 1 |>.

Definition hold (state : DomainState) (reason : string) : DomainState * HysteresisStep :=
  (state, mkHysteresisStep (ds_state state) false reason).

(** The commit block. *)
Definition commit_target (state : DomainState) (target : CongestionState) (escalation : bool) (now : N) :
    DomainState * HysteresisStep :=
  let s := state <| ds_state := target |> <| ds_candidate := StUnknown |>
             <| ds_candidate_streak := 0 |> <| ds_last_change_tick := now |>
             <| ds_transition_count := w64 (ds_transition_count state + 1) |> in
  let s := if is_authoritative target
           then s <| ds_last_authoritative_tick := now |>
                  <| ds_last_committed_severity := current_severity_of target |>
                  <| ds_requires_revalidation := false |>
           else s in
  (s, mkHysteresisStep target true
        (if bool_decide (target = StRecovering) then "recovery-started"
         else if escalation then "escalated"
         else if bool_decide (target = StClear) then "recovery-complete"
         else "downgraded")%string).

(** The branch taken when the proposal carries no value. *)
Definition refuse_to_decide (state : DomainState) (p : SeverityProposal) (now : N) :
    DomainState * HysteresisStep :=
  if negb (is_indeterminate (sp_indeterminate p)) then hold state "invalid-proposal"
  else
    let target :=
      if bool_decide (sp_indeterminate p = StUnknown) && negb (ds_last_authoritative_tick state =? kNoTick)
      then StStale else sp_indeterminate p in
    let s := state <| ds_candidate := StUnknown |> <| ds_candidate_streak := 0 |> in
    if bool_decide (ds_state s = target) then (s, mkHysteresisStep target false "indeterminate")
    else (s <| ds_state := target |> <| ds_last_change_tick := now |>
            <| ds_transition_count := w64 (ds_transition_count state + 1) |>,
          mkHysteresisStep target true "indeterminate").

(** Everything after the target is known. *)
Definition advance_candidate (state : DomainState) (target : CongestionState) (required : N)
    (escalation : bool) (h : HysteresisPolicy) (r : RecoveryPolicy) (now : N) :
    DomainState * HysteresisStep :=
  let required := if kMaxHysteresisSamples <? required then kMaxHysteresisSamples else required in
  if bool_decide (target = ds_state state) then
    (state <| ds_candidate := ds_state state |> <| ds_candidate_streak := 0 |>
       <| ds_last_authoritative_tick := now |>, mkHysteresisStep (ds_state state) false "steady")
  else
    let s := bump_candidate state target in
    let dwell_applies := if escalation then hp_apply_dwell_on_escalation h else true in
    if dwell_applies && (0 <? hp_min_dwell_ticks h) && negb (ds_last_change_tick s =? kNoTick)
       && (elapsed_since now (ds_last_change_tick s) <? hp_min_dwell_ticks h)
    then hold s "hold-dwell"
    else if bool_decide (ds_state s = StRecovering) && (0 <? rp_recovering_hold_ticks r)
            && negb (ds_last_change_tick s =? kNoTick)
            && (elapsed_since now (ds_last_change_tick s) <? rp_recovering_hold_ticks r)
    then hold s "hold-recovering"
    else if ds_candidate_streak s <? required
    then hold s (if escalation then "escalate-pending" else "downgrade-pending")
    else commit_target s target escalation now.

(** [HysteresisEngine::step]. *)
Definition step (state : DomainState) (p : SeverityProposal) (h : HysteresisPolicy)
    (r : RecoveryPolicy) (now : N) : DomainState * HysteresisStep :=
  if negb (ds_last_change_tick state =? kNoTick) && (now <? ds_last_change_tick state)
  then hold state "tick-regression"
  else if negb (ds_last_evaluated_tick state =? kNoTick) && (now <? ds_last_evaluated_tick state)
  then hold state "tick-regression"
  else if negb (sp_has_value p) then refuse_to_decide state p now
  else
    match ladder state p h r with
    | None =>
        (state <| ds_candidate := ds_state state |> <| ds_candidate_streak := 0 |>
           <| ds_last_authoritative_tick := now |>
           <| ds_last_committed_severity := current_severity_of (ds_state state) |>,
         mkHysteresisStep (ds_state state) false "steady")
    | Some (target, required, escalation) => advance_candidate state target required escalation h r now
    end.

(** * Properties *)

(** ** One step *)

Definition regressed (state : DomainState) (now : N) : bool :=
  (negb (ds_last_change_tick state =? kNoTick) && (now <? ds_last_change_tick state))
  || (negb (ds_last_evaluated_tick state =? kNoTick) && (now <? ds_last_evaluated_tick state)).

Lemma step_regressed state p h r now :
  regressed state now = true -> step state p h r now = hold state "tick-regression".
Proof.
  unfold regressed, step. intros [H|H]%orb_true_iff; rewrite H; [done|].
  by destruct (negb (ds_last_change_tick state =? kNoTick) && (now <? ds_last_change_tick state)).
Qed.

Lemma step_live state p h r now :
  regressed state now = false ->
  step state p h r now
  = if negb (sp_has_value p) then refuse_to_decide state p now
    else match ladder state p h r with
         | None => (state <| ds_candidate := ds_state state |> <| ds_candidate_streak := 0 |>
             <| ds_last_authoritative_tick := now |>
             <| ds_last_committed_severity := current_severity_of (ds_state state) |>,
           mkHysteresisStep (ds_state state) false "steady")
         | Some (target, required, escalation) =>
             advance_candidate state target required escalation h r now
         end.
Proof. unfold regressed, step. intros [-> ->]%orb_false_iff. done. Qed.

Lemma bump_candidate_state state target : ds_state (bump_candidate state target) = ds_state state.
Proof. unfold bump_candidate. by repeat split_match. Qed.

Lemma bump_candidate_last_change state target :
  ds_last_change_tick (bump_candidate state target) = ds_last_change_tick state.
Proof. unfold bump_candidate. by repeat split_match. Qed.

Lemma bump_candidate_candidate state target : ds_candidate (bump_candidate state target) = target.
Proof.
  unfold bump_candidate. destruct (bool_decide _ && _) eqn:E; [|done].
  reflect_bools. by destruct (_ <? _).
Qed.

Lemma bump_candidate_streak state target :
  ds_candidate_streak state <= kMaxHysteresisSamples ->
  ds_candidate_streak (bump_candidate state target)
  = N.min kMaxHysteresisSamples
      (if bool_decide (ds_candidate state = target) then ds_candidate_streak state + 1 else 1).
Proof.
  intros Hb. unfold bump_candidate. case_bool_decide; simpl; [|done].
  destruct (N.ltb_spec 0 (ds_candidate_streak state)); simpl.
  - destruct (N.ltb_spec (ds_candidate_streak state) kMaxHysteresisSamples); simpl; lia.
  - replace (ds_candidate_streak state) with 0 by lia. done.
Qed.

Definition cap_samples (n : N) : N := N.min n kMaxHysteresisSamples.

Lemma cap_samples_code (n : N) :
  (if kMaxHysteresisSamples <? n then kMaxHysteresisSamples else n) = cap_samples n.
Proof. unfold cap_samples. destruct (N.ltb_spec kMaxHysteresisSamples n); lia. Qed.

(** The dwell and hold tests of one step. *)
Definition dwell_blocks (state : DomainState) (escalation : bool) (h : HysteresisPolicy) (now : N) : bool :=
  (if escalation then hp_apply_dwell_on_escalation h else true) && (0 <? hp_min_dwell_ticks h)
  && negb (ds_last_change_tick state =? kNoTick)
  && (elapsed_since now (ds_last_change_tick state) <? hp_min_dwell_ticks h).
Definition recovering_blocks (state : DomainState) (r : RecoveryPolicy) (now : N) : bool :=
  bool_decide (ds_state state = StRecovering) && (0 <? rp_recovering_hold_ticks r)
  && negb (ds_last_change_tick state =? kNoTick)
  && (elapsed_since now (ds_last_change_tick state) <? rp_recovering_hold_ticks r).

(** Every outcome of a step that has a target other than the current state. *)
Inductive advanced (state : DomainState) (target : CongestionState) (required : N) (escalation : bool)
    (h : HysteresisPolicy) (r : RecoveryPolicy) (now : N) : DomainState * HysteresisStep -> Prop :=
| adv_hold reason :
    dwell_blocks state escalation h now = true \/ recovering_blocks state r now = true \/
    ds_candidate_streak (bump_candidate state target) < cap_samples required ->
    advanced state target required escalation h r now (hold (bump_candidate state target) reason)
| adv_commit :
    dwell_blocks state escalation h now = false -> recovering_blocks state r now = false ->
    cap_samples required <= ds_candidate_streak (bump_candidate state target) ->
    advanced state target required escalation h r now
      (commit_target (bump_candidate state target) target escalation now).

Lemma advance_candidate_cases state target required escalation h r now :
  target <> ds_state state ->
  advanced state target required escalation h r now
    (advance_candidate state target required escalation h r now).
Proof.
  intros Hne. unfold advance_candidate. rewrite cap_samples_code, bool_decide_eq_false_2 by done.
  cbv zeta. rewrite bump_candidate_state, bump_candidate_last_change.
  destruct (_ && (elapsed_since now _ <? hp_min_dwell_ticks h)) eqn:Hd; [apply adv_hold; by left|].
  destruct (_ && (elapsed_since now _ <? rp_recovering_hold_ticks r)) eqn:Hr;
    [apply adv_hold; right; by left|].
  destruct (N.ltb_spec (ds_candidate_streak (bump_candidate state target)) (cap_samples required)) as [Hs|Hs].
  - apply adv_hold. right. by right.
  - by apply adv_commit.
Qed.

Lemma ladder_target_ne state p h r target required escalation :
  sev_leb (sp_upward p) SevSevere = true -> sev_leb (sp_downward p) SevSevere = true ->
  ladder state p h r = Some (target, required, escalation) ->
  target <> ds_state state /\ is_authoritative target = true /\ 1 <= required.
Proof.
  intros Hup Hdn H. unfold ladder, recovery_samples, at_least_one in H.
  destruct (state_of_authoritative _ Hup) as [Hau Hsu].
  destruct (state_of_authoritative _ Hdn) as [Had Hsd].
  assert (forall s, is_authoritative s = true -> is_authoritative (ds_state state) = false ->
    s <> ds_state state) as Hne by (intros s ? ? ->; congruence).
  destruct (is_authoritative (ds_state state)) eqn:Ha; simpl in H.
  - repeat split_match_in H; simplify_eq/=; try done;
      (split; [|split; [done|repeat split_match; reflect_bools; lia]]); intros E;
      unfold current_severity_of in *; rewrite <- ?E, ?Hsu, ?Hsd in *; simpl in *;
      unfold sev_ltb in *; reflect_bools; try lia; try done.
    all: congruence.
  - repeat split_match_in H; simplify_eq/=;
      (split; [by apply Hne|split; [done|repeat split_match; reflect_bools; lia]]).
Qed.

(** What the machine maintains of a [DomainState]. *)
Record hysteresis_ok (s : DomainState) : Prop := {
  ho_state : is_authoritative (ds_state s) = true \/ is_indeterminate (ds_state s) = true;
  ho_severity : is_authoritative (ds_state s) = true ->
    ds_last_committed_severity s = current_severity_of (ds_state s);
  ho_streak : ds_candidate_streak s <= kMaxHysteresisSamples
}.

(** Proposals name real severities. *)
Definition proposal_ok (p : SeverityProposal) : Prop :=
  sev_leb (sp_upward p) SevSevere = true /\ sev_leb (sp_downward p) SevSevere = true.

(** The moves one step can make, as a relation on states. *)
Inductive moves (state : DomainState) (p : SeverityProposal) (h : HysteresisPolicy) (r : RecoveryPolicy)
    (now : N) : DomainState * HysteresisStep -> Prop :=
| mv_refused reason :
    regressed state now = true \/ sp_has_value p = false ->
    moves state p h r now (hold state reason)
| mv_indeterminate :
    regressed state now = false -> sp_has_value p = false -> is_indeterminate (sp_indeterminate p) = true ->
    moves state p h r now (refuse_to_decide state p now)
| mv_steady :
    regressed state now = false -> sp_has_value p = true -> ladder state p h r = None ->
    moves state p h r now (state <| ds_candidate := ds_state state |> <| ds_candidate_streak := 0 |>
      <| ds_last_authoritative_tick := now |>
      <| ds_last_committed_severity := current_severity_of (ds_state state) |>,
      mkHysteresisStep (ds_state state) false "steady")
| mv_advance target required escalation out :
    regressed state now = false -> sp_has_value p = true ->
    ladder state p h r = Some (target, required, escalation) ->
    advanced state target required escalation h r now out ->
    moves state p h r now out.

Lemma step_moves state p h r now : proposal_ok p -> moves state p h r now (step state p h r now).
Proof.
  intros [Hup Hdn]. destruct (regressed state now) eqn:Hr.
  { rewrite step_regressed by done. apply mv_refused. by left. }
  rewrite step_live by done. destruct (sp_has_value p) eqn:Hv; simpl.
  - destruct (ladder state p h r) as [[[target required] escalation]|] eqn:Hl; [|by apply mv_steady].
    eapply mv_advance; [done..|]. apply advance_candidate_cases. by eapply ladder_target_ne.
  - destruct (is_indeterminate (sp_indeterminate p)) eqn:Hi; [by apply mv_indeterminate|].
    unfold refuse_to_decide. rewrite Hi. apply mv_refused. by right.
Qed.

Lemma bump_candidate_identity state target :
  ds_domain (bump_candidate state target) = ds_domain state /\ ds_epoch (bump_candidate state target) = ds_epoch state.
Proof. unfold bump_candidate. by repeat split_match. Qed.

Lemma commit_target_identity state target escalation now :
  ds_domain (commit_target state target escalation now).1 = ds_domain state /\
  ds_epoch (commit_target state target escalation now).1 = ds_epoch state.
Proof. unfold commit_target. by repeat split_match. Qed.

(** A step never changes which domain and which epoch the state is of. *)
Lemma step_identity state p h r now :
  ds_domain (step state p h r now).1 = ds_domain state /\ ds_epoch (step state p h r now).1 = ds_epoch state.
Proof.
  unfold step. destruct (_ && _); [done|]. destruct (_ && _); [done|].
  destruct (sp_has_value p); cbn [negb]; [|unfold refuse_to_decide; by repeat split_match].
  destruct (ladder state p h r) as [[[target required] escalation]|]; [|done]. unfold advance_candidate. cbv zeta.
  destruct (bool_decide _); [done|]. destruct (bump_candidate_identity state target) as [E1 E2].
  destruct (_ && _); [by split|]. destruct (_ && _); [by split|]. destruct (_ <? _); [by split|].
  destruct (commit_target_identity (bump_candidate state target) target escalation now) as [-> ->]. by split.
Qed.

Lemma commit_target_state state target escalation now :
  ds_state (commit_target state target escalation now).1 = target /\
  ds_candidate_streak (commit_target state target escalation now).1 = 0 /\
  ds_last_change_tick (commit_target state target escalation now).1 = now /\
  ds_transition_count (commit_target state target escalation now).1
    = w64 (ds_transition_count state + 1).
Proof. unfold commit_target. by destruct (is_authoritative target). Qed.

Lemma refuse_to_decide_state state p now :
  is_indeterminate (sp_indeterminate p) = true ->
  let target := if bool_decide (sp_indeterminate p = StUnknown)
                   && negb (ds_last_authoritative_tick state =? kNoTick)
                then StStale else sp_indeterminate p in
  ds_state (refuse_to_decide state p now).1 = target /\
  hs_committed (refuse_to_decide state p now).2 = target /\
  ds_candidate_streak (refuse_to_decide state p now).1 = 0 /\
  is_indeterminate target = true.
Proof.
  intros Hi. unfold refuse_to_decide. rewrite Hi. cbv zeta. cbn [negb].
  assert (is_indeterminate (if bool_decide (sp_indeterminate p = StUnknown)
    && negb (ds_last_authoritative_tick state =? kNoTick) then StStale else sp_indeterminate p) = true)
    as Ht by (by destruct (_ && _)).
  revert Ht. generalize (if bool_decide (sp_indeterminate p = StUnknown)
    && negb (ds_last_authoritative_tick state =? kNoTick) then StStale else sp_indeterminate p).
  intros t Ht. simpl. case_bool_decide; simpl; done.
Qed.

Lemma indeterminate_not_authoritative s : is_indeterminate s = true -> is_authoritative s = false.
Proof. by destruct s. Qed.

(** The committed state reported is the state left behind, and the state changes
    exactly when the step says so. *)
Lemma step_reports state p h r now :
  proposal_ok p ->
  hs_committed (step state p h r now).2 = ds_state (step state p h r now).1 /\
  (hs_transitioned (step state p h r now).2 = true
   <-> ds_state (step state p h r now).1 <> ds_state state).
Proof.
  intros Hp. destruct (step_moves state p h r now Hp)
    as [reason _|_ _ Hi|_ _ _|target required escalation out _ _ Hl Hadv]; simpl.
  - split; [done|]. by split.
  - unfold refuse_to_decide. rewrite Hi. simpl. case_bool_decide as E; simpl.
    + split; [done|]. split; [done|]. simpl in E. by intros [].
    + split; [done|]. simpl in E. split; [congruence|done].
  - split; [done|]. by split.
  - destruct Hp as [Hup Hdn]. destruct (ladder_target_ne _ _ _ _ _ _ _ Hup Hdn Hl) as (Hne & Ha & _).
    destruct Hadv as [reason _|_ _ _]; simpl.
    + rewrite bump_candidate_state. split; [done|]. by split.
    + unfold commit_target. rewrite Ha. simpl. by split.
Qed.

Lemma step_ok state p h r now :
  proposal_ok p -> hysteresis_ok state -> hysteresis_ok (step state p h r now).1.
Proof.
  intros Hp [Hst Hsev Hstk]. destruct (step_moves state p h r now Hp)
    as [reason _|_ _ Hi|_ _ Hl|target required escalation out _ _ Hl Hadv]; simpl.
  - by split.
  - destruct (refuse_to_decide_state state p now Hi) as (E & _ & Es & Ht).
    split; rewrite ?E, ?Es; [by right| |lia].
    by rewrite (indeterminate_not_authoritative _ Ht).
  - split; simpl; [done|done|lia].
  - destruct Hp as [Hup Hdn]. destruct (ladder_target_ne _ _ _ _ _ _ _ Hup Hdn Hl) as (Hne & Ha & _).
    destruct Hadv as [reason _|_ _ _]; simpl.
    + split; rewrite ?bump_candidate_state; [done| |].
      * intros Hau. rewrite <- Hsev by done. unfold bump_candidate. by repeat split_match.
      * rewrite bump_candidate_streak by done. lia.
    + unfold commit_target. rewrite Ha. split; simpl; [by left|done|lia].
Qed.

(** ** Runs *)

(** The history of a run, newest first: the target each step voted for, [None]
    when it voted for nothing.  A refused tick leaves no entry. *)
Definition vote (state : DomainState) (p : SeverityProposal) (h : HysteresisPolicy) (r : RecoveryPolicy)
    (now : N) (history : list (option CongestionState)) : list (option CongestionState) :=
  if regressed state now then history
  else if negb (sp_has_value p) then
    if is_indeterminate (sp_indeterminate p) then None :: history else history
  else match ladder state p h r with
       | Some (target, _, _) => Some target :: history
       | None => None :: history
       end.

(** How many of the newest entries voted for [target], without a gap. *)
Fixpoint consecutive (target : CongestionState) (history : list (option CongestionState)) : N :=
  match history with
  | Some t :: rest => if bool_decide (t = target) then consecutive target rest + 1 else 0
  | _ => 0
  end.

Definition run_step (h : HysteresisPolicy) (r : RecoveryPolicy)
    (acc : DomainState * list (option CongestionState)) (input : SeverityProposal * N) :
    DomainState * list (option CongestionState) :=
  ((step acc.1 input.1 h r input.2).1, vote acc.1 input.1 h r input.2 acc.2).

(** A run of the machine over proposals and ticks, starting with an empty
    history. *)
Definition run (h : HysteresisPolicy) (r : RecoveryPolicy) (start : DomainState)
    (inputs : list (SeverityProposal * N)) : DomainState * list (option CongestionState) :=
  foldl (run_step h r) (start, []) inputs.

(** The streak never counts more samples than voted for the candidate. *)
Definition streak_sound (acc : DomainState * list (option CongestionState)) : Prop :=
  ds_candidate_streak acc.1 <= kMaxHysteresisSamples /\
  ds_candidate_streak acc.1 <= consecutive (ds_candidate acc.1) acc.2.

Lemma bump_streak_sound state target history :
  streak_sound (state, history) -> streak_sound (bump_candidate state target, Some target :: history).
Proof.
  unfold streak_sound; simpl. intros [Hb Hs]. rewrite bump_candidate_candidate, bump_candidate_streak by done.
  rewrite (bool_decide_eq_true_2 (target = target)) by done. split; [lia|].
  case_bool_decide; subst; lia.
Qed.

Lemma run_step_sound h r acc input :
  proposal_ok input.1 -> streak_sound acc -> streak_sound (run_step h r acc input).
Proof.
  destruct acc as [state history], input as [p now]. simpl. intros Hp Hs. unfold run_step, vote. simpl.
  destruct (regressed state now) eqn:Hr; [by rewrite step_regressed|].
  rewrite step_live by done. destruct (sp_has_value p); simpl.
  - destruct (ladder state p h r) as [[[target required] escalation]|] eqn:Hl; [|split; simpl; lia].
    destruct Hp as [Hup Hdn]. destruct (ladder_target_ne _ _ _ _ _ _ _ Hup Hdn Hl) as (Hne & Ha & _).
    pose proof (bump_streak_sound state target history Hs) as Hb.
    destruct (advance_candidate_cases state target required escalation h r now Hne) as [reason _|_ _ _].
    + exact Hb.
    + unfold commit_target. rewrite Ha. split; simpl; lia.
  - destruct (is_indeterminate (sp_indeterminate p)) eqn:Hi.
    + destruct (refuse_to_decide_state state p now Hi) as (_ & _ & Es & _).
      split; cbn [fst snd]; rewrite Es; lia.
    + unfold refuse_to_decide. by rewrite Hi.
Qed.

Lemma run_sound h r start inputs :
  ds_candidate_streak start = 0 -> Forall (fun i => proposal_ok i.1) inputs ->
  streak_sound (run h r start inputs).
Proof.
  intros H0 Hin. unfold run. apply foldl_inv; [split; simpl; lia|].
  rewrite Forall_forall in Hin. intros acc input Hi. apply run_step_sound. by apply Hin.
Qed.

(** A commit is always backed by as many consecutive votes as the ladder asks
    for (up to the hard bound on samples). *)
Lemma commit_backed h r start inputs p now :
  ds_candidate_streak start = 0 -> Forall (fun i => proposal_ok i.1) inputs -> proposal_ok p ->
  let state := (run h r start inputs).1 in
  let final := run h r start (inputs ++ [(p, now)]) in
  sp_has_value p = true -> ds_state final.1 <> ds_state state ->
  exists target required escalation,
    ladder state p h r = Some (target, required, escalation) /\ ds_state final.1 = target /\
    cap_samples required <= consecutive target final.2.
Proof.
  intros H0 Hin Hp state final Hv Hne.
  pose proof (run_sound h r start inputs H0 Hin) as Hs.
  assert (final = run_step h r (run h r start inputs) (p, now)) as Hf by (unfold final, run; by rewrite foldl_app).
  rewrite Hf in *. clear Hf final. unfold state in *. clear state.
  destruct (run h r start inputs) as [st hist]. unfold run_step, vote in *. simpl in *.
  destruct (regressed st now) eqn:Hr; [by rewrite step_regressed in Hne|].
  rewrite step_live, Hv in * by done. simpl in *.
  destruct (ladder st p h r) as [[[target required] escalation]|] eqn:Hl; [|done].
  exists target, required, escalation. split; [done|].
  destruct Hp as [Hup Hdn]. destruct (ladder_target_ne _ _ _ _ _ _ _ Hup Hdn Hl) as (Hn & Ha & _).
  pose proof (bump_streak_sound st target hist Hs) as [_ Hb]. cbn [fst snd] in Hb.
  rewrite bump_candidate_candidate in Hb.
  revert Hne. destruct (advance_candidate_cases st target required escalation h r now Hn)
    as [reason _|_ _ Hreq]; intros Hne.
  - simpl in Hne. by rewrite bump_candidate_state in Hne.
  - unfold commit_target. rewrite Ha. simpl in *. split; [done|lia].
Qed.

(** ** Recovery *)

(** What the recovery policy calls an improved sample, in the words of the policy
    and not of the ladder: with recovery enabled, a valid proposal that no
    longer supports the congestion the domain is in.  A congested or severe
    domain improves on a sample whose downward severity (with the clearing
    margins) is CLEAR; a domain that lost its authority improves when the last
    severity it committed was congestion and the sample no longer says so. *)
Definition improved (state : DomainState) (p : SeverityProposal) (r : RecoveryPolicy) : bool :=
  rp_enabled r && sp_has_value p &&
  match ds_state state with
  | StCongested => sev_leb (sp_upward p) SevCongested && bool_decide (sp_downward p = SevClear)
  | StSevere => bool_decide (sp_downward p = SevClear)
  | StClear | StWatch | StRecovering => false
  | _ => sev_ltb (sp_upward p) SevCongested && sev_leb SevCongested (ds_last_committed_severity state)
  end.

(** How many improved samples in a row a run ends with.  A refused tick and a
    malformed proposal neither count nor break the row; anything else that is
    not improved breaks it. *)
Definition count_improved (h : HysteresisPolicy) (r : RecoveryPolicy) (acc : DomainState * N)
    (input : SeverityProposal * N) : DomainState * N :=
  ((step acc.1 input.1 h r input.2).1,
   if regressed acc.1 input.2 then acc.2
   else if negb (sp_has_value input.1) && negb (is_indeterminate (sp_indeterminate input.1)) then acc.2
   else if improved acc.1 input.1 r then acc.2 + 1 else 0).

(** The row a restored state already carries. *)
Definition carried (start : DomainState) : N :=
  if bool_decide (ds_candidate start = StRecovering) then ds_candidate_streak start else 0.

Definition improved_row (h : HysteresisPolicy) (r : RecoveryPolicy) (start : DomainState)
    (inputs : list (SeverityProposal * N)) : N :=
  (foldl (count_improved h r) (start, carried start) inputs).2.

(** The ladder asks for recovery exactly on an improved sample. *)
Lemma ladder_improved state p h r :
  proposal_ok p -> sp_has_value p = true ->
  match ladder state p h r with
  | Some (target, required, _) =>
      if improved state p r then target = StRecovering /\ required = recovery_samples r
      else target <> StRecovering
  | None => improved state p r = false
  end.
Proof.
  intros [Hup Hdn] Hv. unfold improved, ladder. rewrite Hv, andb_true_r.
  assert (forall s, sev_leb s SevSevere = true -> state_of s <> StRecovering) as Hso by (intros []; done).
  pose proof (Hso _ Hup) as Hsu. pose proof (Hso _ Hdn) as Hsd.
  destruct (ds_state state) eqn:Es; unfold current_severity_of; cbn [is_authoritative negb severity_of default andb];
    destruct (rp_enabled r); cbn [andb];
    destruct (sp_upward p) eqn:Eu, (sp_downward p) eqn:Ed; cbn in Hup, Hdn |- *; reflect_bools;
    try (unfold sev_ltb, sev_leb; cbn; done);
    repeat split_match; try done; unfold sev_ltb, sev_leb in *; cbn in *; reflect_bools; try done; try lia.
Qed.

(** The streak of a recovery candidate never counts more than the row. *)
Definition row_sound (acc : DomainState * N) : Prop :=
  ds_candidate_streak acc.1 <= kMaxHysteresisSamples /\ carried acc.1 <= acc.2.

Lemma carried_other (state : DomainState) : ds_candidate state <> StRecovering -> carried state = 0.
Proof. intros H. unfold carried. by rewrite bool_decide_eq_false_2. Qed.

Lemma carried_empty (state : DomainState) : ds_candidate_streak state = 0 -> carried state = 0.
Proof. intros H. unfold carried. by case_bool_decide. Qed.

(** One step keeps the row; entering recovery takes an improved sample and a row
    of the required length. *)
Lemma count_improved_sound h r acc input :
  proposal_ok input.1 -> row_sound acc ->
  let acc' := count_improved h r acc input in
  row_sound acc' /\
  (ds_state acc'.1 = StRecovering -> ds_state acc.1 <> StRecovering ->
   improved acc.1 input.1 r = true /\ cap_samples (recovery_samples r) <= acc'.2).
Proof.
  destruct acc as [state row], input as [p now]. intros Hp [Hb Hrow]. cbv zeta. unfold count_improved.
  cbn [fst snd] in *. destruct (regressed state now) eqn:Hreg; [by rewrite step_regressed|].
  rewrite step_live by done. destruct (sp_has_value p) eqn:Hv; cbn [negb andb].
  - pose proof (ladder_improved state p h r Hp Hv) as Himp.
    destruct (ladder state p h r) as [[[target required] escalation]|] eqn:Hl.
    2: { rewrite Himp. split; [|done]. split; cbn; [lia|]. rewrite carried_empty by done. lia. }
    destruct Hp as [Hup Hdn]. destruct (ladder_target_ne _ _ _ _ _ _ _ Hup Hdn Hl) as (Hne & Ha & _).
    assert (row_sound (bump_candidate state target, if improved state p r then row + 1 else 0)) as [Hb' Hrow'].
    { split; cbn [fst snd]; [rewrite bump_candidate_streak by done; lia|].
      destruct (improved state p r).
      - destruct Himp as [-> _]. unfold carried in *. rewrite bump_candidate_candidate, bool_decide_eq_true_2 by done.
        rewrite bump_candidate_streak by done. case_bool_decide; lia.
      - rewrite carried_other; [lia|]. by rewrite bump_candidate_candidate. }
    destruct (advance_candidate_cases state target required escalation h r now Hne) as [reason _|_ _ Hreq];
      cbn [fst hold].
    + split; [done|]. rewrite bump_candidate_state. done.
    + destruct (commit_target_state (bump_candidate state target) target escalation now) as (Es & _).
      rewrite Es. split.
      * unfold commit_target. rewrite Ha. split; cbn; [lia|]. rewrite carried_empty by done. lia.
      * intros -> _. destruct (improved state p r); [|done]. destruct Himp as [_ ->]. split; [done|].
        unfold carried in Hrow'. cbn [fst snd] in *.
        rewrite bump_candidate_candidate, bool_decide_eq_true_2 in Hrow' by done. lia.
  - destruct (is_indeterminate (sp_indeterminate p)) eqn:Hi; cbn [negb].
    + destruct (refuse_to_decide_state state p now Hi) as (Es & _ & Ek & Ht). cbv zeta in *. rewrite Es. split.
      * split; cbn [fst snd]; [rewrite Ek; lia|]. rewrite carried_empty by done. lia.
      * intros Hr. rewrite Hr in Ht. done.
    + unfold refuse_to_decide. rewrite Hi. done.
Qed.

Lemma improved_row_state h r start row inputs :
  (foldl (count_improved h r) (start, row) inputs).1 = (run h r start inputs).1.
Proof.
  unfold run. generalize (@nil (option CongestionState)). revert start row.
  induction inputs as [|i inputs IH]; intros start row hist; [done|]. apply IH.
Qed.

(** C23. Recovery is earned: whatever run of valid proposals and ticks a domain
    goes through, from any state, the step that brings it into RECOVERING is
    made on an improved sample and ends an uninterrupted row of improved samples
    (counting the row a restored state already carries) as long as the policy
    demands: the configured minimum and never less than two, one only where the
    policy allows a single sample, up to the hard bound on samples. *)
Theorem recovery_backed h r start inputs p now :
  ds_candidate_streak start <= kMaxHysteresisSamples ->
  Forall (fun i => proposal_ok i.1) inputs -> proposal_ok p ->
  let state := (run h r start inputs).1 in
  ds_state (run h r start (inputs ++ [(p, now)])).1 = StRecovering -> ds_state state <> StRecovering ->
  improved state p r = true /\
  cap_samples (if rp_allow_single_sample r then 1 else N.max 2 (rp_min_improved_samples r))
    <= improved_row h r start (inputs ++ [(p, now)]).
Proof.
  intros Hs Hin Hp. cbv zeta. unfold improved_row.
  rewrite <- (improved_row_state h r start (carried start)), <- (improved_row_state h r start (carried start) inputs).
  rewrite foldl_snoc. rewrite Forall_forall in Hin.
  assert (row_sound (foldl (count_improved h r) (start, carried start) inputs)) as Hrow.
  { apply foldl_inv; [by split|]. intros acc input Hi Hacc. apply count_improved_sound; [by apply Hin|done]. }
  generalize dependent (foldl (count_improved h r) (start, carried start) inputs). intros acc Hrow.
  apply (count_improved_sound h r acc (p, now) Hp Hrow).
Qed.

(** With recovery enabled a Congested or Severe domain never becomes Clear in one
    step: it passes through Recovering or Watch. *)
Theorem no_jump_to_clear state p h r now :
  proposal_ok p -> rp_enabled r = true ->
  ds_state state = StCongested \/ ds_state state = StSevere ->
  ds_state (step state p h r now).1 <> StClear.
Proof.
  intros Hp Hr Hst E. destruct (step_moves state p h r now Hp)
    as [reason _|_ _ Hi|_ _ _|target required escalation out _ _ Hl Hadv].
  - simpl in E. destruct Hst; congruence.
  - destruct (refuse_to_decide_state state p now Hi) as (E' & _ & _ & Ht).
    rewrite <- E', E in Ht. done.
  - simpl in E. destruct Hst; congruence.
  - assert (target <> StClear) as Hne.
    { intros ->. unfold ladder in Hl. rewrite Hr in Hl.
      destruct Hst as [Hst|Hst]; rewrite Hst in Hl; unfold current_severity_of in Hl; simpl in Hl;
        unfold sev_ltb in Hl; destruct (sp_upward p), (sp_downward p); simpl in Hl; try done;
        repeat split_match_in Hl; simplify_eq/=; reflect_bools; try lia; done. }
    destruct Hadv as [reason _|_ _ _].
    + cbn [fst hold] in E. rewrite bump_candidate_state in E. destruct Hst; congruence.
    + destruct (commit_target_state (bump_candidate state target) target escalation now) as [E' _].
      congruence.
Qed.

(** ** Escalation is live *)

Definition later_than (state : DomainState) (now : N) : Prop :=
  ds_last_change_tick state <= now /\ ds_last_evaluated_tick state <= now.

Lemma later_not_regressed state now : later_than state now -> regressed state now = false.
Proof.
  intros [H1 H2]. unfold regressed. apply orb_false_iff.
  split; apply andb_false_iff; right; by apply N.ltb_ge.
Qed.

(** A severity above the current one, in an authoritative state. *)
Definition rises (state : DomainState) (s : Severity) : Prop :=
  sev_leb s SevSevere = true /\ is_authoritative (ds_state state) = true /\
  sev_ltb (current_severity_of (ds_state state)) s = true.

Lemma rises_ladder state p h r :
  rises state (sp_upward p) ->
  ladder state p h r = Some (state_of (sp_upward p), at_least_one (hp_escalate_samples h), true).
Proof. intros (_ & Ha & Hs). unfold ladder. by rewrite Ha, Hs. Qed.

Lemma rises_ne state s : rises state s -> state_of s <> ds_state state.
Proof.
  intros (Hs & _ & Hlt) E. destruct (state_of_authoritative s Hs) as [_ Hsev].
  unfold current_severity_of in Hlt. rewrite <- E, Hsev in Hlt. unfold sev_ltb in Hlt. simpl in Hlt.
  apply N.ltb_lt in Hlt. lia.
Qed.

Lemma run_state_history h r inputs start hist hist' :
  (foldl (run_step h r) (start, hist) inputs).1 = (foldl (run_step h r) (start, hist') inputs).1.
Proof.
  revert start hist hist'. induction inputs as [|i inputs IH]; intros start hist hist'; simpl; [done|].
  unfold run_step at 2 4. simpl. apply IH.
Qed.

Section Escalation.
Context (h : HysteresisPolicy) (r : RecoveryPolicy) (s : Severity).
Hypothesis Hdwell : hp_apply_dwell_on_escalation h = false.
Hypothesis Hhold : rp_recovering_hold_ticks r = 0.
Hypothesis Hsamples : hp_escalate_samples h <= kMaxHysteresisSamples.

(** One pending escalation sample: the state commits, or only its candidate
    and streak move. *)
Lemma escalation_step (state : DomainState) (p : SeverityProposal) (now : N) :
  sp_has_value p = true -> sp_upward p = s -> rises state s -> later_than state now ->
  let out := (step state p h r now).1 in
  if ds_candidate_streak (bump_candidate state (state_of s)) <? at_least_one (hp_escalate_samples h)
  then out = bump_candidate state (state_of s)
  else ds_state out = state_of s.
Proof.
  intros Hv Hs Hr Hl out. unfold out. rewrite step_live, Hv by by apply later_not_regressed.
  cbn [negb]. rewrite rises_ladder, Hs by by rewrite Hs.
  pose proof (rises_ne _ _ Hr) as Hne.
  assert (cap_samples (at_least_one (hp_escalate_samples h)) = at_least_one (hp_escalate_samples h)) as Hcap.
  { unfold cap_samples, at_least_one, kMaxHysteresisSamples in *. destruct (N.eqb_spec (hp_escalate_samples h) 0); lia. }
  destruct (advance_candidate_cases state (state_of s) (at_least_one (hp_escalate_samples h)) true h r now Hne)
    as [reason Hb|_ _ Hreq]; rewrite Hcap in *.
  - unfold dwell_blocks, recovering_blocks in Hb. rewrite Hdwell, Hhold in Hb.
    destruct Hb as [Hb|[Hb|Hb]]; [done|rewrite andb_false_r in Hb; done|].
    rewrite (proj2 (N.ltb_lt _ _)) by done. done.
  - rewrite (proj2 (N.ltb_ge _ _)) by done. apply commit_target_state.
Qed.

(** What is already counted towards the escalation. *)
Definition counted (state : DomainState) : N :=
  if bool_decide (ds_candidate state = state_of s) then ds_candidate_streak state else 0.

Lemma escalation_within (inputs : list (SeverityProposal * N)) (state : DomainState) :
  ds_candidate_streak state <= kMaxHysteresisSamples -> rises state s ->
  Forall (fun i => sp_has_value i.1 = true /\ sp_upward i.1 = s /\ later_than state i.2) inputs ->
  at_least_one (hp_escalate_samples h) <= counted state + size64 inputs ->
  counted state < at_least_one (hp_escalate_samples h) ->
  exists k, (k <= length inputs)%nat /\ ds_state (run h r state (take k inputs)).1 = state_of s.
Proof.
  revert state. induction inputs as [|[p now] inputs IH]; intros state Hb Hr Hin Hn Hc.
  { rewrite size64_nil in Hn. lia. }
  apply Forall_cons in Hin as [(Hv & Hs & Hl) Hin]. cbn [fst snd] in *.
  pose proof (escalation_step state p now Hv Hs Hr Hl) as Hstep. cbv zeta in Hstep.
  pose proof (bump_candidate_streak state (state_of s) Hb) as Hbs.
  assert (ds_candidate_streak (bump_candidate state (state_of s))
          = N.min kMaxHysteresisSamples (counted state + 1)) as Hcount.
  { rewrite Hbs. unfold counted. by case_bool_decide. }
  destruct (N.ltb_spec (ds_candidate_streak (bump_candidate state (state_of s)))
              (at_least_one (hp_escalate_samples h))) as [Hlt|Hge].
  - assert (at_least_one (hp_escalate_samples h) <= kMaxHysteresisSamples) as Hmax.
    { unfold at_least_one, kMaxHysteresisSamples in *. destruct (N.eqb_spec (hp_escalate_samples h) 0); lia. }
    destruct (IH (bump_candidate state (state_of s))) as (k & Hk & Hfin).
    + lia.
    + destruct Hr as (? & ? & ?). unfold rises. by rewrite bump_candidate_state.
    + eapply Forall_impl; [exact Hin|]. intros i (? & ? & Hi). split; [done|]. split; [done|].
      unfold later_than in *. rewrite bump_candidate_last_change.
      unfold bump_candidate. by repeat split_match.
    + rewrite size64_cons in Hn. unfold counted at 1.
      rewrite bump_candidate_candidate, bool_decide_eq_true_2 by done. lia.
    + unfold counted. by rewrite bump_candidate_candidate, bool_decide_eq_true_2 by done.
    + exists (S k). split; [simpl; lia|]. rewrite <- Hfin. unfold run.
      transitivity (ds_state (foldl (run_step h r)
        ((step state p h r now).1, vote state p h r now []) (take k inputs)).1); [done|].
      rewrite Hstep. f_equal. apply run_state_history.
  - exists 1%nat. split; [simpl; lia|]. exact Hstep.
Qed.
End Escalation.

(** A change that is not an escalation waits for the dwell time. *)
Theorem dwell_respected state p h r now :
  proposal_ok p -> sp_has_value p = true ->
  is_authoritative (ds_state state) = true ->
  sev_ltb (current_severity_of (ds_state state)) (sp_upward p) = false ->
  ds_last_change_tick state <> kNoTick ->
  ds_state (step state p h r now).1 <> ds_state state ->
  ds_last_change_tick state + hp_min_dwell_ticks h <= now.
Proof.
  intros Hp Hv Ha Hup Hlast Hne. revert Hne. destruct (step_moves state p h r now Hp)
    as [reason _|_ Hv' _|_ _ _|target required escalation out Hreg _ Hl Hadv]; simpl; try done;
    [congruence|].
  assert (escalation = false) as ->.
  { unfold ladder in Hl. rewrite Ha, Hup in Hl. simpl in Hl. repeat split_match_in Hl; by simplify_eq/=. }
  destruct Hadv as [reason _|Hd _ _]; simpl.
  - by rewrite bump_candidate_state.
  - intros _. unfold dwell_blocks in Hd. rewrite (proj2 (N.eqb_neq _ _)) in Hd by done.
    unfold regressed in Hreg. rewrite (proj2 (N.eqb_neq _ _)) in Hreg by done.
    apply orb_false_iff in Hreg as [Hreg _]. simpl in Hreg, Hd.
    rewrite andb_true_r in Hd. unfold elapsed_since in Hd. apply N.ltb_ge in Hreg.
    rewrite (proj2 (N.leb_le _ _)) in Hd by done. reflect_bools. destruct Hd as [Hd|Hd]; reflect_bools; lia.
Qed.

(** ** The machine as a whole *)

(** The revalidation flag is cleared only together with a committed change to an
    authoritative state: a steady evaluation never clears it. *)
Theorem revalidation_cleared state p h r now :
  proposal_ok p ->
  ds_requires_revalidation (step state p h r now).1 <> ds_requires_revalidation state ->
  ds_requires_revalidation (step state p h r now).1 = false /\
  is_authoritative (ds_state (step state p h r now).1) = true /\
  ds_state (step state p h r now).1 <> ds_state state.
Proof.
  intros Hp. destruct (step_moves state p h r now Hp)
    as [reason _|_ _ Hi|_ _ _|target required escalation out _ _ Hl Hadv]; simpl; try done.
  - unfold refuse_to_decide. rewrite Hi. cbv zeta. cbn [negb]. by case_bool_decide.
  - destruct Hp as [Hup Hdn]. destruct (ladder_target_ne _ _ _ _ _ _ _ Hup Hdn Hl) as (Hne & Ha & _).
    destruct Hadv as [reason _|_ _ _]; simpl.
    + unfold bump_candidate. by repeat split_match.
    + unfold commit_target. by rewrite Ha.
Qed.

(** A refusal to decide is never delayed: without a value the machine leaves every
    authoritative state at once, whatever the dwell and the sample counts. *)
Theorem refusal_is_immediate state p h r now
    (Hreg : regressed state now = false) (Hval : sp_has_value p = false)
    (Hind : is_indeterminate (sp_indeterminate p) = true) :
  let out := step state p h r now in
  is_authoritative (ds_state out.1) = false /\
  (ds_state out.1 = StConflict <-> sp_indeterminate p = StConflict) /\
  (ds_state out.1 = StUnknown -> ds_last_authoritative_tick state = kNoTick) /\
  ds_candidate_streak out.1 = 0 /\ hs_committed out.2 = ds_state out.1.
Proof.
  cbv zeta. rewrite step_live, Hval by done. cbn [negb].
  destruct (refuse_to_decide_state state p now Hind) as (E & Ec & Es & Ht). rewrite E, Ec, Es.
  split; [by apply indeterminate_not_authoritative|]. split; [|split; [|done]].
  - destruct (_ && _) eqn:B; [|done]. reflect_bools. destruct (sp_indeterminate p); done.
  - destruct (_ && _) eqn:B; [done|]. intros Hu. rewrite Hu in B. simpl in B. by reflect_bools.
Qed.

Lemma refusal_is_immediate_witness :
  let p := mkSeverityProposal SevClear SevClear false StUnknown in
  let h := mkHysteresisPolicy 1 3 100 50000 true true in
  let r := mkRecoveryPolicy true 2 false 2 0 in
  let s := domain_state_default <| ds_state := StSevere |> <| ds_last_authoritative_tick := 5 |>
             <| ds_last_change_tick := 5 |> in
  ds_state (step s p h r 6).1 = StStale /\ is_authoritative (ds_state (step s p h r 6).1) = false.
Proof.
  cbv zeta. split; [reflexivity|].
  exact (proj1 (refusal_is_immediate
    (domain_state_default <| ds_state := StSevere |> <| ds_last_authoritative_tick := 5 |>
             <| ds_last_change_tick := 5 |>) (mkSeverityProposal SevClear SevClear false StUnknown)
    (mkHysteresisPolicy 1 3 100 50000 true true) (mkRecoveryPolicy true 2 false 2 0) 6
    eq_refl eq_refl eq_refl)).
Defined.

(** One step keeps the machine well formed, reports the state it leaves behind,
    says "transitioned" exactly when that state differs, and refuses a backwards
    tick without touching anything. *)
Theorem step_well_formed state p h r now (Hp : proposal_ok p) (Hs : hysteresis_ok state) :
  let out := step state p h r now in
  hysteresis_ok out.1 /\ hs_committed out.2 = ds_state out.1 /\
  (hs_transitioned out.2 = true <-> ds_state out.1 <> ds_state state) /\
  (regressed state now = true -> out.1 = state /\ hs_reason out.2 = "tick-regression"%string).
Proof.
  cbv zeta. destruct (step_reports state p h r now Hp) as [Hc Ht].
  split; [by apply step_ok|]. split; [done|]. split; [done|].
  intros Hr. by rewrite step_regressed.
Qed.

Lemma step_well_formed_witness :
  let p := mkSeverityProposal SevSevere SevSevere true StUnknown in
  let h := mkHysteresisPolicy 1 3 0 50000 true false in
  let r := mkRecoveryPolicy true 2 false 2 0 in
  hysteresis_ok (step domain_state_default p h r 7).1 /\
  ds_state (step domain_state_default p h r 7).1 = StSevere.
Proof.
  cbv zeta. split; [|reflexivity].
  refine (proj1 (step_well_formed domain_state_default (mkSeverityProposal SevSevere SevSevere true StUnknown)
    (mkHysteresisPolicy 1 3 0 50000 true false) (mkRecoveryPolicy true 2 false 2 0) 7 _ _)).
  - split; reflexivity.
  - split; [right; reflexivity|discriminate|]. cbv. discriminate.
Defined.

(** Every severity change is paid for: the samples the ladder asks for (never fewer
    than one, and never more than the hard bound) voted for that very target in a
    row, over any run of the machine. *)
Theorem commit_needs_samples h r start inputs p now
    (H0 : ds_candidate_streak start = 0) (Hin : Forall (fun i => proposal_ok i.1) inputs)
    (Hp : proposal_ok p) (Hv : sp_has_value p = true) :
  let state := (run h r start inputs).1 in
  let final := run h r start (inputs ++ [(p, now)]) in
  ds_state final.1 <> ds_state state ->
  exists target required escalation,
    ladder state p h r = Some (target, required, escalation) /\ ds_state final.1 = target /\
    1 <= cap_samples required <= consecutive target final.2.
Proof.
  cbv zeta. intros Hne.
  destruct (commit_backed h r start inputs p now H0 Hin Hp Hv Hne) as (t & n & e & Hl & Ht & Hn).
  exists t, n, e. split; [done|]. split; [done|]. split; [|done].
  destruct Hp as [Hup Hdn]. destruct (ladder_target_ne _ _ _ _ _ _ _ Hup Hdn Hl) as (_ & _ & H1).
  unfold cap_samples, kMaxHysteresisSamples. lia.
Qed.

Definition improving : SeverityProposal := mkSeverityProposal SevClear SevClear true StUnknown.
Definition plain_hysteresis : HysteresisPolicy := mkHysteresisPolicy 3 3 0 50000 true false.
Definition plain_recovery : RecoveryPolicy := mkRecoveryPolicy true 2 false 2 0.
Definition congested_state : DomainState :=
  domain_state_default <| ds_state := StCongested |> <| ds_last_committed_severity := SevCongested |>
    <| ds_last_authoritative_tick := 1 |> <| ds_last_change_tick := 1 |>.

Lemma commit_needs_samples_witness :
  let final := run plain_hysteresis plain_recovery congested_state ([(improving, 2)] ++ [(improving, 3)]) in
  ds_state final.1 = StRecovering /\
  exists target required escalation,
    ladder (run plain_hysteresis plain_recovery congested_state [(improving, 2)]).1 improving
      plain_hysteresis plain_recovery = Some (target, required, escalation) /\ ds_state final.1 = target /\
    1 <= cap_samples required <= consecutive target final.2.
Proof.
  cbv zeta. split; [reflexivity|].
  refine (commit_needs_samples plain_hysteresis plain_recovery congested_state [(improving, 2)] improving 3
    eq_refl _ _ eq_refl _).
  - repeat constructor.
  - split; reflexivity.
  - cbv. discriminate.
Defined.

Lemma recovery_backed_witness :
  let inputs := [(improving, 2)] ++ [(improving, 3)] in
  ds_state (run plain_hysteresis plain_recovery congested_state inputs).1 = StRecovering /\
  improved (run plain_hysteresis plain_recovery congested_state [(improving, 2)]).1 improving plain_recovery = true /\
  2 <= improved_row plain_hysteresis plain_recovery congested_state inputs.
Proof.
  cbv zeta. split; [reflexivity|].
  refine (recovery_backed plain_hysteresis plain_recovery congested_state [(improving, 2)] improving 3
    _ _ _ eq_refl _).
  - vm_compute. discriminate.
  - repeat constructor.
  - split; reflexivity.
  - cbv. discriminate.
Defined.

Lemma no_jump_to_clear_witness :
  ds_state (step congested_state improving plain_hysteresis (mkRecoveryPolicy true 2 true 1 0) 2).1
    = StRecovering /\
  ds_state (step congested_state improving plain_hysteresis (mkRecoveryPolicy true 2 true 1 0) 2).1
    <> StClear.
Proof.
  split; [reflexivity|].
  refine (no_jump_to_clear congested_state improving plain_hysteresis (mkRecoveryPolicy true 2 true 1 0) 2
    _ eq_refl _).
  - split; reflexivity.
  - left. reflexivity.
Defined.

Lemma dwell_respected_witness :
  let h := mkHysteresisPolicy 1 1 10 50000 true false in
  ds_state (step congested_state improving h (mkRecoveryPolicy false 2 true 1 0) 11).1 = StClear /\
  1 + 10 <= 11.
Proof.
  cbv zeta. split; [reflexivity|].
  refine (dwell_respected congested_state improving (mkHysteresisPolicy 1 1 10 50000 true false)
    (mkRecoveryPolicy false 2 true 1 0) 11 _ eq_refl eq_refl eq_refl _ _).
  - split; reflexivity.
  - discriminate.
  - cbv. discriminate.
Defined.

Lemma revalidation_cleared_witness :
  let s := domain_state_default <| ds_requires_revalidation := true |> in
  let p := mkSeverityProposal SevWatch SevWatch true StUnknown in
  ds_requires_revalidation (step s p plain_hysteresis plain_recovery 2).1 = false /\
  ds_state (step s p plain_hysteresis plain_recovery 2).1 <> ds_state s.
Proof.
  cbv zeta. split; [reflexivity|].
  refine (proj2 (proj2 (revalidation_cleared (domain_state_default <| ds_requires_revalidation := true |>)
    (mkSeverityProposal SevWatch SevWatch true StUnknown) plain_hysteresis plain_recovery 2 _ _))).
  - split; reflexivity.
  - cbv. discriminate.
Defined.

(** Escalation is live: with no dwell on escalation and no recovery hold, a
    severity proposed at [escalate_samples] consecutive later ticks is committed by
    the last of them. *)
Theorem escalation_is_live h r state s (inputs : list (SeverityProposal * N))
    (Hdwell : hp_apply_dwell_on_escalation h = false) (Hhold : rp_recovering_hold_ticks r = 0)
    (Hmax : hp_escalate_samples h <= kMaxHysteresisSamples)
    (Hstart : ds_candidate_streak state = 0) (Hr : rises state s)
    (Hlen : size64 inputs = at_least_one (hp_escalate_samples h))
    (Hin : Forall (fun i => sp_has_value i.1 = true /\ sp_upward i.1 = s /\ later_than state i.2) inputs) :
  exists k, (k <= length inputs)%nat /\ ds_state (run h r state (take k inputs)).1 = state_of s.
Proof.
  assert (counted s state = 0) as Hc by (unfold counted; rewrite Hstart; by case_bool_decide).
  apply (escalation_within h r s Hdwell Hhold Hmax); rewrite ?Hstart, ?Hc, ?Hlen; try done; try lia.
  unfold at_least_one. destruct (N.eqb_spec (hp_escalate_samples h) 0); lia.
Qed.

Lemma escalation_is_live_witness :
  let p := mkSeverityProposal SevSevere SevSevere true StUnknown in
  exists k, (k <= 3)%nat /\
    ds_state (run plain_hysteresis plain_recovery congested_state (take k [(p, 2); (p, 3); (p, 4)])).1
    = StSevere.
Proof.
  cbv zeta.
  refine (escalation_is_live plain_hysteresis plain_recovery congested_state SevSevere
    [(mkSeverityProposal SevSevere SevSevere true StUnknown, 2);
     (mkSeverityProposal SevSevere SevSevere true StUnknown, 3);
     (mkSeverityProposal SevSevere SevSevere true StUnknown, 4)] eq_refl eq_refl _ eq_refl _ eq_refl _).
  - cbv. discriminate.
  - repeat split; reflexivity.
  - repeat constructor; cbv; discriminate.
Defined.
