(* ===== verification/Propagation.v ===== *)
(** * Propagation: include/ncf/eval/propagation.hpp and src/eval/propagation.cpp

    Bounded propagation of congestion pressure along the links and paths of a
    topology.  The breadth-first loops are folds; [best] is the [std::map] of the
    strongest pressure found for each resource. *)

From S2P Require Import Prelude Core Enums OMap Policy Topology State.

Open Scope N_scope.

Record PropagationResult := mkPropagationResult {
  pres_induced : list (N * Severity);
  pres_edges : list PropagationEdge;
  pres_truncated : bool
}.

#[export] Instance PropagationResult_settable : Settable PropagationResult :=
  fields! mkPropagationResult < pres_induced; pres_edges; pres_truncated >.

Definition propagation_empty : PropagationResult := mkPropagationResult [] [] false.

Record Source := mkSource { src_resource : N; src_severity : Severity }.

Definition severity_pressure_ppm (s : Severity) : N :=
  match s with
  | SevClear => 0
  | SevWatch => 333333
  | SevCongested => 666666
  | SevSevere => 1000000
  | SevRaw _ => 0
  end.

Definition pressure_to_severity (pressure_ppm : N) : Severity :=
  if 1000000 <=? pressure_ppm then SevSevere
  else if 666666 <=? pressure_ppm then SevCongested
  else if 333333 <=? pressure_ppm then SevWatch
  else SevClear.

Record Target := mkTarget {
  tg_pressure_ppm : N;
  tg_hops : N;
  tg_from : N;
  tg_via_path : N
}.

(** The hop after the first occurrence of [node]. *)
Fixpoint next_hop (node : N) (hops : list N) : option N :=
  match hops with
  | [] => None
  | hop :: rest => if hop =? node then head rest else next_hop node rest
  end.

Definition neighbours (t : TopologyIndex) (node : N) (p : PropagationPolicy) : list (N * N) :=
  sort_unique
    ((if pp_follow_links p then map (fun s => (s, 0)) (successors t node) else []) ++
     (if pp_follow_paths p then
        omap (fun path_id =>
          match topo_path t path_id with
          | Some record => (fun hop => (hop, path_id)) <$> next_hop node (pa_hops record)
          | None => None
          end) (resource_paths t node)
      else [])).

(** The source list after [std::sort] by resource and [std::unique] by resource.
    The evaluator passes sources of distinct resources, for which the order is
    unique. *)
Fixpoint insert_source (x : Source) (l : list Source) : list Source :=
  match l with
  | [] => [x]
  | y :: l' => if src_resource y <? src_resource x then y :: insert_source x l' else x :: l
  end.
Fixpoint unique_sources (x : Source) (l : list Source) : list Source :=
  match l with
  | [] => [x]
  | y :: l' => if src_resource x =? src_resource y then unique_sources x l' else x :: unique_sources y l'
  end.
Definition order_sources (l : list Source) : list Source :=
  match foldr insert_source [] l with [] => [] | x :: l' => unique_sources x l' end.

(** The state of one breadth-first pass. *)
Record Wave := mkWave {
  wv_visited : gset N;
  wv_best : list (N * Target);
  wv_next : list (N * N)
}.

Definition replaces (best : list (N * Target)) (node pressure to via : N) : bool :=
  match om_find to best with
  | None => true
  | Some found =>
      (tg_pressure_ppm found <? pressure)
      || ((pressure =? tg_pressure_ppm found)
          && key_ltb (node, via) (tg_from found, tg_via_path found))
  end.

(** The body of the innermost loop: one neighbour of one frontier node. *)
Definition relax (p : PropagationPolicy) (depth : N) (node : N * N) (w : Wave) (neighbour : N * N) : Wave :=
  if bool_decide (neighbour.1 ∈ wv_visited w) then w
  else
    let visited := {[neighbour.1]} ∪ wv_visited w in
    let pressure := w32 ((node.2 * pp_decay_ppm p) / 1000000) in
    if pressure <? pp_min_pressure_ppm p then mkWave visited (wv_best w) (wv_next w)
    else if bool_decide (pressure_to_severity pressure = SevClear)
    then mkWave visited (wv_best w) (wv_next w)
    else
      let best :=
        if replaces (wv_best w) node.1 pressure neighbour.1 neighbour.2
        then om_insert neighbour.1 (mkTarget pressure depth node.1 neighbour.2) (wv_best w)
        else wv_best w in
      mkWave visited best (wv_next w ++ [(neighbour.1, pressure)]).

Definition relax_node (t : TopologyIndex) (p : PropagationPolicy) (depth : N) (w : Wave) (node : N * N) :
    Wave :=
  foldl (relax p depth node) w (neighbours t node.1 p).

(** The depth loop; [remaining] is the number of depths left. *)
Fixpoint spread (t : TopologyIndex) (p : PropagationPolicy) (remaining : nat) (depth : N)
    (visited : gset N) (best : list (N * Target)) (frontier : list (N * N)) : list (N * Target) :=
  match remaining, frontier with
  | S remaining', _ :: _ =>
      let w := foldl (relax_node t p depth) (mkWave visited best []) frontier in
      spread t p remaining' (depth + 1) (wv_visited w) (wv_best w) (wv_next w)
  | _, _ => best
  end.

Definition spread_source (t : TopologyIndex) (p : PropagationPolicy) (best : list (N * Target))
    (source : Source) : list (N * Target) :=
  if bool_decide (src_severity source = SevClear) || negb (topo_contains t (src_resource source)) then best
  else spread t p (N.to_nat (pp_max_depth p)) 1 {[src_resource source]} best
         [(src_resource source, severity_pressure_ppm (src_severity source))].

Definition induced_severity (p : PropagationPolicy) (pressure : N) : Severity :=
  let induced := pressure_to_severity pressure in
  if sev_ltb (pp_max_induced_severity p) induced then pp_max_induced_severity p else induced.

(** The output loop, one entry of [best]. *)
Definition emit (p : PropagationPolicy) (max_edges : N) (out : PropagationResult) (entry : N * Target) :
    PropagationResult :=
  let induced := induced_severity p (tg_pressure_ppm entry.2) in
  if bool_decide (induced = SevClear) then out
  else
    let out := out <| pres_induced ::= fun l => l ++ [(entry.1, induced)] |> in
    if max_edges <=? size64 (pres_edges out) then out <| pres_truncated := true |>
    else out <| pres_edges ::= fun l => l ++ [mkPropagationEdge (tg_from entry.2) entry.1
                  (tg_via_path entry.2) (tg_hops entry.2) (tg_pressure_ppm entry.2) induced false] |>.

(** [PropagationEngine::propagate]. *)
Definition propagate (t : TopologyIndex) (sources : list Source) (p : PropagationPolicy) (max_edges : N) :
    Result PropagationResult :=
  if negb (pp_enabled p) || (pp_max_depth p =? 0) || bool_decide (length sources = 0%nat)
  then Ok propagation_empty
  else
    guard ((max_edges =? 0) || (kMaxPropagationEdges <? max_edges))
      LimitExceeded "propagation edge bound is outside the permitted range" (
    Ok (foldl (emit p max_edges) propagation_empty
          (foldl (spread_source t p) [] (order_sources sources)))).

(** * Properties *)

(** ** Neighbours *)

Lemma next_hop_spec (node : N) (hops : list N) (y : N) :
  next_hop node hops = Some y -> exists pre post, hops = pre ++ node :: y :: post.
Proof.
  induction hops as [|h hops IH]; simpl; [done|]. destruct (N.eqb_spec h node) as [->|].
  - destruct hops as [|y' post]; [done|]. intros [= ->]. by exists [], post.
  - intros (pre & post & ->)%IH. by exists (h :: pre), post.
Qed.

(** An edge the topology contains: a link, or two consecutive hops of a path. *)
Definition topology_edge (s : TopologySnapshot) (p : PropagationPolicy) (from to via : N) : Prop :=
  (pp_follow_links p = true /\ via = 0 /\
     exists k, k ∈ ts_links s /\ lk_from k = from /\ lk_to k = to) \/
  (pp_follow_paths p = true /\
     exists record pre post, record ∈ ts_paths s /\ pa_id record = via /\
       pa_hops record = pre ++ from :: to :: post).

Lemma neighbours_edge (s : TopologySnapshot) (t : TopologyIndex) (p : PropagationPolicy) (from to via : N) :
  index_of s t -> (to, via) ∈ neighbours t from p -> topology_edge s p from to via.
Proof.
  intros Hix. unfold neighbours. rewrite sort_unique_elem, elem_of_app. intros [H|H].
  - left. destruct (pp_follow_links p); [|by apply not_elem_of_nil in H].
    apply list_elem_of_fmap in H as (y & [= -> ->] & Hy). split; [done|]. split; [done|].
    by apply (ixo_successors _ _ Hix).
  - right. destruct (pp_follow_paths p); [|by apply not_elem_of_nil in H]. split; [done|].
    apply list_elem_of_omap in H as (path_id & Hin & H).
    destruct (topo_path t path_id) as [record|] eqn:Hrec; [|done].
    destruct (next_hop from (pa_hops record)) as [hop|] eqn:Hh; [|done].
    simpl in H. injection H as -> ->. apply (ixo_path _ _ Hix) in Hrec as [Hrec Hid].
    apply next_hop_spec in Hh as (pre & post & Hh). by exists record, pre, post.
Qed.

(** ** Soundness of the spread *)

(** [to] is [n] propagation steps away from [src]. *)
Inductive reaches (s : TopologySnapshot) (p : PropagationPolicy) (src : N) : N -> N -> Prop :=
| reaches_here : reaches s p src 0 src
| reaches_step n from to via :
    reaches s p src n from -> topology_edge s p from to via -> reaches s p src (n + 1) to.

Section Spread.
Context (s : TopologySnapshot) (t : TopologyIndex) (p : PropagationPolicy) (sources : list Source).
Hypothesis Hix : index_of s t.
Hypothesis Hdecay : pp_decay_ppm p <= 1000000.

Definition active_source (source : Source) : Prop :=
  source ∈ sources /\ src_severity source <> SevClear /\ src_resource source ∈ resource_ids s.

(** What is known of an entry of [best]. *)
Record target_ok (entry : N * Target) : Prop := {
  tko_hops : 1 <= tg_hops entry.2 <= pp_max_depth p;
  tko_walk : exists source, active_source source /\
    reaches s p (src_resource source) (tg_hops entry.2 - 1) (tg_from entry.2);
  tko_edge : topology_edge s p (tg_from entry.2) entry.1 (tg_via_path entry.2);
  tko_pressure : pp_min_pressure_ppm p <= tg_pressure_ppm entry.2 <= pp_decay_ppm p;
  tko_severity : pressure_to_severity (tg_pressure_ppm entry.2) <> SevClear
}.

Definition best_ok (best : list (N * Target)) : Prop := om_sorted best /\ Forall target_ok best.

Definition frontier_ok (src depth : N) (frontier : list (N * N)) : Prop :=
  Forall (fun node => reaches s p src depth node.1 /\ node.2 <= 1000000) frontier.

Lemma pressure_step (pressure : N) :
  pressure <= 1000000 -> w32 (pressure * pp_decay_ppm p / 1000000) <= pp_decay_ppm p.
Proof.
  intros Hp. unfold w32.
  assert (pressure * pp_decay_ppm p / 1000000 <= pp_decay_ppm p) as H.
  { apply N.Div0.div_le_upper_bound. nia. }
  rewrite N.mod_small; [done|]. lia.
Qed.

Lemma relax_ok (source : Source) (depth : N) (node : N * N) (w : Wave) (nb : N * N) :
  active_source source -> depth + 1 <= pp_max_depth p ->
  reaches s p (src_resource source) depth node.1 -> node.2 <= 1000000 ->
  nb ∈ neighbours t node.1 p ->
  best_ok (wv_best w) -> frontier_ok (src_resource source) (depth + 1) (wv_next w) ->
  let w' := relax p (depth + 1) node w nb in
  best_ok (wv_best w') /\ frontier_ok (src_resource source) (depth + 1) (wv_next w').
Proof.
  intros Hsrc Hd Hreach Hpr Hnb [Hsorted Hbest] Hnext. destruct node as [x pr], nb as [to via].
  cbn [fst snd] in *. apply (neighbours_edge s) in Hnb as Hedge; [|done].
  unfold relax. cbn [fst snd]. cbv zeta. case_bool_decide; [done|].
  pose proof (pressure_step pr Hpr) as Hstep. set (q := w32 _) in *.
  destruct (N.ltb_spec q (pp_min_pressure_ppm p)); [done|].
  case_bool_decide as Hclear; [done|]. cbn [wv_best wv_next]. split.
  - destruct (replaces _ _ _ _ _); [|done]. split; [by apply om_sorted_insert|].
    apply om_insert_Forall; [|done]. split; cbn [fst snd tg_hops tg_from tg_via_path tg_pressure_ppm]; try done; [lia|].
    exists source. split; [done|]. by replace (depth + 1 - 1) with depth by lia.
  - apply Forall_app. split; [done|]. apply Forall_singleton. cbn [fst snd]. split; [|lia].
    by eapply reaches_step.
Qed.

Lemma relax_node_ok (source : Source) (depth : N) (frontier : list (N * N)) (w : Wave) :
  active_source source -> depth + 1 <= pp_max_depth p ->
  frontier_ok (src_resource source) depth frontier ->
  best_ok (wv_best w) -> frontier_ok (src_resource source) (depth + 1) (wv_next w) ->
  let w' := foldl (relax_node t p (depth + 1)) w frontier in
  best_ok (wv_best w') /\ frontier_ok (src_resource source) (depth + 1) (wv_next w').
Proof.
  intros Hsrc Hd Hfr Hb Hn. cbv zeta.
  apply (foldl_inv (fun w => best_ok (wv_best w) /\
    frontier_ok (src_resource source) (depth + 1) (wv_next w))); [done|].
  unfold frontier_ok in Hfr. rewrite Forall_forall in Hfr.
  intros acc node Hnode [Hb' Hn']. destruct (Hfr node Hnode) as [Hreach Hpr].
  unfold relax_node. apply (foldl_inv (fun w => best_ok (wv_best w) /\
    frontier_ok (src_resource source) (depth + 1) (wv_next w))); [done|].
  intros acc' nb Hnb [Hb'' Hn'']. by apply relax_ok.
Qed.

Lemma spread_ok (source : Source) (remaining : nat) (depth : N) (visited : gset N)
    (best : list (N * Target)) (frontier : list (N * N)) :
  active_source source -> depth + N.of_nat remaining <= pp_max_depth p ->
  best_ok best -> frontier_ok (src_resource source) depth frontier ->
  best_ok (spread t p remaining (depth + 1) visited best frontier).
Proof.
  revert depth visited best frontier.
  induction remaining as [|remaining IH]; intros depth visited best frontier Hsrc Hd Hb Hfr; simpl; [done|].
  destruct frontier as [|node frontier]; [done|].
  assert (best_ok (wv_best (mkWave visited best []))) as Hb0 by done.
  assert (frontier_ok (src_resource source) (depth + 1) (wv_next (mkWave visited best []))) as Hn0
    by constructor.
  destruct (relax_node_ok source depth (node :: frontier) _ Hsrc ltac:(lia) Hfr Hb0 Hn0) as [Hb' Hn'].
  apply IH; [done|lia|exact Hb'|exact Hn'].
Qed.

Lemma spread_source_ok (source : Source) (best : list (N * Target)) :
  source ∈ sources -> best_ok best -> best_ok (spread_source t p best source).
Proof.
  intros Hin Hb. unfold spread_source. case_bool_decide as Hclear; [done|]. simpl.
  destruct (topo_contains t (src_resource source)) eqn:Hc; [|done]. simpl.
  unfold topo_contains in Hc. apply bool_decide_eq_true in Hc as [r Hr].
  apply (ixo_resource _ _ Hix) in Hr as [Hr Hid].
  apply (spread_ok source (N.to_nat (pp_max_depth p)) 0).
  - split; [done|]. split; [done|]. rewrite <- Hid. apply list_elem_of_fmap. by exists r.
  - lia.
  - done.
  - apply Forall_singleton. split; [constructor|]. simpl. by destruct (src_severity source).
Qed.
End Spread.

Lemma insert_source_perm (x : Source) (l : list Source) : insert_source x l ≡ₚ x :: l.
Proof.
  induction l as [|y l IH]; simpl; [done|]. destruct (_ <? _); [|done]. rewrite IH. apply perm_swap.
Qed.

Lemma unique_sources_sub (x : Source) (l : list Source) (y : Source) :
  y ∈ unique_sources x l -> y ∈ x :: l.
Proof.
  revert x. induction l as [|z l IH]; intros x; simpl; [done|]. destruct (_ =? _).
  - intros H%IH. set_solver.
  - intros [->|H%IH]%elem_of_cons; set_solver.
Qed.

Lemma order_sources_sub (l : list Source) (y : Source) : y ∈ order_sources l -> y ∈ l.
Proof.
  assert (foldr insert_source [] l ≡ₚ l) as Hp.
  { induction l as [|x l IH]; simpl; [done|]. by rewrite insert_source_perm, IH. }
  unfold order_sources. destruct (foldr insert_source [] l) as [|x l'] eqn:E.
  - by intros ?%not_elem_of_nil.
  - intros H%unique_sources_sub. by rewrite <- Hp.
Qed.

(** ** The reported result *)

Record edge_ok (s : TopologySnapshot) (p : PropagationPolicy) (sources : list Source)
    (induced : list (N * Severity)) (e : PropagationEdge) : Prop := {
  eok_edge : topology_edge s p (pe_from e) (pe_to e) (pe_via_path e);
  eok_hops : 1 <= pe_hops e <= pp_max_depth p;
  eok_walk : exists source, active_source s sources source /\
    reaches s p (src_resource source) (pe_hops e - 1) (pe_from e);
  eok_pressure : pp_min_pressure_ppm p <= pe_pressure_ppm e <= pp_decay_ppm p;
  eok_induced : (pe_to e, pe_induced e) ∈ induced;
  eok_applied : pe_applied e = false
}.

Record result_ok (s : TopologySnapshot) (p : PropagationPolicy) (sources : list Source) (max_edges : N)
    (keys : list N) (out : PropagationResult) : Prop := {
  rok_keys : (map fst (pres_induced out)) `sublist_of` keys;
  rok_induced : Forall (fun i => i.2 <> SevClear /\ sev_leb i.2 (pp_max_induced_severity p) = true)
                  (pres_induced out);
  rok_edges : Forall (edge_ok s p sources (pres_induced out)) (pres_edges out);
  rok_bound : size64 (pres_edges out) <= max_edges;
  rok_truncated : if pres_truncated out then size64 (pres_edges out) = max_edges
                  else map pe_to (pres_edges out) = map fst (pres_induced out)
}.

Lemma induced_severity_le (p : PropagationPolicy) (pressure : N) :
  sev_leb (induced_severity p pressure) (pp_max_induced_severity p) = true.
Proof.
  unfold induced_severity, sev_ltb, sev_leb. destruct (N.ltb_spec (sev_val (pp_max_induced_severity p))
    (sev_val (pressure_to_severity pressure))); apply N.leb_le; lia.
Qed.

Lemma emit_ok s t p sources max_edges keys out entry :
  index_of s t -> target_ok s p sources entry ->
  result_ok s p sources max_edges keys out ->
  result_ok s p sources max_edges (keys ++ [entry.1]) (emit p max_edges out entry).
Proof.
  intros Hix Ht [Hk Hi He Hb Htr]. unfold emit. cbv zeta. case_bool_decide as Hc.
  { split; try done. by apply sublist_inserts_r. }
  set (sev := induced_severity p (tg_pressure_ppm entry.2)) in *.
  assert (forall e, edge_ok s p sources (pres_induced out) e ->
    edge_ok s p sources (pres_induced out ++ [(entry.1, sev)]) e) as Hmono.
  { intros e []. split; try done. apply elem_of_app. by left. }
  assert (Forall (fun i => i.2 <> SevClear /\ sev_leb i.2 (pp_max_induced_severity p) = true)
    (pres_induced out ++ [(entry.1, sev)])) as Hi'.
  { apply Forall_app. split; [done|]. apply Forall_singleton. split; [done|]. apply induced_severity_le. }
  assert (map fst (pres_induced out ++ [(entry.1, sev)]) `sublist_of` keys ++ [entry.1]) as Hk'.
  { rewrite map_app. by apply sublist_app. }
  simpl. destruct (N.leb_spec max_edges (size64 (pres_edges out))); simpl.
  - split; simpl; try done; [by eapply Forall_impl|lia].
  - split; simpl; try done.
    + apply Forall_app. split; [by eapply Forall_impl|]. apply Forall_singleton. destruct Ht.
      split; simpl; try done. apply elem_of_app. right. apply list_elem_of_singleton. by destruct entry.
    + rewrite size64_app, size64_cons, size64_nil. lia.
    + destruct (pres_truncated out); [lia|]. rewrite !map_app. by f_equal.
Qed.

Lemma emit_all_ok s t p sources max_edges best :
  index_of s t -> Forall (target_ok s p sources) best ->
  result_ok s p sources max_edges (map fst best) (foldl (emit p max_edges) propagation_empty best).
Proof.
  intros Hix Hb. rewrite Forall_forall in Hb.
  apply (foldl_inv_prefix (fun pre out => result_ok s p sources max_edges (map fst pre) out)).
  - split; simpl; [constructor|constructor|constructor|rewrite size64_nil; lia|done].
  - intros pre x acc Hpre Hacc. rewrite map_app. eapply emit_ok; [done| |done].
    apply Hb. destruct Hpre as [suf ->]. rewrite !elem_of_app. left. right. constructor.
Qed.

Lemma om_keys_strict {V : Type} (m : list (N * V)) : om_sorted m -> strictly_ordered (map fst m).
Proof.
  unfold om_sorted, strictly_ordered. induction m as [|e m IH]; intros H; simpl; [constructor|].
  apply StronglySorted_inv in H as [Hm Hall]. constructor; [by apply IH|].
  apply Forall_map. exact Hall.
Qed.

Lemma strictly_ordered_sublist (l k : list N) :
  l `sublist_of` k -> strictly_ordered k -> strictly_ordered l.
Proof.
  unfold strictly_ordered. induction 1 as [|x l k Hs IH|x l k Hs IH]; intros H.
  - constructor.
  - apply StronglySorted_inv in H as [Hk Hall]. constructor; [by apply IH|].
    rewrite Forall_forall in Hall |- *. intros y Hy. apply Hall.
    eapply elem_of_submseteq; [exact Hy|]. by apply sublist_submseteq.
  - apply StronglySorted_inv in H as [Hk _]. by apply IH.
Qed.

(** Everything [propagate] promises of its result. *)
Lemma propagate_result s t sources p max_edges out :
  index_of s t -> pp_decay_ppm p <= 1000000 ->
  propagate t sources p max_edges = Ok out ->
  strictly_ordered (map fst (pres_induced out)) /\
  exists keys, result_ok s p sources max_edges keys out.
Proof.
  intros Hix Hdecay. unfold propagate. destruct (negb (pp_enabled p) || _ || _).
  { intros [= <-]. split; [constructor|]. exists [].
    split; simpl; [constructor|constructor|constructor|rewrite size64_nil; lia|done]. }
  intros H. peel_guards H. injection H as <-.
  assert (best_ok s p sources (foldl (spread_source t p) [] (order_sources sources))) as [Hs Hb].
  { apply foldl_inv; [split; constructor|]. intros acc source Hin. apply (spread_source_ok s t); [done..|].
    by apply order_sources_sub. }
  pose proof (emit_all_ok s t p sources max_edges _ Hix Hb) as Hres.
  split; [|by eexists]. eapply strictly_ordered_sublist; [apply Hres|]. by apply om_keys_strict.
Qed.

(** ** Pressure never grows *)

(** Pressure that starts at most at a bound stays there: it only decays. *)
Section Decay.
Context (t : TopologyIndex) (p : PropagationPolicy) (bound : N).
Hypothesis Hdecay : pp_decay_ppm p <= 1000000.
Hypothesis Hbound : bound <= 1000000.

Definition best_below (best : list (N * Target)) : Prop :=
  Forall (fun entry => tg_pressure_ppm entry.2 <= bound) best.

Definition frontier_below (frontier : list (N * N)) : Prop := Forall (fun node => node.2 <= bound) frontier.

Definition wave_below (w : Wave) : Prop := best_below (wv_best w) /\ frontier_below (wv_next w).

Lemma pressure_decays (pressure : N) : pressure <= bound -> w32 (pressure * pp_decay_ppm p / 1000000) <= bound.
Proof.
  intros Hp. assert (pressure * pp_decay_ppm p / 1000000 <= bound) as H.
  { apply N.Div0.div_le_upper_bound. nia. }
  unfold w32. rewrite N.mod_small; [done|lia].
Qed.

Lemma relax_below (depth : N) (node : N * N) (w : Wave) (nb : N * N) :
  node.2 <= bound -> wave_below w -> wave_below (relax p depth node w nb).
Proof.
  intros Hn [Hb Hf]. unfold relax. cbv zeta. case_bool_decide; [done|].
  pose proof (pressure_decays node.2 Hn) as Hq. set (q := w32 _) in *.
  destruct (q <? _); [done|]. case_bool_decide; [done|]. split; cbn [wv_best wv_next].
  - destruct (replaces _ _ _ _ _); [|done]. by apply om_insert_Forall.
  - apply Forall_app. split; [done|]. by apply Forall_singleton.
Qed.

Lemma spread_below (remaining : nat) (depth : N) (visited : gset N) (best : list (N * Target))
    (frontier : list (N * N)) :
  best_below best -> frontier_below frontier -> best_below (spread t p remaining depth visited best frontier).
Proof.
  revert depth visited best frontier.
  induction remaining as [|remaining IH]; intros depth visited best frontier Hb Hf; simpl; [done|].
  destruct frontier as [|node frontier]; [done|]. set (w := foldl _ _ _).
  assert (wave_below w) as [Hb' Hf']; [|by apply IH].
  apply (foldl_inv wave_below); [by split; [|constructor]|].
  intros acc x Hx Hacc. unfold frontier_below in Hf. rewrite Forall_forall in Hf. specialize (Hf x Hx).
  apply (foldl_inv wave_below); [done|]. intros acc' nb _ Hacc'. by apply relax_below.
Qed.

(** No edge carries more pressure than its sources started with. *)
Lemma propagate_below sources max_edges out :
  Forall (fun source => severity_pressure_ppm (src_severity source) <= bound) sources ->
  propagate t sources p max_edges = Ok out ->
  Forall (fun e => exists pressure, pressure <= bound /\ pe_induced e = induced_severity p pressure)
    (pres_edges out).
Proof.
  intros Hs. unfold propagate. destruct (negb (pp_enabled p) || _ || _); [by intros [= <-]|].
  intros H. peel_guards H. injection H as <-.
  assert (best_below (foldl (spread_source t p) [] (order_sources sources))) as Hbest.
  { apply (foldl_inv best_below); [constructor|]. intros acc source Hin%order_sources_sub Hacc.
    unfold spread_source. destruct (bool_decide _ || _)%bool; [done|]. apply spread_below; [done|].
    rewrite Forall_forall in Hs. apply Forall_singleton. by apply Hs. }
  unfold best_below in Hbest. rewrite Forall_forall in Hbest.
  apply (foldl_inv (fun out => Forall (fun e => exists pressure, pressure <= bound /\
    pe_induced e = induced_severity p pressure) (pres_edges out))); [constructor|].
  intros acc entry Hin Hacc. unfold emit. cbv zeta. case_bool_decide; [done|].
  cbn. destruct (_ <=? _); [done|]. cbn. apply Forall_app. split; [done|]. apply Forall_singleton.
  exists (tg_pressure_ppm entry.2). split; [by apply Hbest|done].
Qed.
End Decay.

(** Sources below CONGESTED induce nothing at CONGESTED. *)
Lemma propagate_quiet t sources p max_edges out :
  pp_decay_ppm p <= 1000000 ->
  Forall (fun source => sev_ltb (src_severity source) SevCongested = true) sources ->
  propagate t sources p max_edges = Ok out ->
  Forall (fun e => sev_ltb (pe_induced e) SevCongested = true) (pres_edges out).
Proof.
  intros Hdecay Hs Hout. apply (propagate_below t p 333333) in Hout; [|done|done|].
  - eapply Forall_impl; [exact Hout|]. intros e (q & Hq & ->). unfold induced_severity.
    destruct (pressure_to_severity q) eqn:E; unfold pressure_to_severity in E;
      repeat split_match_in E; simplify_eq/=; reflect_bools; try lia;
      destruct (sev_ltb (pp_max_induced_severity p) _) eqn:El; try done;
      unfold sev_ltb in *; reflect_bools; apply N.ltb_lt; simpl in *; lia.
  - eapply Forall_impl; [exact Hs|]. by intros [r [| | | |v]].
Qed.

(** The only refusal is an edge bound outside the permitted range. *)
Lemma propagate_total t sources p max_edges :
  0 < max_edges <= kMaxPropagationEdges -> exists out, propagate t sources p max_edges = Ok out.
Proof.
  intros [H0 H1]. unfold propagate. destruct (negb (pp_enabled p) || _ || _); [by eexists|].
  unfold guard. rewrite (proj2 (N.eqb_neq _ _)), (proj2 (N.ltb_ge _ _)) by lia. by eexists.
Qed.

(** Severities survive the trip through the pressure scale. *)
Lemma pressure_roundtrip (s : Severity) :
  sev_leb s SevSevere = true -> pressure_to_severity (severity_pressure_ppm s) = s.
Proof. destruct s as [| | | |v]; [done..|]. unfold sev_leb. simpl. intros H. reflect_bools. lia. Qed.

(** ** The propagation contract *)

(** C34. Within a permitted edge bound propagation always yields a result: induced
    severities strictly ordered by resource and never above the policy's bound,
    every edge an edge of the topology, reached from an active source in as many
    steps as it says (at most the depth), with a pressure between the minimum and
    the decay factor, and never more edges than the bound. *)
Theorem propagation_sound s t sources p max_edges
    (Hix : index_of s t) (Hdecay : pp_decay_ppm p <= 1000000)
    (Hmax : 0 < max_edges <= kMaxPropagationEdges) :
  exists out keys, propagate t sources p max_edges = Ok out /\
    strictly_ordered (map fst (pres_induced out)) /\ result_ok s p sources max_edges keys out.
Proof.
  destruct (propagate_total t sources p max_edges Hmax) as [out Hout].
  destruct (propagate_result s t sources p max_edges out Hix Hdecay Hout) as (Hs & keys & Hok).
  by exists out, keys.
Qed.
