(* ===== verification/Explanation.v ===== *)
(** * Explanations: include/ncf/model/explanation.hpp and src/model/explanation.cpp

    The published explanation of one evaluation and its bounded, line-oriented
    text.  A line that does not fit is not written; a section that is cut is
    counted, and the count is written as the last line. *)

From Stdlib Require Import Strings.String Numbers.DecimalString.
From S2P Require Import Prelude Core Enums Evidence Authority Policy State Intervention.

Open Scope N_scope.

Record Explanation := mkExplanation {
  ex_domain : N;
  ex_state : CongestionState;
  ex_previous_state : CongestionState;
  ex_severity : Severity;
  ex_transitioned : bool;
  ex_authoritative : bool;
  ex_requires_revalidation : bool;
  ex_evaluation : N;
  ex_epoch : N;
  ex_policy : N;
  ex_policy_fingerprint : N;
  ex_authority : N;
  ex_authority_generation : N;
  ex_topology_generation : N;
  ex_capacity_generation : N;
  ex_evaluated_tick : N;
  ex_reason_code : string;
  ex_reason_detail : list string;
  ex_samples_seen : N;
  ex_samples_accepted : N;
  ex_samples_rejected : N;
  ex_samples_duplicate : N;
  ex_resources : list ResourceAssessment;
  ex_bindings : list ThresholdBinding;
  ex_conflicts : list ConflictReport;
  ex_stale : list StaleReport;
  ex_propagation : list PropagationEdge;
  ex_authorized : list InterventionIntent;
  ex_suppressed : list SuppressedIntervention;
  ex_truncated_sections : N
}.

#[export] Instance Explanation_settable : Settable Explanation :=
  fields! mkExplanation < ex_domain; ex_state; ex_previous_state; ex_severity; ex_transitioned; ex_authoritative;
    ex_requires_revalidation; ex_evaluation; ex_epoch; ex_policy; ex_policy_fingerprint; ex_authority;
    ex_authority_generation; ex_topology_generation; ex_capacity_generation; ex_evaluated_tick; ex_reason_code;
    ex_reason_detail; ex_samples_seen; ex_samples_accepted; ex_samples_rejected; ex_samples_duplicate; ex_resources;
    ex_bindings; ex_conflicts; ex_stale; ex_propagation; ex_authorized; ex_suppressed; ex_truncated_sections >.

(** A default-constructed [Explanation]. *)
Definition explanation_default : Explanation :=
  mkExplanation 0 StUnknown StUnknown SevClear false false false 0 0 0 0 0 0 0 0 kNoTick "" [] 0 0 0 0
    [] [] [] [] [] [] [] 0.

(** ** Rendering *)

Definition number (value : N) : string := NilEmpty.string_of_uint (N.to_uint value).
Definition threshold_op_text (op : ThresholdOp) : string :=
  if bool_decide (op = AtLeast) then "at-least"%string else "at-most"%string.
Definition yes_no (b : bool) : string := if b then "yes"%string else "no"%string.

Definition newline : string := String (Ascii.ascii_of_nat 10) EmptyString.
Definition str_size (s : string) : N := N.of_nat (String.length s).

(** The [put] of [render]: the text with the line, and whether the line fitted. *)
Definition put_line (max_bytes : N) (line out : string) : string * bool :=
  if max_bytes <? str_size out + str_size line + 1 then (out, false) else ((out ++ (line ++ newline))%string, true).

(** A [put] whose answer is ignored. *)
Definition put_header (max_bytes : N) (line : string) (st : string * N) : string * N :=
  ((put_line max_bytes line st.1).1, st.2).

(** One section: a line for each element, up to the first that does not fit. *)
Fixpoint put_section {A : Type} (max_bytes : N) (render_line : A -> string) (l : list A) (st : string * N) :
    string * N :=
  match l with
  | [] => st
  | x :: rest =>
      match put_line max_bytes (render_line x) st.1 with
      | (out, true) => put_section max_bytes render_line rest (out, st.2)
      | (out, false) => (out, st.2 + 1)
      end
  end.

(** The text up to its last newline. *)
Fixpoint whole_lines (s : string) : string :=
  match s with
  | EmptyString => EmptyString
  | String c rest =>
      match whole_lines rest with
      | EmptyString => if Ascii.eqb c (Ascii.ascii_of_nat 10) then String c EmptyString else EmptyString
      | kept => String c kept
      end
  end.

(** The notice of what was cut. *)
Definition truncation_notice (count : N) : string := ("truncated-sections=" ++ number count ++ newline)%string.
Definition put_notice (max_bytes count : N) (out : string) : string :=
  let notice := truncation_notice count in
  if str_size out + str_size notice <=? max_bytes then (out ++ notice)%string
  else if str_size notice <? max_bytes
  then (whole_lines (String.substring 0 (N.to_nat (max_bytes - str_size notice)) out) ++ notice)%string
  else out.

(** The lines of the sections. *)
Definition optional_field (label name : string) (id : N) : string :=
  if valid id then (label ++ id_to_string name id)%string else ""%string.

Definition resource_line (a : ResourceAssessment) : string :=
  ("resource=" ++ id_to_string "resource" (ra_resource a) ++ " raw=" ++ severity_to_string (ra_raw_severity a)
   ++ " coverage=" ++ coverage_to_string (ra_coverage a) ++ " stale=" ++ yes_no (ra_stale a)
   ++ " contradictory=" ++ yes_no (ra_contradictory a) ++ " samples=" ++ number (ra_samples_considered a)
   ++ " stale_samples=" ++ number (ra_stale_samples a) ++ " future_samples=" ++ number (ra_future_samples a)
   ++ " newest_tick=" ++ number (ra_newest_observed_tick a))%string.

Definition binding_line (b : ThresholdBinding) : string :=
  ("binding resource=" ++ id_to_string "resource" (tb_resource b) ++ optional_field " queue=" "queue" (tb_queue b)
   ++ " metric=" ++ metric_to_string (tb_metric b) ++ " value=" ++ number (tb_value b)
   ++ " op=" ++ threshold_op_text (tb_op b) ++ " watch=" ++ number (tb_watch b)
   ++ " congested=" ++ number (tb_congested b) ++ " severe=" ++ number (tb_severe b)
   ++ " level=" ++ severity_to_string (tb_level b) ++ " required=" ++ yes_no (tb_required b)
   ++ " stale=" ++ yes_no (tb_stale b) ++ " future=" ++ yes_no (tb_future b)
   ++ " publisher=" ++ id_to_string "publisher" (tb_publisher b)
   ++ " observed_tick=" ++ number (tb_observed_tick b))%string.

Definition propagation_line (e : PropagationEdge) : string :=
  ("propagation from=" ++ id_to_string "resource" (pe_from e) ++ " to=" ++ id_to_string "resource" (pe_to e)
   ++ " hops=" ++ number (pe_hops e) ++ " pressure_ppm=" ++ number (pe_pressure_ppm e)
   ++ " induced=" ++ severity_to_string (pe_induced e) ++ " applied=" ++ yes_no (pe_applied e)
   ++ optional_field " via=" "path" (pe_via_path e))%string.

Definition conflict_line (c : ConflictReport) : string :=
  ("conflict resource=" ++ id_to_string "resource" (cr_resource c) ++ " metric=" ++ metric_to_string (cr_metric c)
   ++ " low=" ++ number (cr_low_value c) ++ " high=" ++ number (cr_high_value c) ++ " spread=" ++ number (cr_spread c)
   ++ " low_publisher=" ++ id_to_string "publisher" (cr_low_publisher c)
   ++ " high_publisher=" ++ id_to_string "publisher" (cr_high_publisher c)
   ++ " resolved=" ++ yes_no (cr_resolved c))%string.

Definition stale_line (s : StaleReport) : string :=
  ("stale resource=" ++ id_to_string "resource" (sr_resource s) ++ " metric=" ++ metric_to_string (sr_metric s)
   ++ " publisher=" ++ id_to_string "publisher" (sr_publisher s) ++ " observed_tick=" ++ number (sr_observed_tick s)
   ++ " age=" ++ number (sr_age_ticks s) ++ " allowed_age=" ++ number (sr_allowed_age_ticks s)
   ++ " from_future=" ++ yes_no (sr_from_future s) ++ " beyond_skew=" ++ yes_no (sr_beyond_future_skew s))%string.

Definition authorized_line (i : InterventionIntent) : string :=
  ("authorized kind=" ++ intervention_to_string (ii_kind i) ++ " domain=" ++ id_to_string "domain" (ii_domain i)
   ++ optional_field " resource=" "resource" (ii_resource i) ++ " basis=" ++ state_to_string (ii_basis_state i)
   ++ " parameter=" ++ number (ii_parameter i) ++ " clamped=" ++ yes_no (ii_parameter_clamped i)
   ++ " evidence=" ++ id_to_string "evidence" (ii_evidence i) ++ " expires_tick=" ++ number (ii_expires_tick i))%string.

Definition suppressed_line (s : SuppressedIntervention) : string :=
  ("suppressed kind=" ++ intervention_to_string (si_kind s) ++ optional_field " resource=" "resource" (si_resource s)
   ++ " reason=" ++ suppression_to_string (si_reason s)
   ++ (if String.eqb (si_detail s) "" then "" else " detail=" ++ si_detail s))%string.

(** The lines before the sections: up to the reason, and the evidence counters. *)
Definition header_lines (e : Explanation) : list string := [
  "ncf-explanation format=" ++ number kFormatVersion;
  "domain=" ++ id_to_string "domain" (ex_domain e);
  "state=" ++ state_to_string (ex_state e) ++ " previous=" ++ state_to_string (ex_previous_state e)
    ++ " transitioned=" ++ yes_no (ex_transitioned e) ++ " authoritative=" ++ yes_no (ex_authoritative e)
    ++ " requires_revalidation=" ++ yes_no (ex_requires_revalidation e);
  "severity=" ++ severity_to_string (ex_severity e);
  "evaluation=" ++ id_to_string "evaluation" (ex_evaluation e) ++ " epoch=" ++ id_to_string "epoch" (ex_epoch e)
    ++ " tick=" ++ number (ex_evaluated_tick e);
  "authority_generation=" ++ id_to_string "authority" (ex_authority_generation e)
    ++ " authority=" ++ authority_describe (ex_authority e);
  "policy=" ++ id_to_string "policy" (ex_policy e) ++ " fingerprint=" ++ to_hex (ex_policy_fingerprint e);
  "topology_generation=" ++ id_to_string "topology-gen" (ex_topology_generation e)
    ++ " capacity_generation=" ++ id_to_string "capacity-gen" (ex_capacity_generation e);
  "reason=" ++ (if String.eqb (ex_reason_code e) "" then "unspecified" else ex_reason_code e)]%string.

Definition counters_line (e : Explanation) : string :=
  ("evidence seen=" ++ number (ex_samples_seen e) ++ " accepted=" ++ number (ex_samples_accepted e)
   ++ " rejected=" ++ number (ex_samples_rejected e) ++ " duplicate=" ++ number (ex_samples_duplicate e))%string.

(** The text and the number of cut sections, before the notice. *)
Definition render_sections (max_bytes : N) (e : Explanation) : string * N :=
  let st := foldl (fun st line => put_header max_bytes line st) (""%string, 0) (header_lines e) in
  let st := put_section max_bytes (fun detail => "reason-detail=" ++ detail)%string (ex_reason_detail e) st in
  let st := put_header max_bytes (counters_line e) st in
  let st := put_section max_bytes id ["scope begin"%string] st in
  let st := put_section max_bytes resource_line (ex_resources e) st in
  let st := put_section max_bytes binding_line (ex_bindings e) st in
  let st := put_section max_bytes propagation_line (ex_propagation e) st in
  let st := put_section max_bytes conflict_line (ex_conflicts e) st in
  let st := put_section max_bytes stale_line (ex_stale e) st in
  let st := put_section max_bytes authorized_line (ex_authorized e) st in
  put_section max_bytes suppressed_line (ex_suppressed e) st.

(** [Explanation::render]. *)
Definition render (max_bytes : N) (e : Explanation) : string :=
  let '(out, truncated) := render_sections max_bytes e in
  if (0 <? truncated) || (0 <? ex_truncated_sections e)
  then put_notice max_bytes (truncated + ex_truncated_sections e) out
  else out.

(** [Explanation::summary]. *)
Definition summary (e : Explanation) : string :=
  (id_to_string "domain" (ex_domain e) ++ " state=" ++ state_to_string (ex_state e)
   ++ " severity=" ++ severity_to_string (ex_severity e) ++ " authoritative=" ++ yes_no (ex_authoritative e)
   ++ " reason=" ++ (if String.eqb (ex_reason_code e) "" then "unspecified" else ex_reason_code e)
   ++ " authorized=" ++ number (size64 (ex_authorized e)) ++ " suppressed=" ++ number (size64 (ex_suppressed e)))%string.

(** * Properties *)

(** ** Strings *)

Lemma append_nil_r (a : string) : (a ++ "")%string = a.
Proof. induction a as [|c a IH]; [done|]. exact (f_equal (String c) IH). Qed.

Lemma append_assoc (a b c : string) : ((a ++ b) ++ c)%string = (a ++ (b ++ c))%string.
Proof. induction a as [|x a IH]; [done|]. exact (f_equal (String x) IH). Qed.

Lemma str_size_app (a b : string) : str_size (a ++ b) = str_size a + str_size b.
Proof.
  unfold str_size. enough (String.length (a ++ b) = String.length a + String.length b)%nat by lia.
  induction a as [|c a IH]; [done|]. exact (f_equal S IH).
Qed.

Lemma whole_lines_prefix (s : string) : exists rest, s = (whole_lines s ++ rest)%string.
Proof.
  induction s as [|c s [rest IH]]; simpl; [by exists ""%string|].
  destruct (whole_lines s) as [|c' s'] eqn:E.
  - destruct (Ascii.eqb c _); [by exists s|by exists (String c s)].
  - exists rest. exact (f_equal (String c) IH).
Qed.

Lemma substring_split (n : nat) (s : string) :
  exists rest, s = (String.substring 0 n s ++ rest)%string /\ (String.length (String.substring 0 n s) <= n)%nat.
Proof.
  revert n. induction s as [|c s IH]; intros [|n]; simpl.
  - by exists ""%string.
  - exists ""%string. split; [done|lia].
  - by exists (String c s).
  - destruct (IH n) as (rest & E & H). exists rest. split; [exact (f_equal (String c) E)|lia].
Qed.

(** Either nothing or whole lines. *)
Definition whole (s : string) : Prop := whole_lines s = s.

Lemma whole_lines_app (a b : string) : b <> ""%string -> whole b -> whole_lines (a ++ b) = (a ++ b)%string.
Proof.
  intros Hne Hb. induction a as [|c a IH]; [done|].
  change (whole_lines (String c (a ++ b)) = String c (a ++ b)). cbn [whole_lines]. rewrite IH.
  destruct (a ++ b)%string eqn:E; [|done]. by destruct a.
Qed.

Lemma whole_newline (a : string) : whole (a ++ newline).
Proof. by apply whole_lines_app. Qed.

Lemma whole_lines_whole (s : string) : whole (whole_lines s).
Proof.
  unfold whole. induction s as [|c s IH]; simpl; [done|].
  destruct (whole_lines s) as [|c' s'] eqn:E.
  - destruct (Ascii.eqb c _) eqn:Ec; simpl; [by rewrite Ec|done].
  - simpl in *. by rewrite IH.
Qed.

(** ** The text of a list of lines *)

Fixpoint lines_text (lines : list string) : string :=
  match lines with
  | [] => ""%string
  | line :: rest => ((line ++ newline) ++ lines_text rest)%string
  end.

Lemma lines_text_app (l k : list string) : lines_text (l ++ k) = (lines_text l ++ lines_text k)%string.
Proof. induction l as [|x l IH]; [done|]. cbn [app lines_text]. by rewrite IH, !append_assoc. Qed.

(** All the lines of an explanation, in their order. *)
Definition explanation_lines (e : Explanation) : list string :=
  header_lines e ++ map (fun detail => "reason-detail=" ++ detail)%string (ex_reason_detail e)
  ++ [counters_line e; "scope begin"%string] ++ map resource_line (ex_resources e) ++ map binding_line (ex_bindings e)
  ++ map propagation_line (ex_propagation e) ++ map conflict_line (ex_conflicts e) ++ map stale_line (ex_stale e)
  ++ map authorized_line (ex_authorized e) ++ map suppressed_line (ex_suppressed e).

Section Rendering.
Context (max_bytes : N).

(** What has been written so far fits and is whole lines. *)
Definition text_fits (st : string * N) : Prop := str_size st.1 <= max_bytes /\ whole st.1.

Lemma put_line_fits (line out : string) :
  str_size out <= max_bytes -> whole out ->
  str_size (put_line max_bytes line out).1 <= max_bytes /\ whole (put_line max_bytes line out).1.
Proof.
  intros Hs Hw. unfold put_line. destruct (N.ltb_spec max_bytes (str_size out + str_size line + 1)); simpl; [done|].
  split; [|rewrite <- append_assoc; apply whole_newline].
  rewrite !str_size_app. change (str_size newline) with 1. lia.
Qed.

Lemma put_header_fits (line : string) (st : string * N) : text_fits st -> text_fits (put_header max_bytes line st).
Proof. intros [H1 H2]. by apply put_line_fits. Qed.

Lemma put_section_fits {A : Type} (f : A -> string) (l : list A) (st : string * N) :
  text_fits st -> text_fits (put_section max_bytes f l st).
Proof.
  revert st. induction l as [|x l IH]; intros st Hst; simpl; [done|].
  destruct (put_line_fits (f x) st.1 (proj1 Hst) (proj2 Hst)) as [H1 H2].
  destruct (put_line _ _ _) as [out [|]]; [by apply IH|by split].
Qed.

Lemma render_sections_fits (e : Explanation) : text_fits (render_sections max_bytes e).
Proof.
  unfold render_sections. cbv zeta. repeat apply put_section_fits. apply put_header_fits, put_section_fits.
  apply foldl_inv; [by split; [apply N.le_0_l|]|]. intros acc x _. apply put_header_fits.
Qed.

(** A text that fits is written in full. *)
Lemma put_line_room (line out : string) (rest : string) :
  str_size (out ++ (line ++ newline) ++ rest) <= max_bytes ->
  put_line max_bytes line out = ((out ++ (line ++ newline))%string, true).
Proof.
  rewrite !str_size_app. change (str_size newline) with 1. intros H. unfold put_line.
  by rewrite (proj2 (N.ltb_ge _ _)) by lia.
Qed.

Lemma put_section_room {A : Type} (f : A -> string) (l : list A) (out rest : string) (n : N) :
  str_size (out ++ lines_text (map f l) ++ rest) <= max_bytes ->
  put_section max_bytes f l (out, n) = ((out ++ lines_text (map f l))%string, n).
Proof.
  revert out. induction l as [|x l IH]; intros out H; [cbn; by rewrite append_nil_r|].
  cbn [map lines_text put_section foldl fst snd] in *. rewrite append_assoc in H. rewrite (put_line_room _ _ _ H).
  rewrite IH; [by rewrite !append_assoc|]. by rewrite !append_assoc in *.
Qed.

Lemma put_headers_room (l : list string) (out rest : string) (n : N) :
  str_size (out ++ lines_text l ++ rest) <= max_bytes ->
  foldl (fun st line => put_header max_bytes line st) (out, n) l = ((out ++ lines_text l)%string, n).
Proof.
  revert out. induction l as [|x l IH]; intros out H; [cbn; by rewrite append_nil_r|].
  cbn [map lines_text put_section foldl fst snd] in *. rewrite append_assoc in H. unfold put_header at 2. cbn [fst snd]. rewrite (put_line_room _ _ _ H). cbn [fst].
  rewrite IH; [by rewrite !append_assoc|]. by rewrite !append_assoc in *.
Qed.
End Rendering.

Lemma render_sections_room (max_bytes : N) (e : Explanation) :
  str_size (lines_text (explanation_lines e)) <= max_bytes ->
  render_sections max_bytes e = (lines_text (explanation_lines e), 0).
Proof.
  unfold explanation_lines. change [counters_line e; "scope begin"%string]
    with ([counters_line e] ++ map id ["scope begin"%string]).
  rewrite !lines_text_app, !append_assoc. cbn [lines_text]. rewrite append_nil_r. intros H.
  unfold render_sections. cbv zeta.
  rewrite (put_headers_room _ _ ""%string _ 0 H). change ("" ++ lines_text (header_lines e))%string with (lines_text (header_lines e)).
  rewrite (put_section_room _ (fun detail => "reason-detail=" ++ detail)%string _ _ _ 0 H).
  rewrite <- append_assoc in H. unfold put_header. cbn [fst snd]. rewrite (put_line_room _ _ _ _ H).
  cbn [fst snd]. rewrite <- append_assoc in H.
  repeat (rewrite (put_section_room _ _ _ _ _ 0 H); rewrite <- append_assoc in H).
  rewrite <- (append_nil_r (lines_text (map suppressed_line _))) in H.
  rewrite (put_section_room _ _ _ _ _ 0 H). by rewrite !append_assoc.
Qed.

Lemma put_notice_spec (max_bytes count : N) (out : string) :
  str_size out <= max_bytes -> whole out ->
  let notice := truncation_notice count in
  let text := put_notice max_bytes count out in
  str_size text <= max_bytes /\ whole text /\
  (str_size notice < max_bytes -> exists kept rest, text = (kept ++ notice)%string /\ out = (kept ++ rest)%string /\ whole kept).
Proof.
  intros Hs Hw. cbv zeta. unfold put_notice. set (notice := truncation_notice count).
  assert (whole notice) as Hn by (unfold notice, truncation_notice; rewrite <- !append_assoc; apply whole_newline).
  assert (notice <> ""%string) as Hne by (unfold notice, truncation_notice; discriminate).
  destruct (N.leb_spec (str_size out + str_size notice) max_bytes) as [H1|H1].
  { split; [by rewrite str_size_app|]. split; [by apply whole_lines_app|]. intros _.
    exists out, ""%string. by rewrite append_nil_r. }
  destruct (N.ltb_spec (str_size notice) max_bytes) as [H2|H2]; [|by repeat split; try lia].
  destruct (substring_split (N.to_nat (max_bytes - str_size notice)) out) as (rest & E & Hlen).
  set (cut := String.substring 0 _ out) in *. destruct (whole_lines_prefix cut) as [rest' E'].
  assert (str_size cut <= max_bytes - str_size notice) as Hc by (unfold str_size at 1; lia).
  rewrite E', str_size_app in Hc. split; [rewrite str_size_app; lia|].
  split; [by apply whole_lines_app|]. intros _. exists (whole_lines cut), (rest' ++ rest)%string.
  split; [done|]. split; [|apply whole_lines_whole]. by rewrite <- append_assoc, <- E'.
Qed.


(** A header line that does not fit is left out without a notice: the bound can be
    so small that the text silently looks complete. *)
Theorem header_dropped_silently :
  exists max_bytes, str_size (render max_bytes explanation_default) < str_size (lines_text (explanation_lines explanation_default)) /\
    render_sections max_bytes explanation_default = (render max_bytes explanation_default, 0).
Proof. exists 310. vm_compute. done. Qed.
