(* ===== verification/Evaluator.v ===== *)
(** * Evaluator: include/ncf/eval/evaluator.hpp and src/eval/evaluator.cpp

    [CongestionEvaluator::evaluate], phase by phase: scope, sample admission,
    contradiction detection, per-resource classification, propagation, domain
    aggregation and hysteresis.  The local [std::map]s are ordered association
    lists; counters of loop iterations over containers in memory are written
    without a wrap, since they are bounded by the containers' sizes. *)

From S2P Require Import Prelude Core Enums OMap Evidence Authority Policy Topology State Hysteresis Propagation.

Open Scope N_scope.

#[export] Instance MetricKind_key_order : KeyOrder MetricKind.
Proof.
  refine {| key_ltb := metric_ltb |}; unfold metric_ltb.
  - intros a. apply N.ltb_irrefl.
  - intros a b c. rewrite !N.ltb_lt. lia.
  - intros a b. rewrite !N.ltb_ge. intros H1 H2. apply metric_val_inj. lia.
Defined.

(** ** Local data *)

(** [ReadingKey]: resource, queue, metric, in the order its [operator<] compares. *)
Definition ReadingKey : Type := N * N * MetricKind.

Record Reading := mkReading {
  rd_value : N;
  rd_publisher : N;
  rd_boot : N;
  rd_generation : N;
  rd_snapshot : N;
  rd_observed_tick : N;
  rd_degraded : bool;
  rd_future : bool
}.

Definition reading_better (candidate incumbent : Reading) : bool :=
  if negb (rd_observed_tick candidate =? rd_observed_tick incumbent)
  then rd_observed_tick incumbent <? rd_observed_tick candidate
  else if negb (rd_publisher candidate =? rd_publisher incumbent)
  then rd_publisher candidate <? rd_publisher incumbent
  else rd_generation incumbent <? rd_generation candidate.

Definition gate_severity (agree_watch agree_congested agree_severe : N) (p : CongestionPolicy) : Severity :=
  if negb (cpol_min_agreeing_rules_for_severe p =? 0)
     && (cpol_min_agreeing_rules_for_severe p <=? agree_severe) then SevSevere
  else if negb (cpol_min_agreeing_rules_for_congested p =? 0)
     && (cpol_min_agreeing_rules_for_congested p <=? agree_congested) then SevCongested
  else if negb (cpol_min_agreeing_rules_for_watch p =? 0)
     && (cpol_min_agreeing_rules_for_watch p <=? agree_watch) then SevWatch
  else SevClear.

Record EvaluationContext := mkEvaluationContext {
  ctx_policy : option CongestionPolicy;
  ctx_topology : option TopologyIndex;
  ctx_capacity : option CapacitySnapshot;
  ctx_epoch : N;
  ctx_authority : AuthorityVector;
  ctx_now : N;
  ctx_max_samples_per_batch : N
}.

(** ** Scope *)

Definition scope_limit_exceeded {A : Type} : Result A :=
  fail LimitExceeded "domain exceeds the permitted resource count".

(** The resources the evaluation covers, in ascending order. *)
Definition scope (request : EvaluationRequest) (ctx : EvaluationContext) (l : PolicyLimits) :
    Result (list N) :=
  let? resources :=
    match ctx_topology ctx with
    | Some t =>
        let members := domain_resources t (eq_domain request) in
        guard (size64 members =? 0) NotFound "domain has no resources in the installed topology" (
        guard (pl_max_resources_per_domain l <? size64 members)
          LimitExceeded "domain exceeds the permitted resource count" (
        Ok members))
    | None =>
        let resources := sort_unique (filter (fun r => valid r = true)
                           (map es_resource (eb_samples (eq_evidence request)))) in
        guard (pl_max_resources_per_domain l <? size64 resources)
          LimitExceeded "domain exceeds the permitted resource count" (
        Ok resources)
    end in
  let? resources :=
    if valid (eq_only_resource request) then
      guard (bool_decide (eq_only_resource request ∉ resources))
        NotFound "the requested resource is not a member of the domain" (
      Ok [eq_only_resource request])
    else Ok resources in
  guard (size64 resources =? 0) NotFound "domain has no resources to evaluate" (
  Ok resources).

(** The metric kinds the policy has rules for. *)
Definition rule_metrics (p : CongestionPolicy) : list MetricKind :=
  sort_unique (map tr_metric (cpol_rules p)).
Definition has_required_rules (p : CongestionPolicy) : bool := existsb tr_required (cpol_rules p).

(** ** Sample admission *)

Record SamplePass := mkSamplePass {
  spa_ev : EvidenceVector;
  spa_readings : list (ReadingKey * list Reading);
  spa_accepted : bool;
  spa_refused : bool
}.

#[export] Instance SamplePass_settable : Settable SamplePass :=
  fields! mkSamplePass < spa_ev; spa_readings; spa_accepted; spa_refused >.

Definition truncate (ev : EvidenceVector) : EvidenceVector :=
  ev <| ev_truncated_sections ::= N.succ |>.

Definition beyond_skew (p : CongestionPolicy) (now observed : N) : bool :=
  let age := tick_age now observed in
  ta_from_future age && (fp_max_future_skew_ticks (cpol_freshness p) <? ta_age age).
Definition too_old (p : CongestionPolicy) (metric : MetricKind) (now observed : N) : bool :=
  let age := tick_age now observed in
  negb (ta_from_future age) && (max_age_for p metric <? ta_age age).

Definition stale_report (p : CongestionPolicy) (now : N) (sample : EvidenceSample) (metric : MetricKind) :
    StaleReport :=
  let age := tick_age now (es_observed_tick sample) in
  mkStaleReport (es_resource sample) (es_queue sample) metric (es_publisher sample)
    (es_observed_tick sample) (ta_age age) (max_age_for p metric) (ta_from_future age)
    (beyond_skew p now (es_observed_tick sample)).

Definition make_reading (now : N) (sample : EvidenceSample) (snapshot value : N) : Reading :=
  let future := ta_from_future (tick_age now (es_observed_tick sample)) in
  mkReading value (es_publisher sample) (es_publisher_boot sample) (es_generation sample) snapshot
    (if future then now else es_observed_tick sample) (is_degraded sample) future.

(** One metric kind of one sample. *)
Definition admit_metric (p : CongestionPolicy) (now : N) (sample : EvidenceSample) (snapshot : N)
    (acc : SamplePass) (metric : MetricKind) : SamplePass :=
  match metric_get (es_metrics sample) metric with
  | None => acc
  | Some value =>
      let acc :=
        if ta_from_future (tick_age now (es_observed_tick sample))
        then acc <| spa_ev ::= set ev_future_samples N.succ |> else acc in
      if beyond_skew p now (es_observed_tick sample) || too_old p metric now (es_observed_tick sample)
      then
        let acc := acc <| spa_refused := true |> <| spa_ev ::= set ev_stale_samples N.succ |> in
        if size64 (ev_stale (spa_ev acc)) <? pl_max_stale_reports (cpol_limits p)
        then acc <| spa_ev ::= set ev_stale (fun l => l ++ [stale_report p now sample metric]) |>
        else acc <| spa_ev ::= truncate |>
      else
        let key := (es_resource sample, es_queue sample, metric) in
        let bucket := default [] (om_find key (spa_readings acc)) in
        if kMaxContradictionPeers <=? size64 bucket then acc <| spa_ev ::= truncate |>
        else acc <| spa_readings := om_insert key (bucket ++ [make_reading now sample snapshot value])
                                      (spa_readings acc) |>
                 <| spa_accepted := true |>
  end.

Record Admission := mkAdmission {
  am_ev : EvidenceVector;
  am_readings : list (ReadingKey * list Reading);
  am_seen : gset N
}.

(** The counters after the metric loop of one sample. *)
Definition count_sample (sample : EvidenceSample) (pass : SamplePass) : EvidenceVector :=
  let ev := spa_ev pass in
  let candidate := es_observed_tick sample in
  if spa_accepted pass then
    ev <| ev_samples_accepted ::= N.succ |>
       <| ev_newest_observed_tick ::= fun newest =>
            if (newest =? kNoTick) || (newest <? candidate) then candidate else newest |>
       <| ev_oldest_accepted_tick ::= fun oldest =>
            if (oldest =? kNoTick) || (candidate <? oldest) then candidate else oldest |>
  else if negb (spa_refused pass) then ev <| ev_unknown_metric_samples ::= N.succ |>
  else ev.

Definition sample_snapshot (sample : EvidenceSample) : N :=
  if valid (es_snapshot sample) then es_snapshot sample else compute_snapshot_id sample.

Definition in_topology (ctx : EvaluationContext) (resource : N) : bool :=
  match ctx_topology ctx with Some t => topo_contains t resource | None => true end.

(** One sample of the batch. *)
Definition admit_sample (p : CongestionPolicy) (ctx : EvaluationContext) (now : N) (resources : list N)
    (acc : Admission) (sample : EvidenceSample) : Admission :=
  if negb (valid (es_resource sample)) then
    mkAdmission ((am_ev acc) <| ev_samples_rejected ::= N.succ |>) (am_readings acc) (am_seen acc)
  else if bool_decide (es_resource sample ∉ resources) then acc
  else if is_heartbeat sample then
    mkAdmission ((am_ev acc) <| ev_heartbeats ::= N.succ |>) (am_readings acc) (am_seen acc)
  else if (valid (ctx_epoch ctx) && negb (es_epoch sample =? ctx_epoch ctx))
          || negb (in_topology ctx (es_resource sample)) then
    mkAdmission ((am_ev acc) <| ev_samples_rejected ::= N.succ |>) (am_readings acc) (am_seen acc)
  else
    let snapshot := sample_snapshot sample in
    if bool_decide (snapshot ∈ am_seen acc) then
      mkAdmission ((am_ev acc) <| ev_samples_duplicate ::= N.succ |>) (am_readings acc) (am_seen acc)
    else
      let pass := foldl (admit_metric p now sample snapshot)
                    (mkSamplePass (am_ev acc) (am_readings acc) false false) (rule_metrics p) in
      mkAdmission (count_sample sample pass) (spa_readings pass) ({[snapshot]} ∪ am_seen acc).

Definition admit_samples (p : CongestionPolicy) (ctx : EvaluationContext) (now : N) (resources : list N)
    (ev : EvidenceVector) (samples : list EvidenceSample) : Admission :=
  foldl (admit_sample p ctx now resources) (mkAdmission ev [] ∅) samples.

(** ** Contradiction detection *)

(** The best reading of each publisher, in publisher order. *)
Definition per_publisher (bucket : list Reading) : list (N * Reading) :=
  foldl (fun m r =>
           match om_find (rd_publisher r) m with
           | Some found => if reading_better r found then om_insert (rd_publisher r) r m else m
           | None => om_insert (rd_publisher r) r m
           end) [] bucket.

(** The newest of the candidates, starting from the first. *)
Definition best_reading (first : Reading) (candidates : list (N * Reading)) : Reading :=
  foldl (fun winner c => if reading_better c.2 winner then c.2 else winner) first candidates.

(** The low/high scan over the publishers. *)
Record Extremes := mkExtremes {
  ex_low : N; ex_high : N; ex_low_publisher : N; ex_high_publisher : N;
  ex_low_tick : N; ex_high_tick : N
}.

Definition extremes_of (first : N * Reading) (rest : list (N * Reading)) : Extremes :=
  foldl (fun e c =>
           let value := rd_value c.2 in
           let e := if value <? ex_low e
                    then mkExtremes value (ex_high e) c.1 (ex_high_publisher e)
                           (rd_observed_tick c.2) (ex_high_tick e) else e in
           if ex_high e <? value
           then mkExtremes (ex_low e) value (ex_low_publisher e) c.1
                  (ex_low_tick e) (rd_observed_tick c.2) else e)
    (mkExtremes (rd_value first.2) (rd_value first.2) first.1 first.1
       (rd_observed_tick first.2) (rd_observed_tick first.2)) rest.

(** [std::find(order)]: the index of a publisher, the length when absent. *)
Fixpoint priority_rank (order : list N) (publisher : N) : nat :=
  match order with
  | [] => 0
  | x :: rest => if x =? publisher then 0 else S (priority_rank rest publisher)
  end.

(** The loop of [PreferHighestPriority]: rank, winner and selected publisher. *)
Definition prefer_priority (order : list N) (winner : Reading) (candidates : list (N * Reading)) :
    nat * Reading * N :=
  foldl (fun acc c =>
           let index := priority_rank order c.1 in
           if (index <? acc.1.1)%nat then (index, c.2, c.1) else acc)
    (length order, winner, 0) candidates.

Record Contradictions := mkContradictions {
  cn_ev : EvidenceVector;
  cn_chosen : list (ReadingKey * Reading);
  cn_unresolved : list (N * MetricKind);
  cn_degraded : gset N
}.

(** The contradiction a bucket's publishers are in, and the reading that is kept:
    [None] when they agree within the tolerance. *)
Definition conflict_of (p : CongestionPolicy) (key : ReadingKey) (candidates : list (N * Reading))
    (winner : Reading) : option (ConflictReport * Reading) :=
  match candidates with
  | [] => None
  | first :: rest =>
      let cp := cpol_contradiction p in
      if size64 candidates <? cp_min_distinct_publishers cp then None
      else
        let e := extremes_of first rest in
        let span := ex_high e - ex_low e in
        let tolerance := N.max (cp_absolute_tolerance cp)
                           (apply_ppm (ex_high e) (cp_relative_tolerance_ppm cp)) in
        if negb (tolerance <? span) then None
        else
          let resolved := negb (bool_decide (cp_mode cp = CmReject)) in
          let '(selected, winner) :=
            if bool_decide (cp_mode cp = CmPreferHighestPriority) then
              let '(rank, best, selected) := prefer_priority (cp_priority_order cp) winner candidates in
              if (rank =? length (cp_priority_order cp))%nat then (rd_publisher best, best)
              else (selected, best)
            else if bool_decide (cp_mode cp = CmPreferNewest) then (rd_publisher winner, winner)
            else (0, winner) in
          Some (mkConflictReport key.1.1 key.1.2 key.2 (ex_low e) (ex_high e) span
                  (ex_low_publisher e) (ex_high_publisher e) (ex_low_tick e) (ex_high_tick e)
                  resolved selected, winner)
  end.

(** One bucket of readings. *)
Definition resolve_bucket (p : CongestionPolicy) (acc : Contradictions)
    (entry : ReadingKey * list Reading) : Contradictions :=
  let candidates := per_publisher entry.2 in
  match candidates with
  | [] => acc
  | first :: _ =>
      let winner := best_reading first.2 candidates in
      let '(ev, unresolved, winner) :=
        match conflict_of p entry.1 candidates winner with
        | None => (cn_ev acc, cn_unresolved acc, winner)
        | Some (report, winner) =>
            (if size64 (ev_conflicts (cn_ev acc)) <? pl_max_conflict_reports (cpol_limits p)
             then (cn_ev acc) <| ev_conflicts ::= fun l => l ++ [report] |> else truncate (cn_ev acc),
             if cr_resolved report then cn_unresolved acc
             else cn_unresolved acc ++ [(entry.1.1.1, entry.1.2)],
             winner)
        end in
      mkContradictions ev (om_insert entry.1 winner (cn_chosen acc)) unresolved
        (if rd_degraded winner then {[entry.1.1.1]} ∪ cn_degraded acc else cn_degraded acc)
  end.

Definition detect_contradictions (p : CongestionPolicy) (ev : EvidenceVector)
    (readings : list (ReadingKey * list Reading)) : Contradictions :=
  foldl (resolve_bucket p) (mkContradictions ev [] [] ∅) readings.

(** ** Per-resource classification *)

(** What [by_resource_metric] holds for a resource and a metric: the chosen
    readings of its queues, in queue order. *)
Definition by_resource_metric (chosen : list (ReadingKey * Reading)) (resource : N) (metric : MetricKind) :
    list (N * Reading) :=
  omap (fun e => if (e.1.1.1 =? resource) && bool_decide (e.1.2 = metric)
                 then Some (e.1.1.2, e.2) else None) chosen.

Record RuleOutcome := mkRuleOutcome {
  ro_upward : Severity;
  ro_downward : Severity;
  ro_queue : N;
  ro_reading : Reading
}.

(** The candidate loop of one rule; [None] is [present == false]. *)
Definition rule_candidate (p : CongestionPolicy) (rule : ThresholdRule) (acc : option RuleOutcome)
    (candidate : N * Reading) : option RuleOutcome :=
  let up := classify_rule_with_margin rule (rd_value candidate.2) 0 in
  let down := classify_rule_with_margin rule (rd_value candidate.2)
                (hp_downgrade_margin_ppm (cpol_hysteresis p)) in
  let better :=
    match acc with
    | None => true
    | Some o =>
        sev_ltb (ro_upward o) up
        || (bool_decide (up = ro_upward o)
            && ((rd_observed_tick (ro_reading o) <? rd_observed_tick candidate.2)
                || ((rd_observed_tick candidate.2 =? rd_observed_tick (ro_reading o))
                    && (candidate.1 <? ro_queue o))))
    end in
  if better then Some (mkRuleOutcome up down candidate.1 candidate.2) else acc.

Definition rule_outcome (p : CongestionPolicy) (chosen : list (ReadingKey * Reading)) (resource : N)
    (rule : ThresholdRule) : option RuleOutcome :=
  foldl (rule_candidate p rule) None (by_resource_metric chosen resource (tr_metric rule)).

(** The rule loop's local variables for one resource. *)
Record RulePass := mkRulePass {
  rpa_ev : EvidenceVector;
  rpa_assessment : ResourceAssessment;
  rpa_any_present : bool;
  rpa_required_total : N;
  rpa_required_present : N;
  rpa_agree_watch : N;
  rpa_agree_congested : N;
  rpa_agree_severe : N;
  rpa_down_watch : N;
  rpa_down_congested : N;
  rpa_down_severe : N;
  rpa_strictest_down : Severity;
  rpa_ungated_up : Severity
}.

#[export] Instance RulePass_settable : Settable RulePass :=
  fields! mkRulePass < rpa_ev; rpa_assessment; rpa_any_present; rpa_required_total;
    rpa_required_present; rpa_agree_watch; rpa_agree_congested; rpa_agree_severe;
    rpa_down_watch; rpa_down_congested; rpa_down_severe; rpa_strictest_down; rpa_ungated_up >.

Definition count_if (b : bool) (n : N) : N := if b then n + 1 else n.

Definition assess_rule (degraded : bool) (o : RuleOutcome) (a : ResourceAssessment) : ResourceAssessment :=
  let reading := ro_reading o in
  let a := a <| ra_samples_considered ::= N.succ |>
             <| ra_future_samples ::= count_if (rd_future reading) |> in
  let a :=
    if (ra_newest_observed_tick a =? kNoTick)
       || (ra_newest_observed_tick a <? rd_observed_tick reading)
    then a <| ra_newest_observed_tick := rd_observed_tick reading |>
           <| ra_newest_snapshot := rd_snapshot reading |>
    else a in
  let a := if negb (valid (ra_newest_snapshot a))
           then a <| ra_newest_snapshot := rd_snapshot reading |> else a in
  if degraded then a <| ra_degraded_source := true |> else a.

Definition bind_threshold (resource : N) (rule : ThresholdRule) (o : RuleOutcome) : ThresholdBinding :=
  let reading := ro_reading o in
  mkThresholdBinding resource (ro_queue o) (tr_metric rule) (tr_op rule) (rd_value reading)
    (tr_watch rule) (tr_congested rule) (tr_severe rule) (ro_upward o) (tr_required rule)
    false false (rd_degraded reading) (rd_publisher reading) (rd_observed_tick reading).

(** One rule applied to one resource. *)
Definition apply_rule (p : CongestionPolicy) (cn : Contradictions) (resource : N)
    (acc : RulePass) (rule : ThresholdRule) : RulePass :=
  let acc := acc <| rpa_required_total ::= count_if (tr_required rule) |> in
  if bool_decide ((resource, tr_metric rule) ∈ cn_unresolved cn) then
    acc <| rpa_assessment ::= fun a => a <| ra_contradictory := true |>
                                         <| ra_coverage := CovPartial |> |>
  else
    match rule_outcome p (cn_chosen cn) resource rule with
    | None => acc
    | Some o =>
        let acc := acc <| rpa_any_present := true |>
          <| rpa_required_present ::= count_if (tr_required rule) |>
          <| rpa_assessment ::= assess_rule (bool_decide (resource ∈ cn_degraded cn)) o |>
          <| rpa_agree_watch ::= count_if (sev_leb SevWatch (ro_upward o)) |>
          <| rpa_agree_congested ::= count_if (sev_leb SevCongested (ro_upward o)) |>
          <| rpa_agree_severe ::= count_if (sev_leb SevSevere (ro_upward o)) |>
          <| rpa_down_watch ::= count_if (sev_leb SevWatch (ro_downward o)) |>
          <| rpa_down_congested ::= count_if (sev_leb SevCongested (ro_downward o)) |>
          <| rpa_down_severe ::= count_if (sev_leb SevSevere (ro_downward o)) |>
          <| rpa_strictest_down ::= fun s => sev_max s (ro_downward o) |>
          <| rpa_ungated_up ::= fun s => sev_max s (ro_upward o) |> in
        if size64 (ev_bindings (rpa_ev acc)) <? pl_max_explanation_entries (cpol_limits p)
        then acc <| rpa_ev ::= set ev_bindings (fun l => l ++ [bind_threshold resource rule o]) |>
        else acc <| rpa_ev ::= truncate |>
    end.

Definition fresh_assessment (resource : N) : ResourceAssessment :=
  mkResourceAssessment resource SevClear CovNone false false false 0 0 0 0 0 kNoTick.

Definition rule_pass_start (ev : EvidenceVector) (resource : N) : RulePass :=
  mkRulePass ev (fresh_assessment resource) false 0 0 0 0 0 0 0 0 SevClear SevClear.

(** The severities of one resource once every rule has been applied. *)
Definition upward_of (p : CongestionPolicy) (pass : RulePass) : Severity :=
  gate_severity (rpa_agree_watch pass) (rpa_agree_congested pass) (rpa_agree_severe pass) p.
Definition downward_of (p : CongestionPolicy) (pass : RulePass) : Severity :=
  let up := upward_of p pass in
  let down :=
    if hp_require_all_rules_agree_on_downgrade (cpol_hysteresis p) then rpa_strictest_down pass
    else sev_max up (gate_severity (rpa_down_watch pass) (rpa_down_congested pass)
                       (rpa_down_severe pass) p) in
  if sev_ltb down up then up else down.

Definition coverage_of (pass : RulePass) : ResourceCoverage :=
  if negb (rpa_any_present pass) then
    if ra_contradictory (rpa_assessment pass) then CovPartial else CovNone
  else if rpa_required_present pass =? rpa_required_total pass then CovFull
  else CovPartial.

Record Classified := mkClassified {
  cl_ev : EvidenceVector;
  cl_assessments : list (N * ResourceAssessment);
  cl_up : list (N * Severity);
  cl_down : list (N * Severity);
  cl_ungated : Severity
}.

Definition classify_resource (p : CongestionPolicy) (cn : Contradictions) (acc : Classified)
    (resource : N) : Classified :=
  let pass := foldl (apply_rule p cn resource) (rule_pass_start (cl_ev acc) resource) (cpol_rules p) in
  let up := upward_of p pass in
  mkClassified (rpa_ev pass)
    (om_insert resource ((rpa_assessment pass) <| ra_raw_severity := up |>
                                               <| ra_coverage := coverage_of pass |>)
       (cl_assessments acc))
    (om_insert resource up (cl_up acc))
    (om_insert resource (downward_of p pass) (cl_down acc))
    (sev_max (cl_ungated acc) (rpa_ungated_up pass)).

Definition classify_resources (p : CongestionPolicy) (cn : Contradictions) (resources : list N) :
    Classified :=
  foldl (classify_resource p cn) (mkClassified (cn_ev cn) [] [] [] SevClear) resources.

(** [map[key]] for the severity maps. *)
Definition sev_at (m : list (N * Severity)) (resource : N) : Severity :=
  default SevClear (om_find resource m).
Definition assessment_at (m : list (N * ResourceAssessment)) (resource : N) : ResourceAssessment :=
  default (fresh_assessment 0) (om_find resource m).

(** ** Propagation into the domain *)

Definition propagation_sources (up : list (N * Severity)) (resources : list N) : list Source :=
  omap (fun r => if bool_decide (sev_at up r = SevClear) then None
                 else Some (mkSource r (sev_at up r))) resources.

(** One propagation edge raises its target. *)
Definition raise_target (resources : list N) (acc : Classified) (edge : PropagationEdge) : Classified :=
  if bool_decide (pe_to edge ∉ resources) then acc
  else
    let up := if sev_ltb (sev_at (cl_up acc) (pe_to edge)) (pe_induced edge)
              then om_insert (pe_to edge) (pe_induced edge) (cl_up acc) else cl_up acc in
    let down := if sev_ltb (sev_at (cl_down acc) (pe_to edge)) (pe_induced edge)
                then om_insert (pe_to edge) (pe_induced edge) (cl_down acc) else cl_down acc in
    mkClassified (cl_ev acc)
      (om_insert (pe_to edge)
         ((assessment_at (cl_assessments acc) (pe_to edge))
            <| ra_raw_severity := sev_at up (pe_to edge) |>) (cl_assessments acc))
      up down (cl_ungated acc).

Definition mark_applied (resources : list N) (baseline : list (N * Severity)) (edge : PropagationEdge) :
    PropagationEdge :=
  edge <| pe_applied :=
    bool_decide (pe_to edge ∈ resources)
    && match om_find (pe_to edge) baseline with
       | Some before => sev_ltb before (pe_induced edge)
       | None => false
       end |>.

Definition propagate_domain (p : CongestionPolicy) (ctx : EvaluationContext) (resources : list N)
    (cl : Classified) : Result Classified :=
  let sources := propagation_sources (cl_up cl) resources in
  match ctx_topology ctx with
  | Some t =>
      if pp_enabled (cpol_propagation p) && negb (bool_decide (length sources = 0%nat)) then
        let? result := propagate t sources (cpol_propagation p)
                         (pl_max_explanation_entries (cpol_limits p)) in
        let ev := if pres_truncated result then truncate (cl_ev cl) else cl_ev cl in
        let raised := foldl (raise_target resources) cl (pres_edges result) in
        Ok (mkClassified
              (ev <| ev_propagation := map (mark_applied resources (cl_up cl)) (pres_edges result) |>)
              (cl_assessments raised) (cl_up raised) (cl_down raised) (cl_ungated raised))
      else Ok cl
  | None => Ok cl
  end.

(** ** Domain aggregation *)

Record Aggregate := mkAggregate {
  ag_evidence : bool;
  ag_partial : bool;
  ag_conflict : bool;
  ag_up : Severity;
  ag_down : Severity
}.

Definition aggregate_resource (cl : Classified) (acc : Aggregate) (resource : N) : Aggregate :=
  let a := assessment_at (cl_assessments cl) resource in
  let conflict := ag_conflict acc || ra_contradictory a in
  if bool_decide (ra_coverage a = CovNone) then
    mkAggregate (ag_evidence acc) (ag_partial acc) conflict (ag_up acc) (ag_down acc)
  else
    mkAggregate true (ag_partial acc || negb (bool_decide (ra_coverage a = CovFull))) conflict
      (sev_max (ag_up acc) (sev_at (cl_up cl) resource))
      (sev_max (ag_down acc) (sev_at (cl_down cl) resource)).

Definition aggregate (cl : Classified) (resources : list N) : Aggregate :=
  foldl (aggregate_resource cl) (mkAggregate false false false SevClear SevClear) resources.

(** The proposal handed to the state machine, with the reason details. *)
Definition proposal_of (p : CongestionPolicy) (prior : DomainState) (ungated : Severity) (ag : Aggregate) :
    SeverityProposal * list string :=
  if ag_conflict ag then
    (mkSeverityProposal SevClear SevClear false StConflict,
     ["publishers disagreed beyond the configured tolerance"%string])
  else if negb (ag_evidence ag) then
    (mkSeverityProposal SevClear SevClear false
       (if negb (ds_last_authoritative_tick prior =? kNoTick) then StStale else StUnknown),
     ["no usable evidence for any resource in the domain"%string])
  else
    let gated :=
      if sev_ltb (ag_up ag) ungated
      then [("corroboration gate reduced severity from " ++ severity_to_string ungated ++ " to "
             ++ severity_to_string (ag_up ag))%string] else [] in
    if has_required_rules p && ag_partial ag then
      (mkSeverityProposal
         (if sev_ltb (ag_up ag) SevWatch then SevWatch else ag_up ag)
         (if sev_ltb (ag_down ag) SevWatch then SevWatch else ag_down ag) true StUnknown,
       gated ++ ["at least one resource has incomplete required coverage"%string])
    else (mkSeverityProposal (ag_up ag) (ag_down ag) true StUnknown, gated).

(** ** The outcome *)

(** [updated] before the hysteresis step. *)
Definition prepare_state (p : CongestionPolicy) (ctx : EvaluationContext) (request : EvaluationRequest)
    (prior : DomainState) : DomainState :=
  prior <| ds_domain := eq_domain request |>
    <| ds_epoch := ctx_epoch ctx |>
    <| ds_policy := cpol_id p |>
    <| ds_policy_fingerprint := cpol_fingerprint p |>
    <| ds_authority_generation := av_generation (eq_authority request) |>
    <| ds_topology_generation :=
         match ctx_topology ctx with Some t => ts_generation (ti_snapshot t) | None => 0 end |>
    <| ds_capacity_generation :=
         match ctx_capacity ctx with Some c => cs_generation c | None => 0 end |>
    <| ds_evaluation_count ::= fun n => if n <? kMaxU64 then n + 1 else n |>.

Definition reason_code_of (state : CongestionState) (reason : string) : string :=
  if String.eqb reason "indeterminate" then
    if bool_decide (state = StConflict) then "contradictory-evidence"
    else if bool_decide (state = StStale) then "evidence-stale"
    else "no-evidence"
  else if String.eqb reason "escalated" then "severity-escalated"
  else if String.eqb reason "downgraded" then "severity-downgraded"
  else if String.eqb reason "recovery-started" then "recovery-started"
  else if String.eqb reason "recovery-complete" then "recovery-complete"
  else if String.eqb reason "escalate-pending" || String.eqb reason "downgrade-pending"
  then "hysteresis-pending"
  else if String.eqb reason "hold-dwell" || String.eqb reason "hold-recovering" then "hysteresis-hold"
  else if String.eqb reason "tick-regression" then "tick-regression"
  else if String.eqb reason "invalid-proposal" then "invalid-proposal"
  else "steady".

(** The assessments copied into the outcome, cut at the explanation bound. *)
Definition report_resources (p : CongestionPolicy) (cl : Classified) (resources : list N)
    (ev : EvidenceVector) : EvidenceVector :=
  let bound := pl_max_explanation_entries (cpol_limits p) in
  let kept := take (N.to_nat bound) resources in
  let ev := ev <| ev_resources := map (assessment_at (cl_assessments cl)) kept |> in
  if bound <? size64 resources then truncate ev else ev.

Definition compute_evaluation_id (p : CongestionPolicy) (ctx : EvaluationContext)
    (request : EvaluationRequest) (prior : DomainState) (state : CongestionState) : N :=
  let h := update_u64 hasher (eq_domain request) in
  let h := update_u64 h (ctx_epoch ctx) in
  let h := update_u64 h (eq_now request) in
  let h := update_u64 h (eb_id (eq_evidence request)) in
  let h := update_u64 h (cpol_fingerprint p) in
  let h := update_u8 h (state_val state) in
  finish (update_u64 h (ds_evaluation_count prior)).

Definition initial_vector (request : EvaluationRequest) : EvidenceVector :=
  evidence_vector_default <| ev_batch := eb_id (eq_evidence request) |>
    <| ev_epoch := eq_epoch request |>
    <| ev_samples_seen := size64 (eb_samples (eq_evidence request)) |>.

Definition make_outcome (p : CongestionPolicy) (ctx : EvaluationContext) (request : EvaluationRequest)
    (prior : DomainState) (resources : list N) (cl : Classified) : EvaluationOutcome :=
  let ag := aggregate cl resources in
  let '(proposal, details) := proposal_of p prior (cl_ungated cl) ag in
  let '(stepped, hstep) := step (prepare_state p ctx request prior) proposal (cpol_hysteresis p)
                             (cpol_recovery p) (eq_now request) in
  let updated := stepped <| ds_last_evaluated_tick := eq_now request |> in
  {| eo_id := compute_evaluation_id p ctx request prior (ds_state updated);
     eo_domain := eq_domain request;
     eo_state := ds_state updated;
     eo_previous_state := ds_state prior;
     eo_severity := current_severity_of (ds_state updated);
     eo_transitioned := hs_transitioned hstep;
     eo_authoritative := ds_authoritative updated && sp_has_value proposal && negb (ag_conflict ag);
     eo_requires_revalidation := ds_requires_revalidation updated;
     eo_evidence := report_resources p cl resources (cl_ev cl);
     eo_updated := updated;
     eo_authority := eq_authority request;
     eo_policy := cpol_id p;
     eo_policy_fingerprint := cpol_fingerprint p;
     eo_topology_generation := ds_topology_generation updated;
     eo_capacity_generation := ds_capacity_generation updated;
     eo_evaluated_tick := eq_now request;
     eo_reason_code := reason_code_of (ds_state updated) (hs_reason hstep);
     eo_reason_detail := details |}.

(** [CongestionEvaluator::evaluate]. *)
Definition evaluate (request : EvaluationRequest) (prior : DomainState) (ctx : EvaluationContext) :
    Result EvaluationOutcome :=
  match ctx_policy ctx with
  | None => fail NotReady "no congestion policy is installed"
  | Some p =>
      guard (negb (valid (eq_domain request)))
        InvalidArgument "evaluation request has no domain" (
      guard (eq_now request =? kNoTick)
        InvalidArgument "evaluation requires an explicit tick" (
      guard (ctx_max_samples_per_batch ctx <? size64 (eb_samples (eq_evidence request)))
        LimitExceeded "evidence batch exceeds the permitted sample count" (
      let? resources := scope request ctx (cpol_limits p) in
      let am := admit_samples p ctx (eq_now request) resources (initial_vector request)
                  (eb_samples (eq_evidence request)) in
      let cn := detect_contradictions p (am_ev am) (am_readings am) in
      let? cl := propagate_domain p ctx resources (classify_resources p cn resources) in
      Ok (make_outcome p ctx request prior resources cl))))
  end.

(** [evidence_within_freshness]. *)
Definition evidence_within_freshness (v : EvidenceVector) (p : CongestionPolicy) (now : N) : bool :=
  if ev_samples_accepted v =? 0 then false
  else if ev_newest_observed_tick v =? kNoTick then false
  else
    let age := tick_age now (ev_newest_observed_tick v) in
    if ta_from_future age then ta_age age <=? fp_max_future_skew_ticks (cpol_freshness p)
    else ta_age age <=? fp_default_max_age_ticks (cpol_freshness p).

(** [demote_after_recovery], with [out_requires_revalidation]. *)
Definition demote_after_recovery (restored : CongestionState) (last_authoritative_tick : N) :
    CongestionState * bool :=
  if negb (is_authoritative restored) then (restored, true)
  else if last_authoritative_tick =? kNoTick then (StUnknown, true)
  else (StStale, true).

(** * Properties *)

(** ** Admission *)

(** A usable observation: neither beyond the future skew nor too old for the kind. *)
Definition fresh_at (p : CongestionPolicy) (now : N) (metric : MetricKind) (observed : N) : Prop :=
  (now < observed -> observed - now <= fp_max_future_skew_ticks (cpol_freshness p)) /\
  (observed <= now -> now - observed <= max_age_for p metric).

Lemma not_refused_fresh (p : CongestionPolicy) (now : N) (metric : MetricKind) (observed : N) :
  beyond_skew p now observed || too_old p metric now observed = false -> fresh_at p now metric observed.
Proof.
  unfold beyond_skew, too_old, tick_age, fresh_at. intros H. reflect_bools.
  destruct (N.ltb_spec now observed); simpl in *; reflect_bools; split; intros; try lia.
  - destruct H as [?|?]; [done|reflect_bools; lia].
  - destruct H0 as [?|?]; [done|reflect_bools; lia].
Qed.

Section Admission.
Context (p : CongestionPolicy) (ctx : EvaluationContext) (now : N) (resources : list N)
  (samples : list EvidenceSample).

(** What the evaluation may believe: a sample of the batch, of a resource in
    scope and of the current epoch, that carries this value and is fresh. *)
Record reading_from (key : ReadingKey) (value publisher : N) : Prop := {
  rf_scope : key.1.1 ∈ resources;
  rf_rule : key.2 ∈ map tr_metric (cpol_rules p);
  rf_sample : exists sample, sample ∈ samples /\ es_resource sample = key.1.1 /\
    es_queue sample = key.1.2 /\ es_publisher sample = publisher /\
    metric_get (es_metrics sample) key.2 = Some value /\ is_heartbeat sample = false /\
    (valid (ctx_epoch ctx) = true -> es_epoch sample = ctx_epoch ctx) /\
    fresh_at p now key.2 (es_observed_tick sample)
}.

Definition reading_ok (key : ReadingKey) (r : Reading) : Prop :=
  reading_from key (rd_value r) (rd_publisher r).

Definition bucket_ok (entry : ReadingKey * list Reading) : Prop :=
  entry.2 <> [] /\ size64 entry.2 <= kMaxContradictionPeers /\ Forall (reading_ok entry.1) entry.2.

(** The sum of the per-sample counters. *)
Definition counted_samples (ev : EvidenceVector) : N :=
  ev_samples_accepted ev + ev_samples_rejected ev + ev_samples_duplicate ev
  + ev_unknown_metric_samples ev + ev_heartbeats ev.

(** The part of the vector admission does not touch. *)
Definition report_parts (ev : EvidenceVector) :=
  (ev_batch ev, ev_epoch ev, ev_samples_seen ev,
   ev_resources ev, ev_bindings ev, ev_conflicts ev, ev_propagation ev).

Record pass_ok (start pass : SamplePass) : Prop := {
  pso_buckets : Forall bucket_ok (spa_readings pass);
  pso_sorted : om_sorted (spa_readings pass);
  pso_accepted : spa_accepted pass = false -> spa_readings pass = spa_readings start;
  pso_counts : counted_samples (spa_ev pass) = counted_samples (spa_ev start) /\
    ev_samples_accepted (spa_ev pass) = ev_samples_accepted (spa_ev start);
  pso_parts : report_parts (spa_ev pass) = report_parts (spa_ev start);
  pso_stale : size64 (ev_stale (spa_ev start)) <= pl_max_stale_reports (cpol_limits p) ->
    size64 (ev_stale (spa_ev pass)) <= pl_max_stale_reports (cpol_limits p)
}.

Lemma admit_metric_ok (sample : EvidenceSample) (snapshot : N) (start acc : SamplePass)
    (metric : MetricKind) :
  sample ∈ samples -> es_resource sample ∈ resources -> is_heartbeat sample = false ->
  (valid (ctx_epoch ctx) = true -> es_epoch sample = ctx_epoch ctx) ->
  metric ∈ rule_metrics p ->
  pass_ok start acc -> pass_ok start (admit_metric p now sample snapshot acc metric).
Proof.
  intros Hin Hres Hhb Hep Hm [Hb Hs Ha [Hc Hc'] Hp Hst]. unfold admit_metric.
  destruct (metric_get (es_metrics sample) metric) as [value|] eqn:Hget; [|by split].
  set (acc' := if ta_from_future _ then _ else acc).
  assert (pass_ok start acc') as [Hb' Hs' Ha' [Hcc Hcc'] Hp' Hst'].
  { unfold acc'. destruct (ta_from_future _); by split. }
  clearbody acc'. cbv zeta. destruct (beyond_skew _ _ _ || too_old _ _ _ _) eqn:Hfresh.
  - simpl. destruct (N.ltb_spec (size64 (ev_stale (spa_ev acc'))) (pl_max_stale_reports (cpol_limits p)));
      split; simpl; try done.
    intros _. rewrite size64_app, size64_cons, size64_nil. lia.
  - apply not_refused_fresh in Hfresh.
    destruct (N.leb_spec kMaxContradictionPeers
      (size64 (default [] (om_find (es_resource sample, es_queue sample, metric) (spa_readings acc')))))
      as [Hfull|Hroom]; [by split|].
    split; simpl; try done; [|by apply om_sorted_insert].
    apply om_insert_Forall; [|done]. split; [by destruct (default _ _)|]. simpl. split.
    + rewrite size64_app, size64_cons, size64_nil. unfold kMaxContradictionPeers in *. lia.
    + apply Forall_app. split.
      * destruct (om_find _ _) as [bucket|] eqn:Hf; [|constructor]. simpl.
        apply om_find_elem in Hf. rewrite Forall_forall in Hb'. by apply (Hb' _ Hf).
      * apply Forall_singleton. split; simpl; [done| |by exists sample].
        unfold rule_metrics in Hm. by rewrite sort_unique_elem in Hm.
Qed.

Record admission_ok (pre : list EvidenceSample) (start : EvidenceVector) (am : Admission) : Prop := {
  aok_buckets : Forall bucket_ok (am_readings am);
  aok_sorted : om_sorted (am_readings am);
  aok_accepted : ev_samples_accepted (am_ev am) = 0 -> am_readings am = [];
  aok_counts : counted_samples (am_ev am) <= counted_samples start + size64 pre;
  aok_parts : report_parts (am_ev am) = report_parts start;
  aok_stale : size64 (ev_stale (am_ev am)) <= pl_max_stale_reports (cpol_limits p)
}.

Lemma admit_sample_ok (pre : list EvidenceSample) (start : EvidenceVector) (am : Admission)
    (sample : EvidenceSample) :
  sample ∈ samples -> admission_ok pre start am ->
  admission_ok (pre ++ [sample]) start (admit_sample p ctx now resources am sample).
Proof.
  intros Hin [Hb Hs Ha Hc Hp Hst]. unfold admit_sample.
  assert (size64 (pre ++ [sample]) = size64 pre + 1) as Hlen.
  { by rewrite size64_app, size64_cons, size64_nil. }
  destruct (negb (valid (es_resource sample))).
  { split; simpl; try done. unfold counted_samples in *. simpl. lia. }
  case_bool_decide as Hres; [split; simpl; try done; lia|].
  destruct (is_heartbeat sample) eqn:Hhb.
  { split; simpl; try done. unfold counted_samples in *. simpl. lia. }
  destruct (_ || negb (in_topology ctx (es_resource sample))) eqn:Hrej.
  { split; simpl; try done. unfold counted_samples in *. simpl. lia. }
  case_bool_decide as Hdup.
  { split; simpl; try done. unfold counted_samples in *. simpl. lia. }
  apply orb_false_iff in Hrej as [Hep _].
  set (start' := mkSamplePass (am_ev am) (am_readings am) false false).
  assert (pass_ok start' (foldl (admit_metric p now sample (sample_snapshot sample)) start' (rule_metrics p)))
    as [Hb' Hs' Ha' [Hc' Hc''] Hp' Hst'].
  { apply foldl_inv; [by split|]. intros acc metric Hm. apply admit_metric_ok; try done.
    intros Hv. rewrite Hv in Hep. simpl in Hep. by reflect_bools. }
  set (pass := foldl _ _ _) in *. simpl in *.
  unfold count_sample. destruct (spa_accepted pass) eqn:Hacc; [|destruct (spa_refused pass)];
    split; simpl; try done; try (by apply Hst'); try (by rewrite <- Hp, <- Hp');
    try (unfold counted_samples in *; simpl; lia); try lia.
  - intros H0. rewrite Ha' by done. apply Ha. lia.
  - intros H0. rewrite Ha' by done. apply Ha. lia.
Qed.

Lemma admit_ok (start : EvidenceVector) :
  ev_stale start = [] ->
  admission_ok samples start (admit_samples p ctx now resources start samples).
Proof.
  intros Hst. unfold admit_samples. apply (foldl_inv_prefix (fun pre am => admission_ok pre start am)).
  - split; simpl; try done; try constructor; rewrite ?Hst, ?size64_nil; lia.
  - intros pre x acc [suf Hpre] Hacc. apply admit_sample_ok; [|done].
    rewrite Hpre, !elem_of_app. left. right. constructor.
Qed.
End Admission.

(** ** Contradictions *)

Lemma per_publisher_elem (bucket : list Reading) (k : N) (r : Reading) :
  (k, r) ∈ per_publisher bucket -> r ∈ bucket /\ rd_publisher r = k.
Proof.
  unfold per_publisher. intros H.
  assert (Forall (fun e : N * Reading => e.2 ∈ bucket /\ rd_publisher e.2 = e.1) (foldl (fun m r =>
           match om_find (rd_publisher r) m with
           | Some found => if reading_better r found then om_insert (rd_publisher r) r m else m
           | None => om_insert (rd_publisher r) r m
           end) [] bucket)) as Hall.
  { apply foldl_inv; [constructor|]. intros m x Hx Hm.
    destruct (om_find _ _) as [found|]; [destruct (reading_better _ _)|];
      try done; by apply om_insert_Forall. }
  rewrite Forall_forall in Hall. exact (Hall _ H).
Qed.

Lemma best_reading_elem (first : Reading) (candidates : list (N * Reading)) :
  best_reading first candidates = first \/ exists k, (k, best_reading first candidates) ∈ candidates.
Proof.
  unfold best_reading. apply foldl_inv; [by left|].
  intros acc [k r] Hin Hacc. destruct (reading_better _ _); [|done]. right. by exists k.
Qed.

Lemma prefer_priority_elem (order : list N) (winner : Reading) (candidates : list (N * Reading)) :
  (prefer_priority order winner candidates).1.2 = winner \/
  exists k, (k, (prefer_priority order winner candidates).1.2) ∈ candidates.
Proof.
  unfold prefer_priority.
  apply (foldl_inv (fun acc : nat * Reading * N => acc.1.2 = winner \/ exists k, (k, acc.1.2) ∈ candidates));
    [by left|].
  intros acc [k r] Hin Hacc. destruct (_ <? _)%nat; [|done]. right. by exists k.
Qed.

Lemma conflict_of_winner p key candidates winner report winner' :
  conflict_of p key candidates winner = Some (report, winner') ->
  winner' = winner \/ exists k, (k, winner') ∈ candidates.
Proof.
  unfold conflict_of. destruct candidates as [|first rest]; [done|].
  destruct (_ <? cp_min_distinct_publishers _); [done|]. cbv zeta.
  destruct (negb _); [done|]. case_bool_decide.
  - pose proof (prefer_priority_elem (cp_priority_order (cpol_contradiction p)) winner (first :: rest)) as H1.
    destruct (prefer_priority _ _ _) as [[rank best] selected]. simpl in H1.
    destruct (rank =? _)%nat; intros [= <- <-]; done.
  - case_bool_decide; intros [= <- <-]; by left.
Qed.

(** The reading of a bucket that speaks for its publisher: none of the same
    publisher is better. *)
Definition latest (bucket : list Reading) (r : Reading) : Prop :=
  r ∈ bucket /\
  Forall (fun r' => rd_publisher r' = rd_publisher r -> reading_better r' r = false) bucket.

Lemma reading_better_trans (a b c : Reading) :
  reading_better a b = true -> reading_better c b = false -> reading_better c a = false.
Proof.
  unfold reading_better. intros H1 H2.
  destruct (N.eqb_spec (rd_observed_tick a) (rd_observed_tick b)), (N.eqb_spec (rd_publisher a) (rd_publisher b)),
    (N.eqb_spec (rd_observed_tick c) (rd_observed_tick b)), (N.eqb_spec (rd_publisher c) (rd_publisher b)),
    (N.eqb_spec (rd_observed_tick c) (rd_observed_tick a)), (N.eqb_spec (rd_publisher c) (rd_publisher a));
    cbn [negb] in *; reflect_bools; apply N.ltb_ge; lia.
Qed.

Lemma reading_better_self (a : Reading) : reading_better a a = false.
Proof. unfold reading_better. rewrite !N.eqb_refl. cbn [negb]. apply N.ltb_irrefl. Qed.

(** One reading for each publisher of the readings seen so far, its latest. *)
Record speakers_of (seen : list Reading) (m : list (N * Reading)) : Prop := {
  sko_sorted : om_sorted m;
  sko_latest : forall k r, (k, r) ∈ m -> rd_publisher r = k /\ latest seen r;
  sko_all : forall r, r ∈ seen -> rd_publisher r ∈ m.*1
}.

Lemma latest_snoc (seen : list Reading) (r x : Reading) :
  latest seen r -> (rd_publisher x = rd_publisher r -> reading_better x r = false) -> latest (seen ++ [x]) r.
Proof.
  intros [Hin Hall] Hx. split; [apply elem_of_app; by left|]. apply Forall_app. split; [done|].
  by apply Forall_singleton.
Qed.

Lemma om_insert_keys {V : Type} (k x : N) (v : V) (m : list (N * V)) :
  x ∈ m.*1 \/ x = k -> x ∈ (om_insert k v m).*1.
Proof.
  intros Hx. destruct (decide (x ∈ (om_insert k v m).*1)) as [|Hn]; [done|]. exfalso.
  apply om_find_None in Hn. destruct (decide (k = x)) as [<-|Hne]; [by rewrite om_find_insert_eq in Hn|].
  rewrite om_find_insert_ne in Hn by done. apply om_find_None in Hn. destruct Hx as [?|?]; congruence.
Qed.

Lemma speakers_insert (seen : list Reading) (m : list (N * Reading)) (x : Reading) :
  speakers_of seen m ->
  (forall r, r ∈ seen -> rd_publisher r = rd_publisher x -> reading_better r x = false) ->
  speakers_of (seen ++ [x]) (om_insert (rd_publisher x) x m).
Proof.
  intros [Hs Hl Ha] Hx. split.
  - by apply om_sorted_insert.
  - intros k r Hkr. apply om_elem_find in Hkr; [|by apply om_sorted_insert].
    destruct (decide (rd_publisher x = k)) as [<-|Hne].
    + rewrite om_find_insert_eq in Hkr. injection Hkr as <-. split; [done|].
      split; [apply elem_of_app; right; constructor|]. apply Forall_app. split; [by apply Forall_forall|].
      apply Forall_singleton. intros _. apply reading_better_self.
    + rewrite om_find_insert_ne in Hkr by done. apply om_find_elem in Hkr as [Hk Hr]%Hl.
      split; [done|]. apply latest_snoc; [done|]. congruence.
  - intros r [Hr| ->%list_elem_of_singleton]%elem_of_app; apply om_insert_keys; [left; by apply Ha|by right].
Qed.

Lemma speakers_keep (seen : list Reading) (m : list (N * Reading)) (x found : Reading) :
  speakers_of seen m -> om_find (rd_publisher x) m = Some found -> reading_better x found = false ->
  speakers_of (seen ++ [x]) m.
Proof.
  intros [Hs Hl Ha] Hf Hb. split; [done| |].
  - intros k r Hkr. pose proof (Hl k r Hkr) as [Hk Hr]. split; [done|]. apply latest_snoc; [done|].
    intros Hp. apply om_elem_find in Hkr; [|done]. congruence.
  - intros r [Hr| ->%list_elem_of_singleton]%elem_of_app; [by apply Ha|].
    apply list_elem_of_fmap. exists (rd_publisher x, found). split; [done|]. by apply om_find_elem.
Qed.

(** [per_publisher] keeps the latest reading of every publisher of the bucket. *)
Lemma per_publisher_speakers (bucket : list Reading) : speakers_of bucket (per_publisher bucket).
Proof.
  unfold per_publisher. apply (foldl_inv_prefix speakers_of).
  { split; [constructor|by intros ? ? ?%not_elem_of_nil|by intros ? ?%not_elem_of_nil]. }
  intros seen x m _ Hm. destruct (om_find (rd_publisher x) m) as [found|] eqn:Hf.
  - destruct (reading_better x found) eqn:Hb; [|by eapply speakers_keep].
    apply speakers_insert; [done|]. intros r Hr Hp.
    destruct (sko_latest _ _ Hm _ _ (om_find_elem _ _ _ Hf)) as (Hpf & _ & Hall).
    rewrite Forall_forall in Hall. apply (reading_better_trans x found r Hb), Hall; [done|congruence].
  - apply speakers_insert; [done|]. intros r Hr Hp. apply om_find_None in Hf.
    destruct Hf. rewrite <- Hp. by apply (sko_all _ _ Hm).
Qed.

(** The low/high scan finds the least and the greatest of the candidates. *)
Record extremes_ok (seen : list (N * Reading)) (e : Extremes) : Prop := {
  exo_low : exists c, c ∈ seen /\ ex_low e = rd_value c.2 /\ ex_low_publisher e = c.1 /\
              ex_low_tick e = rd_observed_tick c.2;
  exo_high : exists c, c ∈ seen /\ ex_high e = rd_value c.2 /\ ex_high_publisher e = c.1 /\
               ex_high_tick e = rd_observed_tick c.2;
  exo_bounds : Forall (fun c => ex_low e <= rd_value c.2 <= ex_high e) seen
}.

Lemma extremes_of_ok (first : N * Reading) (rest : list (N * Reading)) :
  extremes_ok (first :: rest) (extremes_of first rest).
Proof.
  unfold extremes_of. apply (foldl_inv_prefix (fun pre e => extremes_ok (first :: pre) e)).
  { split; try (exists first; split; [constructor|done]). apply Forall_singleton. simpl. lia. }
  intros pre c e _ [(l & Hl & El) (h & Hh & Eh) Hb]. cbv zeta.
  rewrite app_comm_cons.
  assert (c ∈ (first :: pre) ++ [c]) as Hc by (apply elem_of_app; right; constructor).
  assert (l ∈ (first :: pre) ++ [c]) as Hl' by (apply elem_of_app; by left).
  assert (h ∈ (first :: pre) ++ [c]) as Hh' by (apply elem_of_app; by left).
  assert (ex_low e <= ex_high e) as Hlh.
  { rewrite Forall_forall in Hb. pose proof (Hb _ Hl). lia. }
  destruct (N.ltb_spec (rd_value c.2) (ex_low e)); cbn [ex_high];
    destruct (N.ltb_spec (ex_high e) (rd_value c.2)); try lia;
    split; cbn [ex_low ex_high ex_low_publisher ex_high_publisher ex_low_tick ex_high_tick];
    try (by exists c); try (by exists l); try (by exists h);
    apply Forall_app; (split; [eapply Forall_impl; [exact Hb|]|apply Forall_singleton]); cbv beta; intros; lia.
Qed.

(** A contradiction, in terms of the readings alone: enough publishers, and the
    least and the greatest of their latest readings further apart than the
    absolute tolerance and than the relative tolerance of the greatest. *)
Definition beyond_tolerance (cp : ContradictionPolicy) (low high : N) : Prop :=
  low + cp_absolute_tolerance cp < high /\ low + apply_ppm high (cp_relative_tolerance_ppm cp) < high.

Record contradicting (cp : ContradictionPolicy) (bucket : list Reading) (low high : Reading) : Prop := {
  ctr_publishers : cp_min_distinct_publishers cp <= size64 (per_publisher bucket);
  ctr_low : (rd_publisher low, low) ∈ per_publisher bucket;
  ctr_high : (rd_publisher high, high) ∈ per_publisher bucket;
  ctr_extreme : Forall (fun c => rd_value low <= rd_value c.2 <= rd_value high) (per_publisher bucket);
  ctr_tolerance : beyond_tolerance cp (rd_value low) (rd_value high)
}.

Definition disputed (cp : ContradictionPolicy) (bucket : list Reading) : Prop :=
  exists low high, contradicting cp bucket low high.

(** A conflict report tells of a contradiction among the readings of its key. *)
Definition report_of (cp : ContradictionPolicy) (readings : list (ReadingKey * list Reading))
    (report : ConflictReport) : Prop :=
  exists bucket low high,
    (((cr_resource report, cr_queue report, cr_metric report) : ReadingKey), bucket) ∈ readings /\
    contradicting cp bucket low high /\
    cr_low_value report = rd_value low /\ cr_high_value report = rd_value high /\
    cr_low_publisher report = rd_publisher low /\ cr_high_publisher report = rd_publisher high /\
    cr_low_observed_tick report = rd_observed_tick low /\
    cr_high_observed_tick report = rd_observed_tick high /\
    cr_spread report = rd_value high - rd_value low /\
    cr_resolved report = negb (bool_decide (cp_mode cp = CmReject)).

(** [conflict_of] decides whether a bucket is disputed. *)
Lemma conflict_of_spec p key bucket winner :
  match conflict_of p key (per_publisher bucket) winner with
  | Some (report, _) => disputed (cpol_contradiction p) bucket /\
      forall readings, (key, bucket) ∈ readings -> report_of (cpol_contradiction p) readings report
  | None => ~ disputed (cpol_contradiction p) bucket
  end.
Proof.
  unfold conflict_of. pose proof (per_publisher_speakers bucket) as [_ Hl _].
  destruct (per_publisher bucket) as [|first rest] eqn:E.
  { intros (low & high & [_ Hin _ _ _]). rewrite E in Hin. by apply not_elem_of_nil in Hin. }
  cbv zeta. destruct (N.ltb_spec (size64 (first :: rest)) (cp_min_distinct_publishers (cpol_contradiction p))).
  { intros (low & high & [Hn _ _ _ _]). rewrite E in Hn. lia. }
  destruct (extremes_of_ok first rest) as [(l & Hlin & El) (h & Hhin & Eh) Hb].
  set (e := extremes_of first rest) in *. destruct l as [lp low], h as [hp high]. cbn [fst snd] in *.
  destruct (Hl _ _ Hlin) as [<- _], (Hl _ _ Hhin) as [<- _].
  destruct El as (El & Elp & Elt), Eh as (Eh & Ehp & Eht).
  destruct (N.ltb_spec (N.max (cp_absolute_tolerance (cpol_contradiction p))
    (apply_ppm (ex_high e) (cp_relative_tolerance_ppm (cpol_contradiction p)))) (ex_high e - ex_low e)) as [Ht|Ht];
    cbn [negb].
  - assert (contradicting (cpol_contradiction p) bucket low high) as Hc.
    { split; rewrite ?E; try done.
      - by rewrite <- El, <- Eh.
      - unfold beyond_tolerance. rewrite <- El, <- Eh. lia. }
    assert (forall x selected, x = negb (bool_decide (cp_mode (cpol_contradiction p) = CmReject)) ->
      disputed (cpol_contradiction p) bucket /\
      forall readings, (key, bucket) ∈ readings -> report_of (cpol_contradiction p) readings
        (mkConflictReport key.1.1 key.1.2 key.2 (ex_low e) (ex_high e) (ex_high e - ex_low e)
          (ex_low_publisher e) (ex_high_publisher e) (ex_low_tick e) (ex_high_tick e) x selected)) as Hok.
    { intros x selected ->. split; [by exists low, high|]. intros readings Hin.
      exists bucket, low, high. destruct key as [[r q] m]. cbn. rewrite <- El, <- Eh. done. }
    set (resolved := negb (bool_decide (_ = CmReject))) in *. clearbody resolved.
    case_bool_decide; [|case_bool_decide; by apply Hok].
    destruct (prefer_priority _ _ _) as [[rank best] selected]. destruct (rank =? _)%nat; by apply Hok.
  - intros (low' & high' & [_ Hl' Hh' Hx [Ht1 Ht2]]). rewrite E in Hl', Hh', Hx. rewrite Forall_forall in Hb, Hx.
    assert (rd_value low' = ex_low e) as El'.
    { pose proof (Hb _ Hl'). pose proof (Hx _ Hlin). cbn [snd] in *. lia. }
    assert (rd_value high' = ex_high e) as Eh'.
    { pose proof (Hb _ Hh'). pose proof (Hx _ Hhin). cbn [snd] in *. lia. }
    rewrite El', Eh' in *. lia.
Qed.

(** Every part of the vector but the conflict reports and the truncation count. *)
Definition admission_parts (ev : EvidenceVector) :=
  (ev_samples_accepted ev, counted_samples ev, ev_stale ev, ev_bindings ev, ev_samples_seen ev,
   ev_newest_observed_tick ev, ev_propagation ev).

Section Contradiction.
Context (p : CongestionPolicy) (ctx : EvaluationContext) (now : N) (resources : list N)
  (samples : list EvidenceSample).

Record contradictions_ok (pre : list (ReadingKey * list Reading)) (start : EvidenceVector)
    (cn : Contradictions) : Prop := {
  cno_chosen : Forall (fun e => reading_ok p ctx now resources samples e.1 e.2) (cn_chosen cn);
  cno_conflicts : size64 (ev_conflicts (cn_ev cn)) <= pl_max_conflict_reports (cpol_limits p);
  cno_unresolved : Forall (fun u => u.1 ∈ resources /\ u.2 ∈ map tr_metric (cpol_rules p))
                     (cn_unresolved cn);
  cno_reported : cn_unresolved cn = [] -> Forall (fun r => cr_resolved r = true) (ev_conflicts (cn_ev cn));
  cno_empty : pre = [] -> cn_chosen cn = [] /\ cn_unresolved cn = [];
  cno_parts : admission_parts (cn_ev cn) = admission_parts start;
  cno_disputed : cn_unresolved cn <> [] <->
    cp_mode (cpol_contradiction p) = CmReject /\
    Exists (fun e => disputed (cpol_contradiction p) e.2) pre;
  cno_reports : Forall (report_of (cpol_contradiction p) pre) (ev_conflicts (cn_ev cn))
}.

Lemma bucket_winner_ok (entry : ReadingKey * list Reading) (k : N) (r : Reading) :
  bucket_ok p ctx now resources samples entry -> (k, r) ∈ per_publisher entry.2 ->
  reading_ok p ctx now resources samples entry.1 r.
Proof.
  intros (_ & _ & Hall) [Hin _]%per_publisher_elem. rewrite Forall_forall in Hall. by apply Hall.
Qed.

Lemma report_of_mono (cp : ContradictionPolicy) (pre suf : list (ReadingKey * list Reading)) (reports : list ConflictReport) :
  Forall (report_of cp pre) reports -> Forall (report_of cp (pre ++ suf)) reports.
Proof.
  intros H. eapply Forall_impl; [exact H|]. intros report (bucket & low & high & Hin & Hrest).
  exists bucket, low, high. split; [apply elem_of_app; by left|exact Hrest].
Qed.

Lemma disputed_snoc (cp : ContradictionPolicy) (pre : list (ReadingKey * list Reading))
    (entry : ReadingKey * list Reading) :
  Exists (fun e => disputed cp e.2) (pre ++ [entry]) <->
  Exists (fun e => disputed cp e.2) pre \/ disputed cp entry.2.
Proof. by rewrite Exists_app, Exists_cons, Exists_nil; tauto. Qed.

Lemma resolve_bucket_ok (pre : list (ReadingKey * list Reading)) (start : EvidenceVector)
    (cn : Contradictions) (entry : ReadingKey * list Reading) :
  bucket_ok p ctx now resources samples entry -> contradictions_ok pre start cn ->
  contradictions_ok (pre ++ [entry]) start (resolve_bucket p cn entry).
Proof.
  intros Hbk [Hch Hcf Hun Hrep Hemp Hparts Hdis Hrs]. unfold resolve_bucket.
  pose proof (bucket_winner_ok entry) as Hwin.
  pose proof (conflict_of_spec p entry.1 entry.2) as Hspec.
  apply (report_of_mono _ _ [entry]) in Hrs. pose proof (disputed_snoc (cpol_contradiction p) pre entry) as Hsnoc.
  destruct (per_publisher entry.2) as [|first rest].
  { specialize (Hspec (mkReading 0 0 0 0 0 0 false false)). cbn in Hspec.
    split; try done; [by destruct pre|]. rewrite Hsnoc, Hdis. tauto. }
  assert (reading_ok p ctx now resources samples entry.1 (best_reading first.2 (first :: rest))) as Hbest.
  { destruct (best_reading_elem first.2 (first :: rest)) as [->|[k Hk]]; [|by apply (Hwin k)].
    apply (Hwin first.1); [done|]. destruct first. constructor. }
  specialize (Hspec (best_reading first.2 (first :: rest))).
  destruct (conflict_of p entry.1 (first :: rest) _) as [[report winner]|] eqn:Hconf.
  - assert (reading_ok p ctx now resources samples entry.1 winner) as Hw.
    { apply conflict_of_winner in Hconf as [->|[k Hk]]; [done|]. by apply (Hwin k). }
    destruct Hspec as [Hd Hreport].
    assert (report_of (cpol_contradiction p) (pre ++ [entry]) report) as Hro.
    { apply Hreport, elem_of_app. right. destruct entry. constructor. }
    pose proof Hro as (_ & _ & _ & _ & _ & _ & _ & _ & _ & _ & _ & _ & Hresolved).
    split; cbn [cn_ev cn_chosen cn_unresolved].
    + by apply om_insert_Forall.
    + destruct (N.ltb_spec (size64 (ev_conflicts (cn_ev cn))) (pl_max_conflict_reports (cpol_limits p)));
        simpl; [|done]. rewrite size64_app, size64_cons, size64_nil. lia.
    + destruct (cr_resolved report); [done|]. apply Forall_app. split; [done|].
      apply Forall_singleton. destruct Hw as [? ? _]. done.
    + destruct (cr_resolved report) eqn:Hr.
      * intros H0. destruct (_ <? _); simpl; [|by apply Hrep]. apply Forall_app. split; [by apply Hrep|].
        by apply Forall_singleton.
      * by intros [_ ?]%app_eq_nil.
    + by destruct pre.
    + by destruct (_ <? _).
    + rewrite Hsnoc, Hresolved. case_bool_decide as Hm; cbn [negb].
      * split; [tauto|]. intros _. by intros [_ ?]%app_eq_nil.
      * rewrite Hdis. tauto.
    + destruct (_ <? _); [|done]. apply Forall_app. split; [done|]. by apply Forall_singleton.
  - split; cbn [cn_ev cn_chosen cn_unresolved]; try done; [by apply om_insert_Forall|by destruct pre|].
    rewrite Hsnoc, Hdis. tauto.
Qed.

Lemma detect_contradictions_ok (start : EvidenceVector) (readings : list (ReadingKey * list Reading)) :
  ev_conflicts start = [] -> Forall (bucket_ok p ctx now resources samples) readings ->
  contradictions_ok readings start (detect_contradictions p start readings).
Proof.
  intros Hst Hall. unfold detect_contradictions. rewrite Forall_forall in Hall.
  apply (foldl_inv_prefix (fun pre cn => contradictions_ok pre start cn)).
  - split; simpl; rewrite ?Hst; try done; [rewrite size64_nil; lia|].
    rewrite Exists_nil. tauto.
  - intros pre x acc [suf Hpre] Hacc. apply resolve_bucket_ok; [|done].
    apply Hall. rewrite Hpre, !elem_of_app. left. right. constructor.
Qed.
End Contradiction.

(** ** Classification *)

Lemma classify_no_margin (rule : ThresholdRule) (value : N) :
  classify_rule_with_margin rule value 0 = classify rule value.
Proof. done. Qed.

Lemma by_resource_metric_elem (chosen : list (ReadingKey * Reading)) (resource : N) (metric : MetricKind)
    (queue : N) (r : Reading) :
  (queue, r) ∈ by_resource_metric chosen resource metric -> ((resource, queue, metric), r) ∈ chosen.
Proof.
  unfold by_resource_metric. intros ([[[res q] m] r'] & Hin & H)%list_elem_of_omap. simpl in H.
  destruct (N.eqb_spec res resource) as [->|]; [|done]. simpl in H.
  case_bool_decide; [|done]. by simplify_eq.
Qed.

Lemma classify_shape_bound (rule : ThresholdRule) (b : RuleShape) (value : N) :
  sev_leb (classify_shape rule b value) SevSevere = true.
Proof. unfold classify_shape. by repeat split_match. Qed.

Lemma classify_margin_bound (rule : ThresholdRule) (value m : N) :
  sev_leb (classify_rule_with_margin rule value m) SevSevere = true.
Proof.
  unfold classify_rule_with_margin. destruct (tr_weight rule =? 0); [done|]. apply classify_shape_bound.
Qed.

Lemma rule_outcome_elem (p : CongestionPolicy) (chosen : list (ReadingKey * Reading)) (resource : N)
    (rule : ThresholdRule) (o : RuleOutcome) :
  rule_outcome p chosen resource rule = Some o ->
  ((resource, ro_queue o, tr_metric rule), ro_reading o) ∈ chosen /\
  ro_upward o = classify rule (rd_value (ro_reading o)) /\
  sev_leb (ro_downward o) SevSevere = true.
Proof.
  unfold rule_outcome. intros H.
  assert (forall o', foldl (rule_candidate p rule) None
      (by_resource_metric chosen resource (tr_metric rule)) = Some o' ->
    (ro_queue o', ro_reading o') ∈ by_resource_metric chosen resource (tr_metric rule) /\
    ro_upward o' = classify rule (rd_value (ro_reading o')) /\
    sev_leb (ro_downward o') SevSevere = true) as Hall.
  { apply (foldl_inv (fun acc => forall o', acc = Some o' ->
      (ro_queue o', ro_reading o') ∈ by_resource_metric chosen resource (tr_metric rule) /\
      ro_upward o' = classify rule (rd_value (ro_reading o')) /\
      sev_leb (ro_downward o') SevSevere = true)); [done|].
    intros acc [q r] Hin Hacc o'. unfold rule_candidate. simpl.
    destruct (match acc with None => true | Some _ => _ end); [|apply Hacc].
    intros [= <-]. simpl. split; [done|]. split; [apply classify_no_margin|apply classify_margin_bound]. }
  destruct (Hall o H) as (Hin & Hup & Hdn). split; [by apply by_resource_metric_elem|done].
Qed.

(** A rule backs [level] on a resource: its kind is not in dispute there, and the
    reading kept for it classifies at or above [level]. *)
Definition rule_backs (p : CongestionPolicy) (cn : Contradictions) (resource : N) (level : Severity)
    (rule : ThresholdRule) : bool :=
  negb (bool_decide ((resource, tr_metric rule) ∈ cn_unresolved cn))
  && match rule_outcome p (cn_chosen cn) resource rule with
     | Some o => sev_leb level (ro_upward o)
     | None => false
     end.

Definition backing (p : CongestionPolicy) (cn : Contradictions) (resource : N) (level : Severity)
    (rules : list ThresholdRule) : list ThresholdRule :=
  filter (fun r => rule_backs p cn resource level r = true) rules.

Lemma backing_snoc p cn resource level pre rule :
  size64 (backing p cn resource level (pre ++ [rule]))
  = count_if (rule_backs p cn resource level rule) (size64 (backing p cn resource level pre)).
Proof.
  unfold backing, count_if. rewrite filter_app, filter_cons, filter_nil, size64_app.
  destruct (rule_backs _ _ _ _ _); case_decide; try done; rewrite ?size64_cons, ?size64_nil; lia.
Qed.

(** The severity a resource reaches on its own evidence. *)
Definition raw_upward (p : CongestionPolicy) (cn : Contradictions) (resource : N) : Severity :=
  gate_severity (size64 (backing p cn resource SevWatch (cpol_rules p)))
    (size64 (backing p cn resource SevCongested (cpol_rules p)))
    (size64 (backing p cn resource SevSevere (cpol_rules p))) p.

Definition in_dispute (cn : Contradictions) (resource : N) (rule : ThresholdRule) : bool :=
  bool_decide ((resource, tr_metric rule) ∈ cn_unresolved cn).

Lemma sev_leb_refl (s : Severity) : sev_leb s s = true.
Proof. unfold sev_leb. apply N.leb_refl. Qed.

Lemma sev_leb_trans (a b c : Severity) : sev_leb a b = true -> sev_leb b c = true -> sev_leb a c = true.
Proof. unfold sev_leb. rewrite !N.leb_le. lia. Qed.

Lemma sev_ltb_false (a b : Severity) : sev_ltb a b = false -> sev_leb b a = true.
Proof. unfold sev_ltb, sev_leb. rewrite N.ltb_ge, N.leb_le. done. Qed.

Lemma sev_ltb_le (a b : Severity) : sev_ltb a b = true -> sev_leb a b = true.
Proof. unfold sev_ltb, sev_leb. rewrite N.ltb_lt, N.leb_le. lia. Qed.

Lemma sev_max_bound (a b c : Severity) :
  sev_leb a c = true -> sev_leb b c = true -> sev_leb (sev_max a b) c = true.
Proof. unfold sev_max. by destruct (sev_ltb a b). Qed.

#[export] Hint Resolve sev_leb_refl sev_max_bound : ncf.

Lemma gate_severity_bound (w c s : N) (p : CongestionPolicy) : sev_leb (gate_severity w c s p) SevSevere = true.
Proof. unfold gate_severity. by repeat split_match. Qed.

(** The downward severity of a resource is a real severity and never below the
    upward one. *)
Definition severities_ordered (cl : Classified) : Prop :=
  forall r, sev_leb (sev_at (cl_up cl) r) (sev_at (cl_down cl) r) = true /\
            sev_leb (sev_at (cl_down cl) r) SevSevere = true.

Lemma downward_of_ordered (p : CongestionPolicy) (pass : RulePass) :
  sev_leb (rpa_strictest_down pass) SevSevere = true ->
  sev_leb (upward_of p pass) (downward_of p pass) = true /\
  sev_leb (downward_of p pass) SevSevere = true.
Proof.
  intros Hs. unfold downward_of. cbv zeta.
  assert (sev_leb (upward_of p pass) SevSevere = true) as Hu by apply gate_severity_bound.
  set (d := if hp_require_all_rules_agree_on_downgrade _ then _ else _).
  assert (sev_leb d SevSevere = true) as Hd.
  { unfold d. destruct (hp_require_all_rules_agree_on_downgrade _); [done|].
    apply sev_max_bound; [done|apply gate_severity_bound]. }
  clearbody d. destruct (sev_ltb d (upward_of p pass)) eqn:E; [split; [apply sev_leb_refl|done]|].
  split; [by apply sev_ltb_false|done].
Qed.

Section Classification.
Context (p : CongestionPolicy) (ctx : EvaluationContext) (now : N) (resources : list N)
  (samples : list EvidenceSample) (cn : Contradictions).

Record binding_ok (b : ThresholdBinding) : Prop := {
  bo_reading : reading_from p ctx now resources samples (tb_resource b, tb_queue b, tb_metric b)
                 (tb_value b) (tb_publisher b);
  bo_rule : exists rule, rule ∈ cpol_rules p /\ tb_metric b = tr_metric rule /\ tb_op b = tr_op rule /\
    tb_watch b = tr_watch rule /\ tb_congested b = tr_congested rule /\ tb_severe b = tr_severe rule /\
    tb_level b = classify rule (tb_value b)
}.

(** The part of the vector classification does not touch; propagation touches
    only its own section of it. *)
Definition settled_parts (ev : EvidenceVector) :=
  (ev_samples_accepted ev, counted_samples ev, ev_stale ev, ev_samples_seen ev,
   ev_newest_observed_tick ev, ev_conflicts ev).
Definition classify_parts (ev : EvidenceVector) := (settled_parts ev, ev_propagation ev).

Definition bindings_ok (ev : EvidenceVector) : Prop :=
  Forall binding_ok (ev_bindings ev) /\
  size64 (ev_bindings ev) <= pl_max_explanation_entries (cpol_limits p).

Hypothesis Hchosen : Forall (fun e => reading_ok p ctx now resources samples e.1 e.2) (cn_chosen cn).

Record rules_ok (resource : N) (pre : list ThresholdRule) (start : EvidenceVector) (pass : RulePass) :
    Prop := {
  rpo_bindings : bindings_ok (rpa_ev pass);
  rpo_parts : classify_parts (rpa_ev pass) = classify_parts start;
  rpo_watch : rpa_agree_watch pass = size64 (backing p cn resource SevWatch pre);
  rpo_congested : rpa_agree_congested pass = size64 (backing p cn resource SevCongested pre);
  rpo_severe : rpa_agree_severe pass = size64 (backing p cn resource SevSevere pre);
  rpo_contra : ra_contradictory (rpa_assessment pass) = existsb (in_dispute cn resource) pre;
  rpo_present : cn_chosen cn = [] -> rpa_any_present pass = false;
  rpo_strictest : sev_leb (rpa_strictest_down pass) SevSevere = true
}.

Lemma assess_rule_contra degraded o a : ra_contradictory (assess_rule degraded o a) = ra_contradictory a.
Proof.
  unfold assess_rule. cbv zeta. destruct degraded; simpl; by repeat split_match.
Qed.

Lemma existsb_snoc {A : Type} (f : A -> bool) (l : list A) (x : A) :
  existsb f (l ++ [x]) = existsb f l || f x.
Proof. rewrite existsb_app. simpl. by rewrite orb_false_r. Qed.

Lemma rules_ok_stay resource pre start pass rule :
  rules_ok resource pre start pass ->
  (forall level, rule_backs p cn resource level rule = false) ->
  in_dispute cn resource rule = false ->
  rules_ok resource (pre ++ [rule]) start (pass <| rpa_required_total ::= count_if (tr_required rule) |>).
Proof.
  intros [Hb Hp Hw Hc Hs Hct Hpr Hsd] Hno Hd.
  split; simpl; try done; rewrite ?backing_snoc, ?Hno; simpl; try done.
  by rewrite existsb_snoc, Hd, orb_false_r.
Qed.

Lemma apply_rule_ok resource pre start pass rule :
  rule ∈ cpol_rules p -> rules_ok resource pre start pass ->
  rules_ok resource (pre ++ [rule]) start (apply_rule p cn resource pass rule).
Proof.
  intros Hin Hok. pose proof Hok as [[Hb Hbd] Hp Hw Hc Hs Hct Hpr Hsd]. unfold apply_rule. cbv zeta.
  destruct (bool_decide ((resource, tr_metric rule) ∈ cn_unresolved cn)) eqn:Hun.
  { assert (forall level, rule_backs p cn resource level rule = false) as Hno
      by (intros; unfold rule_backs; by rewrite Hun).
    split; simpl; try done; rewrite ?backing_snoc, ?Hno; simpl; try done.
    rewrite existsb_snoc. change (in_dispute cn resource rule)
      with (bool_decide ((resource, tr_metric rule) ∈ cn_unresolved cn)). by rewrite Hun, orb_true_r. }
  destruct (rule_outcome p (cn_chosen cn) resource rule) as [o|] eqn:Ho.
  2:{ apply rules_ok_stay; [done| |exact Hun]. intros level. unfold rule_backs. by rewrite Hun, Ho. }
  assert (forall level, rule_backs p cn resource level rule = sev_leb level (ro_upward o)) as Hbk
    by (intros; unfold rule_backs; by rewrite Hun, Ho).
  apply rule_outcome_elem in Ho as (Helem & Hlevel & Hdown).
  assert (sev_leb (sev_max (rpa_strictest_down pass) (ro_downward o)) SevSevere = true) as Hsd'
    by (unfold sev_max; by destruct (sev_ltb _ _)).
  pose proof (proj1 (Forall_forall _ _) Hchosen _ Helem) as Hread.
  assert (cn_chosen cn = [] -> False) as Hne by (intros E; rewrite E in Helem; by apply not_elem_of_nil in Helem).
  assert (ra_contradictory (assess_rule (bool_decide (resource ∈ cn_degraded cn)) o (rpa_assessment pass))
          = existsb (in_dispute cn resource) (pre ++ [rule])) as Hct'.
  { rewrite assess_rule_contra, Hct, existsb_snoc. change (in_dispute cn resource rule)
      with (bool_decide ((resource, tr_metric rule) ∈ cn_unresolved cn)). by rewrite Hun, orb_false_r. }
  destruct (N.ltb_spec (size64 (ev_bindings (rpa_ev pass))) (pl_max_explanation_entries (cpol_limits p)))
    as [Hroom|Hfull].
  - simpl. rewrite (proj2 (N.ltb_lt _ _)) by done.
    split; simpl; try done; rewrite ?backing_snoc, ?Hbk; try congruence.
    split; simpl.
    + apply Forall_app. split; [done|]. apply Forall_singleton. split; simpl; [exact Hread|].
      by exists rule.
    + rewrite size64_app, size64_cons, size64_nil. lia.
  - simpl. rewrite (proj2 (N.ltb_ge _ _)) by done.
    split; simpl; try done; rewrite ?backing_snoc, ?Hbk; congruence.
Qed.

Record classified_ok (pre : list N) (cl : Classified) : Prop := {
  clo_bindings : bindings_ok (cl_ev cl);
  clo_parts : classify_parts (cl_ev cl) = classify_parts (cn_ev cn);
  clo_up : forall r, om_find r (cl_up cl)
             = if bool_decide (r ∈ pre) then Some (raw_upward p cn r) else None;
  clo_contra : forall r, r ∈ pre ->
    ra_contradictory (assessment_at (cl_assessments cl) r) = existsb (in_dispute cn r) (cpol_rules p);
  clo_silent : cn_chosen cn = [] -> cn_unresolved cn = [] -> forall r, r ∈ pre ->
    ra_coverage (assessment_at (cl_assessments cl) r) = CovNone;
  clo_down : severities_ordered cl
}.

Lemma rule_loop_ok (resource : N) (ev : EvidenceVector) :
  bindings_ok ev ->
  rules_ok resource (cpol_rules p) ev
    (foldl (apply_rule p cn resource) (rule_pass_start ev resource) (cpol_rules p)).
Proof.
  intros Hb. apply (foldl_inv_prefix (fun pre pass => rules_ok resource pre ev pass)).
  - by split.
  - intros pre x acc [suf Hpre] Hacc. apply apply_rule_ok; [|done].
    rewrite Hpre, !elem_of_app. left. right. constructor.
Qed.

Lemma no_dispute_empty (r : N) (rules : list ThresholdRule) :
  cn_unresolved cn = [] -> existsb (in_dispute cn r) rules = false.
Proof.
  intros H. induction rules as [|rule rules IH]; simpl; [done|]. rewrite IH, orb_false_r.
  unfold in_dispute. rewrite H. apply bool_decide_eq_false. apply not_elem_of_nil.
Qed.

Lemma classify_resource_ok (pre : list N) (cl : Classified) (resource : N) :
  classified_ok pre cl -> classified_ok (pre ++ [resource]) (classify_resource p cn cl resource).
Proof.
  intros [Hb Hp Hup Hct Hsil Hdn]. unfold classify_resource. cbv zeta.
  pose proof (rule_loop_ok resource (cl_ev cl) Hb) as [Hb' Hp' Hw Hc Hs Hct' Hpr Hsd].
  set (pass := foldl _ _ _) in *. split; simpl.
  - done.
  - by rewrite Hp'.
  - intros r. om_cases resource r.
    + rewrite bool_decide_eq_true_2 by (apply elem_of_app; right; constructor).
      unfold upward_of, raw_upward. by rewrite Hw, Hc, Hs.
    + rewrite Hup. rewrite (bool_decide_ext (r ∈ pre) (r ∈ pre ++ [resource])); [done|].
      rewrite elem_of_app, list_elem_of_singleton.
      split; [by left|]. intros [|]; [done|congruence].
  - intros r Hr. unfold assessment_at. om_cases resource r; [done|]. apply Hct.
    apply elem_of_app in Hr as [|Hr%list_elem_of_singleton]; [done|congruence].
  - intros Hch Hun r Hr. unfold assessment_at. om_cases resource r.
    + simpl. unfold coverage_of. by rewrite Hpr, Hct', no_dispute_empty.
    + apply Hsil; try done. apply elem_of_app in Hr as [|Hr%list_elem_of_singleton]; [done|congruence].
  - intros r. simpl. unfold sev_at. om_cases resource r; [|apply Hdn]. by apply downward_of_ordered.
Qed.

Lemma classify_resources_ok (l : list N) :
  ev_bindings (cn_ev cn) = [] -> classified_ok l (classify_resources p cn l).
Proof.
  intros H0. unfold classify_resources. apply (foldl_inv_prefix classified_ok).
  - split; simpl; [| done | done | by intros ? ?%not_elem_of_nil
      | by intros ? ? ? ?%not_elem_of_nil | done].
    split; rewrite H0; [constructor|]. rewrite size64_nil. lia.
  - intros pre x acc _. apply classify_resource_ok.
Qed.
End Classification.

(** ** Propagation into the domain *)

(** A propagation pass changes only severities: every resource keeps its
    coverage and its dispute, no severity rises above the policy's induced bound
    by propagation alone, and none reaches CONGESTED unless one had it before. *)
Record propagated_ok (p : CongestionPolicy) (before after : Classified) : Prop := {
  ppo_bindings : ev_bindings (cl_ev after) = ev_bindings (cl_ev before);
  ppo_parts : settled_parts (cl_ev after) = settled_parts (cl_ev before);
  ppo_edges : size64 (ev_propagation (cl_ev after))
              <= N.max (size64 (ev_propagation (cl_ev before))) (pl_max_explanation_entries (cpol_limits p));
  ppo_keep : forall r, (ra_contradictory (assessment_at (cl_assessments after) r),
                        ra_coverage (assessment_at (cl_assessments after) r))
                     = (ra_contradictory (assessment_at (cl_assessments before) r),
                        ra_coverage (assessment_at (cl_assessments before) r));
  ppo_up : forall r, sev_at (cl_up after) r = sev_at (cl_up before) r \/
             sev_leb (sev_at (cl_up after) r) (pp_max_induced_severity (cpol_propagation p)) = true;
  ppo_ge : forall r, sev_leb (sev_at (cl_up before) r) (sev_at (cl_up after) r) = true;
  ppo_quiet : (forall r, sev_ltb (sev_at (cl_up before) r) SevCongested = true) ->
    forall r, sev_ltb (sev_at (cl_up after) r) SevCongested = true;
  ppo_down : sev_leb (pp_max_induced_severity (cpol_propagation p)) SevSevere = true ->
    severities_ordered before -> severities_ordered after
}.

Lemma propagated_ok_refl (p : CongestionPolicy) (cl : Classified) : propagated_ok p cl cl.
Proof. split; try done; [lia|by left|intros; apply sev_leb_refl]. Qed.

Lemma raise_target_keeps (p : CongestionPolicy) (resources : list N) (before acc : Classified)
    (edge : PropagationEdge) :
  sev_leb (pe_induced edge) (pp_max_induced_severity (cpol_propagation p)) = true ->
  ((forall r, sev_ltb (sev_at (cl_up before) r) SevCongested = true) ->
    sev_ltb (pe_induced edge) SevCongested = true) ->
  propagated_ok p before acc -> cl_ev acc = cl_ev before ->
  propagated_ok p before (raise_target resources acc edge) /\
  cl_ev (raise_target resources acc edge) = cl_ev before.
Proof.
  intros Hmax Hquiet [Hb Hp He Hk Hu Hg Hq Hd] Hev. unfold raise_target. case_bool_decide; [by split|].
  split; [|done]. split; simpl; try done.
  - intros r. rewrite <- Hk. unfold assessment_at. om_cases (pe_to edge) r; done.
  - intros r. destruct (sev_ltb _ (pe_induced edge)) eqn:Hlt; [|apply Hu].
    unfold sev_at. om_cases (pe_to edge) r; [by right|apply Hu].
  - intros r. destruct (sev_ltb _ (pe_induced edge)) eqn:Hlt; [|apply Hg].
    unfold sev_at at 2. om_cases (pe_to edge) r; [|apply Hg]. simpl.
    eapply sev_leb_trans; [apply Hg|]. by apply sev_ltb_le.
  - intros Hbefore r. destruct (sev_ltb _ (pe_induced edge)) eqn:Hlt; [|by apply Hq].
    unfold sev_at. om_cases (pe_to edge) r; [by apply Hquiet|by apply Hq].
  - intros Hm Hbe r. destruct (Hd Hm Hbe r) as [Hud Hds].
    assert (sev_leb (pe_induced edge) SevSevere = true) as Hi by (by eapply sev_leb_trans).
    simpl. unfold sev_at in *. destruct (decide (pe_to edge = r)) as [<-|Hne].
    + destruct (sev_ltb (default SevClear (om_find (pe_to edge) (cl_up acc))) (pe_induced edge)) eqn:E1,
        (sev_ltb (default SevClear (om_find (pe_to edge) (cl_down acc))) (pe_induced edge)) eqn:E2;
        rewrite ?om_find_insert_eq; cbn [default]; auto with ncf.
      * split; [by apply sev_ltb_false|done].
      * split; [|done]. eapply sev_leb_trans; [exact Hud|]. by apply sev_ltb_le.
    + destruct (sev_ltb _ (pe_induced edge)), (sev_ltb _ (pe_induced edge)); rewrite ?om_find_insert_ne by done; done.
Qed.

Lemma propagation_sources_quiet (up : list (N * Severity)) (resources : list N) :
  (forall r, sev_ltb (sev_at up r) SevCongested = true) ->
  Forall (fun source => sev_ltb (src_severity source) SevCongested = true) (propagation_sources up resources).
Proof.
  intros H. apply Forall_forall. intros source (r & _ & Hr)%list_elem_of_omap.
  case_bool_decide; [done|]. injection Hr as <-. apply H.
Qed.

Lemma propagate_domain_ok (p : CongestionPolicy) (ctx : EvaluationContext) (resources : list N)
    (cl cl' : Classified) :
  (forall t, ctx_topology ctx = Some t -> exists s, index_of s t) ->
  pp_decay_ppm (cpol_propagation p) <= 1000000 ->
  propagate_domain p ctx resources cl = Ok cl' -> propagated_ok p cl cl'.
Proof.
  intros Htopo Hdecay. unfold propagate_domain.
  destruct (ctx_topology ctx) as [t|]; [|intros [= <-]; apply propagated_ok_refl].
  destruct (Htopo t eq_refl) as [s Hix].
  destruct (_ && _); [|intros [= <-]; apply propagated_ok_refl].
  intros H. apply res_bind_Ok in H as (result & Hres & [= <-]).
  pose proof (fun H => propagate_quiet _ _ _ _ _ Hdecay H Hres) as Hcalm.
  apply (propagate_result s) in Hres as (_ & keys & Hok); [|done|done].
  set (raised := foldl (raise_target resources) cl (pres_edges result)).
  assert (propagated_ok p cl raised /\ cl_ev raised = cl_ev cl) as [[Hb Hp He Hk Hu Hg Hq Hd] Hev].
  { apply foldl_inv; [split; [apply propagated_ok_refl|done]|].
    intros acc edge Hin [Hacc Hev]. apply raise_target_keeps; try done; cycle 1.
    { intros Hbefore. assert (Forall (fun e => sev_ltb (pe_induced e) SevCongested = true) (pres_edges result)) as Hall.
      { apply Hcalm. by apply propagation_sources_quiet. }
      rewrite Forall_forall in Hall. by apply Hall. }
    pose proof (rok_edges _ _ _ _ _ _ Hok) as Hedges. rewrite Forall_forall in Hedges.
    pose proof (eok_induced _ _ _ _ _ (Hedges edge Hin)) as Hind.
    pose proof (rok_induced _ _ _ _ _ _ Hok) as Hi. rewrite Forall_forall in Hi. apply (Hi _ Hind). }
  split; simpl; try done.
  - by destruct (pres_truncated result).
  - by destruct (pres_truncated result).
  - pose proof (rok_bound _ _ _ _ _ _ Hok). unfold size64 in *. rewrite length_map. lia.
Qed.

(** ** Aggregation *)

Record aggregate_ok (cl : Classified) (pre : list N) (ag : Aggregate) : Prop := {
  ago_conflict : ag_conflict ag
                 = existsb (fun r => ra_contradictory (assessment_at (cl_assessments cl) r)) pre;
  ago_evidence : ag_evidence ag
                 = existsb (fun r => negb (bool_decide
                     (ra_coverage (assessment_at (cl_assessments cl) r) = CovNone))) pre;
  ago_up : ag_up ag = SevClear \/ exists r, r ∈ pre /\ ag_up ag = sev_at (cl_up cl) r;
  ago_order : severities_ordered cl -> sev_leb (ag_up ag) (ag_down ag) = true /\
              sev_leb (ag_down ag) SevSevere = true
}.

Lemma sev_max_mono (a b c d : Severity) :
  sev_leb a b = true -> sev_leb c d = true -> sev_leb (sev_max a c) (sev_max b d) = true.
Proof.
  unfold sev_max, sev_ltb, sev_leb. intros H1 H2. reflect_bools.
  destruct (N.ltb_spec (sev_val a) (sev_val c)), (N.ltb_spec (sev_val b) (sev_val d));
    apply N.leb_le; lia.
Qed.

Lemma aggregate_spec (cl : Classified) (resources : list N) :
  aggregate_ok cl resources (aggregate cl resources).
Proof.
  unfold aggregate. apply (foldl_inv_prefix (aggregate_ok cl)); [split; simpl; auto|].
  intros pre x acc _ [Hc He Hu Ho]. unfold aggregate_resource. cbv zeta.
  case_bool_decide as Hcov; split; cbn [ag_conflict ag_evidence ag_up ag_down];
    rewrite ?existsb_snoc, ?Hc, ?He, ?Hcov; try done.
  - by rewrite orb_false_r.
  - destruct Hu as [?|(r & Hr & ?)]; [by left|right]. exists r. split; [|done]. apply elem_of_app. by left.
  - rewrite bool_decide_eq_false_2 by done. by rewrite orb_true_r.
  - unfold sev_max. destruct (sev_ltb _ _).
    + right. exists x. split; [|done]. apply elem_of_app. right. constructor.
    + destruct Hu as [?|(r & Hr & ?)]; [by left|right]. exists r. split; [|done]. apply elem_of_app. by left.
  - intros Hord. destruct (Ho Hord), (Hord x). split; [by apply sev_max_mono|by apply sev_max_bound].
Qed.

(** The evaluator's proposals name real severities, and the downward one is never
    below the upward one. *)
Lemma proposal_ordered (p : CongestionPolicy) (prior : DomainState) (cl : Classified) (resources : list N) :
  severities_ordered cl ->
  let proposal := (proposal_of p prior (cl_ungated cl) (aggregate cl resources)).1 in
  proposal_ok proposal /\ sev_leb (sp_upward proposal) (sp_downward proposal) = true.
Proof.
  intros Hord. destruct (aggregate_spec cl resources) as [_ _ _ Ho].
  destruct (Ho Hord) as [Hud Hd]. clear Ho.
  generalize dependent (aggregate cl resources). intros ag Hud Hd.
  assert (sev_leb (ag_up ag) SevSevere = true) as Hu by (by eapply sev_leb_trans).
  unfold proposal_of, proposal_ok. cbv zeta.
  destruct (ag_conflict ag); [done|]. destruct (negb (ag_evidence ag)); [done|].
  destruct (has_required_rules p && ag_partial ag); simpl; [|done].
  destruct (sev_ltb (ag_up ag) SevWatch) eqn:E1, (sev_ltb (ag_down ag) SevWatch) eqn:E2;
    repeat split; try done.
  - by apply sev_ltb_false.
  - eapply sev_leb_trans; [exact Hud|]. by apply sev_ltb_le.
Qed.

(** ** The evaluation as a whole *)

(** What the installed policy and topology guarantee (both are validated before
    they are installed). *)
Definition context_ok (ctx : EvaluationContext) : Prop :=
  (forall p, ctx_policy ctx = Some p -> policy_ok p) /\
  (forall t, ctx_topology ctx = Some t -> exists s, index_of s t).

(** The stages of one successful evaluation. *)
Record evaluation_stages (p : CongestionPolicy) (ctx : EvaluationContext) (request : EvaluationRequest)
    (prior : DomainState) (resources : list N) (cn : Contradictions) (cl cl' : Classified)
    (out : EvaluationOutcome) : Prop := {
  es_scope : scope request ctx (cpol_limits p) = Ok resources;
  es_admit : admission_ok p ctx (eq_now request) resources (eb_samples (eq_evidence request))
    (eb_samples (eq_evidence request)) (initial_vector request)
    (admit_samples p ctx (eq_now request) resources (initial_vector request) (eb_samples (eq_evidence request)));
  es_contra : contradictions_ok p ctx (eq_now request) resources (eb_samples (eq_evidence request))
    (am_readings (admit_samples p ctx (eq_now request) resources (initial_vector request)
       (eb_samples (eq_evidence request))))
    (am_ev (admit_samples p ctx (eq_now request) resources (initial_vector request)
       (eb_samples (eq_evidence request)))) cn;
  es_class : classified_ok p ctx (eq_now request) resources (eb_samples (eq_evidence request)) cn resources cl;
  es_prop : propagated_ok p cl cl';
  es_out : out = make_outcome p ctx request prior resources cl'
}.

Lemma evaluate_stages (request : EvaluationRequest) (prior : DomainState) (ctx : EvaluationContext)
    (out : EvaluationOutcome) :
  context_ok ctx -> evaluate request prior ctx = Ok out ->
  exists p resources cn cl cl', ctx_policy ctx = Some p /\ policy_ok p /\
    evaluation_stages p ctx request prior resources cn cl cl' out.
Proof.
  intros [Hpol Htopo]. unfold evaluate. destruct (ctx_policy ctx) as [p|]; [|done]. intros H.
  specialize (Hpol p eq_refl). peel_guards H. injection H as <-.
  pose proof (admit_ok p ctx (eq_now request) x (eb_samples (eq_evidence request))
    (initial_vector request) eq_refl) as Ham.
  set (am := admit_samples _ _ _ _ _ _) in *.
  pose proof Ham as [Hbk _ _ _ Hparts _].
  assert (ev_conflicts (am_ev am) = [] /\ ev_bindings (am_ev am) = []) as [Hc0 Hb0].
  { unfold report_parts in Hparts. simpl in Hparts. split; congruence. }
  pose proof (detect_contradictions_ok p ctx (eq_now request) x _ (am_ev am) (am_readings am) Hc0 Hbk) as Hcn.
  set (cn := detect_contradictions _ _ _) in *.
  pose proof (cno_parts _ _ _ _ _ _ _ _ Hcn) as Hp.
  assert (ev_bindings (cn_ev cn) = []) as Hb1.
  { unfold admission_parts in Hp. congruence. }
  exists p, x, cn, (classify_resources p cn x), x0. split; [done|]. split; [done|]. split; try done.
  - apply classify_resources_ok; [apply Hcn|done].
  - eapply propagate_domain_ok; [done| |done]. apply Hpol.
Qed.

(** The proposal an evaluation hands to the state machine, and its step. *)
Definition outcome_proposal (p : CongestionPolicy) (prior : DomainState) (resources : list N)
    (cl : Classified) : SeverityProposal :=
  (proposal_of p prior (cl_ungated cl) (aggregate cl resources)).1.

(** The hysteresis step of an evaluation. *)
Definition outcome_step (p : CongestionPolicy) (ctx : EvaluationContext) (request : EvaluationRequest)
    (prior : DomainState) (resources : list N) (cl : Classified) : DomainState * HysteresisStep :=
  step (prepare_state p ctx request prior) (outcome_proposal p prior resources cl)
    (cpol_hysteresis p) (cpol_recovery p) (eq_now request).

Record outcome_from (p : CongestionPolicy) (prior : DomainState) (resources : list N) (cl : Classified)
    (stepped : DomainState * HysteresisStep) (out : EvaluationOutcome) : Prop := {
  of_state : eo_state out = ds_state stepped.1;
  of_transitioned : eo_transitioned out = hs_transitioned stepped.2;
  of_revalidation : eo_requires_revalidation out = ds_requires_revalidation stepped.1;
  of_authoritative : eo_authoritative out
    = ds_authoritative stepped.1 && sp_has_value (outcome_proposal p prior resources cl)
      && negb (ag_conflict (aggregate cl resources));
  of_severity : eo_severity out = current_severity_of (ds_state stepped.1);
  of_evidence : eo_evidence out = report_resources p cl resources (cl_ev cl)
}.

Lemma make_outcome_from p ctx request prior resources cl :
  outcome_from p prior resources cl (outcome_step p ctx request prior resources cl)
    (make_outcome p ctx request prior resources cl).
Proof.
  unfold outcome_step, outcome_proposal, make_outcome.
  destruct (proposal_of _ _ _ _) as [proposal details] eqn:E. simpl.
  destruct (step _ _ _ _ _) as [stepped hstep]. split; try done.
  unfold outcome_proposal. by rewrite E.
Qed.

Lemma report_resources_parts p cl resources ev :
  classify_parts (report_resources p cl resources ev) = classify_parts ev /\
  ev_bindings (report_resources p cl resources ev) = ev_bindings ev /\
  ev_propagation (report_resources p cl resources ev) = ev_propagation ev /\
  size64 (ev_resources (report_resources p cl resources ev))
    <= pl_max_explanation_entries (cpol_limits p).
Proof.
  unfold report_resources. cbv zeta. destruct (_ <? _); simpl; repeat split; try done;
    unfold size64; rewrite length_map, length_take; lia.
Qed.

(** Readings chain: the vector of the outcome is the one admission built. *)
Lemma stages_vector p ctx request prior resources cn cl cl' out :
  evaluation_stages p ctx request prior resources cn cl cl' out ->
  let am := admit_samples p ctx (eq_now request) resources (initial_vector request)
              (eb_samples (eq_evidence request)) in
  ev_samples_accepted (eo_evidence out) = ev_samples_accepted (am_ev am) /\
  counted_samples (eo_evidence out) = counted_samples (am_ev am) /\
  ev_stale (eo_evidence out) = ev_stale (am_ev am) /\
  ev_samples_seen (eo_evidence out) = ev_samples_seen (am_ev am) /\
  ev_conflicts (eo_evidence out) = ev_conflicts (cn_ev cn) /\
  ev_bindings (eo_evidence out) = ev_bindings (cl_ev cl) /\
  ev_propagation (eo_evidence out) = ev_propagation (cl_ev cl').
Proof.
  intros [_ _ Hcn Hcl Hpp ->]. cbv zeta.
  rewrite (of_evidence _ _ _ _ _ _ (make_outcome_from p ctx request prior resources cl')).
  destruct (report_resources_parts p cl' resources (cl_ev cl')) as (Hp1 & Hb1 & Hpr1 & _).
  pose proof (ppo_parts _ _ _ Hpp) as Hp2. pose proof (ppo_bindings _ _ _ Hpp) as Hb2.
  pose proof (clo_parts _ _ _ _ _ _ _ _ Hcl) as Hp3.
  pose proof (cno_parts _ _ _ _ _ _ _ _ Hcn) as Hp4.
  unfold classify_parts, settled_parts in *. unfold admission_parts in Hp4.
  rewrite Hb1, Hpr1, <- Hb2. repeat split; congruence.
Qed.

Lemma stages_from p ctx request prior resources cn cl cl' out :
  evaluation_stages p ctx request prior resources cn cl cl' out ->
  outcome_from p prior resources cl' (outcome_step p ctx request prior resources cl') out.
Proof. intros [_ _ _ _ _ ->]. apply make_outcome_from. Qed.

Lemma stages_dispute p ctx request prior resources cn cl cl' out :
  evaluation_stages p ctx request prior resources cn cl cl' out ->
  ag_conflict (aggregate cl' resources) = negb (bool_decide (cn_unresolved cn = [])).
Proof.
  intros [_ _ Hcn Hcl Hpp _]. rewrite (ago_conflict _ _ _ (aggregate_spec cl' resources)).
  assert (forall r, r ∈ resources -> ra_contradictory (assessment_at (cl_assessments cl') r)
          = existsb (in_dispute cn r) (cpol_rules p)) as Hkeep.
  { intros r Hr. pose proof (ppo_keep _ _ _ Hpp r) as Hk. injection Hk as Hk _. rewrite Hk.
    by apply (clo_contra _ _ _ _ _ _ _ _ Hcl). }
  case_bool_decide as Hun; simpl.
  - apply not_true_is_false. rewrite existsb_exists. intros (r & Hr%list_elem_of_In & Hc).
    rewrite Hkeep, no_dispute_empty in Hc by done. done.
  - destruct (cn_unresolved cn) as [|[r m] rest] eqn:E; [done|].
    pose proof (cno_unresolved _ _ _ _ _ _ _ _ Hcn) as Hall. rewrite E in Hall.
    apply Forall_cons in Hall as [[Hr Hm] _]. simpl in Hr, Hm.
    apply existsb_exists. exists r. split; [by apply list_elem_of_In|]. rewrite Hkeep by done.
    apply list_elem_of_fmap in Hm as (rule & -> & Hrule). apply existsb_exists.
    exists rule. split; [by apply list_elem_of_In|]. unfold in_dispute. rewrite E.
    apply bool_decide_eq_true. constructor.
Qed.

Lemma stages_silent p ctx request prior resources cn cl cl' out :
  evaluation_stages p ctx request prior resources cn cl cl' out ->
  ev_samples_accepted (eo_evidence out) = 0 -> ag_evidence (aggregate cl' resources) = false.
Proof.
  intros Hst H0. destruct (stages_vector _ _ _ _ _ _ _ _ _ Hst) as (Hacc & _).
  destruct Hst as [_ Ham Hcn Hcl Hpp _]. rewrite (ago_evidence _ _ _ (aggregate_spec cl' resources)).
  rewrite H0 in Hacc. pose proof (aok_accepted _ _ _ _ _ _ _ _ Ham (eq_sym Hacc)) as Hempty.
  destruct (cno_empty _ _ _ _ _ _ _ _ Hcn Hempty) as [Hch Hun].
  apply not_true_is_false. rewrite existsb_exists. intros (r & Hr%list_elem_of_In & Hc).
  pose proof (ppo_keep _ _ _ Hpp r) as Hk. injection Hk as _ Hk. rewrite Hk in Hc.
  rewrite (clo_silent _ _ _ _ _ _ _ _ Hcl Hch Hun r Hr) in Hc. done.
Qed.

Lemma proposal_value p prior ungated ag :
  sp_has_value (proposal_of p prior ungated ag).1 = negb (ag_conflict ag) && ag_evidence ag.
Proof.
  unfold proposal_of. destruct (ag_conflict ag); [done|]. destruct (ag_evidence ag); [|done]. simpl.
  by destruct (_ && _).
Qed.

Lemma outcome_proposal_value p prior resources cl :
  sp_has_value (outcome_proposal p prior resources cl)
  = negb (ag_conflict (aggregate cl resources)) && ag_evidence (aggregate cl resources).
Proof. apply proposal_value. Qed.

Lemma ds_authoritative_true (s : DomainState) :
  ds_authoritative s = true <-> is_authoritative (ds_state s) = true /\ ds_requires_revalidation s = false.
Proof. unfold ds_authoritative. by rewrite andb_true_iff, negb_true_iff. Qed.

(** Without an accepted sample no outcome is authoritative. *)
Lemma authoritative_accepts request prior ctx out :
  context_ok ctx -> evaluate request prior ctx = Ok out -> eo_authoritative out = true ->
  0 < ev_samples_accepted (eo_evidence out).
Proof.
  intros Hctx Hev Hauth. destruct (evaluate_stages _ _ _ _ Hctx Hev)
    as (p & resources & cn & cl & cl' & _ & _ & Hst).
  destruct (stages_from _ _ _ _ _ _ _ _ _ Hst) as [_ _ _ Ha _ _]. rewrite Ha in Hauth.
  apply andb_true_iff in Hauth as [Hauth _]. apply andb_true_iff in Hauth as [_ Hval].
  rewrite outcome_proposal_value in Hval. apply andb_true_iff in Hval as [_ Hevd].
  destruct (N.eq_dec (ev_samples_accepted (eo_evidence out)) 0) as [H0|]; [|lia].
  rewrite (stages_silent _ _ _ _ _ _ _ _ _ Hst H0) in Hevd. done.
Qed.

(** No sample of the batch is counted twice. *)
Lemma evaluate_counts request prior ctx out :
  context_ok ctx -> evaluate request prior ctx = Ok out ->
  counted_samples (eo_evidence out) <= size64 (eb_samples (eq_evidence request)) /\
  ev_samples_seen (eo_evidence out) = size64 (eb_samples (eq_evidence request)).
Proof.
  intros Hctx Hev. destruct (evaluate_stages _ _ _ _ Hctx Hev) as (p & resources & cn & cl & cl' & _ & _ & Hst).
  destruct (stages_vector _ _ _ _ _ _ _ _ _ Hst) as (_ & Hct & _ & Hseen & _). destruct Hst as [_ Ham _ _ _ _].
  rewrite Hct, Hseen. pose proof (aok_parts _ _ _ _ _ _ _ _ Ham) as Hparts.
  pose proof (aok_counts _ _ _ _ _ _ _ _ Ham) as Hc. unfold report_parts in Hparts. simpl in Hparts.
  split; [exact Hc|congruence].
Qed.

(** C24. An outcome that claims authority has accepted evidence behind it, no
    contradiction it could not resolve, and no pending revalidation. *)
Theorem authoritative_backed request prior ctx out :
  context_ok ctx -> evaluate request prior ctx = Ok out -> eo_authoritative out = true ->
  0 < ev_samples_accepted (eo_evidence out) /\ is_authoritative (eo_state out) = true /\
  eo_requires_revalidation out = false /\
  Forall (fun r => cr_resolved r = true) (ev_conflicts (eo_evidence out)).
Proof.
  intros Hctx Hev Hauth. pose proof Hauth as Hauth0. destruct (evaluate_stages _ _ _ _ Hctx Hev)
    as (p & resources & cn & cl & cl' & _ & Hpol & Hst).
  destruct (stages_from _ _ _ _ _ _ _ _ _ Hst) as [Hs _ Hr Ha _ _]. rewrite Ha in Hauth.
  apply andb_true_iff in Hauth as [Hauth Hnc]. apply andb_true_iff in Hauth as [Hds Hval].
  apply ds_authoritative_true in Hds as [Hau Hrr].
  split; [exact (authoritative_accepts request prior ctx out Hctx Hev Hauth0)|].
  split; [rewrite Hs; exact Hau|]. split; [rewrite Hr; exact Hrr|].
  destruct (stages_vector _ _ _ _ _ _ _ _ _ Hst) as (_ & _ & _ & _ & -> & _).
  rewrite (stages_dispute _ _ _ _ _ _ _ _ _ Hst) in Hnc. reflect_bools.
  by apply (cno_reported _ _ _ _ _ _ _ _ (es_contra _ _ _ _ _ _ _ _ _ Hst)).
Qed.

(** A dispute the policy rejects withholds authority, and commits CONFLICT unless
    the tick is refused. *)
Lemma stages_conflict p ctx request prior resources cn cl cl' out :
  evaluation_stages p ctx request prior resources cn cl cl' out -> cn_unresolved cn <> [] ->
  eo_authoritative out = false /\
  (regressed prior (eq_now request) = false -> eo_state out = StConflict).
Proof.
  intros Hst Hun. pose proof (stages_dispute _ _ _ _ _ _ _ _ _ Hst) as Hag.
  rewrite bool_decide_eq_false_2 in Hag by done. simpl in Hag.
  destruct (stages_from _ _ _ _ _ _ _ _ _ Hst) as [Hs _ _ Ha _ _].
  rewrite Ha, Hag. split; [by rewrite andb_false_r|]. intros Hreg.
  rewrite Hs. unfold outcome_step, outcome_proposal, proposal_of. rewrite Hag. cbn [fst].
  rewrite step_live by exact Hreg. cbn [sp_has_value negb].
  match goal with |- context [refuse_to_decide ?s ?q ?n] =>
    destruct (refuse_to_decide_state s q n eq_refl) as (E & _) end.
  rewrite E. done.
Qed.

(** No proposal but that of a dispute moves a domain to CONFLICT. *)
Lemma step_conflict state p h r now :
  proposal_ok p -> ds_state (step state p h r now).1 = StConflict ->
  ds_state state = StConflict \/ (sp_has_value p = false /\ sp_indeterminate p = StConflict).
Proof.
  intros Hp. destruct (step_moves state p h r now Hp)
    as [reason _|Hr Hv Hi|_ _ _|target required escalation out _ Hv Hl Hadv]; try by left.
  - destruct (refuse_to_decide_state state p now Hi) as (E & _). rewrite E. intros Ht. right. split; [done|].
    destruct (bool_decide (sp_indeterminate p = StUnknown) && _); [discriminate Ht|done].
  - destruct Hp as [Hup Hdn]. destruct (ladder_target_ne _ _ _ _ _ _ _ Hup Hdn Hl) as (Hne & Ha & _).
    destruct Hadv as [reason _|_ _ _]; cbn [fst hold]; [rewrite bump_candidate_state; by left|].
    destruct (commit_target_state (bump_candidate state target) target escalation now) as (E & _).
    rewrite E. by intros ->.
Qed.

Lemma proposal_conflict p prior ungated ag :
  sp_has_value (proposal_of p prior ungated ag).1 = false ->
  sp_indeterminate (proposal_of p prior ungated ag).1 = StConflict -> ag_conflict ag = true.
Proof.
  unfold proposal_of. destruct (ag_conflict ag); [done|]. destruct (negb (ag_evidence ag)).
  - cbn. by destruct (negb _).
  - cbv zeta. by destruct (_ && ag_partial ag).
Qed.

Lemma outcome_step_conflict p ctx request prior resources cl :
  proposal_ok (outcome_proposal p prior resources cl) ->
  ds_state (outcome_step p ctx request prior resources cl).1 = StConflict ->
  ds_state prior = StConflict \/ ag_conflict (aggregate cl resources) = true.
Proof.
  intros Hp. assert (sp_has_value (outcome_proposal p prior resources cl) = false ->
    sp_indeterminate (outcome_proposal p prior resources cl) = StConflict ->
    ag_conflict (aggregate cl resources) = true) as Hag by apply proposal_conflict.
  revert Hp Hag. unfold outcome_step. generalize (outcome_proposal p prior resources cl). intros proposal Hp Hag.
  assert (ds_state (prepare_state p ctx request prior) = ds_state prior) as E by reflexivity.
  rewrite <- E. clear E. generalize (prepare_state p ctx request prior). intros st Hc.
  destruct (step_conflict _ _ _ _ _ Hp Hc) as [?|[Hv Hi]]; [by left|]. right. by apply Hag.
Qed.

Lemma stages_conflict_disputed p ctx request prior resources cn cl cl' out :
  policy_ok p -> evaluation_stages p ctx request prior resources cn cl cl' out ->
  eo_state out = StConflict -> ds_state prior = StConflict \/ cn_unresolved cn <> [].
Proof.
  intros Hpol Hst Hc. assert (proposal_ok (outcome_proposal p prior resources cl')) as Hprop.
  { apply (proposal_ordered p prior cl' resources). apply (ppo_down _ _ _ (es_prop _ _ _ _ _ _ _ _ _ Hst)).
    - apply (po_propagation p Hpol).
    - apply (clo_down _ _ _ _ _ _ _ _ (es_class _ _ _ _ _ _ _ _ _ Hst)). }
  destruct (stages_from _ _ _ _ _ _ _ _ _ Hst) as [Hs _ _ _ _ _]. rewrite Hs in Hc.
  apply outcome_step_conflict in Hc as [Hc|Hc]; [by left| |done]. right.
  rewrite (stages_dispute _ _ _ _ _ _ _ _ _ Hst) in Hc. by reflect_bools.
Qed.

(** C29. Publishers in contradiction: when, among the readings admitted for some
    resource, queue and metric, the latest readings of enough distinct publishers
    lie further apart than the absolute and the relative tolerance, and the
    policy rejects contradictions, the outcome carries no authority and, unless
    the tick regressed and the evaluation was refused, the domain is in CONFLICT
    at once.  Nothing else brings a domain into CONFLICT, and every conflict an
    outcome reports is such a contradiction: the report names its key, and the
    values, publishers and ticks of its extremes. *)
Theorem contradiction_commits p request prior ctx out resources :
  context_ok ctx -> ctx_policy ctx = Some p -> scope request ctx (cpol_limits p) = Ok resources ->
  evaluate request prior ctx = Ok out ->
  let admitted := am_readings (admit_samples p ctx (eq_now request) resources (initial_vector request)
                    (eb_samples (eq_evidence request))) in
  let contradicted := cp_mode (cpol_contradiction p) = CmReject /\
    Exists (fun e => disputed (cpol_contradiction p) e.2) admitted in
  (contradicted -> eo_authoritative out = false /\
    (regressed prior (eq_now request) = false -> eo_state out = StConflict)) /\
  (eo_state out = StConflict -> ds_state prior = StConflict \/ contradicted) /\
  Forall (report_of (cpol_contradiction p) admitted) (ev_conflicts (eo_evidence out)).
Proof.
  intros Hctx Hp Hsc Hev. cbv zeta. destruct (evaluate_stages _ _ _ _ Hctx Hev)
    as (p' & resources' & cn & cl & cl' & Hp' & Hpol & Hst).
  rewrite Hp in Hp'. injection Hp' as <-.
  pose proof (es_scope _ _ _ _ _ _ _ _ _ Hst) as Hsc'. rewrite Hsc in Hsc'. injection Hsc' as <-.
  destruct (stages_vector _ _ _ _ _ _ _ _ _ Hst) as (_ & _ & _ & _ & -> & _).
  pose proof (es_contra _ _ _ _ _ _ _ _ _ Hst) as Hcn.
  rewrite <- (cno_disputed _ _ _ _ _ _ _ _ Hcn). split; [|split].
  - by apply (stages_conflict _ _ _ _ _ _ _ _ _ Hst).
  - by apply (stages_conflict_disputed _ _ _ _ _ _ _ _ _ Hpol Hst).
  - apply (cno_reports _ _ _ _ _ _ _ _ Hcn).
Qed.

(** ** Corroboration *)

(** The rules that back a level on a resource, from the readings kept for it. *)
Lemma backing_rule p ctx now resources samples cn resource level rule :
  Forall (fun e => reading_ok p ctx now resources samples e.1 e.2) (cn_chosen cn) ->
  rule ∈ backing p cn resource level (cpol_rules p) ->
  rule ∈ cpol_rules p /\ exists queue value publisher,
    reading_from p ctx now resources samples (resource, queue, tr_metric rule) value publisher /\
    sev_leb level (classify rule value) = true.
Proof.
  intros Hch [Hb Hin]%list_elem_of_filter. split; [done|]. unfold rule_backs in Hb.
  apply andb_true_iff in Hb as [_ Hb].
  destruct (rule_outcome p (cn_chosen cn) resource rule) as [o|] eqn:Ho; [|done].
  apply rule_outcome_elem in Ho as (Helem & Hup & _). rewrite Forall_forall in Hch.
  specialize (Hch _ Helem). exists (ro_queue o), (rd_value (ro_reading o)), (rd_publisher (ro_reading o)).
  split; [exact Hch|]. by rewrite <- Hup.
Qed.

Lemma backing_antitone p cn resource a b rules :
  sev_leb a b = true ->
  size64 (backing p cn resource b rules) <= size64 (backing p cn resource a rules).
Proof.
  intros Hab. unfold backing, size64. enough (length (filter (fun r => rule_backs p cn resource b r = true) rules)
    <= length (filter (fun r => rule_backs p cn resource a r = true) rules))%nat by lia.
  induction rules as [|rule rules IH]; [done|]. rewrite !filter_cons.
  destruct (rule_backs p cn resource b rule) eqn:Eb.
  - assert (rule_backs p cn resource a rule = true) as ->.
    { unfold rule_backs in *. destruct (negb _); [|done]. simpl in *.
      destruct (rule_outcome _ _ _ _) as [o|]; [|done]. by eapply sev_leb_trans. }
    rewrite !decide_True by done. simpl. lia.
  - rewrite decide_False by done. case_decide; simpl; lia.
Qed.

(** The gates: a resource reaches CONGESTED on its own evidence only when at
    least the configured number of rules, and never none, back it. *)
Lemma raw_upward_backed p cn resource :
  policy_ok p -> sev_leb SevCongested (raw_upward p cn resource) = true ->
  N.max 1 (cpol_min_agreeing_rules_for_congested p)
  <= size64 (backing p cn resource SevCongested (cpol_rules p)).
Proof.
  intros Hp H. destruct (po_gates p Hp) as (_ & Hcs & _).
  pose proof (backing_antitone p cn resource SevCongested SevSevere (cpol_rules p) eq_refl).
  unfold raw_upward, gate_severity in H.
  destruct (negb (cpol_min_agreeing_rules_for_severe p =? 0) && _) eqn:E1; reflect_bools; [lia|].
  destruct (negb (cpol_min_agreeing_rules_for_congested p =? 0) && _) eqn:E2; [reflect_bools; lia|].
  clear E1 E2. by destruct (_ && _).
Qed.

(** A step that reports a severity of at least CONGESTED above the one it started
    from was proposed that severity upward. *)
Lemma step_rise state p h r now :
  proposal_ok p -> ds_state (step state p h r now).1 <> ds_state state ->
  sev_leb SevCongested (current_severity_of (ds_state (step state p h r now).1)) = true ->
  sev_ltb (current_severity_of (ds_state state))
          (current_severity_of (ds_state (step state p h r now).1)) = true ->
  sp_has_value p = true /\ sev_leb SevCongested (sp_upward p) = true.
Proof.
  intros Hp. destruct (step_moves state p h r now Hp)
    as [reason _|_ _ Hi|_ _ _|target required escalation out _ Hv Hl Hadv].
  - done.
  - destruct (refuse_to_decide_state state p now Hi) as (E & _ & _ & Ht). rewrite E. intros _ H.
    exfalso. revert Ht H. generalize (if bool_decide (sp_indeterminate p = StUnknown)
      && negb (ds_last_authoritative_tick state =? kNoTick) then StStale else sp_indeterminate p).
    by intros [].
  - done.
  - destruct Hadv as [reason _|_ _ _]; [cbn [fst hold]; by rewrite bump_candidate_state|].
    destruct (commit_target_state (bump_candidate state target) target escalation now) as (E & _).
    rewrite E. clear E. intros _ Hc Hlt. split; [done|].
    destruct Hp as [Hup Hdn]. destruct (state_of_authoritative _ Hup) as [_ Hsu].
    destruct (state_of_authoritative _ Hdn) as [_ Hsd].
    unfold ladder in Hl. repeat split_match_in Hl; simplify_eq/=; try done;
      unfold current_severity_of in *; rewrite ?Hsu, ?Hsd in *; try done;
      unfold sev_ltb in *; reflect_bools; simpl in *; try lia; congruence.
Qed.

Lemma outcome_step_rise p ctx request prior resources cl :
  proposal_ok (outcome_proposal p prior resources cl) ->
  sev_leb SevCongested (current_severity_of (ds_state (outcome_step p ctx request prior resources cl).1)) = true ->
  sev_ltb (current_severity_of (ds_state prior))
    (current_severity_of (ds_state (outcome_step p ctx request prior resources cl).1)) = true ->
  sev_leb SevCongested (sp_upward (outcome_proposal p prior resources cl)) = true.
Proof.
  unfold outcome_step. generalize (outcome_proposal p prior resources cl). intros proposal.
  assert (ds_state (prepare_state p ctx request prior) = ds_state prior) as E by reflexivity.
  rewrite <- E. clear E. generalize (prepare_state p ctx request prior). intros st Hp Hs Hlt.
  apply (step_rise st proposal (cpol_hysteresis p) (cpol_recovery p) (eq_now request) Hp); [|done..].
  intros E. rewrite E in Hlt. unfold sev_ltb in Hlt. apply N.ltb_lt in Hlt. exact (N.lt_irrefl _ Hlt).
Qed.

(** A domain is proposed CONGESTED or more only when some resource reaches it on
    its own evidence: propagation induces CONGESTED only from such a resource. *)
Lemma stages_upward p ctx request prior resources cn cl cl' out :
  evaluation_stages p ctx request prior resources cn cl cl' out ->
  sev_leb SevCongested (sp_upward (outcome_proposal p prior resources cl')) = true ->
  exists resource, resource ∈ resources /\ sev_leb SevCongested (raw_upward p cn resource) = true.
Proof.
  intros Hst Hup. destruct Hst as [_ _ _ Hcl Hpp _].
  assert (sev_leb SevCongested (ag_up (aggregate cl' resources)) = true) as Hag.
  { revert Hup. unfold outcome_proposal, proposal_of. generalize (aggregate cl' resources).
    intros ag. destruct (ag_conflict ag); [done|]. destruct (negb (ag_evidence ag)); [done|]. cbv zeta.
    destruct (_ && ag_partial ag); [|done]. cbn [fst sp_upward].
    destruct (sev_ltb (ag_up ag) SevWatch); [|done]. intros H. by vm_compute in H. }
  destruct (ago_up _ _ _ (aggregate_spec cl' resources)) as [E|(r & _ & E)]; rewrite E in Hag; [done|].
  destruct (Exists_dec (fun r => sev_leb SevCongested (raw_upward p cn r) = true) resources) as [Hex|Hno].
  - apply Exists_exists in Hex as (r' & ? & ?). by exists r'.
  - exfalso. assert (sev_ltb (sev_at (cl_up cl') r) SevCongested = true) as Hlt.
    { apply (ppo_quiet _ _ _ Hpp). intros r'. unfold sev_at. rewrite (clo_up _ _ _ _ _ _ _ _ Hcl).
      case_bool_decide as Hr'; [|done]. cbn [default]. apply not_false_is_true. intros Hf%sev_ltb_false.
      apply Hno, Exists_exists. by exists r'. }
    unfold sev_ltb, sev_leb in *. reflect_bools. lia.
Qed.

(** C1. High utilization alone is not congestion: whenever an evaluation raises the
    domain to CONGESTED or beyond, there is a resource of its scope on which the
    configured number of rules, over different metrics and never none, classify
    fresh readings of the batch at CONGESTED or beyond.  That holds whatever
    severity the policy lets propagation induce: pressure only decays, so a
    severity propagated at CONGESTED has a resource corroborated at CONGESTED as
    its source. *)
Theorem escalation_corroborated p request prior ctx out :
  context_ok ctx -> ctx_policy ctx = Some p -> evaluate request prior ctx = Ok out ->
  sev_leb SevCongested (eo_severity out) = true ->
  sev_ltb (current_severity_of (ds_state prior)) (eo_severity out) = true ->
  exists resources resource rules, scope request ctx (cpol_limits p) = Ok resources /\
    resource ∈ resources /\ NoDup (map tr_metric rules) /\
    N.max 1 (cpol_min_agreeing_rules_for_congested p) <= size64 rules /\
    Forall (fun rule => rule ∈ cpol_rules p /\ exists queue value publisher,
      reading_from p ctx (eq_now request) resources (eb_samples (eq_evidence request))
        (resource, queue, tr_metric rule) value publisher /\
      sev_leb SevCongested (classify rule value) = true) rules.
Proof.
  intros Hctx Hp Hev Hsev Hrise. destruct (evaluate_stages _ _ _ _ Hctx Hev)
    as (p' & resources & cn & cl & cl' & Hp' & Hpol & Hst).
  rewrite Hp in Hp'. injection Hp' as <-.
  destruct (stages_from _ _ _ _ _ _ _ _ _ Hst) as [Hs Ht _ _ Hsv _].
  assert (proposal_ok (outcome_proposal p prior resources cl')) as Hprop.
  { apply (proposal_ordered p prior cl' resources).
    apply (ppo_down _ _ _ (es_prop _ _ _ _ _ _ _ _ _ Hst)).
    - apply (po_propagation p Hpol).
    - apply (clo_down _ _ _ _ _ _ _ _ (es_class _ _ _ _ _ _ _ _ _ Hst)). }
  rewrite Hsv in Hsev, Hrise.
  pose proof (outcome_step_rise _ _ _ _ _ _ Hprop Hsev Hrise) as Hup.
  destruct (stages_upward _ _ _ _ _ _ _ _ _ Hst Hup) as (resource & Hr & Hraw).
  exists resources, resource, (backing p cn resource SevCongested (cpol_rules p)).
  split; [apply (es_scope _ _ _ _ _ _ _ _ _ Hst)|]. split; [done|]. split; [|split].
  - eapply sublist_NoDup; [apply (po_distinct p Hpol)|]. apply fmap_sublist, sublist_filter.
  - by apply raw_upward_backed.
  - apply Forall_forall. intros rule Hrule. eapply backing_rule; [|done].
    apply (cno_chosen _ _ _ _ _ _ _ _ (es_contra _ _ _ _ _ _ _ _ _ Hst)).
Qed.

(** ** Reports *)

(** Every threshold binding an outcome reports was computed from a fresh reading
    of the batch, with the policy's own thresholds. *)
Theorem bindings_explained p request prior ctx out :
  context_ok ctx -> ctx_policy ctx = Some p -> evaluate request prior ctx = Ok out ->
  exists resources, scope request ctx (cpol_limits p) = Ok resources /\
    Forall (binding_ok p ctx (eq_now request) resources (eb_samples (eq_evidence request)))
      (ev_bindings (eo_evidence out)).
Proof.
  intros Hctx Hp Hev. destruct (evaluate_stages _ _ _ _ Hctx Hev)
    as (p' & resources & cn & cl & cl' & Hp' & Hpol & Hst).
  rewrite Hp in Hp'. injection Hp' as <-. exists resources.
  split; [apply (es_scope _ _ _ _ _ _ _ _ _ Hst)|].
  destruct (stages_vector _ _ _ _ _ _ _ _ _ Hst) as (_ & _ & _ & _ & _ & -> & _).
  apply (clo_bindings _ _ _ _ _ _ _ _ (es_class _ _ _ _ _ _ _ _ _ Hst)).
Qed.

(** Each report section stays within the policy's bound, and no sample is counted
    twice. *)
Theorem reports_bounded p request prior ctx out :
  context_ok ctx -> ctx_policy ctx = Some p -> evaluate request prior ctx = Ok out ->
  let l := cpol_limits p in let ev := eo_evidence out in
  size64 (ev_stale ev) <= pl_max_stale_reports l /\
  size64 (ev_conflicts ev) <= pl_max_conflict_reports l /\
  size64 (ev_bindings ev) <= pl_max_explanation_entries l /\
  size64 (ev_propagation ev) <= pl_max_explanation_entries l /\
  size64 (ev_resources ev) <= pl_max_explanation_entries l /\
  counted_samples ev <= ev_samples_seen ev.
Proof.
  intros Hctx Hp Hev. destruct (evaluate_stages _ _ _ _ Hctx Hev)
    as (p' & resources & cn & cl & cl' & Hp' & Hpol & Hst).
  rewrite Hp in Hp'. injection Hp' as <-. cbv zeta.
  destruct (stages_vector _ _ _ _ _ _ _ _ _ Hst) as (_ & _ & Hstale & _ & Hcf & Hbd & Hpr).
  destruct (stages_from _ _ _ _ _ _ _ _ _ Hst) as [_ _ _ _ _ He].
  destruct Hst as [_ Ham Hcn Hcl Hpp _].
  split; [rewrite Hstale; apply Ham|]. split; [rewrite Hcf; apply Hcn|].
  split; [rewrite Hbd; apply (clo_bindings _ _ _ _ _ _ _ _ Hcl)|].
  split; [|split].
  - rewrite Hpr. pose proof (ppo_edges _ _ _ Hpp) as Hb.
    pose proof (clo_parts _ _ _ _ _ _ _ _ Hcl) as H1. pose proof (cno_parts _ _ _ _ _ _ _ _ Hcn) as H2.
    pose proof (aok_parts _ _ _ _ _ _ _ _ Ham) as H3.
    unfold classify_parts, admission_parts, report_parts in *. simpl in H3.
    assert (ev_propagation (cl_ev cl) = []) as E by congruence. rewrite E, size64_nil in Hb. lia.
  - rewrite He. apply report_resources_parts.
  - destruct (evaluate_counts request prior ctx out Hctx Hev) as [Hc ->]. exact Hc.
Qed.

(** ** Totality and the committed state *)

(** C40. Once the scope is known an evaluation always yields an outcome. *)
Theorem evaluate_total p request prior ctx resources :
  context_ok ctx -> ctx_policy ctx = Some p ->
  valid (eq_domain request) = true -> eq_now request <> kNoTick ->
  size64 (eb_samples (eq_evidence request)) <= ctx_max_samples_per_batch ctx ->
  scope request ctx (cpol_limits p) = Ok resources ->
  exists out, evaluate request prior ctx = Ok out.
Proof.
  intros [Hpol _] Hp Hd Hn Hs Hsc. specialize (Hpol p Hp). unfold evaluate. rewrite Hp, Hd, Hsc.
  unfold guard. rewrite (proj2 (N.eqb_neq _ _)), (proj2 (N.ltb_ge _ _)) by done. simpl.
  set (cl := classify_resources _ _ _).
  assert (exists cl', propagate_domain p ctx resources cl = Ok cl') as [cl' ->]; [|simpl; by eexists].
  unfold propagate_domain. destruct (ctx_topology ctx) as [t|]; [|by eexists].
  destruct (_ && _); [|by eexists].
  destruct (propagate_total t (propagation_sources (cl_up cl) resources) (cpol_propagation p)
    (pl_max_explanation_entries (cpol_limits p))) as [res ->]; [|simpl; by eexists].
  destruct (po_limits p Hpol) as (_ & _ & _ & _ & ? & _).
  unfold kMaxExplanationEntries, kMaxPropagationEdges in *. lia.
Qed.

(** The state an outcome commits is one step of the hysteresis machine from the
    prior state, on a proposal of real severities whose downward severity is
    never below the upward one; nothing else moves it. *)
Lemma evaluate_is_step p request prior ctx out :
  context_ok ctx -> ctx_policy ctx = Some p -> evaluate request prior ctx = Ok out ->
  exists proposal,
    proposal_ok proposal /\ sev_leb (sp_upward proposal) (sp_downward proposal) = true /\
    eo_updated out = (step (prepare_state p ctx request prior) proposal (cpol_hysteresis p)
                        (cpol_recovery p) (eq_now request)).1 <| ds_last_evaluated_tick := eq_now request |> /\
    eo_state out = ds_state (eo_updated out).
Proof.
  intros Hctx Hp Hev. destruct (evaluate_stages _ _ _ _ Hctx Hev)
    as (p' & resources & cn & cl & cl' & Hp' & Hpol & Hst).
  rewrite Hp in Hp'. injection Hp' as <-. exists (outcome_proposal p prior resources cl').
  assert (severities_ordered cl') as Hord.
  { apply (ppo_down _ _ _ (es_prop _ _ _ _ _ _ _ _ _ Hst)).
    - apply (po_propagation p Hpol).
    - apply (clo_down _ _ _ _ _ _ _ _ (es_class _ _ _ _ _ _ _ _ _ Hst)). }
  destruct (proposal_ordered p prior cl' resources Hord) as [Hok Hle].
  split; [exact Hok|]. split; [exact Hle|].
  rewrite (es_out _ _ _ _ _ _ _ _ _ Hst). unfold make_outcome, outcome_proposal.
  destruct (proposal_of _ _ _ _) as [proposal details]. cbn [fst].
  destruct (step _ _ _ _ _) as [stepped hstep]. split; reflexivity.
Qed.

Lemma evaluate_preserves p request prior ctx out :
  context_ok ctx -> ctx_policy ctx = Some p -> evaluate request prior ctx = Ok out ->
  hysteresis_ok prior -> hysteresis_ok (eo_updated out).
Proof.
  intros Hctx Hp Hev Hok. destruct (evaluate_is_step _ _ _ _ _ Hctx Hp Hev) as (q & Hq & _ & -> & _).
  assert (hysteresis_ok (prepare_state p ctx request prior)) as Hprep by (destruct Hok; by split).
  pose proof (step_ok _ q (cpol_hysteresis p) (cpol_recovery p) (eq_now request) Hq Hprep) as H.
  revert H. generalize (step (prepare_state p ctx request prior) q (cpol_hysteresis p)
    (cpol_recovery p) (eq_now request)).1. intros s [? ? ?]. by split.
Qed.

(** A restart never restores authority. *)
Theorem restart_never_authoritative restored last :
  is_authoritative (demote_after_recovery restored last).1 = false /\
  (demote_after_recovery restored last).2 = true.
Proof.
  unfold demote_after_recovery. destruct (is_authoritative restored) eqn:E; [|done].
  simpl. by destruct (last =? kNoTick).
Qed.

(** The outcome is about the domain, the epoch and the authority of the request. *)
Lemma evaluate_identity (request : EvaluationRequest) (prior : DomainState) (ctx : EvaluationContext)
    (out : EvaluationOutcome) :
  evaluate request prior ctx = Ok out ->
  valid (eq_domain request) = true /\ eo_domain out = eq_domain request /\
  ds_domain (eo_updated out) = eq_domain request /\ ds_epoch (eo_updated out) = ctx_epoch ctx /\
  eo_state out = ds_state (eo_updated out) /\ eo_authority out = eq_authority request /\
  (eo_authoritative out = true -> ds_authoritative (eo_updated out) = true).
Proof.
  unfold evaluate. destruct (ctx_policy ctx) as [p|]; [|done]. intros H. peel_guards H. injection H as <-.
  unfold make_outcome. destruct (proposal_of _ _ _ _) as [proposal details].
  pose proof (step_identity (prepare_state p ctx request prior) proposal (cpol_hysteresis p) (cpol_recovery p)
    (eq_now request)) as [E1 E2].
  destruct (step _ _ _ _ _) as [stepped hstep]. cbn in *. rewrite E1, E2.
  repeat split; try done; try by apply negb_false_iff. by intros [[? _]%andb_true_iff _]%andb_true_iff.
Qed.

(** C30. An evaluation moves the domain by exactly one hysteresis step, from a proposal
    of real severities whose downward severity is never below the upward one, and
    keeps the durable state well formed. *)
Theorem evaluation_is_one_step p request prior ctx out
    (Hctx : context_ok ctx) (Hp : ctx_policy ctx = Some p) (Hev : evaluate request prior ctx = Ok out) :
  (exists proposal,
    proposal_ok proposal /\ sev_leb (sp_upward proposal) (sp_downward proposal) = true /\
    eo_updated out = (step (prepare_state p ctx request prior) proposal (cpol_hysteresis p)
                        (cpol_recovery p) (eq_now request)).1 <| ds_last_evaluated_tick := eq_now request |> /\
    eo_state out = ds_state (eo_updated out)) /\
  (hysteresis_ok prior -> hysteresis_ok (eo_updated out)).
Proof.
  split; [by apply evaluate_is_step|]. by apply (evaluate_preserves p request prior ctx out).
Qed.
