(* ===== verification/Planner.v ===== *)
(** * Planner: [InterventionPlanner::plan] of src/eval/evaluator.cpp

    From an evaluation outcome to bounded, authority-checked intents, with the
    reason of every refusal. *)

From S2P Require Import Prelude Core Enums OMap Authority Policy Topology State Intervention Hysteresis Evaluator.

Open Scope N_scope.

Record PlanningContext := mkPlanningContext {
  pc_policy : option CongestionPolicy;
  pc_topology : option TopologyIndex;
  pc_now : N;
  pc_epoch : N;
  pc_authority : AuthorityVector
}.

(** The resources a rule aims at. *)
Definition rule_targets (ctx : PlanningContext) (out : EvaluationOutcome) (rule : InterventionRule) :
    list N :=
  match pc_topology ctx with
  | Some t =>
      filter (fun member =>
        negb (valid (ir_target_class rule))
        || match topo_resource t member with
           | Some record => rc_serving_class record =? ir_target_class rule
           | None => false
           end = true) (domain_resources t (eo_domain out))
  | None => map ra_resource (ev_resources (eo_evidence out))
  end.

Definition push_suppressed (p : CongestionPolicy) (out : EvaluationOutcome) (rule : InterventionRule)
    (target : N) (plan : InterventionPlan) (reason : SuppressionReason) (detail : string) :
    InterventionPlan :=
  if pl_max_interventions_per_plan (cpol_limits p) * 4 <=? size64 (ip_suppressed plan) then plan
  else plan <| ip_suppressed ::= fun l => l ++ [mkSuppressedIntervention (ir_kind rule) (eo_domain out)
                 target (ir_target_class rule) reason detail] |>.

Definition target_covered (out : EvaluationOutcome) (target : N) : bool :=
  existsb (fun a => (ra_resource a =? target) && negb (bool_decide (ra_coverage a = CovNone)))
    (ev_resources (eo_evidence out)).

(** An equivalent intervention is outstanding. *)
Definition blocks_rule (ctx : PlanningContext) (out : EvaluationOutcome) (rule : InterventionRule)
    (target : N) (intent : InterventionIntent) : bool :=
  bool_decide (ii_kind intent = ir_kind rule) && (ii_domain intent =? eo_domain out)
  && (ii_resource intent =? target) && negb (intent_expired_at intent (pc_now ctx))
  && ((ir_min_repeat_interval_ticks rule =? 0)
      || ((if ii_issued_tick intent <=? pc_now ctx then pc_now ctx - ii_issued_tick intent else 0)
            <? ir_min_repeat_interval_ticks rule)).

Definition already_active (ctx : PlanningContext) (out : EvaluationOutcome) (rule : InterventionRule)
    (target : N) (active : list InterventionIntent) : bool :=
  existsb (blocks_rule ctx out rule target) active.

(** The parameter clamped into the rule's envelope, and whether it was. *)
Definition rule_parameter (rule : InterventionRule) : N * bool :=
  let parameter := ir_parameter_default rule in
  let '(parameter, clamped) :=
    if parameter <? ir_parameter_min rule then (ir_parameter_min rule, true) else (parameter, false) in
  if ir_parameter_max rule <? parameter then (ir_parameter_max rule, true) else (parameter, clamped).

Definition intent_evidence (out : EvaluationOutcome) : N :=
  let newest := match ev_resources (eo_evidence out) with a :: _ => ra_newest_snapshot a | [] => 0 end in
  if valid newest then newest
  else if negb (ev_batch (eo_evidence out) =? 0) then ev_batch (eo_evidence out) else eo_id out.

(** The intent of one rule and one target, before its identity is computed. *)
Definition draft_intent (p : CongestionPolicy) (ctx : PlanningContext) (out : EvaluationOutcome)
    (rule : InterventionRule) (severity : Severity) (target : N) : InterventionIntent :=
  let '(parameter, clamped) := rule_parameter rule in
  {| ii_id := 0;
     ii_kind := ir_kind rule;
     ii_domain := eo_domain out;
     ii_resource := target;
     ii_traffic_class := ir_target_class rule;
     ii_basis_severity := severity;
     ii_basis_state := eo_state out;
     ii_evidence := intent_evidence out;
     ii_evaluation := eo_id out;
     ii_epoch := pc_epoch ctx;
     ii_authority_generation := av_generation (pc_authority ctx);
     ii_policy := cpol_id p;
     ii_policy_fingerprint := cpol_fingerprint p;
     ii_provenance := 0;
     ii_issued_tick := pc_now ctx;
     ii_expires_tick := 0;
     ii_parameter := parameter;
     ii_priority := ir_priority rule;
     ii_parameter_clamped := clamped;
     ii_rationale := intervention_to_string (ir_kind rule) ++ " for "
                       ++ id_to_string "domain" (eo_domain out) |}.

(** [intent.id = compute_intervention_id(intent)] and [authorized.push_back]. *)
Definition seal_intent (intent : InterventionIntent) : InterventionIntent :=
  intent <| ii_id := compute_intervention_id intent |>.
Definition add_authorized (plan : InterventionPlan) (intent : InterventionIntent) : InterventionPlan :=
  plan <| ip_authorized ::= fun l => l ++ [intent] |>.

(** The body of the target loop. *)
Definition plan_target (p : CongestionPolicy) (ctx : PlanningContext) (out : EvaluationOutcome)
    (active : list InterventionIntent) (rule : InterventionRule) (plan : InterventionPlan) (target : N) :
    InterventionPlan :=
  let authoritative := eo_authoritative out && is_authoritative (eo_state out) in
  let suppress := push_suppressed p out rule target plan in
  if ir_require_authoritative_state rule && negb authoritative then
    suppress SrNonAuthoritativeState "domain state is not authoritative at this evaluation"
  else
    match severity_of (eo_state out) with
    | None => plan
    | Some severity =>
        if sev_ltb severity (ir_at_least rule) then plan
        else if ir_require_fresh_evidence rule
                && negb (evidence_within_freshness (eo_evidence out) p (pc_now ctx)) then
          suppress SrStaleEvidence "no fresh accepted evidence supports this intervention"
        else if negb (target_covered out target)
                && match pc_topology ctx with Some _ => true | None => false end then
          suppress SrMissingEvidence "target resource produced no usable evidence in this evaluation"
        else
          let decision := check_authority (pc_authority ctx) (pc_now ctx)
                            (required_authority (ir_kind rule)) in
          if negb (ad_allowed decision) then suppress (ad_reason decision) (ad_detail decision)
          else if already_active ctx out rule target active then
            suppress SrAlreadyActive
              "an equivalent intervention is already outstanding for this target"
          else
            let intent := draft_intent p ctx out rule severity target in
            match validate_intent intent with
            | Err status => suppress SrLimitExceeded (describe status)
            | Ok _ => add_authorized plan (seal_intent intent)
            end
    end.

Definition note_suppressed (out : EvaluationOutcome) (rule : InterventionRule) (reason : SuppressionReason)
    (detail : string) (plan : InterventionPlan) : InterventionPlan :=
  plan <| ip_suppressed ::= fun l => l ++ [mkSuppressedIntervention (ir_kind rule) (eo_domain out) 0 0
            reason detail] |>.

(** The body of the rule loop. *)
Definition plan_rule (p : CongestionPolicy) (ctx : PlanningContext) (out : EvaluationOutcome)
    (active : list InterventionIntent) (plan : InterventionPlan) (rule : InterventionRule) :
    InterventionPlan :=
  if pl_max_interventions_per_plan (cpol_limits p) <=? size64 (ip_authorized plan) then
    note_suppressed out rule SrLimitExceeded "intervention plan reached its configured bound" plan
  else if valid (ir_target_domain rule) && negb (ir_target_domain rule =? eo_domain out) then plan
  else
    let targets := rule_targets ctx out rule in
    if size64 targets =? 0 then
      note_suppressed out rule SrTargetNotPresent
        "no resource in the domain matches the rule target" plan
    else foldl (plan_target p ctx out active rule) plan targets.

Definition plan_start (p : CongestionPolicy) (ctx : PlanningContext) (out : EvaluationOutcome) :
    InterventionPlan :=
  mkInterventionPlan (eo_id out) (eo_domain out) (pc_epoch ctx) (av_generation (pc_authority ctx))
    (cpol_id p) (cpol_fingerprint p) (pc_now ctx) [] [].

(** [InterventionPlanner::plan]. *)
Definition make_plan (out : EvaluationOutcome) (ctx : PlanningContext) (active : list InterventionIntent) :
    Result InterventionPlan :=
  match pc_policy ctx with
  | None => fail NotReady "no congestion policy is installed"
  | Some p => Ok (foldl (plan_rule p ctx out active) (plan_start p ctx out) (cpol_interventions p))
  end.

(** * Properties *)

(** The envelope of a rule always holds what is asked for, whatever the default. *)
Lemma rule_parameter_within (rule : InterventionRule) :
  ir_parameter_min rule <= ir_parameter_max rule ->
  ir_parameter_min rule <= (rule_parameter rule).1 <= ir_parameter_max rule.
Proof.
  intros H. unfold rule_parameter.
  destruct (N.ltb_spec (ir_parameter_default rule) (ir_parameter_min rule)); simpl;
    match goal with |- context [N.ltb ?a ?b] => destruct (N.ltb_spec a b) end; simpl; lia.
Qed.

Section Authorized.
Context (p : CongestionPolicy) (ctx : PlanningContext) (out : EvaluationOutcome)
  (active : list InterventionIntent).

(** Everything an authorized intent is justified by. *)
Record authorized_ok (intent : InterventionIntent) : Prop := {
  auo_valid : intent_ok intent;
  auo_identity : ii_id intent = compute_intervention_id intent;
  auo_binding : ii_evaluation intent = eo_id out /\ ii_epoch intent = pc_epoch ctx /\
    ii_authority_generation intent = av_generation (pc_authority ctx) /\
    ii_policy intent = cpol_id p /\ ii_policy_fingerprint intent = cpol_fingerprint p /\
    ii_issued_tick intent = pc_now ctx;
  auo_basis : ii_domain intent = eo_domain out /\ ii_basis_state intent = eo_state out /\
    severity_of (eo_state out) = Some (ii_basis_severity intent);
  auo_authority : ad_allowed (check_authority (pc_authority ctx) (pc_now ctx)
                    (required_authority (ii_kind intent))) = true;
  auo_rule : exists rule, rule ∈ cpol_interventions p /\ ii_kind intent = ir_kind rule /\
    sev_leb (ir_at_least rule) (ii_basis_severity intent) = true /\
    ii_resource intent ∈ rule_targets ctx out rule /\
    ii_parameter intent = (rule_parameter rule).1 /\
    (ir_require_authoritative_state rule = true -> eo_authoritative out = true) /\
    (ir_require_fresh_evidence rule = true ->
       evidence_within_freshness (eo_evidence out) p (pc_now ctx) = true) /\
    already_active ctx out rule (ii_resource intent) active = false
}.

Lemma compute_id_ignores_id (i : InterventionIntent) (id : N) :
  compute_intervention_id (i <| ii_id := id |>) = compute_intervention_id i.
Proof.
  unfold compute_intervention_id, set.
  cbn [ii_kind ii_domain ii_resource ii_traffic_class ii_basis_severity ii_basis_state ii_evidence
    ii_evaluation ii_epoch ii_authority_generation ii_policy ii_policy_fingerprint ii_parameter
    ii_issued_tick]. reflexivity.
Qed.

Lemma add_authorized_list plan intent :
  ip_authorized (add_authorized plan intent) = ip_authorized plan ++ [intent].
Proof. done. Qed.

Lemma push_suppressed_authorized rule target plan reason detail :
  ip_authorized (push_suppressed p out rule target plan reason detail) = ip_authorized plan.
Proof. unfold push_suppressed. by destruct (_ <=? _). Qed.

Lemma draft_authorized_ok (rule : InterventionRule) (severity : Severity) (target : N) :
  rule ∈ cpol_interventions p -> target ∈ rule_targets ctx out rule ->
  ir_require_authoritative_state rule && negb (eo_authoritative out && is_authoritative (eo_state out)) = false ->
  severity_of (eo_state out) = Some severity -> sev_ltb severity (ir_at_least rule) = false ->
  ir_require_fresh_evidence rule
    && negb (evidence_within_freshness (eo_evidence out) p (pc_now ctx)) = false ->
  ad_allowed (check_authority (pc_authority ctx) (pc_now ctx) (required_authority (ir_kind rule))) = true ->
  already_active ctx out rule target active = false ->
  validate_intent (draft_intent p ctx out rule severity target) = Ok tt ->
  authorized_ok (seal_intent (draft_intent p ctx out rule severity target)).
Proof.
  intros Hin Ht Hauth Hsev Hlevel Hfresh Hallow Hact Hvalid.
  apply validate_intent_iff in Hvalid.
  assert (forall b c, b && negb c = false -> b = true -> c = true) as Himp by (intros [] []; done).
  split.
  - destruct Hvalid. by split.
  - symmetry. apply compute_id_ignores_id.
  - unfold draft_intent. by destruct (rule_parameter rule).
  - unfold draft_intent. by destruct (rule_parameter rule).
  - unfold draft_intent. by destruct (rule_parameter rule).
  - exists rule. split; [done|]. unfold draft_intent. destruct (rule_parameter rule) as [param clamped].
    simpl. split; [done|]. split; [by apply sev_ltb_false|]. split; [done|]. split; [done|].
    split; [|split; [by apply Himp|done]].
    intros Hr. specialize (Himp _ _ Hauth Hr). by apply andb_true_iff in Himp as [? _].
Qed.

Lemma plan_target_ok (rule : InterventionRule) (plan : InterventionPlan) (target : N) :
  rule ∈ cpol_interventions p -> target ∈ rule_targets ctx out rule ->
  Forall authorized_ok (ip_authorized plan) ->
  Forall authorized_ok (ip_authorized (plan_target p ctx out active rule plan target)).
Proof.
  intros Hin Ht Hall. unfold plan_target. cbv zeta.
  destruct (_ && negb (eo_authoritative out && _)) eqn:Hauth; [by rewrite push_suppressed_authorized|].
  destruct (severity_of (eo_state out)) as [severity|] eqn:Hsev; [|done].
  destruct (sev_ltb _ _) eqn:Hlevel; [done|].
  destruct (_ && negb (evidence_within_freshness _ _ _)) eqn:Hfresh;
    [by rewrite push_suppressed_authorized|].
  destruct (negb (target_covered out target) && _); [by rewrite push_suppressed_authorized|].
  destruct (ad_allowed _) eqn:Hallow; simpl; [|by rewrite push_suppressed_authorized].
  destruct (already_active _ _ _ _ _) eqn:Hact; [by rewrite push_suppressed_authorized|].
  destruct (validate_intent _) as [st|[]] eqn:Hv; [by rewrite push_suppressed_authorized|].
  rewrite add_authorized_list. apply Forall_app. split; [done|]. apply Forall_singleton.
  by apply draft_authorized_ok.
Qed.

Lemma plan_target_grows (rule : InterventionRule) (plan : InterventionPlan) (target : N) :
  size64 (ip_authorized (plan_target p ctx out active rule plan target))
  <= size64 (ip_authorized plan) + 1.
Proof.
  unfold plan_target. cbv zeta.
  assert (forall plan', ip_authorized plan' = ip_authorized plan ->
    size64 (ip_authorized plan') <= size64 (ip_authorized plan) + 1) as Hsame
    by (intros ? ->; lia).
  destruct (_ && negb (eo_authoritative out && _)); [apply Hsame, push_suppressed_authorized|].
  destruct (severity_of (eo_state out)) as [severity|]; [|by apply Hsame].
  destruct (sev_ltb _ _); [by apply Hsame|].
  destruct (_ && negb (evidence_within_freshness _ _ _)); [apply Hsame, push_suppressed_authorized|].
  destruct (negb (target_covered out target) && _); [apply Hsame, push_suppressed_authorized|].
  destruct (negb (ad_allowed _)); [apply Hsame, push_suppressed_authorized|].
  destruct (already_active _ _ _ _ _); [apply Hsame, push_suppressed_authorized|].
  destruct (validate_intent _) as [st|[]]; [apply Hsame, push_suppressed_authorized|].
  rewrite add_authorized_list, size64_app, size64_cons, size64_nil. lia.
Qed.

Lemma plan_rules_ok (plan : InterventionPlan) (rules : list InterventionRule) :
  (forall rule, rule ∈ rules -> rule ∈ cpol_interventions p) ->
  Forall authorized_ok (ip_authorized plan) ->
  Forall authorized_ok (ip_authorized (foldl (plan_rule p ctx out active) plan rules)).
Proof.
  intros Hin Hall. apply (foldl_inv (fun plan => Forall authorized_ok (ip_authorized plan))); [done|].
  intros acc rule Hrule Hacc. unfold plan_rule.
  destruct (_ <=? _); [done|]. destruct (_ && _); [done|]. destruct (_ =? _); [done|].
  apply (foldl_inv (fun plan => Forall authorized_ok (ip_authorized plan))); [done|].
  intros acc' target Ht Hacc'. apply plan_target_ok; [by apply Hin|done|done].
Qed.

(** The bound the code really enforces: it is tested once per rule, so one rule
    can overrun it by the number of its targets. *)
Lemma plan_rules_bound (targets : N) (plan : InterventionPlan) (rules : list InterventionRule) :
  let bound := pl_max_interventions_per_plan (cpol_limits p) + targets in
  (forall rule, rule ∈ rules -> size64 (rule_targets ctx out rule) <= targets) ->
  size64 (ip_authorized plan) <= bound ->
  size64 (ip_authorized (foldl (plan_rule p ctx out active) plan rules)) <= bound.
Proof.
  intros bound Ht Hp. apply (foldl_inv (fun plan => size64 (ip_authorized plan) <= bound)); [done|].
  intros acc rule Hrule Hacc. specialize (Ht rule Hrule). unfold plan_rule.
  destruct (N.leb_spec (pl_max_interventions_per_plan (cpol_limits p)) (size64 (ip_authorized acc)))
    as [|Hlt]; [done|].
  destruct (_ && _); [done|]. destruct (_ =? _); [done|]. cbv zeta.
  enough (size64 (ip_authorized (foldl (plan_target p ctx out active rule) acc (rule_targets ctx out rule)))
    <= size64 (ip_authorized acc) + size64 (rule_targets ctx out rule)) by (unfold bound; lia).
  apply (foldl_inv_prefix (fun pre plan => size64 (ip_authorized plan)
    <= size64 (ip_authorized acc) + size64 pre)); [rewrite size64_nil; lia|].
  intros pre x acc' _ Hacc'. pose proof (plan_target_grows rule acc' x).
  rewrite size64_app, size64_cons, size64_nil. lia.
Qed.
End Authorized.

(** Every authorized intent is justified. *)
Lemma make_plan_authorized out ctx active plan :
  make_plan out ctx active = Ok plan ->
  exists p, pc_policy ctx = Some p /\ Forall (authorized_ok p ctx out active) (ip_authorized plan).
Proof.
  unfold make_plan. destruct (pc_policy ctx) as [p|]; [|done]. intros [= <-]. exists p.
  split; [done|]. apply plan_rules_ok; [done|constructor].
Qed.

(** A refusal to decide authorizes nothing. *)
Theorem make_plan_indeterminate out ctx active plan :
  make_plan out ctx active = Ok plan -> is_authoritative (eo_state out) = false ->
  ip_authorized plan = [].
Proof.
  intros Hp Hs. destruct (make_plan_authorized _ _ _ _ Hp) as (p & _ & Hall).
  destruct (ip_authorized plan) as [|i l]; [done|]. apply Forall_cons in Hall as [[_ _ _ Hb _ _] _].
  destruct Hb as (_ & _ & Hsev). assert (is_Some (severity_of (eo_state out))) as H by by eexists.
  apply severity_of_authoritative in H. congruence.
Qed.

(** C3. A plan exists as soon as a policy is installed, and every intent it authorizes
    is self-consistent, carries the identity computed from its content, is bound to
    the evaluation, epoch, authority generation and policy of the planning context,
    is allowed by the authority vector at that tick, comes from a rule of the policy
    whose severity, freshness and repeat conditions hold for a target of that rule,
    and asks for a parameter inside the rule's envelope. *)
Theorem plan_justified p out ctx active (Hp : pc_policy ctx = Some p) (Hok : policy_ok p) :
  exists plan, make_plan out ctx active = Ok plan /\
    Forall (authorized_ok p ctx out active) (ip_authorized plan) /\
    Forall (fun i => exists rule, rule ∈ cpol_interventions p /\ ii_kind i = ir_kind rule /\
              ir_parameter_min rule <= ii_parameter i <= ir_parameter_max rule) (ip_authorized plan).
Proof.
  assert (exists plan, make_plan out ctx active = Ok plan) as [plan Hplan]
    by (unfold make_plan; rewrite Hp; by eexists).
  exists plan. split; [done|].
  destruct (make_plan_authorized _ _ _ _ Hplan) as (p' & Hp' & Hall).
  rewrite Hp in Hp'. injection Hp' as <-. split; [done|].
  eapply Forall_impl; [exact Hall|]. intros i [_ _ _ _ _ (rule & Hin & Hk & _ & _ & Hpar & _)].
  exists rule. split; [done|]. split; [done|]. rewrite Hpar. apply rule_parameter_within.
  pose proof (po_interventions p Hok) as Hr. rewrite Forall_forall in Hr.
  destruct (iro_envelope rule (Hr rule Hin)). lia.
Qed.

(** What the per-plan bound guarantees: no more than the bound plus the targets of
    one rule. *)
Theorem plan_bounded p out ctx active plan targets (Hp : pc_policy ctx = Some p)
    (Ht : forall rule, rule ∈ cpol_interventions p -> size64 (rule_targets ctx out rule) <= targets)
    (Hplan : make_plan out ctx active = Ok plan) :
  size64 (ip_authorized plan) <= pl_max_interventions_per_plan (cpol_limits p) + targets.
Proof.
  unfold make_plan in Hplan. rewrite Hp in Hplan. injection Hplan as <-.
  apply plan_rules_bound; [done|]. cbn [plan_start ip_authorized]. rewrite size64_nil. lia.
Qed.
