(* ===== verification/Frame.v ===== *)
(** * Frame: include/ncf/transport/frame.hpp and src/transport/frame.cpp

    The frame header and its checksum, the one-shot codec, the streaming decoder
    and the sequence window.  The control payloads are in [Messages]. *)

From Stdlib Require Import Strings.Byte.
From S2P Require Import Prelude Core Bytes.

Open Scope N_scope.

(** [FrameType]; [FtRaw v] is the value [v] places past [Count], which only a cast
    from the wire produces. *)
Inductive FrameType :=
| FtInvalid | FtHello | FtHelloAck | FtEvidence | FtEvidenceAck | FtHeartbeat | FtHeartbeatAck
| FtResync | FtFenceNotice | FtPolicyNotice | FtErrorNotice | FtGoodbye | FtCount | FtRaw (v : N).

#[export] Instance FrameType_eq_dec : EqDecision FrameType.
Proof. solve_decision. Defined.

Definition frame_type_val (t : FrameType) : N :=
  match t with
  | FtInvalid => 0 | FtHello => 1 | FtHelloAck => 2 | FtEvidence => 3 | FtEvidenceAck => 4
  | FtHeartbeat => 5 | FtHeartbeatAck => 6 | FtResync => 7 | FtFenceNotice => 8
  | FtPolicyNotice => 9 | FtErrorNotice => 10 | FtGoodbye => 11 | FtCount => 12 | FtRaw v => 13 + v
  end.
Definition frame_type_of (v : N) : FrameType :=
  match v with
  | 0 => FtInvalid | 1 => FtHello | 2 => FtHelloAck | 3 => FtEvidence | 4 => FtEvidenceAck
  | 5 => FtHeartbeat | 6 => FtHeartbeatAck | 7 => FtResync | 8 => FtFenceNotice
  | 9 => FtPolicyNotice | 10 => FtErrorNotice | 11 => FtGoodbye | 12 => FtCount | _ => FtRaw (v - 13)
  end.
Definition frame_type_to_string (t : FrameType) : string :=
  match t with
  | FtInvalid => "invalid" | FtHello => "hello" | FtHelloAck => "hello-ack" | FtEvidence => "evidence"
  | FtEvidenceAck => "evidence-ack" | FtHeartbeat => "heartbeat" | FtHeartbeatAck => "heartbeat-ack"
  | FtResync => "resync" | FtFenceNotice => "fence-notice" | FtPolicyNotice => "policy-notice"
  | FtErrorNotice => "error-notice" | FtGoodbye => "goodbye" | FtCount => "count" | FtRaw _ => "invalid"
  end.
Definition is_valid_frame_type (t : FrameType) : bool :=
  (frame_type_val FtInvalid <? frame_type_val t) && (frame_type_val t <? frame_type_val FtCount).

Definition kFrameFlagNone : N := 0.
Definition kFrameFlagReply : N := 1.
Definition kFrameFlagFinal : N := 2.
Definition kFrameFlagCompressed : N := 4.
Definition kFrameFlagExtended : N := 8.

Definition kFrameMagic : N := 0x4E434644.
Definition kFrameHeaderSize : N := 80.

Record FrameHeader := mkFrameHeader {
  fh_magic : N;
  fh_format : N;
  fh_type : N;
  fh_flags : N;
  fh_reserved : N;
  fh_payload_len : N;
  fh_header_crc : N;
  fh_payload_crc : N;
  fh_epoch : N;
  fh_boot : N;
  fh_publisher : N;
  fh_connection : N;
  fh_sequence : N;
  fh_nonce : N;
  fh_reserved2 : N;
  fh_reserved3 : N
}.

#[export] Instance FrameHeader_settable : Settable FrameHeader :=
  fields! mkFrameHeader < fh_magic; fh_format; fh_type; fh_flags; fh_reserved; fh_payload_len;
    fh_header_crc; fh_payload_crc; fh_epoch; fh_boot; fh_publisher; fh_connection; fh_sequence;
    fh_nonce; fh_reserved2; fh_reserved3 >.

(** The fields are written at offsets 0, 4, 6, 8, 10, 12, 16, 20, 24, 32, 40, 48,
    56, 64, 72 and 76: one after the other. *)
Definition encode_frame_header (h : FrameHeader) : list byte :=
  put_u32 (fh_magic h) ++ put_u16 (fh_format h) ++ put_u16 (fh_type h) ++ put_u16 (fh_flags h)
  ++ put_u16 (fh_reserved h) ++ put_u32 (fh_payload_len h) ++ put_u32 (fh_header_crc h)
  ++ put_u32 (fh_payload_crc h) ++ put_u64 (fh_epoch h) ++ put_u64 (fh_boot h)
  ++ put_u64 (fh_publisher h) ++ put_u64 (fh_connection h) ++ put_u64 (fh_sequence h)
  ++ put_u64 (fh_nonce h) ++ put_u32 (fh_reserved2 h) ++ put_u32 (fh_reserved3 h).

Definition computed_frame_crc (h : FrameHeader) : N :=
  crc32c (encode_frame_header (h <| fh_header_crc := 0 |>)).

(** The reads of [decode_frame_header], before its integrity check. *)
Definition read_frame_header (bytes : list byte) : FrameHeader :=
  mkFrameHeader (get_u32 bytes 0) (get_u16 bytes 4) (get_u16 bytes 6) (get_u16 bytes 8)
    (get_u16 bytes 10) (get_u32 bytes 12) (get_u32 bytes 16) (get_u32 bytes 20) (get_u64 bytes 24)
    (get_u64 bytes 32) (get_u64 bytes 40) (get_u64 bytes 48) (get_u64 bytes 56) (get_u64 bytes 64)
    (get_u32 bytes 72) (get_u32 bytes 76).
Definition decode_frame_header (bytes : list byte) : FrameHeader :=
  let header := read_frame_header bytes in
  if negb (computed_frame_crc header =? fh_header_crc header) then header <| fh_magic := 0 |> else header.

Record Frame := mkFrame { fr_header : FrameHeader; fr_payload : list byte }.

#[export] Instance Frame_settable : Settable Frame := fields! mkFrame < fr_header; fr_payload >.

Definition frame_type (f : Frame) : FrameType := frame_type_of (fh_type (fr_header f)).
Definition frame_has_flag (f : Frame) (flag : N) : bool := negb (N.land (fh_flags (fr_header f)) flag =? 0).

Definition reserved_flag (flags : N) : bool :=
  negb (N.land flags kFrameFlagCompressed =? 0) || negb (N.land flags kFrameFlagExtended =? 0).

(** The header [FrameCodec::encode] writes. *)
Definition seal_frame_header (f : Frame) : FrameHeader :=
  let header := (fr_header f)
    <| fh_magic := kFrameMagic |> <| fh_format := kFormatVersion |>
    <| fh_type := frame_type_val (frame_type f) |>
    <| fh_payload_len := w32 (size64 (fr_payload f)) |>
    <| fh_payload_crc := crc32c (fr_payload f) |>
    <| fh_reserved2 := 0 |> <| fh_reserved3 := 0 |> in
  header <| fh_header_crc := computed_frame_crc header |>.

(** [FrameCodec::encode]: [out] with the frame appended. *)
Definition encode_frame (f : Frame) (out : list byte) : Result (list byte) :=
  guard (negb (is_valid_frame_type (frame_type f)))
    InvalidArgument "frame type is not part of the protocol" (
  guard (kMaxFramePayload <? size64 (fr_payload f))
    Oversized "frame payload exceeds the permitted size" (
  guard (reserved_flag (fh_flags (fr_header f)))
    Unsupported "frame sets a reserved flag bit" (
  Ok (out ++ encode_frame_header (seal_frame_header f) ++ fr_payload f)))).

(** [FrameCodec::decode]. *)
Definition decode_frame (bytes : list byte) : Result Frame :=
  guard (size64 bytes <? kFrameHeaderSize) Truncated "frame is shorter than its header" (
  let header := decode_frame_header (slice 0 (N.to_nat kFrameHeaderSize) bytes) in
  guard (negb (fh_magic header =? kFrameMagic))
    IntegrityFailure "frame header failed its integrity check" (
  guard (negb (fh_format header =? kFormatVersion))
    Unsupported "frame format version is not supported" (
  guard (negb (is_valid_frame_type (frame_type_of (fh_type header))))
    Malformed "frame type is not part of the protocol" (
  guard (reserved_flag (fh_flags header)) Unsupported "frame sets a reserved flag bit" (
  guard (kMaxFramePayload <? fh_payload_len header)
    Oversized "frame declares a payload beyond the permitted size" (
  guard (negb (size64 bytes =? kFrameHeaderSize + fh_payload_len header))
    Malformed "frame length does not match its declared payload length" (
  let payload := slice (N.to_nat kFrameHeaderSize) (N.to_nat (fh_payload_len header)) bytes in
  guard (negb (crc32c payload =? fh_payload_crc header))
    IntegrityFailure "frame payload failed its integrity check" (
  Ok (mkFrame header payload))))))))).

(** ** The streaming decoder *)

Record FrameDecoder := mkFrameDecoder {
  fd_buffer : list byte;
  fd_consumed : N;
  fd_max_payload : N;
  fd_max_buffered : N;
  fd_failed : bool
}.

#[export] Instance FrameDecoder_settable : Settable FrameDecoder :=
  fields! mkFrameDecoder < fd_buffer; fd_consumed; fd_max_payload; fd_max_buffered; fd_failed >.

(** [FrameDecoder(options)]; the options default to the hard bounds. *)
Definition frame_decoder (max_payload max_buffered : N) : FrameDecoder :=
  mkFrameDecoder [] 0 max_payload max_buffered false.
Definition default_frame_decoder : FrameDecoder := frame_decoder kMaxFramePayload (kMaxFramePayload * 4).

Definition fd_buffered (d : FrameDecoder) : N := size64 (fd_buffer d) - fd_consumed d.

Definition fd_push (bytes : list byte) (d : FrameDecoder) : Result unit * FrameDecoder :=
  if fd_failed d then (fail Malformed "frame decoder already failed on this stream", d)
  else
    let d := if (0 <? fd_consumed d) && (fd_consumed d =? size64 (fd_buffer d))
             then d <| fd_buffer := [] |> <| fd_consumed := 0 |> else d in
    if fd_max_buffered d <? size64 (fd_buffer d) + size64 bytes
    then (fail Oversized "frame decoder buffer would exceed its bound", d <| fd_failed := true |>)
    else (Ok tt, d <| fd_buffer ::= fun b => b ++ bytes |>).

Definition fd_reject {A : Type} (code : ErrCode) (message : string) (d : FrameDecoder) :
    Result A * FrameDecoder := (fail code message, d <| fd_failed := true |>).

Definition fd_next (d : FrameDecoder) : Result (option Frame) * FrameDecoder :=
  if fd_failed d then (fail Malformed "frame decoder already failed on this stream", d)
  else
    let available := size64 (fd_buffer d) - fd_consumed d in
    if available <? kFrameHeaderSize then (Ok None, d)
    else
      let header := decode_frame_header
        (slice (N.to_nat (fd_consumed d)) (N.to_nat kFrameHeaderSize) (fd_buffer d)) in
      if negb (fh_magic header =? kFrameMagic)
      then fd_reject IntegrityFailure "frame header failed its integrity check" d
      else if negb (fh_format header =? kFormatVersion)
      then fd_reject Unsupported "frame format version is not supported" d
      else if negb (is_valid_frame_type (frame_type_of (fh_type header)))
      then fd_reject Malformed "frame type is not part of the protocol" d
      else if fd_max_payload d <? fh_payload_len header
      then fd_reject Oversized "frame declares a payload beyond the permitted size" d
      else
        let total := kFrameHeaderSize + fh_payload_len header in
        if available <? total then (Ok None, d)
        else
          match decode_frame (slice (N.to_nat (fd_consumed d)) (N.to_nat total) (fd_buffer d)) with
          | Err s => (Err s, d <| fd_failed := true |>)
          | Ok frame => (Ok (Some frame), d <| fd_consumed ::= N.add total |>)
          end.

Definition fd_reset (d : FrameDecoder) : FrameDecoder :=
  d <| fd_buffer := [] |> <| fd_consumed := 0 |> <| fd_failed := false |>.

(** ** The sequence window *)

Inductive Verdict := VAccept | VDuplicate | VRegressed | VTooFarAhead.

#[export] Instance Verdict_eq_dec : EqDecision Verdict.
Proof. solve_decision. Defined.

Record SequenceWindow := mkSequenceWindow {
  sw_window : N;
  sw_highest : N;
  sw_started : bool;
  sw_recent : list N
}.

#[export] Instance SequenceWindow_settable : Settable SequenceWindow :=
  fields! mkSequenceWindow < sw_window; sw_highest; sw_started; sw_recent >.

Definition sequence_window (window : N) : SequenceWindow :=
  mkSequenceWindow (if negb (window =? 0) then window else 1) 0 false [].

Definition observe (sequence : N) (s : SequenceWindow) : Verdict * SequenceWindow :=
  if negb (sw_started s)
  then (VAccept, s <| sw_started := true |> <| sw_highest := sequence |> <| sw_recent := [sequence] |>)
  else if sequence <=? sw_highest s
  then
    if w64 (sequence + sw_window s) <? sw_highest s then (VRegressed, s)
    else (if bool_decide (sequence ∈ sw_recent s) then VDuplicate else VRegressed, s)
  else if kMaxSequenceGap <? sequence - sw_highest s then (VTooFarAhead, s)
  else
    let recent := sw_recent s ++ [sequence] in
    let recent := if sw_window s <? size64 recent
                  then drop (N.to_nat (size64 recent - sw_window s)) recent else recent in
    (VAccept, s <| sw_highest := sequence |> <| sw_recent := recent |>).

Definition make_nonce (a b : N) : N :=
  let v1 := w64 (a * 0x9E3779B97F4A7C15) in
  let v2 := N.lxor v1 (w64 (b + 0x165667B19E3779F9 + w64 (N.shiftl v1 6) + N.shiftr v1 2)) in
  let v3 := N.lxor v2 (N.shiftr v2 29) in
  let v4 := w64 (v3 * 0xBF58476D1CE4E5B9) in
  N.lxor v4 (N.shiftr v4 32).


(** * Properties *)

(** ** The header *)

Lemma frame_type_val_of (v : N) : frame_type_val (frame_type_of v) = v.
Proof.
  destruct v as [|p]; [reflexivity|].
  do 4 (try (destruct p as [p|p|]; try reflexivity)); cbn [frame_type_of frame_type_val]; lia.
Qed.

(** Every field fits its width. *)
Record frame_header_words (h : FrameHeader) : Prop := {
  fhw_magic : u32_ok (fh_magic h);
  fhw_format : u16_ok (fh_format h);
  fhw_type : u16_ok (fh_type h);
  fhw_flags : u16_ok (fh_flags h);
  fhw_reserved : u16_ok (fh_reserved h);
  fhw_payload_len : u32_ok (fh_payload_len h);
  fhw_header_crc : u32_ok (fh_header_crc h);
  fhw_payload_crc : u32_ok (fh_payload_crc h);
  fhw_epoch : u64_ok (fh_epoch h);
  fhw_boot : u64_ok (fh_boot h);
  fhw_publisher : u64_ok (fh_publisher h);
  fhw_connection : u64_ok (fh_connection h);
  fhw_sequence : u64_ok (fh_sequence h);
  fhw_nonce : u64_ok (fh_nonce h);
  fhw_reserved2 : u32_ok (fh_reserved2 h);
  fhw_reserved3 : u32_ok (fh_reserved3 h)
}.

Lemma frame_header_length (h : FrameHeader) : length (encode_frame_header h) = 80%nat.
Proof. unfold encode_frame_header. rewrite !length_app. unfold put_u16, put_u32, put_u64. by rewrite !length_le_put. Qed.

Lemma read_encode_frame_header (h : FrameHeader) :
  frame_header_words h -> read_frame_header (encode_frame_header h) = h.
Proof.
  intros []. unfold read_frame_header, encode_frame_header, get_u16, get_u32, get_u64, put_u16, put_u32, put_u64.
  destruct h. cbn [fh_magic fh_format fh_type fh_flags fh_reserved fh_payload_len fh_header_crc
    fh_payload_crc fh_epoch fh_boot fh_publisher fh_connection fh_sequence fh_nonce fh_reserved2 fh_reserved3] in *.
  read_words. by rewrite !le_get_put.
Qed.

Lemma encode_read_frame_header (bytes : list byte) :
  length bytes = 80%nat -> encode_frame_header (read_frame_header bytes) = bytes.
Proof.
  intros Hl. unfold encode_frame_header, read_frame_header, get_u16, get_u32, get_u64, put_u16, put_u32, put_u64.
  cbn [fh_magic fh_format fh_type fh_flags fh_reserved fh_payload_len fh_header_crc
    fh_payload_crc fh_epoch fh_boot fh_publisher fh_connection fh_sequence fh_nonce fh_reserved2 fh_reserved3].
  join_slices.
Qed.

Lemma zero_frame_crc (h : FrameHeader) :
  encode_frame_header (h <| fh_header_crc := 0 |>) = zero_field 16 (encode_frame_header h).
Proof.
  destruct h. unfold encode_frame_header.
  cbn [set fh_magic fh_format fh_type fh_flags fh_reserved fh_payload_len fh_header_crc
    fh_payload_crc fh_epoch fh_boot fh_publisher fh_connection fh_sequence fh_nonce fh_reserved2 fh_reserved3].
  match goal with
  | |- _ = zero_field _ (?a ++ ?b ++ ?c ++ ?d ++ ?e ++ ?f ++ ?w ++ ?r) =>
      replace (a ++ b ++ c ++ d ++ e ++ f ++ w ++ r) with ((a ++ b ++ c ++ d ++ e ++ f) ++ w ++ r)
        by (by rewrite <- !app_assoc)
  end.
  rewrite zero_field_app; [by rewrite <- !app_assoc| |apply length_le_put].
  rewrite !length_app. unfold put_u16, put_u32. by rewrite !length_le_put.
Qed.

(** The integrity check of [decode_frame_header]. *)
Lemma decode_frame_header_sealed (bytes : list byte) :
  length bytes = 80%nat -> fh_magic (decode_frame_header bytes) = kFrameMagic ->
  decode_frame_header bytes = read_frame_header bytes /\ sealed 16 bytes.
Proof.
  intros Hl Hm.
  assert (computed_frame_crc (read_frame_header bytes) = crc32c (zero_field 16 bytes)) as Hz.
  { unfold computed_frame_crc. by rewrite zero_frame_crc, encode_read_frame_header. }
  assert (fh_header_crc (read_frame_header bytes) = get_u32 bytes 16) as Hc by reflexivity.
  unfold sealed. revert Hm. unfold decode_frame_header. rewrite Hz, Hc. clear Hz Hc.
  generalize (crc32c (zero_field 16 bytes)) (get_u32 bytes 16). intros c c'.
  destruct (N.eqb_spec c c'); cbn [negb]; [done|]. cbn [set fh_magic]. discriminate.
Qed.

Lemma computed_frame_crc_set (h : FrameHeader) (c : N) :
  computed_frame_crc (h <| fh_header_crc := c |>) = computed_frame_crc h.
Proof. reflexivity. Qed.

(** Sealing a header makes it pass its own check. *)
Lemma decode_sealed_frame_header (h : FrameHeader) :
  frame_header_words h ->
  decode_frame_header (encode_frame_header (h <| fh_header_crc := computed_frame_crc h |>))
  = h <| fh_header_crc := computed_frame_crc h |>.
Proof.
  intros Hw. unfold decode_frame_header. rewrite read_encode_frame_header.
  - rewrite computed_frame_crc_set. cbn [set fh_header_crc]. by rewrite N.eqb_refl.
  - destruct Hw. split; try assumption. apply crc32c_ok.
Qed.

(** A frame the protocol lets through, with fields of their widths. *)
Record frame_ok (f : Frame) : Prop := {
  fo_type : is_valid_frame_type (frame_type f) = true;
  fo_payload : size64 (fr_payload f) <= kMaxFramePayload;
  fo_flags : reserved_flag (fh_flags (fr_header f)) = false;
  fo_words : frame_header_words (fr_header f)
}.

(** The frame as it arrives: the header completed by [encode]. *)
Definition sealed_frame (f : Frame) : Frame := f <| fr_header := seal_frame_header f |>.

Definition frame_bytes (f : Frame) : list byte :=
  encode_frame_header (seal_frame_header f) ++ fr_payload f.

Lemma encode_frame_Ok (f : Frame) (out : list byte) :
  frame_ok f -> encode_frame f out = Ok (out ++ frame_bytes f).
Proof.
  intros [Ht Hp Hf _]. unfold encode_frame, guard. rewrite Ht, Hf. simpl.
  destruct (N.ltb_spec kMaxFramePayload (size64 (fr_payload f))); [lia|done].
Qed.

Lemma payload_len_small (f : Frame) : frame_ok f -> w32 (size64 (fr_payload f)) = size64 (fr_payload f).
Proof.
  intros [_ Hp _ _]. unfold w32, kMaxFramePayload in *. apply N.mod_small. 
  eapply N.le_lt_trans; [exact Hp|done].
Qed.

Lemma seal_header_words (f : Frame) : frame_ok f ->
  exists h, frame_header_words h /\ seal_frame_header f = h <| fh_header_crc := computed_frame_crc h |> /\
    fh_payload_len h = size64 (fr_payload f) /\ fh_flags h = fh_flags (fr_header f) /\
    fh_type h = fh_type (fr_header f) /\ fh_magic h = kFrameMagic /\ fh_format h = kFormatVersion /\
    fh_payload_crc h = crc32c (fr_payload f).
Proof.
  intros Hok. eexists. split; [|split; [reflexivity|]].
  - destruct Hok as [Ht Hp Hf []]. split; cbn; try done.
    + unfold frame_type. by rewrite frame_type_val_of.
    + unfold u32_ok, w32. by apply N.mod_lt.
    + apply crc32c_ok.
  - cbn. unfold frame_type. rewrite frame_type_val_of. repeat split. by apply payload_len_small.
Qed.

Lemma sealed_header_decodes (f : Frame) :
  frame_ok f -> decode_frame_header (encode_frame_header (seal_frame_header f)) = seal_frame_header f.
Proof.
  intros Hok. destruct (seal_header_words f Hok) as (h & Hw & -> & _). by apply decode_sealed_frame_header.
Qed.

Lemma frame_bytes_length (f : Frame) : size64 (frame_bytes f) = kFrameHeaderSize + size64 (fr_payload f).
Proof. unfold frame_bytes. rewrite size64_app. unfold size64 at 1. by rewrite frame_header_length. Qed.

Lemma frame_header_slice (f : Frame) (rest : list byte) :
  slice 0 (N.to_nat kFrameHeaderSize) (frame_bytes f ++ rest) = encode_frame_header (seal_frame_header f).
Proof. unfold frame_bytes. rewrite <- app_assoc. apply slice_here, frame_header_length. Qed.

(** What a successful [decode_frame] has checked. *)
Record frame_decodes (bytes : list byte) (f : Frame) : Prop := {
  fdc_long : kFrameHeaderSize <= size64 bytes;
  fdc_header : fr_header f = decode_frame_header (slice 0 (N.to_nat kFrameHeaderSize) bytes);
  fdc_magic : fh_magic (fr_header f) = kFrameMagic;
  fdc_format : fh_format (fr_header f) = kFormatVersion;
  fdc_type : is_valid_frame_type (frame_type f) = true;
  fdc_flags : reserved_flag (fh_flags (fr_header f)) = false;
  fdc_bound : fh_payload_len (fr_header f) <= kMaxFramePayload;
  fdc_size : size64 bytes = kFrameHeaderSize + fh_payload_len (fr_header f);
  fdc_payload : fr_payload f
    = slice (N.to_nat kFrameHeaderSize) (N.to_nat (fh_payload_len (fr_header f))) bytes;
  fdc_crc : crc32c (fr_payload f) = fh_payload_crc (fr_header f)
}.

Lemma decode_frame_iff (bytes : list byte) (f : Frame) :
  decode_frame bytes = Ok f <-> frame_decodes bytes f.
Proof.
  unfold decode_frame. cbv zeta. rewrite !guard_Ok_iff.
  rewrite !negb_false_iff, !N.eqb_eq, !N.ltb_ge. split.
  - intros (? & ? & ? & ? & ? & ? & ? & ? & [= <-]). by split.
  - intros [H1 H2 H3 H4 H5 H6 H7 H8 H9 H10]. destruct f as [h p]. unfold frame_type in H5.
    cbn [fr_header fr_payload] in *. subst h p. repeat (split; [assumption|]). reflexivity.
Qed.

Lemma decode_frame_bytes (f : Frame) : frame_ok f -> decode_frame (frame_bytes f) = Ok (sealed_frame f).
Proof.
  intros Hok. apply decode_frame_iff.
  destruct (seal_header_words f Hok) as (h & Hw & E & Hlen & Hflags & Htype & Hmagic & Hformat & Hcrc).
  pose proof (sealed_header_decodes f Hok) as Hdec.
  pose proof (frame_header_slice f []) as Hs. rewrite app_nil_r in Hs.
  destruct Hok as [Ht Hp Hf _]. unfold frame_type in Ht.
  assert (slice (N.to_nat kFrameHeaderSize) (N.to_nat (size64 (fr_payload f))) (frame_bytes f) = fr_payload f) as Hpay.
  { unfold frame_bytes, size64. rewrite slice_skip by (rewrite frame_header_length; done).
    rewrite frame_header_length, Nat2N.id. by apply slice_all. }
  split; unfold frame_type, sealed_frame; cbn [set fr_header fr_payload];
    rewrite ?Hs, ?Hdec, ?frame_bytes_length; try reflexivity; rewrite ?E;
    cbn [set fh_magic fh_format fh_type fh_flags fh_payload_len fh_payload_crc].
  - lia.
  - by rewrite Htype.
  - by rewrite Hflags.
  - by rewrite Hlen.
  - by rewrite Hlen.
  - by rewrite Hlen.
Qed.

(** ** Corruption *)

Lemma slice_insert_in (c n i : nat) (b : byte) (bytes : list byte) :
  (c <= i < c + n)%nat -> slice c n (<[i:=b]> bytes) = <[(i - c)%nat:=b]> (slice c n bytes).
Proof. intros H. unfold slice. by rewrite drop_insert_ge, take_insert_lt by lia. Qed.

Lemma slice_lookup (c n i : nat) (bytes : list byte) :
  (i < n)%nat -> slice c n bytes !! i = bytes !! (c + i)%nat.
Proof. intros H. unfold slice. by rewrite lookup_take_lt, lookup_drop. Qed.

Lemma decoded_header_sealed (bytes : list byte) (f : Frame) :
  frame_decodes bytes f ->
  sealed 16 (slice 0 80 bytes) /\ fr_header f = read_frame_header (slice 0 80 bytes).
Proof.
  intros Hd. pose proof (fdc_magic _ _ Hd) as Hm. rewrite (fdc_header _ _ Hd) in Hm |- *.
  pose proof (fdc_long _ _ Hd) as Hl. unfold kFrameHeaderSize, size64 in Hl.
  change (N.to_nat kFrameHeaderSize) with 80%nat in *.
  destruct (decode_frame_header_sealed (slice 0 80 bytes)) as [E Hs]; [apply slice_length; lia|done|].
  by rewrite E.
Qed.

(** No frame survives the change of a byte: if a buffer decodes, the buffer with
    any one byte replaced by another does not. *)
Theorem frame_corruption_refused (bytes : list byte) (f : Frame) (i : nat) (old new : byte)
    (Hdec : decode_frame bytes = Ok f) (Hold : bytes !! i = Some old) (Hne : new <> old) :
  exists e, decode_frame (<[i:=new]> bytes) = Err e.
Proof.
  destruct (decode_frame (<[i:=new]> bytes)) as [e|f'] eqn:H; [by exists e|exfalso].
  apply decode_frame_iff in Hdec, H. pose proof (lookup_lt_Some _ _ _ Hold) as Hi.
  destruct (decoded_header_sealed _ _ Hdec) as [Hs Hh], (decoded_header_sealed _ _ H) as [Hs' Hh'].
  pose proof (fdc_long _ _ Hdec) as Hl. unfold kFrameHeaderSize, size64 in Hl.
  enough (bytes !! i = Some new) by congruence.
  destruct (decide (i < 80)%nat) as [Hlt|Hge].
  - rewrite slice_insert_in, Nat.sub_0_r in Hs' by lia.
    apply sealed_insert in Hs'; [by rewrite slice_lookup in Hs'|..|done];
      rewrite slice_length; lia.
  - rewrite slice_insert_out in Hh' by lia.
    pose proof (fdc_crc _ _ H) as Hc'. pose proof (fdc_crc _ _ Hdec) as Hc.
    pose proof (fdc_size _ _ Hdec) as Hsize. rewrite Hh', <- Hh in Hc'. rewrite <- Hc in Hc'.
    rewrite (fdc_payload _ _ H), (fdc_payload _ _ Hdec), Hh', <- Hh in Hc'.
    unfold size64, kFrameHeaderSize in Hsize. change (N.to_nat kFrameHeaderSize) with 80%nat in Hc'.
    rewrite slice_insert_in in Hc' by lia.
    apply crc32c_insert in Hc'; [|rewrite slice_length; lia].
    rewrite slice_lookup in Hc' by lia. by replace (80 + (i - 80))%nat with i in Hc' by lia.
Qed.

(** Encoding a well-formed frame succeeds, appending exactly its bytes, and
    decoding those gives the frame back with its header completed: same type,
    flags, identities, sequence, nonce and payload. *)
Theorem frame_roundtrip (f : Frame) (out : list byte) (Hok : frame_ok f) :
  exists bytes, encode_frame f out = Ok (out ++ bytes) /\ decode_frame bytes = Ok (sealed_frame f) /\
    size64 bytes = kFrameHeaderSize + size64 (fr_payload f) /\
    frame_type (sealed_frame f) = frame_type f /\
    fr_payload (sealed_frame f) = fr_payload f /\
    fh_sequence (fr_header (sealed_frame f)) = fh_sequence (fr_header f).
Proof.
  exists (frame_bytes f). split; [by apply encode_frame_Ok|]. split; [by apply decode_frame_bytes|].
  split; [apply frame_bytes_length|]. split; [|done].
  unfold sealed_frame, seal_frame_header, frame_type. cbn [set fr_header fh_type].
  by rewrite frame_type_val_of.
Qed.

(** ** The streaming decoder *)

(** What a receiver does with a chunk: push it, then pull frames until there is
    no complete one.  [fuel] bounds the pulls; a frame is at least 80 bytes. *)
Fixpoint fd_drain (fuel : nat) (d : FrameDecoder) : Result (list Frame) * FrameDecoder :=
  match fuel with
  | O => (Ok [], d)
  | S fuel' =>
      match fd_next d with
      | (Ok (Some frame), d') =>
          match fd_drain fuel' d' with
          | (Ok frames, d'') => (Ok (frame :: frames), d'')
          | (Err s, d'') => (Err s, d'')
          end
      | (Ok None, d') => (Ok [], d')
      | (Err s, d') => (Err s, d')
      end
  end.
Definition fd_feed (d : FrameDecoder) (chunk : list byte) : Result (list Frame) * FrameDecoder :=
  match fd_push chunk d with
  | (Err s, d') => (Err s, d')
  | (Ok _, d') => fd_drain (S (length (fd_buffer d'))) d'
  end.
Fixpoint fd_run (d : FrameDecoder) (chunks : list (list byte)) : Result (list Frame) * FrameDecoder :=
  match chunks with
  | [] => (Ok [], d)
  | chunk :: chunks' =>
      match fd_feed d chunk with
      | (Err s, d') => (Err s, d')
      | (Ok frames, d') =>
          match fd_run d' chunks' with
          | (Ok frames', d'') => (Ok (frames ++ frames'), d'')
          | (Err s, d'') => (Err s, d'')
          end
      end
  end.

(** A decoder that has [pending] unread. *)
Record holding (d : FrameDecoder) (pending : list byte) : Prop := {
  ho_live : fd_failed d = false;
  ho_pending : drop (N.to_nat (fd_consumed d)) (fd_buffer d) = pending;
  ho_within : fd_consumed d <= size64 (fd_buffer d)
}.

Lemma holding_available (d : FrameDecoder) (pending : list byte) :
  holding d pending -> size64 (fd_buffer d) - fd_consumed d = size64 pending.
Proof. intros [_ <- Hw]. unfold size64 in *. rewrite length_drop. lia. Qed.

Lemma holding_slice (d : FrameDecoder) (pending : list byte) (n : nat) :
  holding d pending -> slice (N.to_nat (fd_consumed d)) n (fd_buffer d) = take n pending.
Proof. intros [_ <- _]. done. Qed.

Definition fits_decoder (d : FrameDecoder) (f : Frame) : Prop :=
  frame_ok f /\ size64 (fr_payload f) <= fd_max_payload d.

Lemma sealed_header_fields (f : Frame) : frame_ok f ->
  fh_magic (seal_frame_header f) = kFrameMagic /\ fh_format (seal_frame_header f) = kFormatVersion /\
  is_valid_frame_type (frame_type_of (fh_type (seal_frame_header f))) = true /\
  fh_payload_len (seal_frame_header f) = size64 (fr_payload f).
Proof.
  intros Hok. destruct (seal_header_words f Hok) as (h & _ & -> & Hlen & _ & Htype & Hmagic & Hformat & _).
  destruct Hok as [Ht _ _ _]. unfold frame_type in Ht. cbn [set fh_magic fh_format fh_type fh_payload_len].
  by rewrite Htype.
Qed.

Lemma sealed_frame_type (f : Frame) : frame_type (sealed_frame f) = frame_type f.
Proof.
  unfold sealed_frame, seal_frame_header, frame_type. cbn [set fr_header fh_type]. by rewrite frame_type_val_of.
Qed.

(** With a whole frame pending, [next] delivers it. *)
Lemma fd_next_frame (d : FrameDecoder) (f : Frame) (rest : list byte) :
  fits_decoder d f -> holding d (frame_bytes f ++ rest) ->
  exists d', fd_next d = (Ok (Some (sealed_frame f)), d') /\ holding d' rest /\
    d' = d <| fd_consumed ::= N.add (size64 (frame_bytes f)) |>.
Proof.
  intros [Hok Hfit] Hd. unfold fd_next. rewrite (ho_live _ _ Hd), (holding_available _ _ Hd).
  destruct (sealed_header_fields f Hok) as (Hm & Hf & Ht & Hl).
  rewrite !(holding_slice _ _ _ Hd). pose proof (frame_header_slice f rest) as Hs.
  unfold slice in Hs. rewrite drop_0 in Hs. rewrite Hs, sealed_header_decodes by done.
  rewrite size64_app, frame_bytes_length, Hm, Hf, Ht, Hl, !N.eqb_refl. cbn [negb].
  destruct (N.ltb_spec (kFrameHeaderSize + size64 (fr_payload f) + size64 rest) kFrameHeaderSize); [lia|].
  destruct (N.ltb_spec (fd_max_payload d) (size64 (fr_payload f))); [lia|].
  destruct (N.ltb_spec (kFrameHeaderSize + size64 (fr_payload f) + size64 rest)
              (kFrameHeaderSize + size64 (fr_payload f))); [lia|].
  assert (N.to_nat (kFrameHeaderSize + size64 (fr_payload f)) = length (frame_bytes f)) as Hlen.
  { pose proof (frame_bytes_length f) as E. unfold size64 in E at 1. lia. }
  rewrite Hlen, take_app_length, decode_frame_bytes by done. eexists. split; [reflexivity|].
  split; [|reflexivity].
  destruct Hd as [Hd1 Hd2 Hd3]. split; cbn; [done| |].
  - rewrite N2Nat.inj_add, Hlen, Nat.add_comm, <- drop_drop, Hd2. apply drop_app_length.
  - apply (f_equal (@length byte)) in Hd2. rewrite length_drop, length_app in Hd2. unfold size64 in *. lia.
Qed.

(** With only a part of a frame pending, [next] waits. *)
Lemma fd_next_partial (d : FrameDecoder) (f : Frame) (pending more : list byte) :
  fits_decoder d f -> holding d pending -> (length pending < length (frame_bytes f))%nat ->
  (exists tail, pending ++ more = frame_bytes f ++ tail) -> fd_next d = (Ok None, d).
Proof.
  intros [Hok Hfit] Hd Hlt [tail Heq]. unfold fd_next. rewrite (ho_live _ _ Hd), (holding_available _ _ Hd).
  destruct (N.ltb_spec (size64 pending) kFrameHeaderSize) as [|Hge]; [done|].
  destruct (sealed_header_fields f Hok) as (Hm & Hf & Ht & Hl).
  rewrite !(holding_slice _ _ _ Hd).
  assert (take (N.to_nat kFrameHeaderSize) pending = encode_frame_header (seal_frame_header f)) as ->.
  { pose proof (frame_header_slice f tail) as Hs. unfold slice in Hs. rewrite drop_0, <- Heq in Hs.
    rewrite take_app_le in Hs; [done|]. unfold size64 in Hge. lia. }
  rewrite sealed_header_decodes by done. rewrite Hm, Hf, Ht, Hl, !N.eqb_refl. cbn [negb].
  destruct (N.ltb_spec (fd_max_payload d) (size64 (fr_payload f))); [lia|].
  pose proof (frame_bytes_length f) as E. unfold size64 in *.
  destruct (N.ltb_spec (N.of_nat (length pending)) (kFrameHeaderSize + N.of_nat (length (fr_payload f))));
    [done|lia].
Qed.

(** A frame that is taken consumes its bytes: a fuel above what is buffered lasts for
    every frame of the buffer. *)
Lemma fd_next_consumes (d d' : FrameDecoder) (f : Frame) :
  fd_next d = (Ok (Some f), d') -> fd_buffered d' < fd_buffered d.
Proof.
  unfold fd_next. destruct (fd_failed d); [discriminate|]. cbv zeta. unfold fd_reject.
  repeat match goal with |- context [if ?b then _ else _] => destruct b eqn:?; [discriminate|] end.
  destruct (decode_frame _); [discriminate|]. intros [= -> <-]. unfold fd_buffered. cbn. reflect_bools.
  unfold kFrameHeaderSize in *. lia.
Qed.

Lemma fd_next_empty (d : FrameDecoder) : holding d [] -> fd_next d = (Ok None, d).
Proof. intros Hd. unfold fd_next. by rewrite (ho_live _ _ Hd), (holding_available _ _ Hd). Qed.

Lemma frame_bytes_pos (f : Frame) : (80 <= length (frame_bytes f))%nat.
Proof. unfold frame_bytes. rewrite length_app, frame_header_length. lia. Qed.

(** Draining delivers every whole frame that is pending and leaves the rest, which
    is a part of the next frame. *)
Lemma fd_drain_frames (fuel : nat) (fs : list Frame) (d : FrameDecoder) (pending more : list byte) :
  Forall (fits_decoder d) fs -> holding d pending -> (length pending < fuel)%nat ->
  pending ++ more = concat (map frame_bytes fs) ->
  exists k d' rest, fd_drain fuel d = (Ok (map sealed_frame (take k fs)), d') /\ holding d' rest /\
    rest ++ more = concat (map frame_bytes (drop k fs)) /\
    (exists c, d' = d <| fd_consumed := c |>) /\
    (rest = [] \/ exists f fs', drop k fs = f :: fs' /\ (length rest < length (frame_bytes f))%nat).
Proof.
  revert fs d pending. induction fuel as [|fuel IH]; intros fs d pending Hfs Hd Hfuel Heq; [lia|].
  destruct fs as [|f fs].
  - simpl in Heq. apply app_eq_nil in Heq as [-> ->]. exists 0%nat, d, [].
    cbn [fd_drain]. rewrite (fd_next_empty d Hd).
    split; [done|]. split; [done|]. split; [done|]. split; [|by left]. exists (fd_consumed d). by destruct d.
  - apply Forall_cons in Hfs as [Hf Hfs]. cbn [map concat] in Heq.
    destruct (decide (length pending < length (frame_bytes f))%nat) as [Hlt|Hge].
    + exists 0%nat, d, pending. cbn [fd_drain].
      rewrite (fd_next_partial d f pending more) by (try done; by eexists). simpl.
      split; [done|]. split; [done|]. split; [done|].
      split; [exists (fd_consumed d); by destruct d|].
      right. by exists f, fs.
    + assert (exists rest, pending = frame_bytes f ++ rest /\ rest ++ more = concat (map frame_bytes fs))
        as (rest & -> & Heq').
      { exists (drop (length (frame_bytes f)) pending). split.
        - rewrite <- (take_drop (length (frame_bytes f)) pending) at 1. f_equal.
          apply (f_equal (take (length (frame_bytes f)))) in Heq.
          by rewrite take_app_le, take_app_length in Heq by lia.
        - apply (f_equal (drop (length (frame_bytes f)))) in Heq.
          by rewrite drop_app_le, drop_app_length in Heq by lia. }
      destruct (fd_next_frame d f rest Hf Hd) as (d' & Hn & Hd' & Ed).
      assert (Forall (fits_decoder d') fs) as Hfs' by (subst d'; exact Hfs).
      assert (length rest < fuel)%nat as Hfuel'.
      { rewrite length_app in Hfuel. pose proof (frame_bytes_pos f). lia. }
      destruct (IH fs d' rest Hfs' Hd' Hfuel' Heq') as (k & d'' & rest' & Hdr & Hd'' & Heq'' & [c Ec] & Hlast).
      exists (S k), d'', rest'. cbn [fd_drain]. rewrite Hn, Hdr. split; [reflexivity|]. split; [exact Hd''|]. split; [exact Heq''|].
      split; [|exact Hlast]. exists c. rewrite Ec, Ed. reflexivity.
Qed.

Lemma fd_push_ok (d : FrameDecoder) (pending chunk : list byte) :
  holding d pending -> size64 (fd_buffer d) + size64 chunk <= fd_max_buffered d ->
  exists d', fd_push chunk d = (Ok tt, d') /\ holding d' (pending ++ chunk) /\
    size64 (fd_buffer d') <= size64 (fd_buffer d) + size64 chunk /\
    fd_max_payload d' = fd_max_payload d /\ fd_max_buffered d' = fd_max_buffered d.
Proof.
  intros Hd Hfit. unfold fd_push. rewrite (ho_live _ _ Hd).
  set (d1 := if _ && _ then _ else d).
  assert (holding d1 pending /\ size64 (fd_buffer d1) <= size64 (fd_buffer d) /\
    fd_max_payload d1 = fd_max_payload d /\ fd_max_buffered d1 = fd_max_buffered d) as (H1 & Hsz & Hp & Hb).
  { subst d1. destruct (_ && _) eqn:E; [|repeat split; try done; by destruct Hd].
    reflect_bools. destruct Hd as [Hl Hr Hw]. repeat split; cbn; try done; [|unfold size64; simpl; lia].
    rewrite <- Hr, H0. unfold size64. by rewrite Nat2N.id, drop_all. }
  clearbody d1. rewrite Hb. destruct (N.ltb_spec (fd_max_buffered d) (size64 (fd_buffer d1) + size64 chunk)); [lia|].
  eexists. split; [reflexivity|]. destruct H1 as [Hl Hr Hw]. split; [|cbn; rewrite size64_app; split; [lia|done]].
  split; cbn; [done| |rewrite size64_app; lia].
  unfold size64 in Hw. rewrite drop_app_le by lia. by rewrite Hr.
Qed.

(** What is unread does not reach the end of a frame. *)
Definition part_of_next (pending : list byte) (fs : list Frame) : Prop :=
  pending = [] \/ exists f fs', fs = f :: fs' /\ (length pending < length (frame_bytes f))%nat.

(** A run over the beginning of a stream delivers the frames that arrived whole and
    holds back the part of the next one. *)
Lemma fd_run_prefix (chunks : list (list byte)) (fs : list Frame) (d : FrameDecoder) (pending more : list byte) :
  Forall (fits_decoder d) fs -> holding d pending -> part_of_next pending fs ->
  pending ++ concat chunks ++ more = concat (map frame_bytes fs) ->
  size64 (fd_buffer d) + size64 (concat chunks) <= fd_max_buffered d ->
  exists k d' rest, fd_run d chunks = (Ok (map sealed_frame (take k fs)), d') /\ holding d' rest /\
    rest ++ more = concat (map frame_bytes (drop k fs)) /\ part_of_next rest (drop k fs) /\
    fd_max_payload d' = fd_max_payload d /\ fd_max_buffered d' = fd_max_buffered d.
Proof.
  revert fs d pending. induction chunks as [|chunk chunks IH]; intros fs d pending Hfs Hd Hpart Heq Hfit.
  - exists O, d, pending. split; [done|]. split; [exact Hd|]. split; [exact Heq|]. by split.
  - cbn [concat] in *. rewrite size64_app in Hfit.
    destruct (fd_push_ok d pending chunk Hd) as (d1 & Hpush & Hd1 & Hsz & Hp & Hb); [lia|].
    assert (Forall (fits_decoder d1) fs) as Hfs1.
    { eapply Forall_impl; [exact Hfs|]. unfold fits_decoder. by rewrite Hp. }
    destruct (fd_drain_frames (S (length (fd_buffer d1))) fs d1 (pending ++ chunk) (concat chunks ++ more))
      as (k & d2 & rest & Hdr & Hd2 & Heq2 & [c ->] & Hlast); [exact Hfs1|exact Hd1| | |].
    { destruct Hd1 as [_ <- _]. rewrite length_drop. lia. }
    { rewrite <- !app_assoc in *. exact Heq. }
    destruct (IH (drop k fs) (d1 <| fd_consumed := c |>) rest) as (k' & d' & rest' & Hrun & Hd' & Heq' & Hpart' & Hp' & Hb');
      [by apply Forall_drop|exact Hd2|exact Hlast|exact Heq2|cbn; lia|].
    rewrite drop_drop in Heq', Hpart'. exists (k + k')%nat, d', rest'.
    split; [|split; [exact Hd'|split; [exact Heq'|split; [exact Hpart'|by rewrite Hp', Hb']]]].
    cbn [fd_run]. unfold fd_feed. rewrite Hpush, Hdr, Hrun, <- map_app. by rewrite take_take_drop.
Qed.

(** Of the end of a stream of whole frames nothing is left. *)
Lemma part_of_nothing (rest : list byte) (fs : list Frame) :
  rest = concat (map frame_bytes fs) -> part_of_next rest fs -> rest = [] /\ fs = [].
Proof.
  intros Heq Hpart. destruct fs as [|f fs]; [by split|]. exfalso. cbn [map concat] in Heq.
  pose proof (frame_bytes_pos f) as Hpos. apply (f_equal (@length byte)) in Heq. rewrite length_app in Heq.
  destruct Hpart as [->|(f' & fs' & [= <- <-] & Hlt)]; [cbn in Heq|]; lia.
Qed.

Lemma fd_run_frames (chunks : list (list byte)) (fs : list Frame) (d : FrameDecoder) (pending : list byte) :
  Forall (fits_decoder d) fs -> holding d pending -> part_of_next pending fs ->
  pending ++ concat chunks = concat (map frame_bytes fs) ->
  size64 (fd_buffer d) + size64 (concat chunks) <= fd_max_buffered d ->
  exists d', fd_run d chunks = (Ok (map sealed_frame fs), d') /\ holding d' [] /\
    fd_max_payload d' = fd_max_payload d /\ fd_max_buffered d' = fd_max_buffered d.
Proof.
  intros Hfs Hd Hpart Heq Hfit. rewrite <- (app_nil_r (concat chunks)) in Heq.
  destruct (fd_run_prefix chunks fs d pending [] Hfs Hd Hpart Heq Hfit) as (k & d' & rest & Hrun & Hd' & Heq' & Hpart' & Ho).
  rewrite app_nil_r in Heq'. destruct (part_of_nothing _ _ Heq' Hpart') as [-> Hk].
  exists d'. rewrite <- (take_drop k fs) at 1. rewrite Hk, app_nil_r. by split.
Qed.

(** *** Long streams *)

(** How a stream of frames may arrive: in chunks of any sizes, as long as the reader
    catches up in time.  The buffer is emptied only when every byte of it has been
    consumed, so between two such points no more may arrive than the bound, whatever
    part of it is still unread. *)
Inductive keeps_up (bound : N) : list Frame -> list byte -> list (list byte) -> Prop :=
| ku_last frames chunks :
    size64 (concat chunks) <= bound -> keeps_up bound frames (concat chunks) chunks
| ku_burst here chunks later wire rest :
    concat chunks = concat (map frame_bytes here) -> size64 (concat chunks) <= bound ->
    keeps_up bound later wire rest ->
    keeps_up bound (here ++ later) (concat chunks ++ wire) (chunks ++ rest).

(** A decoder with nothing unread goes on like a new one. *)
Lemma fd_run_drained (d : FrameDecoder) (chunks : list (list byte)) :
  holding d [] -> chunks <> [] ->
  fd_run d chunks = fd_run (frame_decoder (fd_max_payload d) (fd_max_buffered d)) chunks.
Proof.
  intros [Hl Hp Hw] Hne. destruct chunks as [|chunk chunks]; [done|]. cbn [fd_run].
  assert (fd_consumed d = size64 (fd_buffer d)) as Hc.
  { apply (f_equal (@length byte)) in Hp. rewrite length_drop in Hp. unfold size64 in *. cbn in Hp. lia. }
  assert (fd_push chunk d = fd_push chunk (frame_decoder (fd_max_payload d) (fd_max_buffered d))) as Hpush.
  { unfold fd_push. cbn [frame_decoder fd_failed fd_consumed]. rewrite Hl, Hc, N.eqb_refl, andb_true_r.
    change (0 <? 0) with false. cbn [andb]. destruct d as [buffer consumed max_payload max_buffered failed]. cbn in *. subst.
    destruct (N.ltb_spec 0 (size64 buffer)) as [H|H]; cbn [set fd_buffer fd_max_buffered]; [done|].
    assert (buffer = []) as -> by (destruct buffer; [done|rewrite size64_cons in H; lia]). done. }
  unfold fd_feed. by rewrite Hpush.
Qed.

Lemma fd_run_app (d d1 : FrameDecoder) (l1 l2 : list (list byte)) (fs : list Frame) :
  fd_run d l1 = (Ok fs, d1) ->
  fd_run d (l1 ++ l2)
  = match fd_run d1 l2 with (Ok fs', d2) => (Ok (fs ++ fs'), d2) | (Err e, d2) => (Err e, d2) end.
Proof.
  revert d fs. induction l1 as [|chunk l1 IH]; intros d fs H; cbn [fd_run app] in *.
  { injection H as <- <-. by destruct (fd_run d l2) as [[e|fs'] d2]. }
  destruct (fd_feed d chunk) as [[e|here] d']; [discriminate H|].
  destruct (fd_run d' l1) as [[e|later] d2] eqn:E; [discriminate H|]. injection H as <- <-.
  rewrite (IH d' later E). destruct (fd_run d2 l2) as [[e|fs'] d3]; [done|]. by rewrite app_assoc.
Qed.

(** Whatever has arrived of a stream, the decoder has delivered the frames that are
    whole and nothing else. *)
Lemma fd_run_keeps_up (bound : N) (fs : list Frame) (wire : list byte) (chunks : list (list byte)) (d : FrameDecoder) :
  keeps_up bound fs wire chunks -> Forall (fits_decoder d) fs -> holding d [] -> bound <= fd_max_buffered d ->
  wire `prefix_of` concat (map frame_bytes fs) ->
  exists n d' rest, fd_run d chunks = (Ok (map sealed_frame (take n fs)), d') /\ holding d' rest /\
    wire = concat (map frame_bytes (take n fs)) ++ rest /\ part_of_next rest (drop n fs).
Proof.
  intros Hk. revert d. induction Hk as [fs chunks Hsize|here chunks later wire rest Hcut Hsize Hk IH];
    intros d Hfs Hd Hb Hpre.
  - destruct Hpre as [more Hmore]. destruct chunks as [|chunk chunks].
    { exists O, d, []. split; [done|]. split; [exact Hd|]. split; [done|by left]. }
    rewrite fd_run_drained by done. set (d0 := frame_decoder _ _).
    destruct (fd_run_prefix (chunk :: chunks) fs d0 [] more) as (n & d' & rest & Hrun & Hd' & Heq & Hpart & _);
      [exact Hfs|by split|by left|by rewrite Hmore|cbn [d0 frame_decoder fd_buffer fd_max_buffered]; rewrite size64_nil; lia|].
    exists n, d', rest. split; [exact Hrun|]. split; [exact Hd'|]. split; [|exact Hpart].
    apply (app_inv_tail more). rewrite <- Hmore, <- app_assoc, Heq, <- concat_app, <- map_app. by rewrite take_drop.
  - apply Forall_app in Hfs as [Hhere Hlater].
    assert (exists d1, fd_run d chunks = (Ok (map sealed_frame here), d1) /\ holding d1 [] /\
      fd_max_payload d1 = fd_max_payload d /\ fd_max_buffered d1 = fd_max_buffered d) as (d1 & Hrun & Hd1 & Hp1 & Hb1).
    { destruct chunks as [|chunk chunks].
      { destruct (part_of_nothing [] here Hcut ltac:(by left)) as [_ ->]. by exists d. }
      rewrite fd_run_drained by done.
      apply (fd_run_frames (chunk :: chunks) here (frame_decoder (fd_max_payload d) (fd_max_buffered d)) []);
        [exact Hhere|by split|by left|exact Hcut|cbn [frame_decoder fd_buffer fd_max_buffered]; rewrite size64_nil; lia]. }
    destruct (IH d1) as (n & d2 & rest2 & Hrun2 & Hd2 & Hwire & Hpart).
    + eapply Forall_impl; [exact Hlater|]. unfold fits_decoder. by rewrite Hp1.
    + exact Hd1.
    + by rewrite Hb1.
    + rewrite map_app, concat_app, Hcut in Hpre. by apply prefix_app_inv in Hpre.
    + exists (length here + n)%nat, d2, rest2. rewrite take_app_add, drop_app_add.
      split; [rewrite (fd_run_app _ _ _ _ _ Hrun), Hrun2, map_app; done|]. split; [exact Hd2|]. split; [|exact Hpart].
      by rewrite map_app, concat_app, Hcut, Hwire, <- app_assoc.
Qed.

(** Of whole frames followed by a part of the next, the decoder delivers those before
    the cut, and the next one only when the part is all of it. *)
Lemma whole_frames (before : list Frame) (f : Frame) (later : list Frame) (n : nat) (sent rest : list byte) :
  concat (map frame_bytes before) ++ sent = concat (map frame_bytes (take n (before ++ f :: later))) ++ rest ->
  sent `prefix_of` frame_bytes f -> part_of_next rest (drop n (before ++ f :: later)) ->
  take n (before ++ f :: later) = before /\ rest = sent \/
  take n (before ++ f :: later) = before ++ [f] /\ sent = frame_bytes f /\ rest = [].
Proof.
  intros Heq [tail Htail] Hpart. destruct (Nat.lt_trichotomy n (length before)) as [Hlt|[->|Hgt]].
  - exfalso. destruct (drop n before) as [|g more] eqn:Ed.
    { apply (f_equal (@length Frame)) in Ed. rewrite length_drop in Ed. cbn in Ed. lia. }
    rewrite take_app_le in Heq by lia. rewrite drop_app_le, Ed in Hpart by lia.
    rewrite <- (take_drop n before), map_app, concat_app, <- app_assoc, take_app_le, take_take, Nat.min_id, Ed in Heq
      by (rewrite length_take; lia).
    apply app_inv_head in Heq. cbn [map concat] in Heq. rewrite <- app_assoc in Heq.
    pose proof (frame_bytes_pos g). apply (f_equal (@length byte)) in Heq. rewrite length_app in Heq.
    destruct Hpart as [->|(g' & more' & [= <- <-] & Hl)]; [cbn in Heq|]; lia.
  - left. rewrite take_app_length in Heq |- *. split; [done|]. by apply app_inv_head in Heq.
  - right. destruct (n - length before)%nat as [|m] eqn:Em; [lia|].
    replace n with (length before + S m)%nat in * by lia. rewrite take_app_add in Heq |- *. cbn [take] in *.
    rewrite map_app, concat_app, <- app_assoc in Heq. apply app_inv_head in Heq. cbn [map concat] in Heq.
    rewrite Heq in Htail. rewrite <- !app_assoc in Htail.
    rewrite <- (app_nil_r (frame_bytes f)) in Htail at 1. apply app_inv_head in Htail.
    symmetry in Htail. apply app_eq_nil in Htail as [Hmid Htail]. apply app_eq_nil in Htail as [-> ->].
    rewrite Hmid, !app_nil_r in Heq. split; [|by split].
    f_equal. f_equal. destruct (take m later) as [|g more]; [done|]. cbn [map concat] in Hmid.
    apply app_eq_nil in Hmid as [Hg _]. pose proof (frame_bytes_pos g) as Hpos. rewrite Hg in Hpos. cbn in Hpos. lia.
Qed.

(** C37. However a stream of frames is cut into chunks, the decoder delivers exactly
    those frames, in order and once, and ends with nothing pending; the stream
    may be as long as the buffer bound. *)
Theorem stream_delivered (max_payload max_buffered : N) (fs : list Frame) (chunks : list (list byte))
    (Hok : Forall frame_ok fs) (Hfit : Forall (fun f => size64 (fr_payload f) <= max_payload) fs)
    (Hcut : concat chunks = concat (map frame_bytes fs)) (Hbuf : size64 (concat chunks) <= max_buffered) :
  exists d', fd_run (frame_decoder max_payload max_buffered) chunks = (Ok (map sealed_frame fs), d') /\
    fd_buffered d' = 0 /\ fd_failed d' = false.
Proof.
  destruct (fd_run_frames chunks fs (frame_decoder max_payload max_buffered) []) as (d' & Hrun & Hd' & _).
  - apply Forall_and. by split.
  - by split.
  - by left.
  - exact Hcut.
  - exact Hbuf.
  - exists d'. split; [done|]. split; [|apply Hd']. unfold fd_buffered.
    by rewrite (holding_available _ _ Hd').
Qed.

(** ** The sequence window *)

(** The verdicts of a run of observations. *)
Fixpoint observe_all (s : SequenceWindow) (l : list N) : list Verdict * SequenceWindow :=
  match l with
  | [] => ([], s)
  | q :: l' =>
      let '(v, s') := observe q s in
      let '(vs, s'') := observe_all s' l' in (v :: vs, s'')
  end.

(** The sequence numbers a run accepts. *)
Fixpoint accepted (l : list N) (vs : list Verdict) : list N :=
  match l, vs with
  | q :: l', v :: vs' => if bool_decide (v = VAccept) then q :: accepted l' vs' else accepted l' vs'
  | _, _ => []
  end.

Lemma observe_accept (q : N) (s s' : SequenceWindow) (v : Verdict) :
  observe q s = (v, s') -> sw_started s = true ->
  sw_started s' = true /\
  (v = VAccept -> sw_highest s < q /\ q - sw_highest s <= kMaxSequenceGap /\ sw_highest s' = q) /\
  (v <> VAccept -> s' = s).
Proof.
  unfold observe. intros H Hs. rewrite Hs in H. simpl in H. repeat split_match_in H; injection H as <- <-;
    reflect_bools; cbn; (split; [done|]); (split; [intros; try done|intros; try done]).
Qed.

Lemma observe_all_sorted (l : list N) (s s' : SequenceWindow) (vs : list Verdict) :
  observe_all s l = (vs, s') -> sw_started s = true ->
  StronglySorted N.lt (accepted l vs) /\ Forall (N.lt (sw_highest s)) (accepted l vs).
Proof.
  revert s s' vs. induction l as [|q l IH]; intros s s' vs H Hs; simpl in H.
  { injection H as <- <-. split; constructor. }
  destruct (observe q s) as [v s1] eqn:E. destruct (observe_all s1 l) as [vs1 s2] eqn:E2.
  injection H as <- <-. destruct (observe_accept q s s1 v E Hs) as (H1 & Ha & Hn).
  destruct (IH s1 s2 vs1 E2 H1) as [IHs IHf]. simpl. case_bool_decide as Hv.
  - destruct (Ha Hv) as (Hlt & _ & Hh). rewrite Hh in IHf. split.
    + by constructor.
    + constructor; [done|]. eapply Forall_impl; [exact IHf|]. simpl. intros. lia.
  - rewrite (Hn Hv) in IHf. by split.
Qed.

(** A fresh window accepts strictly increasing sequence numbers only: no number is
    accepted twice and nothing is accepted out of order. *)
Theorem sequences_accepted_once (window : N) (l : list N) :
  StronglySorted N.lt (accepted l (observe_all (sequence_window window) l).1).
Proof.
  destruct l as [|q l]; [constructor|]. simpl.
  destruct (observe_all _ l) as [vs s'] eqn:E. simpl.
  destruct (observe_all_sorted l _ _ _ E) as [Hs Hf]; [done|]. by constructor.
Qed.

(** ** A concrete stream *)

Definition demo_frame (sequence : N) : Frame :=
  mkFrame (mkFrameHeader 0 0 5 0 0 0 0 0 1 2 3 4 sequence 6 0 0) [x01; x02].

Lemma demo_frame_ok (sequence : N) : u64_ok sequence -> frame_ok (demo_frame sequence).
Proof. intros H. split; [done..|]. by split. Qed.

(** Consumed bytes leave the buffer only when it has been read to the end: a stream of
    small frames that is cut elsewhere is refused when the bound has arrived in all,
    with hardly a frame unread. *)
Theorem decoder_keeps_consumed :
  let stream := concat (map frame_bytes [demo_frame 1; demo_frame 2; demo_frame 3]) in
  let chunks := [take 100 stream; take 82 (drop 100 stream); drop 182 stream] in
  let early := (fd_run (frame_decoder 100 200) (take 2 chunks)).2 in
  concat chunks = stream /\ fd_buffered early = 18 /\ size64 (drop 182 stream) = 64 /\
  match (fd_run (frame_decoder 100 200) chunks).1 with Err e => st_code e = Oversized | Ok _ => False end.
Proof. vm_compute. repeat split. Qed.

Lemma frame_roundtrip_witness :
  exists bytes, encode_frame (demo_frame 5) [] = Ok bytes /\ ok (decode_frame bytes) = true.
Proof.
  assert (frame_ok (demo_frame 5)) as Hok by (by apply demo_frame_ok).
  destruct (frame_roundtrip (demo_frame 5) [] Hok) as (bytes & He & Hd & _).
  exists bytes. split; [exact He|]. rewrite Hd. reflexivity.
Defined.

Lemma frame_corruption_refused_witness :
  exists e, decode_frame (<[60%nat:=xff]> (frame_bytes (demo_frame 5))) = Err e.
Proof.
  assert (xff <> x00) as Hne by discriminate.
  exact (frame_corruption_refused (frame_bytes (demo_frame 5)) (sealed_frame (demo_frame 5)) 60 x00 xff
           ltac:(vm_compute; reflexivity) ltac:(vm_compute; reflexivity) Hne).
Defined.

Lemma stream_delivered_witness :
  let stream := frame_bytes (demo_frame 5) ++ frame_bytes (demo_frame 6) in
  exists d', fd_run default_frame_decoder [take 100 stream; drop 100 stream]
    = (Ok [sealed_frame (demo_frame 5); sealed_frame (demo_frame 6)], d').
Proof.
  intros stream.
  assert (Forall frame_ok [demo_frame 5; demo_frame 6]) as Hok
    by (repeat constructor; by apply demo_frame_ok).
  assert (Forall (fun f => size64 (fr_payload f) <= kMaxFramePayload) [demo_frame 5; demo_frame 6]) as Hfit
    by (repeat constructor; discriminate).
  destruct (stream_delivered kMaxFramePayload (kMaxFramePayload * 4) [demo_frame 5; demo_frame 6]
              [take 100 stream; drop 100 stream] Hok Hfit eq_refl) as (d' & H & _); [discriminate|].
  exists d'. exact H.
Defined.
