(* ===== verification/Messages.v ===== *)
(** * Messages: the control payload codecs of src/transport/frame.cpp

    Each message is encoded field by field with the byte writer and decoded with
    the byte reader; a payload that ends early, declares too much or misses its
    identity is refused.  The round trips are proved through the [Codec]
    interface, field by field. *)

From Stdlib Require Import Strings.Byte.
From S2P Require Import Prelude Core Enums OMap Bytes Codec Evidence Authority.

Open Scope N_scope.

(** The underlying value of an [ErrCode] and the cast back. *)
Definition err_code_val (c : ErrCode) : N :=
  match c with
  | ErrOk => 0 | InvalidArgument => 1 | OutOfRange => 2 | NotFound => 3 | AlreadyExists => 4
  | ErrStale => 5 | Unauthorized => 6 | ErrConflict => 7 | Contradictory => 8 | Malformed => 9
  | Truncated => 10 | Corrupt => 11 | Oversized => 12 | LimitExceeded => 13 | Cancelled => 14
  | Unavailable => 15 | NotReady => 16 | Closed => 17 | Internal => 18 | EpochMismatch => 19
  | GenerationMismatch => 20 | BootMismatch => 21 | AttemptMismatch => 22 | Fenced => 23
  | Duplicate => 24 | Unsupported => 25 | IoError => 26 | IntegrityFailure => 27
  | PolicyRejected => 28 | ErrRaw v => 29 + v
  end.
Definition err_code_of (v : N) : ErrCode :=
  match v with
  | 0 => ErrOk | 1 => InvalidArgument | 2 => OutOfRange | 3 => NotFound | 4 => AlreadyExists
  | 5 => ErrStale | 6 => Unauthorized | 7 => ErrConflict | 8 => Contradictory | 9 => Malformed
  | 10 => Truncated | 11 => Corrupt | 12 => Oversized | 13 => LimitExceeded | 14 => Cancelled
  | 15 => Unavailable | 16 => NotReady | 17 => Closed | 18 => Internal | 19 => EpochMismatch
  | 20 => GenerationMismatch | 21 => BootMismatch | 22 => AttemptMismatch | 23 => Fenced
  | 24 => Duplicate | 25 => Unsupported | 26 => IoError | 27 => IntegrityFailure
  | 28 => PolicyRejected | _ => ErrRaw (v - 29)
  end.

(** ** The messages *)

Record HelloMessage := mkHelloMessage {
  hm_publisher : N;
  hm_boot : N;
  hm_generation : N;
  hm_start_sequence : N;
  hm_requested : N;
  hm_agent : string
}.

Record HelloAckMessage := mkHelloAckMessage {
  ha_epoch : N;
  ha_authority_generation : N;
  ha_coordinator_boot : N;
  ha_granted : N;
  ha_coordinator_tick : N;
  ha_accepted : bool;
  ha_reason : string
}.

Record EvidenceAckMessage := mkEvidenceAckMessage {
  ea_epoch : N;
  ea_accepted : N;
  ea_rejected : N;
  ea_duplicate : N;
  ea_fenced : N
}.

Record ErrorMessage := mkErrorMessage { em_code : ErrCode; em_message : string }.
Record FenceMessage := mkFenceMessage { fm_epoch : N; fm_reason : FenceReason; fm_detail : string }.
Record PolicyMessage := mkPolicyMessage { pm_policy : N; pm_version : N; pm_fingerprint : N }.

Definition encode_hello (m : HelloMessage) : Result (list byte) :=
  bw_finish (
    bw_u64 (hm_publisher m);;
    bw_u64 (hm_boot m);;
    bw_u64 (hm_generation m);;
    bw_u64 (hm_start_sequence m);;
    bw_u32 (hm_requested m);;
    bw_text (hm_agent m) 128).
Definition decode_hello (payload : list byte) : Result HelloMessage :=
  br_run (
    let! publisher := br_u64 in
    let! boot := br_u64 in
    let! generation := br_u64 in
    let! start_sequence := br_u64 in
    let! requested := br_u32 in
    let! agent := br_text 128 in
    let! _ := br_check in
    let! _ := br_guard (negb (valid publisher) || negb (valid boot))
                Malformed "hello frame is missing publisher identity" in
    let! _ := br_guard (negb (N.ldiff requested kAuthorityAllBits =? 0))
                Malformed "hello frame requests unknown authority bits" in
    br_ret (mkHelloMessage publisher boot generation start_sequence requested agent)) payload.

Definition encode_hello_ack (m : HelloAckMessage) : Result (list byte) :=
  bw_finish (
    bw_u64 (ha_epoch m);;
    bw_u64 (ha_authority_generation m);;
    bw_u64 (ha_coordinator_boot m);;
    bw_u32 (ha_granted m);;
    bw_u64 (ha_coordinator_tick m);;
    bw_boolean (ha_accepted m);;
    bw_text (ha_reason m) 256).
Definition decode_hello_ack (payload : list byte) : Result HelloAckMessage :=
  br_run (
    let! epoch := br_u64 in
    let! generation := br_u64 in
    let! boot := br_u64 in
    let! granted := br_u32 in
    let! tick := br_u64 in
    let! accepted := br_boolean in
    let! reason := br_text 256 in
    let! _ := br_check in
    br_ret (mkHelloAckMessage epoch generation boot granted tick accepted reason)) payload.

Definition encode_evidence_ack (m : EvidenceAckMessage) : Result (list byte) :=
  bw_finish (
    bw_u64 (ea_epoch m);;
    bw_u64 (ea_accepted m);;
    bw_u64 (ea_rejected m);;
    bw_u64 (ea_duplicate m);;
    bw_u64 (ea_fenced m)).
Definition decode_evidence_ack (payload : list byte) : Result EvidenceAckMessage :=
  br_run (
    let! epoch := br_u64 in
    let! accepted := br_u64 in
    let! rejected := br_u64 in
    let! duplicate := br_u64 in
    let! fenced := br_u64 in
    let! _ := br_check in
    br_ret (mkEvidenceAckMessage epoch accepted rejected duplicate fenced)) payload.

Definition encode_error (m : ErrorMessage) : Result (list byte) :=
  bw_finish (bw_u16 (err_code_val (em_code m));; bw_text (em_message m) 512).
Definition decode_error (payload : list byte) : Result ErrorMessage :=
  br_run (
    let! code := br_cast err_code_of br_u16 in
    let! message := br_text 512 in
    let! _ := br_check in
    br_ret (mkErrorMessage code message)) payload.

Definition encode_fence_notice (m : FenceMessage) : Result (list byte) :=
  bw_finish (bw_u64 (fm_epoch m);; bw_u8 (fence_reason_val (fm_reason m));; bw_text (fm_detail m) 512).
Definition decode_fence_notice (payload : list byte) : Result FenceMessage :=
  br_run (
    let! epoch := br_u64 in
    let! reason := br_cast fence_reason_of br_u8 in
    let! detail := br_text 512 in
    let! _ := br_check in
    br_ret (mkFenceMessage epoch reason detail)) payload.

Definition encode_policy_notice (m : PolicyMessage) : Result (list byte) :=
  bw_finish (bw_u64 (pm_policy m);; bw_u32 (pm_version m);; bw_u64 (pm_fingerprint m)).
Definition decode_policy_notice (payload : list byte) : Result PolicyMessage :=
  br_run (
    let! policy := br_u64 in
    let! version := br_u32 in
    let! fingerprint := br_u64 in
    let! _ := br_check in
    br_ret (mkPolicyMessage policy version fingerprint)) payload.

(** ** Evidence *)

Definition write_reading (r : MetricReading) : Writer :=
  bw_u16 (metric_val (mr_kind r));; bw_u64 (mr_value r).
Definition write_sample (s : EvidenceSample) : Writer :=
  bw_u64 (es_resource s);;
  bw_u64 (es_queue s);;
  bw_u64 (es_publisher s);;
  bw_u64 (es_publisher_boot s);;
  bw_u64 (es_epoch s);;
  bw_u64 (es_generation s);;
  bw_u64 (es_sequence s);;
  bw_u64 (es_observed_tick s);;
  bw_u32 (es_flags s);;
  bw_u64 (size64 (es_metrics s));;
  bw_each write_reading (es_metrics s).

Definition encode_evidence (b : EvidenceBatch) : Result (list byte) :=
  guard (kMaxEvidencePerBatch <? size64 (eb_samples b))
    Oversized "evidence batch exceeds the permitted sample count" (
  bw_finish (
    bw_u64 (eb_epoch b);;
    bw_u64 (eb_provenance b);;
    bw_u64 (eb_submitted_tick b);;
    bw_u64 (size64 (eb_samples b));;
    bw_each write_sample (eb_samples b))).

(** One reading, added to the sample's metric set; a refused reading ends the
    decoding. *)
Definition read_reading (metrics : list MetricReading) : Reader (list MetricReading) :=
  let! kind := br_cast metric_of br_u16 in
  let! value := br_u64 in
  br_lift (metric_set metrics kind value).
Definition read_sample : Reader EvidenceSample :=
  let! resource := br_u64 in
  let! queue := br_u64 in
  let! publisher := br_u64 in
  let! boot := br_u64 in
  let! epoch := br_u64 in
  let! generation := br_u64 in
  let! sequence := br_u64 in
  let! observed := br_u64 in
  let! flags := br_u32 in
  let! metric_count := br_count kMaxMetricReadings "evidence sample declares more metrics than permitted" in
  let! metrics := br_loop (N.to_nat metric_count) read_reading [] in
  let! _ := br_check in
  let! _ := br_guard (negb (valid resource)) Malformed "evidence sample has no resource identity" in
  let sample := mkEvidenceSample resource queue metrics publisher boot epoch generation sequence
                  observed 0 0 0 flags in
  br_ret (sample <| es_snapshot := compute_snapshot_id sample |>).
Definition decode_evidence (payload : list byte) : Result EvidenceBatch :=
  br_run (
    let! epoch := br_u64 in
    let! provenance := br_u64 in
    let! submitted := br_u64 in
    let! count := br_count kMaxEvidencePerBatch "evidence frame declares more samples than permitted" in
    let! samples := br_vector count read_sample in
    let! _ := br_check in
    let batch := mkEvidenceBatch 0 epoch provenance submitted samples in
    br_ret (batch <| eb_id := compute_batch_id batch |>)) payload.

(** * Properties *)

Lemma err_code_of_val (c : ErrCode) : err_code_of (err_code_val c) = c.
Proof. destruct c; try reflexivity; cbn [err_code_val]; cast_raw. Qed.
#[export] Hint Resolve err_code_of_val : ncf.

(** ** What fits the wire *)

Definition short (limit : N) (s : string) : Prop := N.of_nat (String.length s) <= limit.

Record hello_words (m : HelloMessage) : Prop := {
  hw_publisher : u64_ok (hm_publisher m);
  hw_boot : u64_ok (hm_boot m);
  hw_generation : u64_ok (hm_generation m);
  hw_sequence : u64_ok (hm_start_sequence m);
  hw_requested : u32_ok (hm_requested m);
  hw_agent : short 128 (hm_agent m)
}.

(** What is refused before it is a hello. *)
Lemma decode_hello_valid (payload : list byte) (m : HelloMessage) :
  decode_hello payload = Ok m -> valid (hm_publisher m) = true /\ valid (hm_boot m) = true.
Proof.
  refine (yields_run _ (fun m => valid (hm_publisher m) = true /\ valid (hm_boot m) = true) payload m _). do 7 (apply yields_bind; intros ?). apply yields_guard. intros Hids. apply yields_guard. intros _.
  apply yields_ret. cbn. by destruct (valid _), (valid _).
Qed.

Lemma hello_rt (m : HelloMessage) :
  hello_words m -> valid (hm_publisher m) = true -> valid (hm_boot m) = true ->
  N.ldiff (hm_requested m) kAuthorityAllBits = 0 ->
  exists bytes, encode_hello m = Ok bytes /\ decode_hello bytes = Ok m.
Proof.
  intros [] Hp Hb Hr. apply round_trip_run. rt_fields. rewrite Hp, Hb, Hr. rt_tail. destruct m. rt_tail.
Qed.

Record hello_ack_words (m : HelloAckMessage) : Prop := {
  haw_epoch : u64_ok (ha_epoch m);
  haw_generation : u64_ok (ha_authority_generation m);
  haw_boot : u64_ok (ha_coordinator_boot m);
  haw_granted : u32_ok (ha_granted m);
  haw_tick : u64_ok (ha_coordinator_tick m);
  haw_reason : short 256 (ha_reason m)
}.

Record evidence_ack_words (m : EvidenceAckMessage) : Prop := {
  eaw_epoch : u64_ok (ea_epoch m);
  eaw_accepted : u64_ok (ea_accepted m);
  eaw_rejected : u64_ok (ea_rejected m);
  eaw_duplicate : u64_ok (ea_duplicate m);
  eaw_fenced : u64_ok (ea_fenced m)
}.

Lemma evidence_ack_rt (m : EvidenceAckMessage) :
  evidence_ack_words m -> exists bytes, encode_evidence_ack m = Ok bytes /\ decode_evidence_ack bytes = Ok m.
Proof. intros []. apply round_trip_run. rt_fields. destruct m. rt_tail. Qed.

Lemma evidence_ack_size (ack : EvidenceAckMessage) (payload : list byte) :
  encode_evidence_ack ack = Ok payload -> size64 payload = 40.
Proof.
  unfold encode_evidence_ack, bw_finish. cbn -[N.land N.shiftr byte_of_N]. intros H. injection H as <-. reflexivity.
Qed.

(** The two acknowledgements always encode. *)
Lemma evidence_ack_encodes (ack : EvidenceAckMessage) :
  exists payload, encode_evidence_ack ack = Ok payload /\ size64 payload <= kMaxFramePayload.
Proof.
  unfold encode_evidence_ack, bw_finish. eexists. split.
  - cbn -[N.land N.shiftr byte_of_N]. reflexivity.
  - vm_compute. discriminate.
Qed.

Lemma hello_ack_encodes (epoch generation boot granted tick : N) :
  exists payload, encode_hello_ack (mkHelloAckMessage epoch generation boot granted tick true "") = Ok payload /\
    size64 payload <= kMaxFramePayload.
Proof.
  unfold encode_hello_ack, bw_finish. eexists. split.
  - cbn -[N.land N.shiftr byte_of_N]. reflexivity.
  - vm_compute. discriminate.
Qed.

(** Every control message within its bounds is encoded, and decoding the payload
    gives the message back; a greeting also needs its identities and known
    authority bits. *)
Theorem control_roundtrip :
  (forall m, hello_words m -> valid (hm_publisher m) = true -> valid (hm_boot m) = true ->
     N.ldiff (hm_requested m) kAuthorityAllBits = 0 ->
     exists bytes, encode_hello m = Ok bytes /\ decode_hello bytes = Ok m) /\
  (forall m, hello_ack_words m -> exists bytes, encode_hello_ack m = Ok bytes /\ decode_hello_ack bytes = Ok m) /\
  (forall m, evidence_ack_words m ->
     exists bytes, encode_evidence_ack m = Ok bytes /\ decode_evidence_ack bytes = Ok m) /\
  (forall m, u16_ok (err_code_val (em_code m)) -> short 512 (em_message m) ->
     exists bytes, encode_error m = Ok bytes /\ decode_error bytes = Ok m) /\
  (forall m, u64_ok (fm_epoch m) -> u8_ok (fence_reason_val (fm_reason m)) -> short 512 (fm_detail m) ->
     exists bytes, encode_fence_notice m = Ok bytes /\ decode_fence_notice bytes = Ok m) /\
  (forall m, u64_ok (pm_policy m) -> u32_ok (pm_version m) -> u64_ok (pm_fingerprint m) ->
     exists bytes, encode_policy_notice m = Ok bytes /\ decode_policy_notice bytes = Ok m).
Proof.
  split; [exact hello_rt|]. repeat match goal with |- _ /\ _ => split end; intros m; intros.
  1: destruct H; apply round_trip_run; rt_fields; destruct m; rt_tail.
  1: by apply evidence_ack_rt.
  all: apply round_trip_run; rt_fields; destruct m; rt_tail.
Qed.

(** ** Evidence *)

Lemma decode_evidence_size (payload : list byte) (batch : EvidenceBatch) :
  decode_evidence payload = Ok batch -> size64 (eb_samples batch) <= kMaxEvidencePerBatch.
Proof.
  refine (yields_run _ (fun b => size64 (eb_samples b) <= kMaxEvidencePerBatch) payload batch _). do 3 (apply yields_bind; intros ?). eapply yields_then; [apply yields_count|]. intros count Hcount.
  eapply yields_then; [apply yields_vector|]. intros samples Hsize. apply yields_bind. intros _. apply yields_ret.
  cbn in *. etransitivity; eassumption.
Qed.

(** A batch as it is on the wire: the receiver recomputes the content identities
    and forgets what only the sender knows. *)
Definition wire_sample (s : EvidenceSample) : EvidenceSample :=
  let s := s <| es_received_tick := 0 |> <| es_provenance := 0 |> <| es_snapshot := 0 |> in
  s <| es_snapshot := compute_snapshot_id s |>.
Definition wire_batch (b : EvidenceBatch) : EvidenceBatch :=
  let b := b <| eb_id := 0 |> <| eb_samples ::= map wire_sample |> in
  b <| eb_id := compute_batch_id b |>.

Record sample_words (s : EvidenceSample) : Prop := {
  sw_resource : u64_ok (es_resource s) /\ valid (es_resource s) = true;
  sw_queue : u64_ok (es_queue s);
  sw_publisher : u64_ok (es_publisher s);
  sw_boot : u64_ok (es_publisher_boot s);
  sw_epoch : u64_ok (es_epoch s);
  sw_generation : u64_ok (es_generation s);
  sw_sequence : u64_ok (es_sequence s);
  sw_observed : u64_ok (es_observed_tick s);
  sw_flags : u32_ok (es_flags s);
  sw_metrics : metric_set_ok (es_metrics s);
  sw_readings : Forall (fun r => u16_ok (metric_val (mr_kind r)) /\ u64_ok (mr_value r)) (es_metrics s)
}.

Record batch_words (b : EvidenceBatch) : Prop := {
  bw_epoch : u64_ok (eb_epoch b);
  bw_provenance : u64_ok (eb_provenance b);
  bw_submitted : u64_ok (eb_submitted_tick b);
  bw_samples : Forall sample_words (eb_samples b);
  bw_count : size64 (eb_samples b) <= kMaxEvidencePerBatch
}.

(** Adding the readings of a metric set in order rebuilds it. *)
Lemma metric_set_last (l : list MetricReading) (r : MetricReading) :
  metric_set_ok (l ++ [r]) -> metric_set l (mr_kind r) (mr_value r) = Ok (l ++ [r]).
Proof.
  intros [Hs Hv Hb]. apply Forall_app in Hv as [_ Hv]. apply Forall_cons in Hv as [Hv _].
  assert (Forall (fun x => metric_before (mr_kind r) x = true) l) as Hlt.
  { clear -Hs. induction l as [|x l IH]; [constructor|]. apply StronglySorted_inv in Hs as [Hs Hx].
    constructor; [|by apply IH]. apply Forall_app in Hx as [_ Hx]. apply Forall_cons in Hx as [Hx _].
    unfold reading_before in Hx. unfold metric_before, metric_ltb. by apply N.ltb_lt. }
  assert (metric_position (mr_kind r) l = length l) as Hpos.
  { unfold metric_position. clear -Hlt. induction Hlt as [|x l Hx _ IH]; [done|].
    cbn [lower_bound length]. by rewrite Hx, IH. }
  unfold metric_set. rewrite Hv. unfold guard. rewrite size64_app in Hb. change (size64 [r]) with 1 in Hb.
  destruct (N.leb_spec kMaxMetricReadings (size64 l)); [lia|].
  assert (metric_has l (mr_kind r) = false) as ->.
  { unfold metric_has. by rewrite Hpos, (proj2 (lookup_ge_None l (length l))). }
  rewrite Hpos. unfold insert_at. rewrite firstn_all, drop_all. by destruct r.
Qed.

Lemma rt_readings (l acc : list MetricReading) :
  metric_set_ok (acc ++ l) ->
  Forall (fun r => u16_ok (metric_val (mr_kind r)) /\ u64_ok (mr_value r)) l ->
  round_trip (bw_each write_reading l) (br_loop (length l) read_reading acc) (acc ++ l).
Proof.
  revert acc. induction l as [|r l IH]; intros acc Hok Hw.
  { rewrite app_nil_r. exists []. split; [apply writes_nothing|apply reads_ret]. }
  apply Forall_cons in Hw as [[Hk Hv] Hw].
  assert (metric_set_ok (acc ++ [r])) as Hr.
  { apply (metric_set_ok_prefix _ l). by rewrite <- app_assoc. }
  assert (round_trip (write_reading r) (read_reading acc) (acc ++ [r])) as (bx & Hwx & Hrx).
  { unfold write_reading, read_reading. rt_fields. rewrite metric_set_last by done.
    intros q rest H. by exists q. }
  destruct (IH (acc ++ [r])) as (bs & Hws & Hrs); [by rewrite <- app_assoc|done|].
  exists (bx ++ bs). split; [exact (writes_then (write_reading r) (bw_each write_reading l) _ _ Hwx Hws)|].
  rewrite <- app_assoc in Hrs. intros q rest H. cbn [br_loop length]. unfold br_ok. rewrite (st_ok _ _ H).
  revert q rest H. by apply (reads_bind _ _ bx bs (acc ++ [r])).
Qed.

Lemma rt_sample (s : EvidenceSample) : sample_words s -> round_trip (write_sample s) read_sample (wire_sample s).
Proof.
  intros [[Hr Hv] ? ? ? ? ? ? ? ? Hok Hw]. unfold write_sample, read_sample.
  pose proof (mso_bound _ Hok) as Hb.
  assert (u64_ok (size64 (es_metrics s))) by (unfold u64_ok, kMaxMetricReadings in *; lia).
  pose proof (rt_readings (es_metrics s) [] Hok Hw) as Hm. rewrite app_nil_l in Hm.
  assert (length (es_metrics s) = N.to_nat (size64 (es_metrics s))) as Hl by (unfold size64; lia).
  rewrite Hl in Hm. rt_fields. rewrite Hv. rt_tail.
Qed.

Lemma rt_samples (l : list EvidenceSample) :
  Forall sample_words l -> round_trip (bw_each write_sample l) (br_vector (size64 l) read_sample) (map wire_sample l).
Proof. intros Hl. apply round_trip_vector_map. eapply Forall_impl; [exact Hl|]. apply rt_sample. Qed.

Lemma evidence_rt (b : EvidenceBatch) :
  batch_words b -> exists bytes, encode_evidence b = Ok bytes /\ decode_evidence bytes = Ok (wire_batch b).
Proof.
  intros [? ? ? Hs Hc]. unfold encode_evidence, guard.
  destruct (N.ltb_spec kMaxEvidencePerBatch (size64 (eb_samples b))); [lia|].
  apply round_trip_run. pose proof (rt_samples _ Hs) as Hr.
  assert (u64_ok (size64 (eb_samples b))).
  { unfold u64_ok. eapply N.le_lt_trans; [exact Hc|done]. }
  rt_fields. rt_tail.
Qed.

(** A batch of samples within the bounds is encoded, and what arrives is the batch
    with its content identities recomputed. *)
Theorem evidence_roundtrip (b : EvidenceBatch) (Hb : batch_words b) :
  exists bytes, encode_evidence b = Ok bytes /\ decode_evidence bytes = Ok (wire_batch b).
Proof. by apply evidence_rt. Qed.

(** ** Concrete messages *)

Definition demo_wire_batch : EvidenceBatch :=
  mkEvidenceBatch 0 1 2 3 [mkEvidenceSample 7 0 [mkMetricReading MkUtilizationPpm 9] 4 5 1 1 8 3 0 0 0 0].

Lemma evidence_roundtrip_witness :
  exists bytes, encode_evidence demo_wire_batch = Ok bytes /\ decode_evidence bytes = Ok (wire_batch demo_wire_batch).
Proof.
  refine (evidence_roundtrip demo_wire_batch _). split; try reflexivity; [|discriminate].
  constructor; [|constructor]. split; try reflexivity; [by split| |].
  - split; [repeat constructor|repeat constructor|discriminate].
  - by repeat constructor.
Defined.

Lemma control_roundtrip_witness :
  exists bytes, encode_hello (mkHelloMessage 1 2 3 4 5 "agent") = Ok bytes /\ decode_hello bytes = Ok (mkHelloMessage 1 2 3 4 5 "agent").
Proof.
  refine (proj1 control_roundtrip (mkHelloMessage 1 2 3 4 5 "agent") _ eq_refl eq_refl eq_refl).
  split; try reflexivity. discriminate.
Defined.
