(* ===== verification/Publisher.v ===== *)
(** * Publisher: include/ncf/runtime/publisher.hpp and src/runtime/publisher.cpp

    The synthetic publisher process: the handshake, the batches it builds from its
    script, and the wait for each acknowledgement.  What the channel's reads answer,
    which writes succeed and what the local clock shows are parameters; a channel with
    nothing more to read is one whose peer has closed.  Sums of signed words that
    would overflow are undefined in C++ and are written without a bound. *)

From stdpp Require Import base list.
From Stdlib Require Import Strings.Byte ZArith.
From S2P Require Import Prelude Core Enums Bytes Codec Evidence Authority Frame Messages.

Open Scope N_scope.

(** ** Scripts and reports *)

Record PublisherScript := mkPublisherScript {
  ps_domain : N;
  ps_resources : list N;
  ps_samples : N;
  ps_interval_ms : N;
  ps_utilization_ppm : N;
  ps_queue_ppm : N;
  ps_buffer_ppm : N;
  ps_loss_ppm : N;
  ps_latency_micros : N;
  ps_jitter_micros : N;
  ps_residual_bps : N;
  ps_egress_bps : N;
  ps_utilization_step_ppm : Z;
  ps_loss_step_ppm : Z;
  ps_queue_step_ppm : Z;
  ps_generation_start : N;
  ps_send_hello : bool;
  ps_send_goodbye : bool;
  ps_request_full_authority : bool;
  ps_repeats : N;
  ps_skip_handshake : bool
}.

Record PublisherReport := mkPublisherReport {
  pu_connected : bool;
  pu_hello_accepted : bool;
  pu_hello_reason : string;
  pu_epoch : N;
  pu_authority_generation : N;
  pu_granted : N;
  pu_frames_sent : N;
  pu_frames_acked : N;
  pu_samples_sent : N;
  pu_errors : N;
  pu_fences_received : N;
  pu_detail : string
}.

#[export] Instance PublisherReport_settable : Settable PublisherReport :=
  fields! mkPublisherReport < pu_connected; pu_hello_accepted; pu_hello_reason; pu_epoch; pu_authority_generation;
    pu_granted; pu_frames_sent; pu_frames_acked; pu_samples_sent; pu_errors; pu_fences_received; pu_detail >.

Definition publisher_report_default : PublisherReport := mkPublisherReport false false "" 0 0 0 0 0 0 0 0 "".

Record PublisherClientOptions := mkPublisherClientOptions {
  pc_endpoint : string;
  pc_publisher : N;
  pc_boot : N;
  pc_connect_timeout_micros : N;
  pc_agent : string
}.

(** ** Observations *)

Record TickBridge := mkTickBridge { tb_offset : Z; tb_aligned : bool }.

Definition bridge_stamp (b : TickBridge) (local : N) : N :=
  if negb (tb_aligned b) then local
  else
    let shifted := (i64_of_u64 local + tb_offset b)%Z in
    if (shifted <=? 0)%Z then 1 else Z.to_N shifted.

(** The value, never negative. *)
Definition metric_value (base : N) (step : Z) (index : N) : N :=
  Z.to_N (i64_of_u64 base + step * i64_of_u64 index).

(** [put]: zero omits the metric, and a metric that is refused is left out. *)
Definition put_metric (kind : MetricKind) (value : N) (readings : list MetricReading) : list MetricReading :=
  if value =? 0 then readings else match metric_set readings kind value with Ok l => l | Err _ => readings end.

Definition sample_metrics (script : PublisherScript) (index : N) : list MetricReading :=
  put_metric MkEgressRateBps (ps_egress_bps script)
    (put_metric MkResidualCapacityBps (ps_residual_bps script)
    (put_metric MkJitterMicros (ps_jitter_micros script)
    (put_metric MkLatencyMicros (ps_latency_micros script)
    (put_metric MkLossRatePpm (metric_value (ps_loss_ppm script) (ps_loss_step_ppm script) index)
    (put_metric MkBufferUtilizationPpm (ps_buffer_ppm script)
    (put_metric MkQueueOccupancyPpm (metric_value (ps_queue_ppm script) (ps_queue_step_ppm script) index)
    (put_metric MkUtilizationPpm (metric_value (ps_utilization_ppm script) (ps_utilization_step_ppm script) index) []))))))).

(** One sample of the batch with the number [index]. *)
Definition build_sample (options : PublisherClientOptions) (script : PublisherScript) (epoch sequence stamp provenance index
    resource : N) : EvidenceSample :=
  let sample := mkEvidenceSample resource 0 (sample_metrics script index) (pc_publisher options) (pc_boot options) epoch
                  (w64 (ps_generation_start script + index)) sequence stamp 0 provenance 0 0 in
  sample <| es_snapshot := compute_snapshot_id sample |>.

(** The batch, or nothing when a sample has no metric. *)
Definition build_batch (options : PublisherClientOptions) (script : PublisherScript) (epoch sequence stamp index : N) :
    option EvidenceBatch :=
  let provenance := compute_provenance_id PkRemotePublisher (pc_publisher options) (pc_boot options) epoch stamp in
  let samples := map (build_sample options script epoch sequence stamp provenance index) (ps_resources script) in
  if existsb (fun s => bool_decide (es_metrics s = [])) samples then None
  else
    let batch := mkEvidenceBatch 0 epoch provenance stamp samples in
    Some (batch <| eb_id := compute_batch_id batch |>).

Definition publisher_frame (options : PublisherClientOptions) (type : FrameType) (epoch sequence nonce : N)
    (payload : list byte) : Frame :=
  mkFrame (mkFrameHeader kFrameMagic 0 (frame_type_val type) 0 0 0 0 0 epoch (pc_boot options) (pc_publisher options) 0
             sequence nonce 0 0) payload.

(** ** The conversation *)

Record Publishing := mkPublishing {
  pb_report : PublisherReport;
  pb_decoder : FrameDecoder;
  pb_sequence : N;
  pb_bridge : TickBridge;
  pb_reads : list (Result (list byte));
  pb_sent : list (list byte);
  pb_writes : N;
  pb_clock_reads : N
}.

#[export] Instance Publishing_settable : Settable Publishing :=
  fields! mkPublishing < pb_report; pb_decoder; pb_sequence; pb_bridge; pb_reads; pb_sent; pb_writes; pb_clock_reads >.

Definition new_publishing (reads : list (Result (list byte))) : Publishing :=
  mkPublishing (publisher_report_default <| pu_connected := true |>) default_frame_decoder 1 (mkTickBridge 0 false) reads
    [] 0 0.

(** The function returns, or goes on with a value. *)
Inductive Flow (A : Type) :=
| Return (r : Result PublisherReport)
| Continue (a : A).
Arguments Return {A} r.
Arguments Continue {A} a.

Section Conversation.
Context (local_clock : N -> N) (write_ok : N -> bool) (write_error : Status).

Definition read_local (p : Publishing) : N * Publishing :=
  (local_clock (pb_clock_reads p), p <| pb_clock_reads ::= N.succ |>).

(** Encode and write a frame. *)
Definition publish (frame : Frame) (p : Publishing) : Result unit * Publishing :=
  match encode_frame frame [] with
  | Err e => (Err e, p)
  | Ok bytes =>
      if write_ok (pb_writes p)
      then (Ok tt, p <| pb_writes ::= N.succ |> <| pb_sent ::= fun l => l ++ [bytes] |>
                     <| pb_report ::= fun r => r <| pu_frames_sent ::= N.succ |> |>)
      else (Err write_error, p <| pb_writes ::= N.succ |>)
  end.

(** A read of a waiting loop, pushed into the decoder. *)
Definition receive (closed_detail message : string) (p : Publishing) : Result unit * Publishing :=
  let read := match pb_reads p with [] => Ok [] | r :: _ => r end in
  let p := p <| pb_reads ::= tail |> in
  match read with
  | Err e => (Err (mkStatus Unavailable message (describe e)), p)
  | Ok [] => (Err (mkStatus Unavailable message closed_detail), p)
  | Ok chunk => let '(pushed, d) := fd_push chunk (pb_decoder p) in (pushed, p <| pb_decoder := d |>)
  end.

(** The acknowledgement of the hello, received at [after]. *)
Definition accept_ack (ack : HelloAckMessage) (before after : N) (p : Publishing) : Publishing :=
  let p := p <| pb_report ::= fun r => r <| pu_hello_accepted := ha_accepted ack |> <| pu_hello_reason := ha_reason ack |>
                 <| pu_epoch := ha_epoch ack |> <| pu_authority_generation := ha_authority_generation ack |>
                 <| pu_granted := ha_granted ack |> |> in
  if ha_coordinator_tick ack =? kNoTick then p
  else
    let midpoint := w64 (before + w64 (after + 2 ^ 64 - before) / 2) in
    p <| pb_bridge := mkTickBridge (i64_of_u64 (ha_coordinator_tick ack) - i64_of_u64 midpoint) true |>.

(** The inner loop of the handshake. *)
Fixpoint drain_handshake (fuel : nat) (before : N) (got_ack : bool) (p : Publishing) : Flow bool * Publishing :=
  match fuel with
  | O => (Continue got_ack, p)
  | S fuel =>
      match fd_next (pb_decoder p) with
      | (Err e, d) => (Return (Err e), p <| pb_decoder := d |>)
      | (Ok None, d) => (Continue got_ack, p <| pb_decoder := d |>)
      | (Ok (Some response), d) =>
          let p := p <| pb_decoder := d |> in
          if negb (bool_decide (frame_type response = FtHelloAck)) then drain_handshake fuel before got_ack p
          else
            match decode_hello_ack (fr_payload response) with
            | Err e => (Return (Err e), p)
            | Ok ack =>
                let '(after, p) := read_local p in
                let p := accept_ack ack before after p in
                if ha_accepted ack then drain_handshake fuel before true p
                else
                  let p := p <| pb_report ::= fun r => r <| pu_errors ::= N.succ |> <| pu_detail := ha_reason ack |> |> in
                  (Return (Ok (pb_report p)), p)
            end
      end
  end.

(** [while (!got_ack)]: every turn but the first needs a read, so the reads that are
    left and one are fuel enough. *)
Fixpoint await_handshake (fuel : nat) (before : N) (p : Publishing) : Flow unit * Publishing :=
  match fuel with
  | O => (Continue tt, p)
  | S fuel =>
      match receive "connection closed during the handshake" "handshake failed" p with
      | (Err e, p) => (Return (Err e), p)
      | (Ok _, p) =>
          match drain_handshake (S (length (fd_buffer (pb_decoder p)))) before false p with
          | (Return r, p) => (Return r, p)
          | (Continue true, p) => (Continue tt, p)
          | (Continue false, p) => await_handshake fuel before p
          end
      end
  end.

Definition handshake (options : PublisherClientOptions) (script : PublisherScript) (p : Publishing) :
    Flow unit * Publishing :=
  let hello := mkHelloMessage (pc_publisher options) (pc_boot options) (ps_generation_start script) (pb_sequence p) auth_all
                 (pc_agent options) in
  match encode_hello hello with
  | Err e => (Return (Err e), p)
  | Ok payload =>
      let nonce := make_nonce (pc_publisher options) (pb_sequence p) in
      match publish (publisher_frame options FtHello 0 (pb_sequence p) nonce payload) p with
      | (Err e, p) => (Return (Err e), p)
      | (Ok _, p) =>
          let '(before, p) := read_local p in await_handshake (S (length (pb_reads p))) before p
      end
  end.

(** The inner loop of the wait for an acknowledgement. *)
Fixpoint drain_replies (fuel : nat) (acked : bool) (p : Publishing) : Flow bool * Publishing :=
  match fuel with
  | O => (Continue acked, p)
  | S fuel =>
      match fd_next (pb_decoder p) with
      | (Err e, d) => (Return (Err e), p <| pb_decoder := d |>)
      | (Ok None, d) => (Continue acked, p <| pb_decoder := d |>)
      | (Ok (Some response), d) =>
          let p := p <| pb_decoder := d |> in
          match frame_type response with
          | FtEvidenceAck =>
              drain_replies fuel true (p <| pb_report ::= fun r => r <| pu_frames_acked ::= N.succ |> |>)
          | FtFenceNotice =>
              let detail := match decode_fence_notice (fr_payload response) with Ok n => fm_detail n | Err _ => "fenced"%string end in
              let p := p <| pb_report ::= fun r => r <| pu_fences_received ::= N.succ |> <| pu_detail := detail |> |> in
              (Return (Ok (pb_report p)), p)
          | FtErrorNotice =>
              let detail := match decode_error (fr_payload response) with Ok n => em_message n | Err _ => "protocol error"%string end in
              let p := p <| pb_report ::= fun r => r <| pu_errors ::= N.succ |> <| pu_detail := detail |> |> in
              (Return (Ok (pb_report p)), p)
          | _ => drain_replies fuel acked p
          end
      end
  end.

Fixpoint await_replies (fuel : nat) (p : Publishing) : Flow unit * Publishing :=
  match fuel with
  | O => (Continue tt, p)
  | S fuel =>
      match receive "connection closed while awaiting an acknowledgement" "evidence acknowledgement failed" p with
      | (Err e, p) => (Return (Err e), p)
      | (Ok _, p) =>
          match drain_replies (S (length (fd_buffer (pb_decoder p)))) false p with
          | (Return r, p) => (Return r, p)
          | (Continue true, p) => (Continue tt, p)
          | (Continue false, p) => await_replies fuel p
          end
      end
  end.

(** One turn of the evidence loop. *)
Definition publish_batch (options : PublisherClientOptions) (script : PublisherScript) (index : N) (p : Publishing) :
    Flow unit * Publishing :=
  let '(local, p) := read_local p in
  let epoch := pu_epoch (pb_report p) in
  match build_batch options script epoch (pb_sequence p) (bridge_stamp (pb_bridge p) local) index with
  | None => (Return (fail InvalidArgument "publisher script produced a sample with no metrics"), p)
  | Some batch =>
      match encode_evidence batch with
      | Err e => (Return (Err e), p)
      | Ok payload =>
          let nonce := make_nonce (pc_publisher options) (pb_sequence p) in
          match publish (publisher_frame options FtEvidence epoch (pb_sequence p) nonce payload) p with
          | (Err e, p) => (Return (Err e), p)
          | (Ok _, p) =>
              let p := p <| pb_report ::= fun r => r <| pu_samples_sent ::= N.add (size64 (eb_samples batch)) |> |>
                         <| pb_sequence ::= fun s => w64 (s + 1) |> in
              await_replies (S (length (pb_reads p))) p
          end
      end
  end.

(** The evidence loop from [index], with [turns] to go. *)
Fixpoint publish_batches (options : PublisherClientOptions) (script : PublisherScript) (turns : nat) (index : N)
    (p : Publishing) : Flow unit * Publishing :=
  match turns with
  | O => (Continue tt, p)
  | S turns =>
      match publish_batch options script index p with
      | (Return r, p) => (Return r, p)
      | (Continue _, p) => publish_batches options script turns (index + 1) p
      end
  end.

(** The goodbye, whose failure is not reported. *)
Definition say_goodbye (options : PublisherClientOptions) (p : Publishing) : Publishing :=
  (publish (publisher_frame options FtGoodbye (pu_epoch (pb_report p)) (pb_sequence p) 0 []) p).2.

(** [run_publisher] behind a connection. *)
Definition converse (options : PublisherClientOptions) (script : PublisherScript) (p : Publishing) :
    Result PublisherReport * Publishing :=
  match (if ps_send_hello script && negb (ps_skip_handshake script) then handshake options script p else (Continue tt, p)) with
  | (Return r, p) => (r, p)
  | (Continue _, p) =>
      match publish_batches options script (N.to_nat (w64 (ps_samples script * ps_repeats script))) 0 p with
      | (Return r, p) => (r, p)
      | (Continue _, p) =>
          let p := if ps_send_goodbye script then say_goodbye options p else p in (Ok (pb_report p), p)
      end
  end.

(** [run_publisher]; [connected]: what connecting to the endpoint answered. *)
Definition run_publisher (options : PublisherClientOptions) (script : PublisherScript) (connected : Result unit)
    (reads : list (Result (list byte))) : Result PublisherReport :=
  guard (String.eqb (pc_endpoint options) "") InvalidArgument "publisher endpoint is empty" (
  guard (negb (valid (pc_publisher options)) || negb (valid (pc_boot options)))
    InvalidArgument "publisher needs both publisher and boot identities" (
  guard (bool_decide (ps_resources script = [])) InvalidArgument "publisher script names no resources" (
  guard (negb (valid (ps_domain script))) InvalidArgument "publisher script names no domain" (
  match connected with
  | Err e => Err e
  | Ok _ => (converse options script (new_publishing reads)).1
  end)))).
End Conversation.

(** * Properties *)

(** ** Stamps *)

Lemma i64_of_u64_small (v : N) : v < 2 ^ 63 -> i64_of_u64 v = Z.of_N v.
Proof. intros H. unfold i64_of_u64. by rewrite (proj2 (N.ltb_lt _ _) H). Qed.

(** The hello is sent at [sent], the coordinator reads its clock at [read] for the
    acknowledgement, which arrives at [after]; all by the local clock, which the
    coordinator's is ahead of by [ahead].  Every later stamp is the coordinator's
    clock, but for the distance of [read] from the middle of the round trip: it may
    be early or late, and late by half the round trip at most. *)
Theorem stamps_are_aligned (ack : HelloAckMessage) (sent before read after local : N) (ahead : Z) (p : Publishing)
    (Horder : sent <= before /\ before <= after /\ sent <= read /\ read <= after /\ after <= local)
    (Hack : Z.of_N (ha_coordinator_tick ack) = (Z.of_N read + ahead)%Z) (Htick : ha_coordinator_tick ack <> kNoTick)
    (Hlocal : local < 2 ^ 63) (Hbound : ha_coordinator_tick ack < 2 ^ 63) :
  let stamp := Z.of_N (bridge_stamp (pb_bridge (accept_ack ack before after p)) local) in
  let coordinator := (Z.of_N local + ahead)%Z in
  let half := Z.of_N ((after - before) / 2) in
  (coordinator - (Z.of_N (before - sent) + half) <= stamp <= coordinator + half + 1)%Z.
Proof.
  cbv zeta. unfold accept_ack. rewrite (proj2 (N.eqb_neq _ _) Htick). cbn [pb_bridge set]. unfold bridge_stamp.
  cbn [tb_aligned tb_offset negb]. unfold kNoTick in Htick.
  assert (w64 (after + 2 ^ 64 - before) = after - before) as ->.
  { unfold w64. replace (after + 2 ^ 64 - before) with (after - before + 1 * 2 ^ 64) by lia.
    rewrite N.Div0.mod_add. apply N.mod_small. lia. }
  set (half := (after - before) / 2).
  assert (2 * half <= after - before < 2 * half + 2) as Hhalf.
  { unfold half. pose proof (N.div_mod' (after - before) 2) as E. pose proof (N.mod_lt (after - before) 2 ltac:(done)) as Hm.
    revert E Hm. clear. generalize (after - before), ((after - before) / 2), ((after - before) mod 2). lia. }
  rewrite (w64_small (before + half)) by (unfold u64_ok; lia). rewrite !i64_of_u64_small by lia.
  destruct (Z.leb_spec (Z.of_N local + (Z.of_N (ha_coordinator_tick ack) - Z.of_N (before + half))) 0); lia.
Qed.

Definition demo_ack (tick : N) : HelloAckMessage := mkHelloAckMessage 3 1 5 0 tick true "".

Lemma stamps_are_aligned_witness :
  let stamp := Z.of_N (bridge_stamp (pb_bridge (accept_ack (demo_ack 105) 10 20 (new_publishing []))) 30) in
  (120 - (Z.of_N (10 - 9) + 5) <= stamp <= 120 + 5 + 1)%Z.
Proof.
  refine (stamps_are_aligned (demo_ack 105) 9 10 15 20 30 90 (new_publishing []) _ _ _ _ _);
    [repeat split; discriminate|reflexivity|discriminate|reflexivity|reflexivity].
Defined.

(** An answer that was written late in the round trip is stamped ahead of the
    coordinator's clock: here the clocks agree, and the stamp is 5 in the future. *)
Example a_stamp_in_the_future :
  bridge_stamp (pb_bridge (accept_ack (demo_ack 20) 10 20 (new_publishing []))) 30 = 35.
Proof. reflexivity. Qed.

(** ** Batches *)

(** What the script says of a metric in the batch [index]. *)
Definition script_value (script : PublisherScript) (index : N) (kind : MetricKind) : N :=
  match kind with
  | MkUtilizationPpm => metric_value (ps_utilization_ppm script) (ps_utilization_step_ppm script) index
  | MkQueueOccupancyPpm => metric_value (ps_queue_ppm script) (ps_queue_step_ppm script) index
  | MkBufferUtilizationPpm => ps_buffer_ppm script
  | MkLossRatePpm => metric_value (ps_loss_ppm script) (ps_loss_step_ppm script) index
  | MkLatencyMicros => ps_latency_micros script
  | MkJitterMicros => ps_jitter_micros script
  | MkResidualCapacityBps => ps_residual_bps script
  | MkEgressRateBps => ps_egress_bps script
  | _ => 0
  end.

(** A metric of the script is reported unless it is zero or beyond what is plausible. *)
Definition script_reading (script : PublisherScript) (index : N) (kind : MetricKind) : option N :=
  let value := script_value script index kind in
  if (value =? 0) || bool_decide (validate_metric_value kind value <> None) then None else Some value.

(** The set after some of the [put]s: what it holds of each kind. *)
Record puts (n : N) (of_kind : MetricKind -> option N) (l : list MetricReading) : Prop := {
  pt_ok : metric_set_ok l;
  pt_size : size64 l <= n;
  pt_get : forall k, metric_get l k = of_kind k
}.

Lemma put_metric_puts (n : N) (of_kind : MetricKind -> option N) (l : list MetricReading) (kind : MetricKind) (v : N) :
  puts n of_kind l -> n < kMaxMetricReadings -> of_kind kind = None ->
  puts (n + 1)
    (fun k => if bool_decide (k = kind)
              then if (v =? 0) || bool_decide (validate_metric_value kind v <> None) then None else Some v
              else of_kind k)
    (put_metric kind v l).
Proof.
  intros [Hok Hsize Hget] Hn Hnone. unfold put_metric. destruct (v =? 0).
  { split; [done|lia|]. intros k. rewrite Hget. by case_bool_decide; subst. }
  cbn [orb]. destruct (validate_metric_value kind v) as [reason|] eqn:Ev.
  { rewrite bool_decide_true by done. unfold metric_set. rewrite Ev. cbn [fail].
    split; [done|lia|]. intros k. rewrite Hget. by case_bool_decide; subst. }
  rewrite (bool_decide_false (None <> None)) by congruence.
  destruct (metric_set l kind v) as [e|l'] eqn:Es.
  - exfalso. unfold metric_set in Es. rewrite Ev in Es. unfold guard in Es.
    rewrite (proj2 (N.leb_gt _ _)) in Es by lia. destruct (metric_has l kind) eqn:Eh; [|done].
    rewrite metric_has_get, bool_decide_eq_true, Hget, Hnone in Eh. by destruct Eh.
  - destruct (metric_set_Ok _ _ _ _ Hok Es) as [Hok' Hperm]. split; [done| |].
    + unfold size64 in *. rewrite Hperm. cbn [length]. lia.
    + intros k. rewrite (metric_get_set _ _ _ _ _ Hok Es). case_bool_decide; [done|apply Hget].
Qed.

Lemma sample_metrics_puts (script : PublisherScript) (index : N) :
  puts 8 (script_reading script index) (sample_metrics script index).
Proof.
  assert (puts 0 (fun _ => None) []) as H by (split; [apply metric_set_ok_nil|done|by intros []]).
  do 8 (let put kind := (apply (put_metric_puts _ _ _ kind (script_value script index kind)) in H;
                         [|reflexivity|reflexivity]) in
        first [put MkUtilizationPpm | put MkQueueOccupancyPpm | put MkBufferUtilizationPpm | put MkLossRatePpm
              | put MkLatencyMicros | put MkJitterMicros | put MkResidualCapacityBps | put MkEgressRateBps]).
  destruct H as [Hok Hsize Hget]. split; [exact Hok|exact Hsize|].
  intros k. rewrite Hget. unfold script_reading, script_value. by destruct k.
Qed.

(** A script and a batch of it within the words of the wire, with ramps that do not
    overflow. *)
Record script_words (options : PublisherClientOptions) (script : PublisherScript) (epoch sequence stamp index : N) :
    Prop := {
  pw_publisher : u64_ok (pc_publisher options);
  pw_boot : u64_ok (pc_boot options);
  pw_resources : Forall (fun r => u64_ok r /\ valid r = true) (ps_resources script);
  pw_count : size64 (ps_resources script) <= kMaxEvidencePerBatch;
  pw_fixed : u64_ok (ps_latency_micros script) /\ u64_ok (ps_jitter_micros script) /\
             u64_ok (ps_residual_bps script) /\ u64_ok (ps_egress_bps script) /\ u64_ok (ps_buffer_ppm script);
  pw_ramps : Forall (fun ramp : N * Z => ramp.1 < 2 ^ 63 /\ index < 2 ^ 63 /\
                       (- 2 ^ 63 <= ramp.2 * Z.of_N index < 2 ^ 63)%Z /\
                       (Z.of_N ramp.1 + ramp.2 * Z.of_N index < 2 ^ 63)%Z)
               [(ps_utilization_ppm script, ps_utilization_step_ppm script); (ps_queue_ppm script, ps_queue_step_ppm script);
                (ps_loss_ppm script, ps_loss_step_ppm script)];
  pw_epoch : u64_ok epoch;
  pw_sequence : u64_ok sequence;
  pw_stamp : u64_ok stamp
}.

Lemma metric_value_word (base : N) (step : Z) (index : N) :
  base < 2 ^ 63 /\ index < 2 ^ 63 /\ (- 2 ^ 63 <= step * Z.of_N index < 2 ^ 63)%Z /\
  (Z.of_N base + step * Z.of_N index < 2 ^ 63)%Z -> u64_ok (metric_value base step index).
Proof. intros (Hb & Hi & Hm & Hs). unfold metric_value, u64_ok. rewrite !i64_of_u64_small by done. lia. Qed.

Lemma script_value_word (options : PublisherClientOptions) (script : PublisherScript) (epoch sequence stamp index : N)
    (kind : MetricKind) :
  script_words options script epoch sequence stamp index -> u64_ok (script_value script index kind).
Proof.
  intros [_ _ _ _ (? & ? & ? & ? & ?) Hr _ _ _]. rewrite !Forall_cons in Hr. destruct Hr as (? & ? & ? & _).
  destruct kind; cbn [script_value]; try done; by apply metric_value_word.
Qed.

Lemma sample_metrics_words (options : PublisherClientOptions) (script : PublisherScript)
    (epoch sequence stamp index : N) :
  script_words options script epoch sequence stamp index ->
  Forall (fun r => u16_ok (metric_val (mr_kind r)) /\ u64_ok (mr_value r)) (sample_metrics script index).
Proof.
  intros Hw. destruct (sample_metrics_puts script index) as [Hok _ Hget]. apply Forall_forall. intros [kind v] Hin.
  cbn [mr_kind mr_value].
  assert (script_reading script index kind = Some v) as Hr.
  { rewrite <- Hget. apply metric_get_elem; [apply Hok|done]. }
  unfold script_reading in Hr. cbv zeta in Hr. destruct (_ || _) eqn:E; [done|]. injection Hr as <-.
  split; [|by eapply script_value_word]. by destruct kind.
Qed.

(** A sample as it arrives. *)
Definition authored (options : PublisherClientOptions) (script : PublisherScript) (epoch sequence stamp index : N)
    (s : EvidenceSample) : Prop :=
  es_publisher s = pc_publisher options /\ es_publisher_boot s = pc_boot options /\ es_epoch s = epoch /\
  es_generation s = w64 (ps_generation_start script + index) /\ es_sequence s = sequence /\
  es_observed_tick s = stamp /\ es_metrics s <> [] /\
  (forall kind, metric_get (es_metrics s) kind = script_reading script index kind).

Lemma build_sample_fields (options : PublisherClientOptions) (script : PublisherScript)
    (epoch sequence stamp provenance index resource : N) :
  let s := build_sample options script epoch sequence stamp provenance index resource in
  exists id, s = mkEvidenceSample resource 0 (sample_metrics script index) (pc_publisher options) (pc_boot options) epoch
    (w64 (ps_generation_start script + index)) sequence stamp 0 provenance id 0.
Proof. eexists. reflexivity. Qed.

Lemma wire_sample_fields (s : EvidenceSample) :
  exists id, wire_sample s = s <| es_received_tick := 0 |> <| es_provenance := 0 |> <| es_snapshot := id |>.
Proof. eexists. reflexivity. Qed.

Lemma build_batch_fields (options : PublisherClientOptions) (script : PublisherScript) (epoch sequence stamp index : N)
    (batch : EvidenceBatch) :
  build_batch options script epoch sequence stamp index = Some batch ->
  (ps_resources script = [] \/ sample_metrics script index <> []) /\
  exists id provenance, u64_ok provenance /\
    batch = mkEvidenceBatch id epoch provenance stamp
              (map (build_sample options script epoch sequence stamp provenance index) (ps_resources script)).
Proof.
  unfold build_batch. cbv zeta. set (provenance := compute_provenance_id _ _ _ _ _).
  assert (u64_ok provenance) as Hp by apply finish_ok. clearbody provenance.
  destruct (existsb _ _) eqn:Eempty; [by intros ?|]. intros H. apply (inj Some) in H. split.
  - destruct (ps_resources script) as [|r l]; [by left|right]. cbn [map existsb] in Eempty.
    apply orb_false_iff in Eempty as [Eempty _]. apply bool_decide_eq_false in Eempty. exact Eempty.
  - rewrite <- H. eexists _, provenance. split; [exact Hp|]. reflexivity.
Qed.

Lemma built_sample_words (options : PublisherClientOptions) (script : PublisherScript)
    (epoch sequence stamp provenance index resource : N) :
  script_words options script epoch sequence stamp index -> resource ∈ ps_resources script ->
  sample_words (build_sample options script epoch sequence stamp provenance index resource).
Proof.
  intros Hw Hin. pose proof (sample_metrics_words _ _ _ _ _ _ Hw) as Hm. destruct Hw as [Hpub Hboot Hres _ _ _ He Hs Ht].
  rewrite Forall_forall in Hres. destruct (Hres _ Hin) as [Hr Hv].
  destruct (build_sample_fields options script epoch sequence stamp provenance index resource) as [id ->].
  split; cbn [es_resource es_queue es_metrics es_publisher es_publisher_boot es_epoch es_generation es_sequence
                es_observed_tick es_flags]; try assumption; try done; [apply w64_ok|].
  apply sample_metrics_puts.
Qed.

Lemma built_sample_authored (options : PublisherClientOptions) (script : PublisherScript)
    (epoch sequence stamp provenance index resource : N) :
  sample_metrics script index <> [] ->
  let s := wire_sample (build_sample options script epoch sequence stamp provenance index resource) in
  es_resource s = resource /\ authored options script epoch sequence stamp index s.
Proof.
  intros Hne. cbv zeta. destruct (build_sample_fields options script epoch sequence stamp provenance index resource) as [id ->].
  match goal with |- context [wire_sample ?s] => destruct (wire_sample_fields s) as [id' ->] end.
  repeat split; [exact Hne|]. intros kind. apply (pt_get _ _ _ (sample_metrics_puts script index)).
Qed.

(** C17. A batch of the script is encoded, and what the coordinator decodes is that batch:
    one sample per resource, in the script's order, under the identity, epoch,
    generation, sequence and stamp of the turn, with the metrics of the script. *)
Theorem batch_arrives (options : PublisherClientOptions) (script : PublisherScript)
    (epoch sequence stamp index : N) (batch : EvidenceBatch)
    (Hw : script_words options script epoch sequence stamp index)
    (Hbuild : build_batch options script epoch sequence stamp index = Some batch) :
  exists payload received,
    encode_evidence batch = Ok payload /\ decode_evidence payload = Ok received /\
    eb_epoch received = epoch /\ map es_resource (eb_samples received) = ps_resources script /\
    Forall (authored options script epoch sequence stamp index) (eb_samples received).
Proof.
  destruct (build_batch_fields _ _ _ _ _ _ _ Hbuild) as (Hne & id & provenance & Hp & ->). clear Hbuild.
  set (samples := map _ _).
  assert (batch_words (mkEvidenceBatch id epoch provenance stamp samples)) as Hbatch.
  { split; cbn [eb_epoch eb_provenance eb_submitted_tick eb_samples]; [apply Hw|exact Hp|apply Hw| |].
    - apply Forall_map. apply Forall_forall. intros r Hr. by apply built_sample_words.
    - unfold samples. rewrite size64_map. apply Hw. }
  destruct (evidence_rt _ Hbatch) as (payload & Henc & Hdec).
  exists payload, (wire_batch (mkEvidenceBatch id epoch provenance stamp samples)).
  split; [exact Henc|]. split; [exact Hdec|]. split; [reflexivity|].
  change (eb_samples (wire_batch _)) with (map wire_sample samples). unfold samples. rewrite !map_map.
  destruct Hne as [->|Hne]; [by split|].
  pose proof (fun r => built_sample_authored options script epoch sequence stamp provenance index r Hne) as Hb. split.
  - rewrite <- (map_id (ps_resources script)) at 2. apply map_ext. intros r. exact (proj1 (Hb r)).
  - apply Forall_map. apply Forall_forall. intros r _. exact (proj2 (Hb r)).
Qed.

Definition demo_client : PublisherClientOptions := mkPublisherClientOptions "unix:/run/ncf" 11 12 5000000 "ncf-publisher".
Definition demo_script : PublisherScript :=
  mkPublisherScript 1 [7; 8] 2 0 900000 0 0 20 0 0 0 0 50000 (-10) 0 1 true true true 1 false.

Lemma batch_arrives_witness :
  exists payload received,
    decode_evidence payload = Ok received /\ map es_resource (eb_samples received) = [7; 8] /\
    Forall (authored demo_client demo_script 3 2 40 1) (eb_samples received).
Proof.
  destruct (build_batch demo_client demo_script 3 2 40 1) as [batch|] eqn:E; [|vm_compute in E; discriminate E].
  destruct (batch_arrives demo_client demo_script 3 2 40 1 batch) as (payload & received & _ & Hd & _ & Hr & Ha);
    [|exact E|by exists payload, received].
  split; try reflexivity; [by repeat constructor|discriminate|by repeat split|by repeat constructor].
Defined.

(** A ramp that reaches the plausible maximum is not clamped: the metric is left out of
    the sample, and here so is everything else. *)
Example ramp_beyond_the_maximum :
  sample_metrics demo_script 2 = [mkMetricReading MkUtilizationPpm 1000000] /\
  build_batch demo_client demo_script 3 2 40 400 = None.
Proof. split; vm_compute; reflexivity. Qed.

(** ** The accounts of a run *)

Section Accounts.
Context (local_clock : N -> N) (write_ok : N -> bool) (write_error : Status).

(** A report that shows neither an error nor a fence. *)
Definition clean (r : PublisherReport) : Prop := pu_errors r = 0 /\ pu_fences_received r = 0.

(** What a wait keeps of a report. *)
Definition waited (r r' : PublisherReport) : Prop :=
  pu_hello_accepted r' = pu_hello_accepted r /\ pu_samples_sent r' = pu_samples_sent r /\
  pu_frames_acked r <= pu_frames_acked r'.

Lemma waited_refl (r : PublisherReport) : waited r r.
Proof. by split. Qed.

Lemma waited_trans (r1 r2 r3 : PublisherReport) : waited r1 r2 -> waited r2 r3 -> waited r1 r3.
Proof. intros (? & ? & ?) (? & ? & ?). repeat split; try congruence. lia. Qed.

Hint Resolve waited_refl : core.

Lemma publish_waited (frame : Frame) (p p' : Publishing) (r : Result unit) :
  publish write_ok write_error frame p = (r, p') ->
  waited (pb_report p) (pb_report p') /\ pb_reads p' = pb_reads p /\ pu_errors (pb_report p') = pu_errors (pb_report p) /\
  pu_fences_received (pb_report p') = pu_fences_received (pb_report p).
Proof.
  unfold publish. destruct (encode_frame frame []) as [e|bytes]; [by intros [= <- <-]|].
  destruct (write_ok _); intros [= <- <-]; by repeat split.
Qed.

Lemma publish_sends (frame : Frame) (p p' : Publishing) :
  publish write_ok write_error frame p = (Ok tt, p') -> exists bytes, pb_sent p' = pb_sent p ++ [bytes].
Proof.
  unfold publish. destruct (encode_frame frame []) as [e|bytes]; [discriminate|].
  destruct (write_ok _); [|discriminate]. intros [= <-]. by exists bytes.
Qed.

(** A read that succeeded was left to read. *)
Lemma receive_reads (closed message : string) (p p' : Publishing) (u : unit) :
  receive closed message p = (Ok u, p') ->
  pb_report p' = pb_report p /\ length (pb_reads p) = S (length (pb_reads p')).
Proof.
  unfold receive. cbv zeta. destruct (pb_reads p) as [|[e|[|b chunk]] reads] eqn:E; try discriminate.
  destruct (fd_push _ _) as [pushed d]. intros [= -> <-]. cbn. by rewrite E.
Qed.

(** Every frame is answered or counted. *)
Lemma drain_replies_report (fuel : nat) (acked : bool) (p : Publishing) :
  match drain_replies fuel acked p with
  | (Continue acked', p') =>
      waited (pb_report p) (pb_report p') /\ pb_reads p' = pb_reads p /\
      (acked' = true -> acked = true \/ pu_frames_acked (pb_report p) < pu_frames_acked (pb_report p'))
  | (Return (Ok r), _) => waited (pb_report p) r /\ ~ clean r
  | (Return (Err _), _) => True
  end.
Proof.
  revert acked p. induction fuel as [|fuel IH]; intros acked p; cbn [drain_replies]; [by auto|].
  destruct (fd_next (pb_decoder p)) as [[e|[response|]] d]; [done| |by repeat split; auto].
  set (p1 := p <| pb_decoder := d |>).
  set (p2 := p1 <| pb_report ::= fun r => r <| pu_frames_acked ::= N.succ |> |>).
  assert (waited (pb_report p) (pb_report p2)) as Hw by (repeat split; cbn; lia).
  destruct (frame_type response); try exact (IH acked p1).
  - specialize (IH true p2).
    destruct (drain_replies fuel true p2) as [[[e|r]|acked'] p']; [done| |].
    + destruct IH as [IH Hc]. split; [|exact Hc]. eapply waited_trans; [exact Hw|exact IH].
    + destruct IH as (IH & Hr' & _). split; [eapply waited_trans; [exact Hw|exact IH]|]. split; [exact Hr'|].
      intros _. right. destruct IH as (_ & _ & Ha). cbn in Ha. lia.
  - cbn. split; [by repeat split|]. unfold clean. cbn. lia.
  - cbn. split; [by repeat split|]. unfold clean. cbn. lia.
Qed.

(** A wait that ends normally ends with an acknowledgement. *)
Lemma await_replies_report (fuel : nat) (p : Publishing) :
  (length (pb_reads p) < fuel)%nat ->
  match await_replies fuel p with
  | (Continue _, p') =>
      waited (pb_report p) (pb_report p') /\ pu_frames_acked (pb_report p) < pu_frames_acked (pb_report p')
  | (Return (Ok r), _) => waited (pb_report p) r /\ ~ clean r
  | (Return (Err _), _) => True
  end.
Proof.
  revert p. induction fuel as [|fuel IH]; intros p Hfuel; [lia|]. cbn [await_replies].
  destruct (receive _ _ p) as [[e|u] p1] eqn:E; [done|]. apply receive_reads in E as [Er El].
  pose proof (drain_replies_report (S (length (fd_buffer (pb_decoder p1)))) false p1) as H. rewrite Er in H.
  destruct (drain_replies _ _ p1) as [[[e|r]|[|]] p2]; [done|exact H| |].
  - destruct H as (Hw & _ & Ha). split; [exact Hw|]. by destruct (Ha eq_refl).
  - destruct H as (Hw & Hr & _). rewrite <- Hr in El. specialize (IH p2 ltac:(lia)).
    destruct (await_replies fuel p2) as [[[e|r]|[]] p3]; [done| |].
    + destruct IH as [IH Hc]. split; [|exact Hc]. by eapply waited_trans.
    + destruct IH as [IH Ha]. split; [by eapply waited_trans|]. destruct Hw as (_ & _ & Hw). lia.
Qed.

(** Waiting writes nothing. *)
Lemma receive_sent (closed message : string) (p : Publishing) : pb_sent (receive closed message p).2 = pb_sent p.
Proof.
  unfold receive. cbv zeta. destruct (match pb_reads p with [] => Ok [] | r :: _ => r end) as [e|[|b chunk]]; [done|done|].
  by destruct (fd_push _ _).
Qed.

Lemma drain_replies_sent (fuel : nat) (acked : bool) (p : Publishing) : pb_sent (drain_replies fuel acked p).2 = pb_sent p.
Proof.
  revert acked p. induction fuel as [|fuel IH]; intros acked p; cbn [drain_replies]; [done|].
  destruct (fd_next (pb_decoder p)) as [[e|[response|]] d]; [done| |done].
  destruct (frame_type response); try (by rewrite IH); done.
Qed.

Lemma await_replies_sent (fuel : nat) (p : Publishing) : pb_sent (await_replies fuel p).2 = pb_sent p.
Proof.
  revert p. induction fuel as [|fuel IH]; intros p; cbn [await_replies]; [done|].
  pose proof (receive_sent "connection closed while awaiting an acknowledgement" "evidence acknowledgement failed" p) as Hr.
  destruct (receive _ _ p) as [[e|u] p1]; cbn [snd] in Hr; [exact Hr|].
  pose proof (drain_replies_sent (S (length (fd_buffer (pb_decoder p1)))) false p1) as Hd.
  destruct (drain_replies _ _ p1) as [[r|[|]] p2]; cbn [snd] in *; rewrite ?IH; congruence.
Qed.

(** A turn of the evidence loop: the batch is answered, or the run ends with it
    unanswered. *)
Lemma publish_batch_report (options : PublisherClientOptions) (script : PublisherScript) (index : N) (p : Publishing) :
  let size := size64 (ps_resources script) in
  let r0 := pb_report p in
  match publish_batch local_clock write_ok write_error options script index p with
  | (Continue _, p') =>
      let r := pb_report p' in
      pu_hello_accepted r = pu_hello_accepted r0 /\ pu_samples_sent r = pu_samples_sent r0 + size /\
      pu_frames_acked r0 < pu_frames_acked r /\ exists frame, pb_sent p' = pb_sent p ++ [frame]
  | (Return (Ok r), p') =>
      ~ clean r /\ pu_samples_sent r = pu_samples_sent r0 + size /\ pu_frames_acked r0 <= pu_frames_acked r /\
      exists frame, pb_sent p' = pb_sent p ++ [frame]
  | (Return (Err _), _) => True
  end.
Proof.
  cbv zeta. unfold publish_batch, read_local.
  set (p1 := p <| pb_clock_reads ::= N.succ |>).
  destruct (build_batch _ _ _ _ _ index) as [batch|] eqn:Eb; [|done].
  apply build_batch_fields in Eb as (_ & id & provenance & _ & ->). set (samples := map _ _).
  assert (size64 samples = size64 (ps_resources script)) as Hsize by apply size64_map. clearbody samples.
  destruct (encode_evidence _) as [e|payload]; [done|].
  destruct (publish write_ok write_error _ p1) as [[e|[]] p2] eqn:Ep; [done|].
  pose proof (publish_sends _ _ _ Ep) as [frame Hf]. cbn [pb_sent set p1] in Hf.
  apply publish_waited in Ep as ((Hh & Hs & Ha) & _). cbn [pb_report set p1] in Hh, Hs, Ha.
  cbn [eb_samples]. rewrite Hsize.
  set (p3 := set pb_sequence _ _). assert (pb_sent p3 = pb_sent p2) as H0 by reflexivity.
  assert (pu_samples_sent (pb_report p3) = size64 (ps_resources script) + pu_samples_sent (pb_report p2)) as H3 by done.
  assert (pu_hello_accepted (pb_report p3) = pu_hello_accepted (pb_report p2)) as H4 by done.
  assert (pu_frames_acked (pb_report p3) = pu_frames_acked (pb_report p2)) as H5 by done. clearbody p3.
  pose proof (await_replies_report (S (length (pb_reads p3))) p3 ltac:(lia)) as H.
  pose proof (await_replies_sent (S (length (pb_reads p3))) p3) as Hsent.
  destruct (await_replies _ p3) as [[[e|r]|[]] p4]; [done| |]; cbn [snd] in Hsent.
  - destruct H as [(H1 & H2 & H6) Hc]. split; [exact Hc|]. rewrite H2, H3. split; [lia|]. split; [lia|].
    exists frame. congruence.
  - destruct H as [(H1 & H2 & _) H6]. rewrite H1, H2, H3. split; [congruence|]. split; [lia|]. split; [lia|].
    exists frame. congruence.
Qed.

(** Some turns of the evidence loop from a first one on, each of which sent one frame,
    the batch of the turn, and ended only when an acknowledgement had been read after
    it. *)
Inductive acknowledged_turns (options : PublisherClientOptions) (script : PublisherScript) :
    N -> nat -> Publishing -> Publishing -> Prop :=
| at_no_turn index p : acknowledged_turns options script index 0 p p
| at_turn index n p after last frame :
    publish_batch local_clock write_ok write_error options script index p = (Continue tt, after) ->
    pb_sent after = pb_sent p ++ [frame] ->
    pu_samples_sent (pb_report after) = pu_samples_sent (pb_report p) + size64 (ps_resources script) ->
    pu_frames_acked (pb_report p) < pu_frames_acked (pb_report after) ->
    acknowledged_turns options script (index + 1) n after last ->
    acknowledged_turns options script index (S n) p last.

(** The evidence loop is such turns, to the end or up to one that was refused. *)
Lemma publish_batches_turns (options : PublisherClientOptions) (script : PublisherScript) (turns : nat) (index : N)
    (p : Publishing) :
  match publish_batches local_clock write_ok write_error options script turns index p with
  | (Continue _, p') => acknowledged_turns options script index turns p p'
  | (Return r, p') => exists n reached, (n < turns)%nat /\ acknowledged_turns options script index n p reached /\
      publish_batch local_clock write_ok write_error options script (index + N.of_nat n) reached = (Return r, p')
  end.
Proof.
  revert index p. induction turns as [|turns IH]; intros index p; cbn [publish_batches]; [constructor|].
  pose proof (publish_batch_report options script index p) as H. cbv zeta in H.
  destruct (publish_batch _ _ _ _ _ index p) as [[r|[]] p1] eqn:E.
  - exists O, p. split; [lia|]. split; [constructor|]. by rewrite N.add_0_r.
  - destruct H as (_ & Hs & Ha & frame & Hf). specialize (IH (index + 1) p1).
    destruct (publish_batches _ _ _ _ _ turns (index + 1) p1) as [[r|[]] p2].
    + destruct IH as (n & reached & Hn & Hturns & Hlast). exists (S n), reached. split; [lia|].
      split; [eapply at_turn; [exact E|exact Hf|exact Hs|exact Ha|exact Hturns]|].
      replace (index + N.of_nat (S n)) with (index + 1 + N.of_nat n) by lia. exact Hlast.
    + eapply at_turn; [exact E|exact Hf|exact Hs|exact Ha|exact IH].
Qed.

Lemma acknowledged_turns_counts options script index n p last :
  acknowledged_turns options script index n p last ->
  pu_samples_sent (pb_report last) = pu_samples_sent (pb_report p) + N.of_nat n * size64 (ps_resources script) /\
  pu_frames_acked (pb_report p) + N.of_nat n <= pu_frames_acked (pb_report last) /\
  length (pb_sent last) = (length (pb_sent p) + n)%nat.
Proof.
  induction 1 as [index p|index n p after last frame _ Hf Hs Ha _ (IH1 & IH2 & IH3)]; [repeat split; lia|].
  rewrite Hf in IH3. rewrite length_app in IH3. cbn [length] in IH3. repeat split; lia.
Qed.

Definition answered (size : N) (r : PublisherReport) : Prop := pu_samples_sent r <= pu_frames_acked r * size.

Lemma publish_batches_report (options : PublisherClientOptions) (script : PublisherScript) (turns : nat) (index : N)
    (p : Publishing) :
  let size := size64 (ps_resources script) in
  let r0 := pb_report p in
  answered size r0 ->
  match publish_batches local_clock write_ok write_error options script turns index p with
  | (Continue _, p') =>
      let r := pb_report p' in
      pu_hello_accepted r = pu_hello_accepted r0 /\ answered size r /\
      pu_samples_sent r = pu_samples_sent r0 + N.of_nat turns * size /\
      pu_frames_acked r0 + N.of_nat turns <= pu_frames_acked r
  | (Return (Ok r), _) => ~ clean r /\ pu_samples_sent r <= (pu_frames_acked r + 1) * size
  | (Return (Err _), _) => True
  end.
Proof.
  cbv zeta. revert index p. induction turns as [|turns IH]; intros index p H0; cbn [publish_batches].
  { repeat split; [exact H0|lia|lia]. }
  pose proof (publish_batch_report options script index p) as H. cbv zeta in H.
  destruct (publish_batch _ _ _ _ _ index p) as [[[e|r]|[]] p1]; [done| |]; unfold answered in *.
  - destruct H as (Hc & Hs & Ha & _). split; [exact Hc|]. rewrite Hs. nia.
  - destruct H as (Hh & Hs & Ha & _). specialize (IH (index + 1) p1).
    destruct (publish_batches _ _ _ _ _ turns (index + 1) p1) as [[[e|r]|[]] p2]; [done| |].
    + apply IH. rewrite Hs. nia.
    + destruct IH as (Hh' & Hans & Hs' & Ha'); [rewrite Hs; nia|].
      repeat split; [congruence|exact Hans|rewrite Hs', Hs; lia|lia].
Qed.

(** ** The handshake *)

Lemma drain_handshake_report (fuel : nat) (before : N) (got : bool) (p : Publishing) :
  match drain_handshake local_clock fuel before got p with
  | (Continue got', p') =>
      pb_reads p' = pb_reads p /\ pu_samples_sent (pb_report p') = pu_samples_sent (pb_report p) /\
      pu_frames_acked (pb_report p') = pu_frames_acked (pb_report p) /\
      (got' = true -> got = true /\ pu_hello_accepted (pb_report p') = pu_hello_accepted (pb_report p) \/
                      pu_hello_accepted (pb_report p') = true)
  | (Return (Ok r), _) => ~ clean r /\ pu_samples_sent r = pu_samples_sent (pb_report p)
  | (Return (Err _), _) => True
  end.
Proof.
  revert got p. induction fuel as [|fuel IH]; intros got p; cbn [drain_handshake]; [by auto 6|].
  destruct (fd_next (pb_decoder p)) as [[e|[response|]] d]; [done| |by repeat split; auto].
  set (p1 := p <| pb_decoder := d |>).
  destruct (negb _); [exact (IH got p1)|].
  destruct (decode_hello_ack _) as [e|ack]; [done|]. unfold read_local.
  set (p2 := accept_ack ack before _ _).
  assert (pb_reads p2 = pb_reads p /\ pu_samples_sent (pb_report p2) = pu_samples_sent (pb_report p) /\
          pu_frames_acked (pb_report p2) = pu_frames_acked (pb_report p) /\
          pu_hello_accepted (pb_report p2) = ha_accepted ack) as (Hr & Hs & Ha & Hh).
  { subst p2. unfold accept_ack. by destruct (_ =? kNoTick). }
  clearbody p2. destruct (ha_accepted ack) eqn:Eacc.
  - specialize (IH true p2). destruct (drain_handshake _ fuel before true p2) as [[[e|r]|got'] p']; [done| |].
    + destruct IH as [Hc IH]. split; [exact Hc|congruence].
    + destruct IH as (IH1 & IH2 & IH3 & IH4). repeat split; try congruence. intros Hg. right.
      destruct (IH4 Hg) as [[_ E]|E]; congruence.
  - cbn. split; [|exact Hs]. unfold clean. cbn. lia.
Qed.

Lemma await_handshake_report (fuel : nat) (before : N) (p : Publishing) :
  (length (pb_reads p) < fuel)%nat ->
  match await_handshake local_clock fuel before p with
  | (Continue _, p') =>
      pu_samples_sent (pb_report p') = pu_samples_sent (pb_report p) /\ pu_hello_accepted (pb_report p') = true
  | (Return (Ok r), _) => ~ clean r /\ pu_samples_sent r = pu_samples_sent (pb_report p)
  | (Return (Err _), _) => True
  end.
Proof.
  revert p. induction fuel as [|fuel IH]; intros p Hfuel; [lia|]. cbn [await_handshake].
  destruct (receive _ _ p) as [[e|u] p1] eqn:E; [done|]. apply receive_reads in E as [Er El].
  pose proof (drain_handshake_report (S (length (fd_buffer (pb_decoder p1)))) before false p1) as H. rewrite Er in H.
  destruct (drain_handshake _ _ _ _ p1) as [[[e|r]|[|]] p2]; [done|exact H| |].
  - destruct H as (_ & Hs & _ & Hg). split; [exact Hs|]. destruct (Hg eq_refl) as [[? _]|Hh]; [done|exact Hh].
  - destruct H as (Hr & Hs & _ & _). rewrite <- Hr in El. specialize (IH p2 ltac:(lia)). rewrite <- Hs. exact IH.
Qed.

Definition greets (script : PublisherScript) : bool := ps_send_hello script && negb (ps_skip_handshake script).

Lemma greeting_report (options : PublisherClientOptions) (script : PublisherScript) (p : Publishing) :
  match (if greets script then handshake local_clock write_ok write_error options script p else (Continue tt, p)) with
  | (Continue _, p') =>
      pu_samples_sent (pb_report p') = pu_samples_sent (pb_report p) /\
      (greets script = true -> pu_hello_accepted (pb_report p') = true)
  | (Return (Ok r), _) => ~ clean r /\ pu_samples_sent r = pu_samples_sent (pb_report p)
  | (Return (Err _), _) => True
  end.
Proof.
  destruct (greets script); [|done]. unfold handshake. cbv zeta. destruct (encode_hello _) as [e|payload]; [done|].
  destruct (publish write_ok write_error _ p) as [[e|[]] p1] eqn:Ep; [done|].
  apply publish_waited in Ep as ((_ & Hs & _) & _). unfold read_local.
  set (p2 := p1 <| pb_clock_reads ::= N.succ |>).
  pose proof (await_handshake_report (S (length (pb_reads p2))) (local_clock (pb_clock_reads p1)) p2 ltac:(lia)) as H.
  change (pu_samples_sent (pb_report p2)) with (pu_samples_sent (pb_report p1)) in H. rewrite Hs in H.
  destruct (await_handshake _ _ _ p2) as [[[e|r]|[]] p3]; [done|exact H|]. by destruct H.
Qed.


(** More fuel than a wait is given changes nothing. *)
Lemma drain_replies_fuel (fuel fuel' : nat) (acked : bool) (p : Publishing) :
  (N.to_nat (fd_buffered (pb_decoder p)) < fuel)%nat -> (fuel <= fuel')%nat ->
  drain_replies fuel acked p = drain_replies fuel' acked p.
Proof.
  revert fuel' acked p. induction fuel as [|fuel IH]; intros [|fuel'] acked p H1 H2; [lia..|]. cbn [drain_replies].
  destruct (fd_next (pb_decoder p)) as [[e|[response|]] d] eqn:E; [done| |done].
  apply fd_next_consumes in E.
  destruct (frame_type response); try (apply IH; cbn [pb_decoder set]; lia); done.
Qed.

Lemma drain_handshake_fuel (fuel fuel' : nat) (before : N) (got : bool) (p : Publishing) :
  (N.to_nat (fd_buffered (pb_decoder p)) < fuel)%nat -> (fuel <= fuel')%nat ->
  drain_handshake local_clock fuel before got p = drain_handshake local_clock fuel' before got p.
Proof.
  revert fuel' got p. induction fuel as [|fuel IH]; intros [|fuel'] got p H1 H2; [lia..|]. cbn [drain_handshake].
  destruct (fd_next (pb_decoder p)) as [[e|[response|]] d] eqn:E; [done| |done].
  apply fd_next_consumes in E. destruct (negb _); [apply IH; cbn [pb_decoder set]; lia|].
  destruct (decode_hello_ack _) as [e|ack]; [done|]. unfold read_local. destruct (ha_accepted ack); [|done].
  apply IH; [|lia]. unfold accept_ack. destruct (_ =? kNoTick); cbn [pb_decoder set]; lia.
Qed.

(** The inner loops are given fuel enough: they end when the decoder has no further
    frame, and more fuel changes nothing. *)
Theorem drains_are_complete (before : N) (flag : bool) (p : Publishing) (fuel : nat)
    (Hfuel : (S (length (fd_buffer (pb_decoder p))) <= fuel)%nat) :
  drain_replies (S (length (fd_buffer (pb_decoder p)))) flag p = drain_replies fuel flag p /\
  drain_handshake local_clock (S (length (fd_buffer (pb_decoder p)))) before flag p
  = drain_handshake local_clock fuel before flag p.
Proof.
  assert (N.to_nat (fd_buffered (pb_decoder p)) < S (length (fd_buffer (pb_decoder p))))%nat as H.
  { unfold fd_buffered, size64. lia. }
  split; [by apply drain_replies_fuel|by apply drain_handshake_fuel].
Qed.

(** Likewise the waits, given one turn more than there are reads. *)
Lemma await_replies_fuel (fuel fuel' : nat) (p : Publishing) :
  (length (pb_reads p) < fuel)%nat -> (fuel <= fuel')%nat -> await_replies fuel p = await_replies fuel' p.
Proof.
  revert fuel' p. induction fuel as [|fuel IH]; intros [|fuel'] p H1 H2; [lia..|]. cbn [await_replies].
  destruct (receive _ _ p) as [[e|u] p1] eqn:E; [done|]. apply receive_reads in E as [_ El].
  pose proof (drain_replies_report (S (length (fd_buffer (pb_decoder p1)))) false p1) as H.
  destruct (drain_replies _ _ p1) as [[?|[|]] p2]; [done|done|]. destruct H as (_ & Hr & _). apply IH; rewrite ?Hr; lia.
Qed.

End Accounts.

(** ** A concrete run *)

(** What a coordinator answers: [payload] in a frame of the type. *)
Definition demo_answer (type : FrameType) (payload : Result (list byte)) : Result (list byte) :=
  match payload with Err e => Err e | Ok bytes => encode_frame (publisher_frame demo_client type 3 1 0 bytes) [] end.
Definition demo_reads : list (Result (list byte)) :=
  [demo_answer FtHelloAck (encode_hello_ack (demo_ack 105));
   demo_answer FtEvidenceAck (encode_evidence_ack (mkEvidenceAckMessage 3 2 0 0 0));
   demo_answer FtEvidenceAck (encode_evidence_ack (mkEvidenceAckMessage 3 2 0 0 0))].
Definition demo_run (write_ok : N -> bool) (reads : list (Result (list byte))) : Result PublisherReport :=
  run_publisher (N.add 10) write_ok (mkStatus IoError "write" "") demo_client demo_script (Ok tt) reads.


(** A coordinator that goes away after the first batch. *)
Example connection_lost :
  match demo_run (fun _ => true) (take 2 demo_reads) with
  | Err e => st_code e = Unavailable
  | Ok _ => False
  end.
Proof. vm_compute. reflexivity. Qed.
