(* ===== verification/Channel.v ===== *)
(** * Channel: include/ncf/ipc/channel.hpp and src/ipc/channel.cpp

    The byte channels and the listeners of both platforms, over what the operating
    system answers: every system call's answer is an argument, in the order the code
    asks for them, and a call whose answers run out is still in progress ([None]).
    The handles a process has open, and the socket names that are bound, are sets and
    maps the calls change. *)

From stdpp Require Import base list gmap strings.
From Stdlib Require Import Strings.Byte.
From S2P Require Import Prelude Core Bytes Explanation Frame.

Open Scope N_scope.

(** ** The interface *)

(** [IByteChannel]: [C] is the channel, [R] and [W] what the system answers to a read
    and to a write.  A write also answers the bytes it has put on the wire. *)
Class ByteChannel (C R W : Type) := {
  channel_read : R -> N -> C -> Result (list byte) * C;
  channel_write : list W -> list byte -> C -> option (Result unit * list byte);
  channel_close : C -> C;
  channel_closed : C -> bool
}.

(** What the other components rely on. *)
Class ByteChannelLaws (C R W : Type) (I : ByteChannel C R W) := {
  write_ok_all : forall answers bytes (c : C) sent,
    channel_write answers bytes c = Some (Ok tt, sent) -> sent = bytes;
  write_err_prefix : forall answers bytes (c : C) e sent,
    channel_write answers bytes c = Some (Err e, sent) -> sent `prefix_of` bytes;
  closed_is_closed : forall c : C, channel_closed (channel_close c) = true;
  closed_reads_nothing : forall answer room (c : C),
    channel_read answer room (channel_close c) = (fail Closed "channel is closed", channel_close c);
  closed_writes_nothing : forall answers bytes (c : C),
    channel_write answers bytes (channel_close c) = Some (fail Closed "channel is closed", [])
}.

(** ** POSIX: stream sockets *)

Record SocketChannel := mkSocketChannel { sc_fd : option N; sc_closed : bool }.

#[export] Instance SocketChannel_settable : Settable SocketChannel := fields! mkSocketChannel < sc_fd; sc_closed >.

(** What [recv] answers; a failure says whether errno is EINTR. *)
Inductive Received := RecvFailed (interrupted : bool) | RecvBytes (bytes : list byte).
Inductive Sent := SendFailed (interrupted : bool) | SendCount (count : N).

Definition socket_read (answer : Received) (room : N) (c : SocketChannel) : Result (list byte) * SocketChannel :=
  match sc_fd c with
  | None => (fail Closed "channel is closed", c)
  | Some _ =>
      match answer with
      | RecvFailed true => (Ok [], c)
      | RecvFailed false => (fail IoError "socket receive failed", c)
      | RecvBytes bytes =>
          let bytes := take (N.to_nat room) bytes in (Ok bytes, if bool_decide (bytes = []) then c <| sc_closed := true |> else c)
      end
  end.

(** The sending loop; a send takes no more bytes than it is given. *)
Fixpoint send_loop (answers : list Sent) (bytes wire : list byte) : option (Result unit * list byte) :=
  match bytes with
  | [] => Some (Ok tt, wire)
  | _ =>
      match answers with
      | [] => None
      | SendFailed true :: later => send_loop later bytes wire
      | SendFailed false :: _ => Some (fail IoError "socket send failed", wire)
      | SendCount count :: later =>
          let count := N.to_nat count in send_loop later (drop count bytes) (wire ++ take count bytes)
      end
  end.

Definition socket_write (answers : list Sent) (bytes : list byte) (c : SocketChannel) : option (Result unit * list byte) :=
  match sc_fd c with
  | None => Some (fail Closed "channel is closed", [])
  | Some _ => send_loop answers bytes []
  end.

Definition socket_close (c : SocketChannel) : SocketChannel :=
  match sc_fd c with None => c | Some _ => c <| sc_fd := None |> <| sc_closed := true |> end.
Definition socket_is_closed (c : SocketChannel) : bool := sc_closed c || bool_decide (sc_fd c = None).

#[export] Instance socket_channel : ByteChannel SocketChannel Received Sent := {
  channel_read := socket_read;
  channel_write := socket_write;
  channel_close := socket_close;
  channel_closed := socket_is_closed
}.

(** ** Windows: overlapped pipes *)

(** The error codes the code tells apart. *)
Inductive WinError :=
| ErrorIoPending | ErrorOperationAborted | ErrorBrokenPipe | ErrorPipeNotConnected | ErrorNoData
| ErrorPipeConnected | ErrorPipeBusy | ErrorAccessDenied | ErrorInvalidName | ErrorFileNotFound | ErrorOther (code : N).

#[export] Instance WinError_eq_dec : EqDecision WinError.
Proof. solve_decision. Defined.

Definition win_error_code (e : WinError) : N :=
  match e with
  | ErrorIoPending => 997 | ErrorOperationAborted => 995 | ErrorBrokenPipe => 109 | ErrorPipeNotConnected => 233
  | ErrorNoData => 232 | ErrorPipeConnected => 535 | ErrorPipeBusy => 231 | ErrorAccessDenied => 5
  | ErrorInvalidName => 123 | ErrorFileNotFound => 2 | ErrorOther code => code
  end.
Definition win32_error (e : WinError) : string := ("win32 error " ++ number (win_error_code e))%string.

(** A transfer: what the call answers, whether the wait for a pending one succeeds,
    and its final result. *)
Record Transfer (A : Type) := mkTransfer { tr_call : A + WinError; tr_waited : bool; tr_final : A + WinError }.
Arguments mkTransfer {A}. Arguments tr_call {A}. Arguments tr_waited {A}. Arguments tr_final {A}.

Record OverlappedChannel := mkOverlappedChannel { oc_handle : option N; oc_events : bool; oc_closed : bool }.

#[export] Instance OverlappedChannel_settable : Settable OverlappedChannel :=
  fields! mkOverlappedChannel < oc_handle; oc_events; oc_closed >.

(** The peer is gone. *)
Definition disconnected (e : WinError) : bool :=
  bool_decide (e = ErrorBrokenPipe) || bool_decide (e = ErrorPipeNotConnected).

Definition overlapped_read (t : Transfer (list byte)) (room : N) (c : OverlappedChannel) :
    Result (list byte) * OverlappedChannel :=
  let closing := c <| oc_closed := true |> in
  match oc_handle c with
  | None => (fail Closed "channel is closed", c)
  | Some _ =>
      if room =? 0 then (Ok [], c)
      else
        match tr_call t with
        | inl bytes =>
            let bytes := take (N.to_nat room) bytes in (Ok bytes, if bool_decide (bytes = []) then closing else c)
        | inr ErrorIoPending =>
            if negb (tr_waited t) then (fail IoError "overlapped read wait failed", c)
            else
              match tr_final t with
              | inl bytes => (Ok (take (N.to_nat room) bytes), c)
              | inr e =>
                  if bool_decide (e = ErrorOperationAborted) then (fail Cancelled "overlapped read was cancelled", c)
                  else if disconnected e then (Ok [], closing)
                  else (fail IoError "overlapped read failed", c)
              end
        | inr e =>
            if disconnected e then (Ok [], closing)
            else if bool_decide (e = ErrorOperationAborted) then (fail Cancelled "read was cancelled", c)
            else (fail IoError "read failed", c)
        end
  end.

(** What one WriteFile comes to. *)
Definition overlapped_transfer (t : Transfer N) : Result N :=
  match tr_call t with
  | inl count => Ok count
  | inr ErrorIoPending =>
      if negb (tr_waited t) then fail IoError "overlapped write wait failed"
      else
        match tr_final t with
        | inl count => Ok count
        | inr e =>
            if bool_decide (e = ErrorOperationAborted) then fail Cancelled "write was cancelled"
            else fail IoError "overlapped write failed"
        end
  | inr e =>
      if bool_decide (e = ErrorOperationAborted) then fail Cancelled "write was cancelled" else fail IoError "socket send failed"
  end.

Fixpoint overlapped_write_loop (transfers : list (Transfer N)) (bytes wire : list byte) :
    option (Result unit * list byte) :=
  match bytes with
  | [] => Some (Ok tt, wire)
  | _ =>
      match transfers with
      | [] => None
      | t :: later =>
          match overlapped_transfer t with
          | Err e => Some (Err e, wire)
          | Ok 0 => Some (fail IoError "write made no progress", wire)
          | Ok count =>
              let count := N.to_nat count in overlapped_write_loop later (drop count bytes) (wire ++ take count bytes)
          end
      end
  end.

Definition overlapped_write (transfers : list (Transfer N)) (bytes : list byte) (c : OverlappedChannel) :
    option (Result unit * list byte) :=
  match oc_handle c with
  | None => Some (fail Closed "channel is closed", [])
  | Some _ => overlapped_write_loop transfers bytes []
  end.

Definition overlapped_close (c : OverlappedChannel) : OverlappedChannel :=
  let c := match oc_handle c with None => c | Some _ => c <| oc_handle := None |> <| oc_closed := true |> end in
  c <| oc_events := false |>.
Definition overlapped_is_closed (c : OverlappedChannel) : bool := oc_closed c || bool_decide (oc_handle c = None).

#[export] Instance overlapped_channel : ByteChannel OverlappedChannel (Transfer (list byte)) (Transfer N) := {
  channel_read := overlapped_read;
  channel_write := overlapped_write;
  channel_close := overlapped_close;
  channel_closed := overlapped_is_closed
}.

(** ** Listeners *)

Record ListenerOptions := mkListenerOptions { lo_name : string; lo_max_instances : N; lo_buffer_bytes : N }.

(** A handle of 0 is none. *)
Record PipeListener := mkPipeListener {
  pl_endpoint : string;
  pl_options : ListenerOptions;
  pl_handle : N;
  pl_cancel_event : N
}.

#[export] Instance PipeListener_settable : Settable PipeListener :=
  fields! mkPipeListener < pl_endpoint; pl_options; pl_handle; pl_cancel_event >.

Definition pl_valid (l : PipeListener) : bool := negb (pl_handle l =? 0).

(** The handles the process has open. *)
Abbreviation Handles := (gset N).

Definition release (h : N) (open : Handles) : Handles := open ∖ {[h]}.
(** [if (handle != 0)] before closing it. *)
Definition close_handle (h : N) (open : Handles) : Handles := if h =? 0 then open else release h open.

(** [close]: both handles, on both platforms. *)
Definition pl_close (l : PipeListener) (open : Handles) : PipeListener * Handles :=
  (l <| pl_handle := 0 |> <| pl_cancel_event := 0 |>, close_handle (pl_cancel_event l) (close_handle (pl_handle l) open)).

(** *** Windows *)

(** What [CreateNamedPipeW] is asked for. *)
Record InstanceRequest := mkInstanceRequest { ir_first : bool; ir_instances : N; ir_buffer : N }.

Definition kPipeUnlimitedInstances : N := 255.

Definition create_instance (options : ListenerOptions) (first : bool) : InstanceRequest :=
  mkInstanceRequest first
    (if lo_max_instances options =? 0 then kPipeUnlimitedInstances else N.min (lo_max_instances options) kPipeUnlimitedInstances)
    (N.min (lo_buffer_bytes options) (2 ^ 20)).

Definition pipe_create (created : N + WinError) (event : option N) (options : ListenerOptions) (open : Handles) :
    Result PipeListener * Handles :=
  if String.eqb (lo_name options) "" then (fail InvalidArgument "listener name is empty", open)
  else
    match created with
    | inr e =>
        if bool_decide (e = ErrorAccessDenied) || bool_decide (e = ErrorPipeBusy)
        then (fail_detail AlreadyExists "an endpoint with this name already exists" (lo_name options), open)
        else if bool_decide (e = ErrorInvalidName)
        then (fail_detail InvalidArgument "endpoint name is not a legal pipe name" (lo_name options), open)
        else (fail_detail IoError "cannot create the listening endpoint" (lo_name options), open)
    | inl handle =>
        let open := {[handle]} ∪ open in
        let l := mkPipeListener (lo_name options) options handle 0 in
        match event with
        | None => (fail IoError "cannot create the listener cancellation event", (pl_close l open).2)
        | Some event => (Ok (l <| pl_cancel_event := event |>), {[event]} ∪ open)
        end
    end.

(** One wait for a pending connection, and the cancellation flag that is read after it. *)
Inductive Waited := WaitSignalled (final : unit + WinError) | WaitCancelEvent | WaitTimeout | WaitFailed.
Record WaitTurn := mkWaitTurn { wt_waited : Waited; wt_cancel : bool }.

Record AcceptAnswers := mkAcceptAnswers {
  aa_event : N + WinError;
  aa_connect : unit + WinError;
  aa_waits : list WaitTurn;
  aa_replacement : N + WinError
}.

(** [while (pending)]: whether the pipe is connected, or the status returned. *)
Fixpoint wait_connection (turns : list WaitTurn) : option (Result (unit + WinError)) :=
  match turns with
  | [] => None
  | turn :: later =>
      match wt_waited turn with
      | WaitSignalled final => Some (Ok final)
      | WaitCancelEvent => Some (fail Cancelled "accept was cancelled")
      | w => if wt_cancel turn then Some (fail Cancelled "accept was cancelled")
             else match w with
                  | WaitFailed => Some (fail IoError "accept wait failed")
                  | _ => wait_connection later
                  end
      end
  end.

Definition connection (answers : AcceptAnswers) : option (Result (unit + WinError)) :=
  match aa_connect answers with
  | inl _ => Some (Ok (inl tt))
  | inr ErrorIoPending => wait_connection (aa_waits answers)
  | inr ErrorPipeConnected => Some (Ok (inl tt))
  | inr e => Some (Ok (inr e))
  end.

(** [replace_instance]. *)
Definition replace_instance (replacement : N + WinError) (l : PipeListener) (open : Handles) :
    Result unit * PipeListener * Handles :=
  let released := close_handle (pl_handle l) open in
  match replacement with
  | inr e => (fail_detail IoError "cannot create the next pipe instance" (win32_error e), l <| pl_handle := 0 |>, released)
  | inl handle => (Ok tt, l <| pl_handle := handle |>, {[handle]} ∪ released)
  end.

(** [accept]: the handle of the channel, the listener and what is open. *)
Definition pipe_accept (answers : AcceptAnswers) (l : PipeListener) (open : Handles) :
    option (Result N * PipeListener * Handles) :=
  if negb (pl_valid l) then Some (fail Closed "listener is closed", l, open)
  else
    match aa_event answers with
    | inr e => Some (fail_detail IoError "cannot create the accept event" (win32_error e), l, open)
    | inl event =>
        let held := {[event]} ∪ open in
        match connection answers with
        | None => None
        | Some (Err e) => Some (Err e, l, release event held)
        | Some (Ok connected) =>
            let open := release event held in
            match connected with
            | inr e =>
                if bool_decide (e = ErrorOperationAborted) then Some (fail Cancelled "accept was cancelled", l, open)
                else if bool_decide (e = ErrorNoData) || disconnected e then
                  match replace_instance (aa_replacement answers) l open with
                  | (Err e, l, open) => Some (Err e, l, open)
                  | (Ok _, l, open) => Some (fail Unavailable "peer vanished before the connection completed", l, open)
                  end
                else Some (fail_detail IoError "accept failed" (win32_error e), l, open)
            | inl _ =>
                let handle := pl_handle l in
                match replace_instance (aa_replacement answers) (l <| pl_handle := 0 |>) open with
                | (Err e, l, open) => Some (Err e, l, release handle open)
                | (Ok _, l, open) => Some (Ok handle, l, open)
                end
            end
        end
    end.

(** *** POSIX *)

Definition unix_path (name : string) : string := ("/tmp/ncf-" ++ name ++ ".sock")%string.

(** The bytes of [sockaddr_un::sun_path]. *)
Definition kSunPath : N := 108.
Definition str_len (s : string) : N := N.of_nat (String.length s).

(** The sockets that are bound, by path. *)
Abbreviation Bound := (gmap string N).

Record CreateAnswers := mkCreateAnswers {
  ca_socket : option N;
  ca_bind : bool;
  ca_listen : bool;
  ca_pipe : option (N * N)
}.

(** [create]; a socket that is bound gets the path. *)
Definition socket_create (answers : CreateAnswers) (options : ListenerOptions) (open : Handles) (bound : Bound) :
    Result PipeListener * Handles * Bound :=
  if String.eqb (lo_name options) "" then (fail InvalidArgument "listener name is empty", open, bound)
  else
    let path := unix_path (lo_name options) in
    match ca_socket answers with
    | None => (fail IoError "cannot create a unix socket", open, bound)
    | Some fd =>
        let held := {[fd]} ∪ open in
        if kSunPath <=? str_len path
        then (fail InvalidArgument "endpoint path is too long", release fd held, bound)
        else
          let bound := delete path bound in
          if negb (ca_bind answers)
          then (fail_detail IoError "cannot bind the endpoint" path, release fd held, bound)
          else
            let bound := <[path := fd]> bound in
            if negb (ca_listen answers)
            then (fail_detail IoError "cannot listen on the endpoint" path, release fd held, bound)
            else
              match ca_pipe answers with
              | None => (fail IoError "cannot create the cancellation pipe", release fd held, bound)
              | Some (read_end, write_end) =>
                  (Ok (mkPipeListener (lo_name options) (mkListenerOptions "" 4096 (2 ^ 16)) fd read_end),
                   release write_end ({[write_end]} ∪ ({[read_end]} ∪ held)), bound)
              end
    end.

(** A turn of the accepting loop: what [poll] answers, the flag read after it, and what
    [accept] answers if it is called. *)
Inductive Polled := PollFailed (interrupted : bool) | PollReady (listen cancelled : bool).
Inductive Accepted := AcceptFailed (interrupted : bool) | AcceptedFd (fd : N).
Record PollTurn := mkPollTurn { pt_poll : Polled; pt_cancel : bool; pt_accept : Accepted }.

Fixpoint poll_loop (turns : list PollTurn) (open : Handles) : option (Result N * Handles) :=
  match turns with
  | [] => None
  | turn :: later =>
      match pt_poll turn with
      | PollFailed true => poll_loop later open
      | PollFailed false => Some (fail IoError "accept poll failed", open)
      | PollReady listen cancelled =>
          if pt_cancel turn || cancelled then Some (fail Cancelled "accept was cancelled", open)
          else if listen then
            match pt_accept turn with
            | AcceptFailed true => poll_loop later open
            | AcceptFailed false => Some (fail IoError "accept failed", open)
            | AcceptedFd fd => Some (Ok fd, {[fd]} ∪ open)
            end
          else poll_loop later open
      end
  end.

Definition socket_accept (turns : list PollTurn) (l : PipeListener) (open : Handles) : option (Result N * Handles) :=
  if negb (pl_valid l) then Some (fail Closed "listener is closed", open) else poll_loop turns open.

(** ** Connecting *)

(** An attempt: what opening the pipe answers, or the socket and its connection, and
    the clock that is read when it failed. *)
Record Attempt (A : Type) := mkAttempt { at_opened : A; at_now : N }.
Arguments mkAttempt {A}. Arguments at_opened {A}. Arguments at_now {A}.

(** The budget is used up; the subtraction is of 64-bit words. *)
Definition out_of_time (timeout start now : N) : bool := negb (timeout =? 0) && (timeout <=? w64 (now + 2 ^ 64 - start)).

Fixpoint pipe_connect_loop (endpoint : string) (timeout start : N) (attempts : list (Attempt (N + WinError))) :
    option (Result N) :=
  match attempts with
  | [] => None
  | a :: later =>
      match at_opened a with
      | inl handle => Some (Ok handle)
      | inr e =>
          if negb (bool_decide (e = ErrorPipeBusy)) && negb (bool_decide (e = ErrorFileNotFound))
          then Some (fail_detail IoError "cannot connect to the endpoint" endpoint)
          else if out_of_time timeout start (at_now a)
          then Some (fail_detail Unavailable "endpoint did not become available in time" endpoint)
          else pipe_connect_loop endpoint timeout start later
      end
  end.

(** The clock is [GetTickCount64() * 1000], in microseconds. *)
Definition pipe_connect (endpoint : string) (timeout start : N) (attempts : list (Attempt (N + WinError))) :
    option (Result N) :=
  if String.eqb endpoint "" then Some (fail InvalidArgument "endpoint name is empty")
  else pipe_connect_loop endpoint timeout start attempts.

(** A connection to a socket; copying the path may run over [sun_path]. *)
Inductive Connecting := ConnectReturned (r : Result N) | ConnectOverrun | ConnectWaiting.

Fixpoint socket_connect_loop (endpoint : string) (timeout start : N) (attempts : list (Attempt (option (N * bool)))) :
    Connecting :=
  match attempts with
  | [] => ConnectWaiting
  | a :: later =>
      match at_opened a with
      | None => ConnectReturned (fail IoError "cannot create a unix socket")
      | Some (fd, connected) =>
          if kSunPath <? str_len (unix_path endpoint) + 1 then ConnectOverrun
          else if connected then ConnectReturned (Ok fd)
          else if out_of_time timeout start (at_now a)
          then ConnectReturned (fail_detail Unavailable "endpoint did not become available in time" endpoint)
          else socket_connect_loop endpoint timeout start later
      end
  end.

(** The clock is the count of [steady_clock], in its own period. *)
Definition socket_connect (endpoint : string) (timeout start : N) (attempts : list (Attempt (option (N * bool)))) :
    Connecting :=
  if String.eqb endpoint "" then ConnectReturned (fail InvalidArgument "endpoint name is empty")
  else socket_connect_loop endpoint timeout start attempts.

(** ** Names *)

(** [make_endpoint_name]: the process, the clock and the counter it was called with. *)
Definition make_endpoint_name (prefix : string) (pid stamp counter : N) : string :=
  ((if String.eqb prefix "" then "ncf" else prefix) ++ "-" ++ to_hex pid ++ "-" ++ to_hex stamp ++ "-" ++ to_hex counter)%string.

(** * Properties *)

(** ** Writing *)

Lemma prefix_split (n : nat) (bytes wire sent : list byte) (k : list byte) :
  wire ++ take n bytes ++ k = sent -> k `prefix_of` drop n bytes ->
  exists all, sent = wire ++ all /\ all `prefix_of` bytes.
Proof.
  intros <- [rest Hr]. exists (take n bytes ++ k). split; [done|]. exists rest.
  rewrite <- app_assoc, <- Hr. symmetry. apply take_drop.
Qed.

(** What a loop has sent when it returns. *)
Definition sent_so_far (bytes wire : list byte) (r : Result unit) (sent : list byte) : Prop :=
  match r with
  | Ok _ => sent = wire ++ bytes
  | Err _ => exists all, sent = wire ++ all /\ all `prefix_of` bytes
  end.

Lemma sent_so_far_step (n : nat) (bytes wire : list byte) (r : Result unit) (sent : list byte) :
  sent_so_far (drop n bytes) (wire ++ take n bytes) r sent -> sent_so_far bytes wire r sent.
Proof.
  destruct r as [e|[]]; cbn.
  - intros (all & -> & Hp). eapply (prefix_split n); [|exact Hp]. by rewrite <- app_assoc.
  - intros ->. by rewrite <- app_assoc, take_drop.
Qed.

Lemma sent_nothing (e : Status) (bytes wire : list byte) : sent_so_far bytes wire (Err e) wire.
Proof. exists []. split; [by rewrite app_nil_r|]. by exists bytes. Qed.

Lemma send_loop_sent (answers : list Sent) (bytes wire : list byte) (r : Result unit) (sent : list byte) :
  send_loop answers bytes wire = Some (r, sent) -> sent_so_far bytes wire r sent.
Proof.
  revert bytes wire. induction answers as [|[[|]|count] answers IH]; intros [|b bytes] wire H; cbn [send_loop] in H;
    try (injection H as <- <-; first [by cbn; rewrite app_nil_r|apply sent_nothing]).
  - done.
  - by apply IH.
  - apply (sent_so_far_step (N.to_nat count)), IH, H.
Qed.

Lemma overlapped_write_loop_sent (transfers : list (Transfer N)) (bytes wire : list byte) (r : Result unit)
    (sent : list byte) :
  overlapped_write_loop transfers bytes wire = Some (r, sent) -> sent_so_far bytes wire r sent.
Proof.
  revert bytes wire. induction transfers as [|t transfers IH]; intros [|b bytes] wire H; cbn [overlapped_write_loop] in H;
    try (injection H as <- <-; by cbn; rewrite app_nil_r).
  - done.
  - destruct (overlapped_transfer t) as [e|[|count]]; try (injection H as <- <-; apply sent_nothing).
    apply (sent_so_far_step (N.to_nat (Npos count))), IH, H.
Qed.

#[export] Instance socket_channel_laws : ByteChannelLaws SocketChannel Received Sent socket_channel.
Proof.
  split; cbn; unfold socket_write, socket_close, socket_read, socket_is_closed; intros.
  - destruct (sc_fd c); [|done]. by apply send_loop_sent in H.
  - destruct (sc_fd c); [|injection H as _ <-; apply prefix_nil].
    apply send_loop_sent in H as (all & -> & Hp). exact Hp.
  - destruct (sc_fd c) eqn:E; cbn; rewrite ?E; [done|]. by rewrite bool_decide_true, orb_true_r.
  - destruct (sc_fd c) eqn:E; cbn; by rewrite ?E.
  - destruct (sc_fd c) eqn:E; cbn; by rewrite ?E.
Qed.

#[export] Instance overlapped_channel_laws :
  ByteChannelLaws OverlappedChannel (Transfer (list byte)) (Transfer N) overlapped_channel.
Proof.
  split; cbn; unfold overlapped_write, overlapped_close, overlapped_read, overlapped_is_closed; intros.
  - destruct (oc_handle c); [|done]. by apply overlapped_write_loop_sent in H.
  - destruct (oc_handle c); [|injection H as _ <-; apply prefix_nil].
    apply overlapped_write_loop_sent in H as (all & -> & Hp). exact Hp.
  - destruct (oc_handle c) eqn:E; cbn; rewrite ?E; [done|]. by rewrite bool_decide_true, orb_true_r.
  - destruct (oc_handle c) eqn:E; cbn; by rewrite ?E.
  - destruct (oc_handle c) eqn:E; cbn; by rewrite ?E.
Qed.

(** Every answer that takes bytes brings the loop nearer to its end. *)
Definition takes_bytes (a : Sent) : Prop := match a with SendCount count => count <> 0 | SendFailed _ => False end.
#[export] Instance takes_bytes_dec (a : Sent) : Decision (takes_bytes a).
Proof. destruct a; cbn; apply _. Defined.

Lemma send_loop_returns (answers : list Sent) (bytes wire : list byte) :
  (length bytes <= length (filter takes_bytes answers))%nat ->
  send_loop answers bytes wire <> None.
Proof.
  revert bytes wire. induction answers as [|a answers IH]; intros [|b bytes] wire H; try done; cbn [send_loop].
  - cbn in H. lia.
  - rewrite filter_cons in H. destruct a as [[|]|count]; [by apply IH|done|]. apply IH. rewrite length_drop.
    destruct (decide (takes_bytes (SendCount count))) as [Hc|Hc]; cbn in Hc, H |- *; lia.
Qed.

(** ** Frames over a channel *)

Section Frames.
Context {C R W : Type} `{L : ByteChannelLaws C R W}.

(** Frames written one after the other; the writer stops at the first failure. *)
Fixpoint write_frames (work : list (Frame * list W)) (c : C) : option (Result unit * list byte) :=
  match work with
  | [] => Some (Ok tt, [])
  | (f, answers) :: later =>
      match encode_frame f [] with
      | Err e => Some (Err e, [])
      | Ok bytes =>
          match channel_write answers bytes c with
          | Some (Ok _, sent) =>
              match write_frames later c with Some (r, rest) => Some (r, sent ++ rest) | None => None end
          | other => other
          end
      end
  end.

(** What is on the wire when the writer stops: the frames written before, whole, and
    of the one whose write failed the beginning. *)
Lemma write_frames_wire (work : list (Frame * list W)) (c : C) (r : Result unit) (wire : list byte) :
  Forall (fun w => frame_ok w.1) work -> write_frames work c = Some (r, wire) ->
  match r with
  | Ok _ => wire = concat (map frame_bytes (map fst work))
  | Err _ => exists before f later sent, map fst work = before ++ f :: later /\
      wire = concat (map frame_bytes before) ++ sent /\ sent `prefix_of` frame_bytes f
  end.
Proof.
  revert wire. induction work as [|[f answers] work IH]; intros wire Hok H; cbn [write_frames] in H; [by injection H as <- <-|].
  apply Forall_cons in Hok as [Hf Hok]. cbn [fst] in Hf. rewrite (encode_frame_Ok f [] Hf), app_nil_l in H.
  destruct (channel_write answers (frame_bytes f) c) as [[[e|[]] sent]|] eqn:Ew; [| |done].
  - injection H as <- <-. apply write_err_prefix in Ew. by exists [], f, (map fst work), sent.
  - destruct (write_frames work c) as [[r' rest]|]; [|done]. injection H as -> <-. specialize (IH rest Hok eq_refl).
    rewrite (write_ok_all _ _ _ _ Ew). destruct r as [e|[]]; [|cbn; by rewrite IH].
    destruct IH as (before & g & later & sent' & Hwork & -> & Hp). exists (f :: before), g, later, sent'.
    cbn. rewrite Hwork. split; [done|]. split; [by rewrite <- app_assoc|exact Hp].
Qed.

(** C19. Frames cross a channel whole or not at all.  Frames are written one after the other
    until a write fails; what is then on the wire is the beginning of their bytes, and a
    reader that gets it, in chunks of any sizes, decodes exactly the frames that arrived
    whole, in order, and holds back the part of the one that did not: all of them when
    every write succeeded, and of a failed write at most the frame itself.  The wire may
    be of any length as long as the reader keeps up ([keeps_up]): whenever it has taken
    the decoder's bound of bytes (4 MiB), a chunk must have ended where a frame ends. *)
Theorem frames_cross (work : list (Frame * list W)) (c : C) (r : Result unit) (wire : list byte) (chunks : list (list byte))
    (Hok : Forall (fun w => frame_ok w.1) work) (Hwrite : write_frames work c = Some (r, wire))
    (Hread : keeps_up (fd_max_buffered default_frame_decoder) (map fst work) wire chunks) :
  exists n d rest,
    fd_run default_frame_decoder chunks = (Ok (map sealed_frame (take n (map fst work))), d) /\
    wire = concat (map frame_bytes (take n (map fst work))) ++ rest /\ fd_buffered d = size64 rest /\
    match r with
    | Ok _ => take n (map fst work) = map fst work /\ rest = []
    | Err _ => exists before f later sent, map fst work = before ++ f :: later /\
        wire = concat (map frame_bytes before) ++ sent /\ sent `prefix_of` frame_bytes f /\
        (take n (map fst work) = before /\ rest = sent \/
         take n (map fst work) = before ++ [f] /\ sent = frame_bytes f /\ rest = [])
    end.
Proof.
  pose proof (write_frames_wire _ _ _ _ Hok Hwrite) as Hw.
  assert (Forall frame_ok (map fst work)) as Hframes by (apply Forall_map; exact Hok). clear Hok. rename Hframes into Hok.
  generalize dependent (map fst work). clear work Hwrite. intros frames Hread Hw Hok.
  assert (wire `prefix_of` concat (map frame_bytes frames)) as Hpre.
  { destruct r as [e|[]]; [|by rewrite Hw]. destruct Hw as (before & f & later & sent & -> & -> & [more Hmore]).
    rewrite map_app, concat_app. cbn [map concat]. rewrite Hmore, <- app_assoc. apply prefix_app, prefix_app_r. reflexivity. }
  destruct (fd_run_keeps_up _ frames wire chunks default_frame_decoder Hread) as (n & d & rest & Hrun & Hd & Hwire & Hpart);
    [|by split|done|exact Hpre|].
  { eapply Forall_impl; [exact Hok|]. intros f Hf. split; [exact Hf|]. apply Hf. }
  exists n, d, rest. split; [exact Hrun|]. split; [exact Hwire|]. split; [exact (holding_available _ _ Hd)|].
  destruct r as [e|[]].
  - destruct Hw as (before & f & later & sent & -> & Hsent & Hp). exists before, f, later, sent.
    split; [done|]. split; [exact Hsent|]. split; [exact Hp|]. rewrite Hsent in Hwire.
    by apply (whole_frames before f later n).
  - assert (rest = concat (map frame_bytes (drop n frames))) as Hrest.
    { apply (app_inv_head (concat (map frame_bytes (take n frames)))). rewrite <- Hwire, Hw, <- concat_app, <- map_app.
      by rewrite take_drop. }
    destruct (part_of_nothing _ _ Hrest Hpart) as [-> Hn]. split; [|done].
    rewrite <- (take_drop n frames) at 2. by rewrite Hn, app_nil_r.
Qed.
End Frames.

(** ** Accepting *)

Ltac unchanged := split; [done|split; [done|by left]].

(** C20. An accepted connection leaves a listener that can accept the next one: the pipe that
    was connected belongs to the channel, and a new one takes its place.  A peer that
    vanished costs its pipe and nothing else.  Otherwise the listener is as it was, or it
    lost its pipe and is closed.  No handle is left open that nobody owns. *)
Theorem accept_keeps_serving (answers : AcceptAnswers) (l l' : PipeListener) (open open' : Handles) (r : Result N)
    (Hvalid : pl_valid l = true) (Howned : pl_handle l ∈ open)
    (Hevent : forall event, aa_event answers = inl event -> event ∉ open)
    (Hnew : forall handle, aa_replacement answers = inl handle -> (handle ∉ open) /\ handle <> 0)
    (Haccept : pipe_accept answers l open = Some (r, l', open')) :
  pl_options l' = pl_options l /\ pl_endpoint l' = pl_endpoint l /\
  match r with
  | Ok channel => channel = pl_handle l /\ (channel ∈ open') /\ pl_valid l' = true /\ (pl_handle l' ∉ open) /\
      open' = {[pl_handle l']} ∪ open
  | Err e =>
      l' = l /\ open' = open \/
      st_code e = Unavailable /\ pl_valid l' = true /\ (pl_handle l' ∉ open) /\ open' = {[pl_handle l']} ∪ (open ∖ {[pl_handle l]}) \/
      st_code e = IoError /\ pl_valid l' = false /\ open' = (open ∖ {[pl_handle l]})
  end.
Proof.
  unfold pipe_accept in Haccept. rewrite Hvalid in Haccept. cbn [negb] in Haccept.
  assert ((pl_handle l =? 0) = false) as Hnz by (unfold pl_valid in Hvalid; by destruct (pl_handle l =? 0)).
  destruct (aa_event answers) as [event|e]; [|injection Haccept as <- <- <-; unchanged].
  specialize (Hevent event eq_refl).
  assert (release event (({[event]} : Handles) ∪ open) = open) as Hrelease by (unfold release; set_solver).
  rewrite Hrelease in Haccept.
  destruct (connection answers) as [[e|connected]|]; [injection Haccept as <- <- <-; unchanged| |done].
  unfold replace_instance, pl_valid in *. destruct connected as [[]|e].
  - cbn [set pl_handle] in Haccept. destruct (aa_replacement answers) as [handle|e].
    + destruct (Hnew handle eq_refl) as [Hfresh Hn]. injection Haccept as <- <- <-. cbn.
      change (close_handle 0 open) with open. rewrite (proj2 (N.eqb_neq _ _) Hn). repeat split; try done. set_solver.
    + injection Haccept as <- <- <-. cbn. change (close_handle 0 open) with open. repeat split. by right; right.
  - destruct (bool_decide _); [injection Haccept as <- <- <-; unchanged|].
    destruct (_ || _); [|injection Haccept as <- <- <-; unchanged].
    unfold close_handle in Haccept. rewrite Hnz in Haccept. unfold release in Haccept.
    destruct (aa_replacement answers) as [handle|e']; injection Haccept as <- <- <-; cbn; (split; [done|]); (split; [done|]); right.
    + destruct (Hnew handle eq_refl) as [Hfresh Hn]. left. by rewrite (proj2 (N.eqb_neq _ _) Hn).
    + by right.
Qed.

(** A connected pipe whose successor cannot be created is closed with it, and the
    listener answers [Closed] from then on. *)
Lemma accept_without_successor (answers : AcceptAnswers) (l : PipeListener) (open : Handles) (event : N) (e : WinError) :
  pl_valid l = true -> aa_event answers = inl event -> connection answers = Some (Ok (inl tt)) ->
  aa_replacement answers = inr e ->
  exists open', pipe_accept answers l open
    = Some (fail_detail IoError "cannot create the next pipe instance" (win32_error e), l <| pl_handle := 0 |>, open') /\
  forall answers' open'', pipe_accept answers' (l <| pl_handle := 0 |>) open''
    = Some (fail Closed "listener is closed", l <| pl_handle := 0 |>, open'').
Proof.
  intros Hv He Hc Hr. unfold pipe_accept at 1. rewrite Hv, He, Hc. cbn [negb]. unfold replace_instance. rewrite Hr.
  eexists. split; reflexivity.
Qed.

(** ** Connecting *)

(** The budget of a connection on either platform, in the unit of its clock: it is not
    given up while there is time left, and once an attempt fails with the time used up
    it does not go on. *)
Definition gives_up {A : Type} (timeout start : N) (attempts : list (Attempt A)) (r : Result N) : Prop :=
  forall e, r = Err e -> st_code e = Unavailable ->
  exists a, a ∈ attempts /\ timeout <> 0 /\ timeout <= w64 (at_now a + 2 ^ 64 - start).

Lemma out_of_time_spent (timeout start now : N) :
  out_of_time timeout start now = true -> timeout <> 0 /\ timeout <= w64 (now + 2 ^ 64 - start).
Proof. unfold out_of_time. intros H. reflect_bools. done. Qed.

Lemma gives_up_later {A : Type} (timeout start : N) (a : Attempt A) (attempts : list (Attempt A)) (r : Result N) :
  gives_up timeout start attempts r -> gives_up timeout start (a :: attempts) r.
Proof. intros H e He Hc. destruct (H e He Hc) as (b & Hb & Ht). exists b. split; [by right|exact Ht]. Qed.

Lemma gives_up_here {A : Type} (timeout start : N) (a : Attempt A) (attempts : list (Attempt A)) (r : Result N) :
  out_of_time timeout start (at_now a) = true -> gives_up timeout start (a :: attempts) r.
Proof. intros H e _ _. exists a. split; [by left|]. by apply out_of_time_spent. Qed.

Lemma pipe_connect_budget (endpoint : string) (timeout start : N) (attempts : list (Attempt (N + WinError))) (r : Result N) :
  pipe_connect_loop endpoint timeout start attempts = Some r -> gives_up timeout start attempts r.
Proof.
  induction attempts as [|a attempts IH]; intros H; [done|]. cbn [pipe_connect_loop] in H.
  destruct (at_opened a) as [handle|e]; [by injection H as <-|].
  destruct (negb _ && negb _); [injection H as <-; by intros e' [= <-]|].
  destruct (out_of_time timeout start (at_now a)) eqn:E; [by apply gives_up_here|]. by apply gives_up_later, IH.
Qed.

Lemma socket_connect_budget (endpoint : string) (timeout start : N) (attempts : list (Attempt (option (N * bool))))
    (r : Result N) :
  socket_connect_loop endpoint timeout start attempts = ConnectReturned r -> gives_up timeout start attempts r.
Proof.
  induction attempts as [|a attempts IH]; intros H; [done|]. cbn [socket_connect_loop] in H.
  destruct (at_opened a) as [[fd connected]|]; [|injection H as <-; by intros e' [= <-]].
  destruct (_ <? _); [done|]. destruct connected; [by injection H as <-|].
  destruct (out_of_time timeout start (at_now a)) eqn:E; [by apply gives_up_here|]. by apply gives_up_later, IH.
Qed.

Lemma pipe_connect_ends (endpoint : string) (timeout start : N) (attempts : list (Attempt (N + WinError))) :
  Exists (fun a => out_of_time timeout start (at_now a) = true) attempts ->
  pipe_connect_loop endpoint timeout start attempts <> None.
Proof.
  induction 1 as [a attempts Ha|a attempts _ IH]; cbn [pipe_connect_loop]; destruct (at_opened a) as [handle|e]; try done;
    destruct (negb _ && negb _); try done; [by rewrite Ha|by destruct (out_of_time _ _ _)].
Qed.

Lemma socket_connect_ends (endpoint : string) (timeout start : N) (attempts : list (Attempt (option (N * bool)))) :
  Exists (fun a => out_of_time timeout start (at_now a) = true) attempts ->
  socket_connect_loop endpoint timeout start attempts <> ConnectWaiting.
Proof.
  induction 1 as [a attempts Ha|a attempts _ IH]; cbn [socket_connect_loop]; destruct (at_opened a) as [[fd connected]|]; try done;
    destruct (_ <? _); try done; destruct connected; try done; [by rewrite Ha|by destruct (out_of_time _ _ _)].
Qed.

(** A connection with a budget ends once its clock has run past it, and is reported
    unavailable only then, on both platforms and each in the unit of its own clock. *)
Theorem connect_budget (endpoint : string) (timeout start : N) (pipes : list (Attempt (N + WinError)))
    (sockets : list (Attempt (option (N * bool)))) :
  (forall r, pipe_connect endpoint timeout start pipes = Some r -> gives_up timeout start pipes r) /\
  (forall r, socket_connect endpoint timeout start sockets = ConnectReturned r -> gives_up timeout start sockets r) /\
  (Exists (fun a => out_of_time timeout start (at_now a) = true) pipes ->
     pipe_connect endpoint timeout start pipes <> None) /\
  (Exists (fun a => out_of_time timeout start (at_now a) = true) sockets ->
     socket_connect endpoint timeout start sockets <> ConnectWaiting).
Proof.
  unfold pipe_connect, socket_connect. destruct (String.eqb endpoint ""); [|split; [|split; [|split]]].
  - repeat split; try done; intros r H; injection H as <-; by intros e [= <-].
  - intros r. apply pipe_connect_budget.
  - intros r. apply socket_connect_budget.
  - apply pipe_connect_ends.
  - apply socket_connect_ends.
Qed.

(** ** Creating a socket *)

(** A socket that is created takes the path, whoever had it, and keeps two descriptors
    open; a failure keeps none.  That the name is in use is never a reason to refuse it. *)
Theorem socket_create_owns (answers : CreateAnswers) (options : ListenerOptions) (open open' : Handles)
    (bound bound' : Bound) (r : Result PipeListener)
    (Hfresh : forall fd, ca_socket answers = Some fd -> fd ∉ open)
    (Hpipe : forall fd rd wr, ca_socket answers = Some fd -> ca_pipe answers = Some (rd, wr) ->
               (rd ∉ open) /\ (wr ∉ open) /\ rd <> wr /\ rd <> fd /\ wr <> fd)
    (Hcreate : socket_create answers options open bound = (r, open', bound')) :
  let path := unix_path (lo_name options) in
  (forall other, other <> path -> bound' !! other = bound !! other) /\
  match r with
  | Ok l => bound' !! path = Some (pl_handle l) /\ open' = {[pl_cancel_event l]} ∪ ({[pl_handle l]} ∪ open) /\
            str_len path < kSunPath
  | Err e => st_code e <> AlreadyExists /\ open' = open
  end.
Proof.
  cbv zeta. unfold socket_create in Hcreate.
  destruct (String.eqb (lo_name options) ""); [by injection Hcreate as <- <- <-|].
  destruct (ca_socket answers) as [fd|]; [|by injection Hcreate as <- <- <-].
  specialize (Hfresh fd eq_refl). set (path := unix_path (lo_name options)) in *.
  assert (release fd ({[fd]} ∪ open) = open) as Hrelease by (unfold release; set_solver).
  rewrite Hrelease in Hcreate.
  destruct (N.leb_spec kSunPath (str_len path)) as [|Hlen]; [by injection Hcreate as <- <- <-|].
  assert (forall other, other <> path -> delete path bound !! other = bound !! other) as Hdel
    by (intros other Ho; by apply lookup_delete_ne).
  assert (forall other, other <> path -> (<[path:=fd]> (delete path bound)) !! other = bound !! other) as Hins
    by (intros other Ho; rewrite lookup_insert_ne by done; by apply Hdel).
  destruct (ca_bind answers); [|by injection Hcreate as <- <- <-].
  destruct (ca_listen answers); [|by injection Hcreate as <- <- <-].
  destruct (ca_pipe answers) as [[rd wr]|]; [|by injection Hcreate as <- <- <-].
  destruct (Hpipe fd rd wr eq_refl eq_refl) as (Hrd & Hwr & Hne & Hrf & Hwf).
  injection Hcreate as <- <- <-. split; [exact Hins|]. cbn. split; [by rewrite lookup_insert_eq|]. split; [|exact Hlen].
  unfold release. set_solver.
Qed.

(** ** Concrete channels *)

Definition demo_channel : SocketChannel := mkSocketChannel (Some 3) false.
Definition demo_work : list (Frame * list Sent) :=
  [(demo_frame 1, [SendCount 10; SendFailed true; SendCount 10000]); (demo_frame 2, [SendCount 10000])].
Definition demo_wire : list byte := concat (map (fun w => frame_bytes w.1) demo_work).

(** The second write fails in the middle of its frame. *)
Definition broken_work : list (Frame * list Sent) :=
  [(demo_frame 1, [SendCount 10000]); (demo_frame 2, [SendCount 30; SendFailed false])].

Lemma frames_cross_witness :
  let wire := take 112 demo_wire in
  let chunks := [take 7 wire; drop 7 wire] in
  write_frames broken_work demo_channel = Some (fail IoError "socket send failed", wire) /\
  exists n d rest, fd_run default_frame_decoder chunks = (Ok (map sealed_frame (take n (map fst broken_work))), d) /\
    wire = concat (map frame_bytes (take n (map fst broken_work))) ++ rest /\ fd_buffered d = size64 rest.
Proof.
  intros wire chunks.
  assert (write_frames broken_work demo_channel = Some (fail IoError "socket send failed", wire)) as Hw by (vm_compute; reflexivity).
  split; [exact Hw|].
  assert (concat chunks = wire) as Hcut by (cbn [chunks concat]; rewrite app_nil_r; apply take_drop).
  destruct (frames_cross broken_work demo_channel (fail IoError "socket send failed") wire chunks) with (2 := Hw)
    as (n & d & rest & H1 & H2 & H3 & _).
  - apply Forall_cons_2; [by apply demo_frame_ok|]. apply Forall_cons_2; [by apply demo_frame_ok|apply Forall_nil_2].
  - rewrite <- Hcut. apply ku_last. rewrite Hcut. vm_compute. discriminate.
  - exists n, d, rest. exact (conj H1 (conj H2 H3)).
Defined.

Definition demo_options : ListenerOptions := mkListenerOptions "demo" 8 (2 ^ 16).
Definition demo_listener : PipeListener := mkPipeListener "demo" demo_options 5 6.
Definition demo_answers (connect : unit + WinError) (replacement : N + WinError) : AcceptAnswers :=
  mkAcceptAnswers (inl 7) connect [mkWaitTurn WaitTimeout false; mkWaitTurn (WaitSignalled (inl tt)) false] replacement.

Lemma accept_keeps_serving_witness :
  exists l', pipe_accept (demo_answers (inr ErrorIoPending) (inl 8)) demo_listener {[5; 6]} = Some (Ok 5, l', {[8]} ∪ {[5; 6]}) /\
    pl_valid l' = true.
Proof.
  set (open := {[5; 6]} : Handles).
  assert (match pipe_accept (demo_answers (inr ErrorIoPending) (inl 8)) demo_listener open with
          | Some (Ok channel, l', _) => (channel, pl_handle l') = (5, 8) | _ => False end) as H by (vm_compute; reflexivity).
  destruct (pipe_accept _ demo_listener open) as [[[[e|channel] l'] open']|] eqn:E; try contradiction H.
  injection H as -> Hl. exists l'.
  destruct (accept_keeps_serving (demo_answers (inr ErrorIoPending) (inl 8)) demo_listener l' open open' (Ok 5))
    as (_ & _ & _ & _ & Hv & _ & Ho); [reflexivity|set_solver| | |exact E|rewrite Ho, Hl; by split].
  - intros event [= <-]. set_solver.
  - intros handle [= <-]. split; [set_solver|discriminate].
Defined.

Lemma socket_create_owns_witness :
  let create := socket_create (mkCreateAnswers (Some 9) true true (Some (10, 11))) demo_options ∅ {[ "/tmp/ncf-demo.sock"%string := 3 ]} in
  exists l, create.1.1 = Ok l /\ create.2 !! "/tmp/ncf-demo.sock"%string = Some 9.
Proof.
  intros create. exists (mkPipeListener "demo" (mkListenerOptions "" 4096 (2 ^ 16)) 9 10). split; [reflexivity|].
  refine (proj1 (proj2 (socket_create_owns (mkCreateAnswers (Some 9) true true (Some (10, 11))) demo_options ∅ _
    {[ "/tmp/ncf-demo.sock"%string := 3 ]} _ _ _ _ eq_refl))).
  - intros fd _. by apply not_elem_of_empty.
  - intros fd rd wr [= <-] [= <- <-]. repeat split; try (by apply not_elem_of_empty); discriminate.
Defined.

(** ** What the model shows *)

(** An interrupted receive reads as the end of the stream. *)
Example interrupted_read_is_end : (channel_read (RecvFailed true) 100 demo_channel).1 = Ok [].
Proof. reflexivity. Qed.

(** The budget is in microseconds and the clock of [steady_clock] in nanoseconds: a
    budget of five seconds is used up after five milliseconds. *)
Example budget_in_nanoseconds :
  socket_connect "demo" 5000000 0 [mkAttempt (Some (3, false)) 5000000]
  = ConnectReturned (fail_detail Unavailable "endpoint did not become available in time" "demo").
Proof. reflexivity. Qed.

(** A path that [create] refuses is copied by [connect], past the end of the address. *)
Example long_path_overruns :
  let name := String.concat "" (repeat "0123456789"%string 10) in
  (socket_create (mkCreateAnswers (Some 9) true true None) (mkListenerOptions name 8 0) ∅ ∅).1.1
    = fail InvalidArgument "endpoint path is too long" /\
  socket_connect name 0 0 [mkAttempt (Some (3, true)) 0] = ConnectOverrun.
Proof. split; vm_compute; reflexivity. Qed.

(** A second listener of the name takes it from the first, even when it then fails. *)
Example name_is_taken :
  let bound := {[ "/tmp/ncf-demo.sock"%string := 3 ]} : Bound in
  (socket_create (mkCreateAnswers (Some 9) false true None) demo_options ∅ bound).2 !! "/tmp/ncf-demo.sock"%string = None.
Proof. vm_compute. reflexivity. Qed.
