(* ===== verification/Process.v ===== *)
(** * Process: include/ncf/ipc/process.hpp and src/ipc/process.cpp

    Child processes of the POSIX branch over what the system calls answer: spawning,
    the bounded capture of the output, waiting, terminating and the destructor, with a
    log of the signals sent and of the child being collected; and the command line the
    Windows branch builds.  The threads of the capture are their loop over the reads. *)

From stdpp Require Import base list gmap strings.
From Stdlib Require Import Strings.Byte Strings.Ascii.
From S2P Require Import Prelude Core Bytes Channel.

Open Scope N_scope.

Record ProcessOptions := mkProcessOptions {
  po_executable : string;
  po_arguments : list string;
  po_working_directory : string;
  po_capture_stdout : bool;
  po_capture_stderr : bool;
  po_max_capture_bytes : N
}.

(** ** The command line (Windows) *)

Definition quote_char : ascii := ascii_of_nat 34.

Fixpoint escape_quotes (argument : string) : string :=
  match argument with
  | EmptyString => EmptyString
  | String c rest => if Ascii.eqb c quote_char then String "\" (String c (escape_quotes rest)) else String c (escape_quotes rest)
  end.
Definition quote_argument (argument : string) : string :=
  (String quote_char (escape_quotes argument) ++ String quote_char EmptyString)%string.
Definition command_line (options : ProcessOptions) : string :=
  foldl (fun command argument => (command ++ " " ++ quote_argument argument)%string)
    (quote_argument (po_executable options)) (po_arguments options).

(** ** Capture *)

Record Captured := mkCaptured { cd_text : list byte; cd_dropped : N }.

(** A chunk that was read. *)
Definition capture_chunk (max : N) (chunk : list byte) (c : Captured) : Captured :=
  let room := if size64 (cd_text c) <? max then max - size64 (cd_text c) else 0 in
  let keep := if size64 chunk <? room then size64 chunk else room in
  mkCaptured (cd_text c ++ take (N.to_nat keep) chunk)
    (if keep <? size64 chunk then cd_dropped c + (size64 chunk - keep) else cd_dropped c).

(** The thread: it ends at the first read that answers nothing or fails. *)
Fixpoint capture_loop (max : N) (reads : list (option (list byte))) (c : Captured) : Captured :=
  match reads with
  | [] | None :: _ | Some [] :: _ => c
  | Some chunk :: rest => capture_loop max rest (capture_chunk max chunk c)
  end.

(** ** The child *)

Record Child := mkChild {
  ch_pid : N;
  ch_stdout_fd : option N;
  ch_stderr_fd : option N;
  ch_exit_code : Z;
  ch_reaped : bool
}.

#[export] Instance Child_settable : Settable Child :=
  fields! mkChild < ch_pid; ch_stdout_fd; ch_stderr_fd; ch_exit_code; ch_reaped >.

(** What the process did to the child, oldest first. *)
Inductive ChildEvent := Signalled (pid : N) | Collected (pid : N).

#[export] Instance ChildEvent_eq_dec : EqDecision ChildEvent.
Proof. solve_decision. Defined.

Record ChildWorld := mkChildWorld { cw_open : Handles; cw_log : list ChildEvent }.

#[export] Instance ChildWorld_settable : Settable ChildWorld := fields! mkChildWorld < cw_open; cw_log >.

Definition note (e : ChildEvent) (w : ChildWorld) : ChildWorld := w <| cw_log ::= fun l => l ++ [e] |>.
Definition close_fd (fd : option N) (w : ChildWorld) : ChildWorld :=
  match fd with Some fd => w <| cw_open ::= release fd |> | None => w end.

(** A pipe that is made when it is wanted: its two ends. *)
Definition make_pipe (wanted : bool) (answer : option (N * N)) (w : ChildWorld) : option (option (N * N)) * ChildWorld :=
  if negb wanted then (Some None, w)
  else
    match answer with
    | None => (None, w)
    | Some (rd, wr) => (Some (Some (rd, wr)), w <| cw_open ::= fun o => {[wr]} ∪ ({[rd]} ∪ o) |>)
    end.

(** [spawn]: [forked] is the identity of the child. *)
Definition spawn (options : ProcessOptions) (out_pipe err_pipe : option (N * N)) (forked : option N) (w : ChildWorld) :
    Result Child * ChildWorld :=
  if String.eqb (po_executable options) "" then (fail InvalidArgument "child process executable is empty", w)
  else
    match make_pipe (po_capture_stdout options) out_pipe w with
    | (None, w) => (fail IoError "cannot create the stdout pipe", w)
    | (Some out, w) =>
        match make_pipe (po_capture_stderr options) err_pipe w with
        | (None, w) => (fail IoError "cannot create the stderr pipe", w)
        | (Some err, w) =>
            match forked with
            | None => (fail IoError "fork failed", w)
            | Some pid => (Ok (mkChild pid (option_map fst out) (option_map fst err) 0 false),
                           close_fd (option_map snd err) (close_fd (option_map snd out) w))
            end
        end
    end.

(** What [waitpid] answers: the child runs, it ended (with its exit code, if it exited),
    or the call failed. *)
Inductive WaitAnswer := StillRunning | Ended (code : option Z) | WaitError.

Definition exit_code_of (code : option Z) : Z := default (-1)%Z code.
Definition reap (code : Z) (c : Child) : Child := c <| ch_reaped := true |> <| ch_exit_code := code |>.

(** [running]; a call that fails leaves the status 0, which reads as an exit with 0. *)
Definition running (answer : WaitAnswer) (c : Child) (w : ChildWorld) : bool * Child * ChildWorld :=
  if (ch_pid c =? 0) || ch_reaped c then (false, c, w)
  else
    match answer with
    | StillRunning => (true, c, w)
    | Ended code => (false, reap (exit_code_of code) c, note (Collected (ch_pid c)) w)
    | WaitError => (false, reap 0 c, w)
    end.

Definition stop_capture (c : Child) (w : ChildWorld) : Child * ChildWorld :=
  (c <| ch_stdout_fd := None |> <| ch_stderr_fd := None |>, close_fd (ch_stderr_fd c) (close_fd (ch_stdout_fd c) w)).

(** [wait], which blocks until the child has ended. *)
Definition wait (answer : WaitAnswer) (c : Child) (w : ChildWorld) : Result Z * Child * ChildWorld :=
  if ch_pid c =? 0 then (fail NotReady "no child process is attached", c, w)
  else
    let finish c w := let '(c, w) := stop_capture c w in (Ok (ch_exit_code c), c, w) in
    if ch_reaped c then finish c w
    else
      match answer with
      | Ended code => finish (reap (exit_code_of code) c) (note (Collected (ch_pid c)) w)
      | _ => (fail IoError "waitpid failed", c, w)
      end.

Definition terminate (c : Child) (w : ChildWorld) : Result unit * ChildWorld :=
  if ch_pid c =? 0 then (fail NotReady "no child process is attached", w) else (Ok tt, note (Signalled (ch_pid c)) w).

(** A child that is given up is killed and waited for; the code does not look at what
    that wait answers. *)
Definition kill_and_collect (final : WaitAnswer) (c : Child) (w : ChildWorld) : ChildWorld :=
  let w := note (Signalled (ch_pid c)) w in
  match final with Ended _ => note (Collected (ch_pid c)) w | _ => w end.

(** The destructor: a child that was not reaped is killed and collected. *)
Definition destroy (final : WaitAnswer) (c : Child) (w : ChildWorld) : ChildWorld :=
  let w := if negb (ch_pid c =? 0) && negb (ch_reaped c) then kill_and_collect final c w else w in
  (stop_capture c w).2.

(** The assignment to a child that has one already. *)
Definition assign (final : WaitAnswer) (other c : Child) (w : ChildWorld) : Child * ChildWorld :=
  let '(c, w) := stop_capture c w in
  (other, if negb (ch_pid c =? 0) && negb (ch_reaped c) then kill_and_collect final c w else w).

(** ** Uses of a child *)

Inductive ChildCall := CallRunning (answer : WaitAnswer) | CallWait (answer : WaitAnswer) | CallTerminate | CallStopCapture.

#[export] Instance WaitAnswer_eq_dec : EqDecision WaitAnswer.
Proof. solve_decision. Defined.
#[export] Instance ChildCall_eq_dec : EqDecision ChildCall.
Proof. solve_decision. Defined.

Definition use (call : ChildCall) (s : Child * ChildWorld) : Child * ChildWorld :=
  let '(c, w) := s in
  match call with
  | CallRunning answer => let '(_, c, w) := running answer c w in (c, w)
  | CallWait answer => let '(_, c, w) := wait answer c w in (c, w)
  | CallTerminate => let '(_, w) := terminate c w in (c, w)
  | CallStopCapture => stop_capture c w
  end.

(** The life of a child: what is done with it, and its end. *)
Definition live (calls : list ChildCall) (final : WaitAnswer) (s : Child * ChildWorld) : ChildWorld :=
  let '(c, w) := foldl (fun s call => use call s) s calls in destroy final c w.

(** * Properties *)

(** ** Capture *)

Lemma capture_chunk_stream (max : N) (chunk : list byte) (stream : list byte) :
  capture_chunk max chunk (mkCaptured (take (N.to_nat max) stream) (size64 stream - max))
  = mkCaptured (take (N.to_nat max) (stream ++ chunk)) (size64 (stream ++ chunk) - max).
Proof.
  unfold capture_chunk. cbn [cd_text cd_dropped]. rewrite size64_app.
  assert (size64 (take (N.to_nat max) stream) = N.min max (size64 stream)) as ->
    by (unfold size64; rewrite length_take; lia).
  set (room := if N.min max (size64 stream) <? max then _ else _).
  assert (room = max - size64 stream) as -> by (unfold room; destruct (N.ltb_spec (N.min max (size64 stream)) max); lia).
  f_equal.
  - rewrite take_app. f_equal. unfold size64 in *. destruct (N.ltb_spec (N.of_nat (length chunk)) (max - N.of_nat (length stream))).
    + rewrite !take_ge by lia. done.
    + f_equal. lia.
  - destruct (N.ltb_spec (size64 chunk) (max - size64 stream));
      match goal with |- context [?a <? ?b] => destruct (N.ltb_spec a b) end; lia.
Qed.

(** What the reads answer up to the end of the output. *)
Fixpoint output (reads : list (option (list byte))) : list byte :=
  match reads with
  | [] | None :: _ | Some [] :: _ => []
  | Some chunk :: rest => chunk ++ output rest
  end.

Lemma capture_loop_stream (max : N) (reads : list (option (list byte))) (stream : list byte) :
  capture_loop max reads (mkCaptured (take (N.to_nat max) stream) (size64 stream - max))
  = mkCaptured (take (N.to_nat max) (stream ++ output reads)) (size64 (stream ++ output reads) - max).
Proof.
  revert stream. induction reads as [|[[|b chunk]|] reads IH]; intros stream; cbn [capture_loop output];
    rewrite ?app_nil_r; try done.
  by rewrite capture_chunk_stream, IH, <- app_assoc.
Qed.

(** The capture keeps the beginning of the output, up to the bound, and counts exactly
    the bytes behind it, however the output was cut by the reads. *)
Theorem capture_is_bounded (max : N) (reads : list (option (list byte))) :
  capture_loop max reads (mkCaptured [] 0)
  = mkCaptured (take (N.to_nat max) (output reads)) (size64 (output reads) - max).
Proof. pose proof (capture_loop_stream max reads []) as H. rewrite take_nil in H. exact H. Qed.

(** ** The life of a child *)

(** The descriptors a child has open. *)
Definition fd_set (fd : option N) : Handles := match fd with Some fd => {[fd]} | None => ∅ end.
Definition child_fds (c : Child) : Handles := fd_set (ch_stdout_fd c) ∪ fd_set (ch_stderr_fd c).

(** How often the child was collected, and whether a signal was sent after that. *)
Fixpoint collections (log : list ChildEvent) : nat :=
  match log with [] => 0 | Collected _ :: later => S (collections later) | Signalled _ :: later => collections later end.
Fixpoint late_signal (collected : bool) (log : list ChildEvent) : bool :=
  match log with
  | [] => false
  | Signalled _ :: later => collected || late_signal collected later
  | Collected _ :: later => late_signal true later
  end.

Lemma collections_app (l k : list ChildEvent) : collections (l ++ k) = (collections l + collections k)%nat.
Proof. induction l as [|[pid|pid] l IH]; cbn; [done|exact IH|by rewrite IH]. Qed.

Lemma late_signal_snoc (b : bool) (log : list ChildEvent) (e : ChildEvent) :
  late_signal b (log ++ [e])
  = late_signal b log || match e with Signalled _ => b || negb (collections log =? 0)%nat | Collected _ => false end.
Proof.
  revert b. induction log as [|[pid|pid] log IH]; intros b.
  - cbn. by destruct e; rewrite ?orb_false_r.
  - cbn [late_signal app]. rewrite IH. by rewrite orb_assoc.
  - cbn [late_signal app]. rewrite IH. f_equal. destruct e; [|done]. cbn. by rewrite orb_true_r.
Qed.

(** What the calls do to a child: one of them collects it, or a poll that fails writes
    it off first, or neither. *)
Inductive Fate := FateCollected | FateLost | FateUndecided.

#[export] Instance Fate_eq_dec : EqDecision Fate.
Proof. solve_decision. Defined.

Definition decide_fate (fate : Fate) (call : ChildCall) : Fate :=
  match fate, call with
  | FateUndecided, (CallRunning (Ended _) | CallWait (Ended _)) => FateCollected
  | FateUndecided, CallRunning WaitError => FateLost
  | fate, _ => fate
  end.
Definition fate_of (calls : list ChildCall) : Fate := foldl decide_fate FateUndecided calls.

(** A child in use: its descriptors are open and its own, it counts as reaped when its
    fate is decided and was collected when it is that; a signal was late only if the
    uses may send one. *)
Record in_use (base : Handles) (may_signal : bool) (fate : Fate) (c : Child) (w : ChildWorld) : Prop := {
  iu_pid : ch_pid c <> 0;
  iu_open : cw_open w = child_fds c ∪ base;
  iu_own : child_fds c ## base;
  iu_reaped : ch_reaped c = negb (bool_decide (fate = FateUndecided));
  iu_collected : collections (cw_log w) = if decide (fate = FateCollected) then 1%nat else 0%nat;
  iu_signal : may_signal = false -> late_signal false (cw_log w) = false
}.

Lemma collected_in_use (base : Handles) (may_signal : bool) (code : Z) (c : Child) (w : ChildWorld) :
  in_use base may_signal FateUndecided c w ->
  in_use base may_signal FateCollected (reap code c) (note (Collected (ch_pid c)) w).
Proof.
  intros [Hp Ho Hd Hr Hc Hs]. split; cbn; try done; [by rewrite collections_app, Hc|].
  intros Hm. rewrite late_signal_snoc, Hs by done. done.
Qed.

Lemma close_fd_open (fd : option N) (w : ChildWorld) : cw_open (close_fd fd w) = cw_open w ∖ fd_set fd.
Proof. destruct fd; cbn; [done|]. symmetry. apply difference_empty_L. Qed.

Lemma close_fd_log (fd : option N) (w : ChildWorld) : cw_log (close_fd fd w) = cw_log w.
Proof. by destruct fd. Qed.

Lemma give_back (a b base : Handles) : a ∪ b ## base -> ((a ∪ b ∪ base) ∖ a) ∖ b = base.
Proof. set_solver. Qed.

Lemma stopped_in_use (base : Handles) (may_signal : bool) (fate : Fate) (c : Child) (w : ChildWorld) :
  in_use base may_signal fate c w ->
  in_use base may_signal fate (stop_capture c w).1 (stop_capture c w).2 /\ cw_open (stop_capture c w).2 = base.
Proof.
  intros [Hp Ho Hd Hr Hc Hs].
  assert (cw_open (stop_capture c w).2 = base) as Hbase.
  { cbn. rewrite !close_fd_open, Ho. by apply give_back. }
  assert (child_fds (stop_capture c w).1 = ∅) as Hnone by (unfold child_fds; cbn; set_solver).
  assert (cw_log (stop_capture c w).2 = cw_log w) as Hlog by (cbn; by rewrite !close_fd_log).
  split; [|exact Hbase]. split; rewrite ?Hbase, ?Hnone, ?Hlog; cbn; try done; set_solver.
Qed.

Lemma reaped_fate (base : Handles) (may_signal : bool) (fate : Fate) (c : Child) (w : ChildWorld) :
  in_use base may_signal fate c w -> if ch_reaped c then fate <> FateUndecided else fate = FateUndecided.
Proof. intros H. rewrite (iu_reaped _ _ _ _ _ H). by case_bool_decide. Qed.

Lemma use_in_use (base : Handles) (may_signal : bool) (fate : Fate) (call : ChildCall) (c : Child) (w : ChildWorld) :
  in_use base may_signal fate c w -> (call = CallTerminate -> may_signal = true) ->
  in_use base may_signal (decide_fate fate call) (use call (c, w)).1 (use call (c, w)).2.
Proof.
  intros H Ht. pose proof (iu_pid _ _ _ _ _ H) as Hp. apply N.eqb_neq in Hp. pose proof (reaped_fate _ _ _ _ _ H) as Hf.
  destruct call as [answer|answer| |]; cbn [use].
  - unfold running. rewrite Hp. cbn [orb]. destruct (ch_reaped c) eqn:Hr; [by destruct fate|]. subst fate.
    destruct answer as [|code|]; [done|by apply collected_in_use|].
    destruct H as [H1 H2 H3 H4 H5 H6]. by split.
  - unfold wait. rewrite Hp. destruct (ch_reaped c) eqn:Hr.
    + replace (decide_fate fate (CallWait answer)) with fate by (by destruct fate). by apply stopped_in_use.
    + subst fate. destruct answer as [|code|]; [done| |done]. by apply stopped_in_use, collected_in_use.
  - unfold terminate. rewrite Hp. replace (decide_fate fate CallTerminate) with fate by (by destruct fate).
    destruct H as [H1 H2 H3 H4 H5 H6]. split; cbn; try done.
    + by rewrite collections_app, H5, Nat.add_0_r.
    + intros Hm. by rewrite Ht in Hm.
  - replace (decide_fate fate CallStopCapture) with fate by (by destruct fate). by apply stopped_in_use.
Qed.

Lemma uses_in_use (base : Handles) (may_signal : bool) (fate : Fate) (calls : list ChildCall) (s : Child * ChildWorld) :
  in_use base may_signal fate s.1 s.2 -> (CallTerminate ∈ calls -> may_signal = true) ->
  let s' := foldl (fun s call => use call s) s calls in in_use base may_signal (foldl decide_fate fate calls) s'.1 s'.2.
Proof.
  cbv zeta. revert fate s. induction calls as [|call calls IH]; intros fate [c w] H Ht; [exact H|]. cbn [foldl].
  apply IH; [|intros Hin; apply Ht; by right]. apply use_in_use; [exact H|]. intros ->. apply Ht. by left.
Qed.

(** Pipes that are new: their ends are four different descriptors. *)
Definition new_pipes (out_pipe err_pipe : option (N * N)) (open : Handles) : Prop :=
  let ends := match out_pipe with Some (rd, wr) => [rd; wr] | None => [] end ++
              match err_pipe with Some (rd, wr) => [rd; wr] | None => [] end in
  NoDup ends /\ Forall (fun fd => fd ∉ open) ends.

Lemma destroyed (base : Handles) (may_signal : bool) (fate : Fate) (final : WaitAnswer) (c : Child) (w : ChildWorld) :
  in_use base may_signal fate c w ->
  cw_open (destroy final c w) = base /\
  collections (cw_log (destroy final c w))
  = match fate, final with
    | FateCollected, _ => 1%nat
    | FateLost, _ => 0%nat
    | FateUndecided, Ended _ => 1%nat
    | FateUndecided, _ => 0%nat
    end /\
  (may_signal = false -> late_signal false (cw_log (destroy final c w)) = false).
Proof.
  intros H. pose proof (reaped_fate _ _ _ _ _ H) as Hf. unfold destroy.
  rewrite (proj2 (N.eqb_neq _ _) (iu_pid _ _ _ _ _ H)). cbn [negb andb]. destruct (ch_reaped c) eqn:Hr; cbn [negb].
  - apply stopped_in_use in H as [[_ _ _ _ Hc Hs] Hbase]. split; [exact Hbase|]. split; [|exact Hs].
    rewrite Hc. by destruct fate.
  - subst fate. destruct H as [Hp Ho Hd _ Hc Hs].
    assert (in_use base may_signal FateUndecided c (note (Signalled (ch_pid c)) w)) as Hkilled.
    { split; cbn; try done; [by rewrite collections_app, Hc|].
      intros Hm. by rewrite late_signal_snoc, Hs, Hc. }
    unfold kill_and_collect. destruct final as [|code|].
    + apply stopped_in_use in Hkilled as [[_ _ _ _ Hc' Hs'] Hbase]. by split.
    + pose proof (collected_in_use base may_signal 0 c _ Hkilled) as Hdone.
      apply stopped_in_use in Hdone as [[_ _ _ _ Hc' Hs'] Hbase]. by split.
    + apply stopped_in_use in Hkilled as [[_ _ _ _ Hc' Hs'] Hbase]. by split.
Qed.

(** C21. The life of a child process, whatever is done with it and whatever its waits answer.
    No descriptor stays open.  The child is never collected twice, and it is collected
    once exactly when one of the calls did it, or none decided its fate and the wait of
    the destructor, after it has killed the child, did it.  What is not collected is a
    child written off by a poll whose waitpid failed before anything else had collected
    it, or one the destructor could not wait for.  After it was collected it gets no
    signal, unless it is asked to be terminated. *)
Theorem child_is_collected (options : ProcessOptions) (out_pipe err_pipe : option (N * N)) (pid : N) (base : Handles)
    (c : Child) (w : ChildWorld) (calls : list ChildCall) (final : WaitAnswer)
    (Hpid : pid <> 0) (Hpipes : new_pipes out_pipe err_pipe base)
    (Hspawn : spawn options out_pipe err_pipe (Some pid) (mkChildWorld base []) = (Ok c, w)) :
  let ended := live calls final (c, w) in
  cw_open ended = base /\
  collections (cw_log ended)
  = match fate_of calls, final with
    | FateCollected, _ => 1%nat
    | FateLost, _ => 0%nat
    | FateUndecided, Ended _ => 1%nat
    | FateUndecided, _ => 0%nat
    end /\
  (CallTerminate ∉ calls -> late_signal false (cw_log ended) = false).
Proof.
  cbv zeta. set (may_signal := bool_decide (CallTerminate ∈ calls)).
  assert (in_use base may_signal FateUndecided c w) as Hstart.
  { unfold spawn in Hspawn. destruct (String.eqb _ _); [done|]. unfold make_pipe, new_pipes in *.
    destruct Hpipes as [Hnd Hnew].
    destruct (po_capture_stdout options), (po_capture_stderr options), out_pipe as [[r1 w1]|], err_pipe as [[r2 w2]|];
      cbn in Hspawn; try done; injection Hspawn as <- <-; cbn in Hnd, Hnew;
      rewrite ?Forall_cons, ?NoDup_cons, ?not_elem_of_cons in *;
      (split; cbn; [done| | |done|done|done]; unfold child_fds, fd_set, release; cbn; set_solver). }
  pose proof (uses_in_use base may_signal FateUndecided calls (c, w) Hstart) as Hend. cbv zeta in Hend.
  fold (fate_of calls) in Hend. unfold live. destruct (foldl _ (c, w) calls) as [c' w'].
  specialize (Hend ltac:(intros H; by apply bool_decide_eq_true)). cbn [fst snd] in Hend.
  apply (destroyed base may_signal (fate_of calls) final) in Hend as (Hbase & Hc & Hs).
  split; [exact Hbase|]. split; [exact Hc|]. intros Hno. apply Hs. by apply bool_decide_eq_false.
Qed.

(** A child that is assigned to ends as one that is destroyed. *)
Lemma assignment_ends_child (final : WaitAnswer) (other c : Child) (w : ChildWorld) :
  assign final other c w = (other, destroy final c w).
Proof.
  unfold assign, destroy, stop_capture, kill_and_collect. cbn [ch_pid ch_reaped set snd].
  destruct (negb (ch_pid c =? 0) && negb (ch_reaped c)); [|done].
  by destruct (ch_stdout_fd c), (ch_stderr_fd c), final.
Qed.

(** ** Concrete children *)

Definition demo_process : ProcessOptions := mkProcessOptions "/bin/child" ["-x"%string] "" true true 4.
Definition demo_spawned : Result Child * ChildWorld := spawn demo_process (Some (10, 11)) (Some (12, 13)) (Some 7) (mkChildWorld {[5]} []).
Definition demo_child : Child := mkChild 7 (Some 10) (Some 12) 0 false.

Lemma child_is_collected_witness :
  let calls := [CallRunning StillRunning; CallWait WaitError; CallTerminate; CallWait (Ended (Some 3%Z))] in
  let ended := live calls WaitError (demo_child, demo_spawned.2) in
  demo_spawned.1 = Ok demo_child /\ cw_open ended = {[5]} /\ collections (cw_log ended) = 1%nat.
Proof.
  intros calls ended. assert (demo_spawned.1 = Ok demo_child) as H by reflexivity. split; [exact H|].
  destruct (child_is_collected demo_process (Some (10, 11)) (Some (12, 13)) 7 {[5]} demo_child demo_spawned.2 calls WaitError)
    as (Hopen & Hcollected & _); [discriminate| |reflexivity|].
  - split; cbn; [by repeat (apply NoDup_cons; split; [set_solver|]); apply NoDup_nil|].
    repeat (apply Forall_cons_2; [set_solver|]). apply Forall_nil_2.
  - split; [exact Hopen|exact Hcollected].
Defined.

(** ** What the model shows *)

(** A child that was waited for is signalled all the same: by then its identity may be
    another process. *)
Example terminate_after_wait :
  late_signal false (cw_log (live [CallWait (Ended (Some 0%Z)); CallTerminate] WaitError (demo_child, demo_spawned.2))) = true.
Proof. reflexivity. Qed.

(** A poll that fails counts the child as reaped with exit code 0, and nothing ends it. *)
Example failed_poll_loses_child :
  let w := live [CallRunning WaitError] (Ended None) (demo_child, demo_spawned.2) in
  (collections (cw_log w), (use (CallRunning WaitError) (demo_child, demo_spawned.2)).1) = (0%nat, reap 0 demo_child).
Proof. reflexivity. Qed.

(** A failed fork leaves the pipes open. *)
Example failed_fork_leaks :
  let '(r, w) := spawn demo_process (Some (10, 11)) (Some (12, 13)) None (mkChildWorld {[5]} []) in
  (ok r, bool_decide (cw_open w = {[5; 10; 11; 12; 13]})) = (false, true).
Proof. vm_compute. reflexivity. Qed.

(** A backslash at the end of an argument escapes its closing quotation mark. *)
Example trailing_backslash : quote_argument "a\" = (String quote_char ("a\" ++ String quote_char EmptyString))%string.
Proof. reflexivity. Qed.
