(* ===== verification/ProcessWindows.v ===== *)
(** * ProcessWindows: the Windows branch of src/ipc/process.cpp

    Child processes over what the system calls answer.  A process is its handle; the
    log has the terminations asked for and the waits that returned.  The capture and the
    command line are those of Process.v. *)

From stdpp Require Import base list gmap strings.
From S2P Require Import Prelude Core Channel Process.

Open Scope N_scope.

Record WinChild := mkWinChild {
  wc_process : option N;
  wc_thread : option N;
  wc_stdout_read : option N;
  wc_stderr_read : option N;
  wc_exit_code : Z;
  wc_reaped : bool
}.

#[export] Instance WinChild_settable : Settable WinChild :=
  fields! mkWinChild < wc_process; wc_thread; wc_stdout_read; wc_stderr_read; wc_exit_code; wc_reaped >.

(** What is asked of the handle of a process, and what it stands for. *)
Inductive ProcessStatus := ProcessRuns | ProcessExited (code : N).

Definition kStillActive : N := 259.
(** [GetExitCodeProcess], which answers a code for a process that runs as well. *)
Definition exit_code_process (s : ProcessStatus) : N := match s with ProcessRuns => kStillActive | ProcessExited code => code end.

(** [static_cast<int>] of a DWORD. *)
Definition int_of_dword (code : N) : Z :=
  if code <? 2 ^ 31 then Z.of_N code else (Z.of_N code - 2 ^ 32)%Z.

(** [spawn]: [created] is the process and its first thread. *)
Definition win_spawn (options : ProcessOptions) (out_pipe err_pipe created : option (N * N)) (w : ChildWorld) :
    Result WinChild * ChildWorld :=
  if String.eqb (po_executable options) "" then (fail InvalidArgument "child process executable is empty", w)
  else
    match make_pipe (po_capture_stdout options) out_pipe w with
    | (None, w) => (fail IoError "cannot create the stdout pipe", w)
    | (Some out, w) =>
        match make_pipe (po_capture_stderr options) err_pipe w with
        | (None, w) => (fail IoError "cannot create the stderr pipe", close_fd (option_map snd out) w)
        | (Some err, w) =>
            let w := close_fd (option_map snd err) (close_fd (option_map snd out) w) in
            match created with
            | None => (fail_detail IoError "CreateProcess failed" (po_executable options),
                       close_fd (option_map fst err) (close_fd (option_map fst out) w))
            | Some (process, thread) =>
                (Ok (mkWinChild (Some process) (Some thread) (option_map fst out) (option_map fst err) 0 false),
                 w <| cw_open ::= fun o => {[process]} ∪ ({[thread]} ∪ o) |>)
            end
        end
    end.

(** [running]; [None] is a failed question. *)
Definition win_running (answer : option ProcessStatus) (c : WinChild) : bool :=
  match wc_process c, answer with
  | Some _, Some s => exit_code_process s =? kStillActive
  | _, _ => false
  end.

Definition win_stop_capture (c : WinChild) (w : ChildWorld) : WinChild * ChildWorld :=
  (c <| wc_stdout_read := None |> <| wc_stderr_read := None |>,
   close_fd (wc_stderr_read c) (close_fd (wc_stdout_read c) w)).

(** [wait]: whether the wait returned because the process ended, and its code. *)
Definition win_wait (signalled : bool) (code : option N) (c : WinChild) (w : ChildWorld) : Result Z * WinChild * ChildWorld :=
  match wc_process c with
  | None => (fail NotReady "no child process is attached", c, w)
  | Some process =>
      if negb signalled then (fail IoError "waiting for the child process failed", c, w)
      else
        let w := note (Collected process) w in
        match code with
        | None => (fail IoError "reading the child exit code failed", c, w)
        | Some code =>
            let c := c <| wc_reaped := true |> <| wc_exit_code := int_of_dword code |> in
            let '(c, w) := win_stop_capture c w in
            (Ok (wc_exit_code c), c, w)
        end
  end.

(** [terminate]: [None] is a call that succeeds; a process that ended already denies it. *)
Definition win_terminate (error : option WinError) (c : WinChild) (w : ChildWorld) : Result unit * ChildWorld :=
  match wc_process c with
  | None => (fail NotReady "no child process is attached", w)
  | Some process =>
      match error with
      | None => (Ok tt, note (Signalled process) w)
      | Some e => (if bool_decide (e = ErrorAccessDenied) then Ok tt
                   else fail IoError "terminating the child process failed", w)
      end
  end.

(** The destructor, given what the process is when it starts. *)
Definition win_destroy (answer : option ProcessStatus) (c : WinChild) (w : ChildWorld) : ChildWorld :=
  let w :=
    match wc_process c with
    | None => w
    | Some process => note (Collected process) (if win_running answer c then note (Signalled process) w else w)
    end in
  let '(c, w) := win_stop_capture c w in
  close_fd (wc_thread c) (close_fd (wc_process c) w).

(** The assignment to a child that has one already. *)
Definition win_assign (other c : WinChild) (w : ChildWorld) : WinChild * ChildWorld :=
  let '(c, w) := win_stop_capture c w in
  (other, match wc_process c with
          | None => w
          | Some process =>
              close_fd (wc_thread c) (close_fd (Some process) (note (Collected process) (note (Signalled process) w)))
          end).

(** ** Uses of a child *)

Inductive WinCall :=
| WinRunning (answer : option ProcessStatus)
| WinWait (signalled : bool) (code : option N)
| WinTerminate (error : option WinError)
| WinStopCapture.

Definition win_use (call : WinCall) (s : WinChild * ChildWorld) : WinChild * ChildWorld :=
  let '(c, w) := s in
  match call with
  | WinRunning _ => (c, w)
  | WinWait signalled code => let '(_, c, w) := win_wait signalled code c w in (c, w)
  | WinTerminate error => let '(_, w) := win_terminate error c w in (c, w)
  | WinStopCapture => win_stop_capture c w
  end.

(** How it ends: destroyed, or assigned to. *)
Inductive WinEnd := WinDestroyed (answer : option ProcessStatus) | WinAssigned (other : WinChild).

Definition win_live (calls : list WinCall) (last : WinEnd) (s : WinChild * ChildWorld) : ChildWorld :=
  let '(c, w) := foldl (fun s call => win_use call s) s calls in
  match last with
  | WinDestroyed answer => win_destroy answer c w
  | WinAssigned other => (win_assign other c w).2
  end.

(** * Properties *)

Definition win_handles (c : WinChild) : Handles :=
  fd_set (wc_process c) ∪ fd_set (wc_thread c) ∪ fd_set (wc_stdout_read c) ∪ fd_set (wc_stderr_read c).

(** A child in use: its handles are open and its own. *)
Record win_in_use (base : Handles) (process thread : N) (c : WinChild) (w : ChildWorld) : Prop := {
  wu_process : wc_process c = Some process;
  wu_thread : wc_thread c = Some thread;
  wu_open : cw_open w = win_handles c ∪ base;
  wu_own : win_handles c ## base;
  wu_apart : fd_set (wc_process c) ∪ fd_set (wc_thread c) ## fd_set (wc_stdout_read c) ∪ fd_set (wc_stderr_read c)
}.

Lemma win_in_use_note (base : Handles) (process thread : N) (e : ChildEvent) (c : WinChild) (w : ChildWorld) :
  win_in_use base process thread c w -> win_in_use base process thread c (note e w).
Proof. intros [H1 H2 H3 H4 H5]. by split. Qed.

Lemma win_stopped (base : Handles) (process thread : N) (c : WinChild) (w : ChildWorld) :
  win_in_use base process thread c w ->
  win_in_use base process thread (win_stop_capture c w).1 (win_stop_capture c w).2 /\
  cw_open (win_stop_capture c w).2 = {[process]} ∪ {[thread]} ∪ base.
Proof.
  intros [H1 H2 H3 H4 H5]. unfold win_handles in *.
  rewrite H1, H2 in *. cbn [fd_set] in *.
  assert (cw_open (win_stop_capture c w).2 = {[process]} ∪ {[thread]} ∪ base) as Hopen.
  { cbn. rewrite !close_fd_open, H3. apply set_eq. set_solver. }
  split; [|exact Hopen]. split; cbn -[close_fd]; try done; unfold win_handles; cbn -[close_fd];
    rewrite ?H1, ?H2; cbn [fd_set]; set_solver.
Qed.

Lemma win_closed (base : Handles) (process thread : N) (c : WinChild) (w w' : ChildWorld) :
  win_in_use base process thread c w -> cw_open w' = cw_open (win_stop_capture c w).2 ->
  cw_open (close_fd (Some thread) (close_fd (Some process) w')) = base.
Proof.
  intros H Hw. rewrite !close_fd_open, Hw, (proj2 (win_stopped _ _ _ _ _ H)). cbn [fd_set]. apply give_back.
  destruct H as [H1 H2 _ Hown _]. unfold win_handles in Hown. rewrite H1, H2 in Hown. cbn [fd_set] in Hown. set_solver.
Qed.

Lemma win_use_in_use (base : Handles) (process thread : N) (call : WinCall) (c : WinChild) (w : ChildWorld) :
  win_in_use base process thread c w ->
  win_in_use base process thread (win_use call (c, w)).1 (win_use call (c, w)).2.
Proof.
  intros H. pose proof (wu_process _ _ _ _ _ H) as Hp. destruct call as [answer|signalled code|error|]; cbn [win_use].
  - exact H.
  - unfold win_wait. rewrite Hp. destruct signalled; [|exact H]. cbn [negb]. destruct code as [code|].
    2:{ by apply win_in_use_note. }
    set (c' := c <| wc_reaped := true |> <| wc_exit_code := _ |>).
    assert (win_in_use base process thread c' (note (Collected process) w)) as H'
      by (apply win_in_use_note; destruct H as [H1 H2 H3 H4 H5]; by split).
    apply win_stopped in H' as [H' _]. exact H'.
  - unfold win_terminate. rewrite Hp. destruct error; [exact H|by apply win_in_use_note].
  - by apply win_stopped.
Qed.

Lemma win_uses_in_use (base : Handles) (process thread : N) (calls : list WinCall) (s : WinChild * ChildWorld) :
  win_in_use base process thread s.1 s.2 ->
  let s' := foldl (fun s call => win_use call s) s calls in win_in_use base process thread s'.1 s'.2.
Proof.
  cbv zeta. revert s. induction calls as [|call calls IH]; intros [c w] H; [exact H|]. cbn [foldl]. apply IH.
  by apply win_use_in_use.
Qed.

(** Handles that are new: the ends of the pipes, the process and its thread are different. *)
Definition new_handles (out_pipe err_pipe : option (N * N)) (process thread : N) (open : Handles) : Prop :=
  let ends := match out_pipe with Some (rd, wr) => [rd; wr] | None => [] end ++
              match err_pipe with Some (rd, wr) => [rd; wr] | None => [] end ++ [process; thread] in
  NoDup ends /\ Forall (fun fd => fd ∉ open) ends.

Lemma made_pipe (wanted : bool) (answer : option (N * N)) (w w' : ChildWorld) (p : option (N * N)) :
  make_pipe wanted answer w = (Some p, w') ->
  p = (if wanted then answer else None) /\
  cw_open w' = fd_set (option_map snd p) ∪ (fd_set (option_map fst p) ∪ cw_open w) /\ cw_log w' = cw_log w.
Proof.
  unfold make_pipe. destruct wanted; cbn [negb].
  - destruct answer as [[rd wr]|]; [|done]. intros [= <- <-]. by cbn.
  - intros [= <- <-]. cbn. by rewrite !(left_id_L ∅ (∪)).
Qed.

(** The ends that are kept, those that are given away, and the handles of the process. *)
Record ends_apart (a b c d e base : Handles) : Prop := {
  ea_out : b ## a /\ b ## c /\ b ## base;
  ea_err : d ## a /\ d ## c /\ d ## base;
  ea_kept : a ## base /\ c ## base /\ e ## base /\ e ## a /\ e ## c
}.

Lemma new_handles_apart (out_pipe err_pipe : option (N * N)) (process thread : N) (base : Handles) (use_out use_err : bool) :
  new_handles out_pipe err_pipe process thread base ->
  let out := if use_out then out_pipe else None in
  let err := if use_err then err_pipe else None in
  ends_apart (fd_set (option_map fst out)) (fd_set (option_map snd out)) (fd_set (option_map fst err))
    (fd_set (option_map snd err)) ({[process]} ∪ {[thread]}) base.
Proof.
  cbv zeta. intros [Hnd Hnew].
  destruct use_out, use_err, out_pipe as [[r1 w1]|], err_pipe as [[r2 w2]|]; cbn in *;
    rewrite ?Forall_cons, ?NoDup_cons, ?not_elem_of_cons in *; (split; repeat split; set_solver).
Qed.

Lemma keep_read_ends (a b c d e base : Handles) :
  b ## a -> b ## c -> b ## base -> d ## a -> d ## c -> d ## base ->
  e ∪ (((d ∪ (c ∪ (b ∪ (a ∪ base)))) ∖ b) ∖ d) = e ∪ a ∪ c ∪ base.
Proof.
  intros H1 H2 H3 H4 H5 H6. apply set_eq. intros x. rewrite !elem_of_union, !elem_of_difference, !elem_of_union.
  specialize (H1 x). specialize (H2 x). specialize (H3 x). specialize (H4 x). specialize (H5 x). specialize (H6 x). tauto.
Qed.

Lemma win_spawned (options : ProcessOptions) (out_pipe err_pipe : option (N * N)) (process thread : N)
    (base : Handles) (c : WinChild) (w : ChildWorld) :
  new_handles out_pipe err_pipe process thread base ->
  win_spawn options out_pipe err_pipe (Some (process, thread)) (mkChildWorld base []) = (Ok c, w) ->
  win_in_use base process thread c w.
Proof.
  intros Hnew Hspawn. unfold win_spawn in Hspawn. destruct (String.eqb _ _); [done|].
  destruct (make_pipe _ out_pipe _) as [[out|] w1] eqn:E1; [|done]. apply made_pipe in E1 as (Eout & Hw1 & _).
  destruct (make_pipe _ err_pipe _) as [[err|] w2] eqn:E2; [|done]. apply made_pipe in E2 as (Eerr & Hw2 & _).
  injection Hspawn as <- <-. rewrite Hw1 in Hw2. cbn [cw_open] in Hw2.
  pose proof (new_handles_apart _ _ _ _ _ (po_capture_stdout options) (po_capture_stderr options) Hnew) as Hends.
  cbv zeta in Hends. rewrite <- Eout, <- Eerr in Hends.
  destruct Hends as [(O1 & O2 & O3) (D1 & D2 & D3) (K1 & K2 & K3 & K4 & K5)].
  split; unfold win_handles; cbn -[close_fd]; [done|done| | |].
  - rewrite !close_fd_open, Hw2, (assoc_L (∪)). by apply keep_read_ends.
  - revert K1 K2 K3. generalize (fd_set (option_map fst out)) (fd_set (option_map fst err)). set_solver.
  - revert K4 K5. generalize (fd_set (option_map fst out)) (fd_set (option_map fst err)). set_solver.
Qed.

(** However a child is used, and whether it is destroyed or assigned to, it leaves no
    handle open and its end was waited for. *)
Theorem win_child_released (options : ProcessOptions) (out_pipe err_pipe : option (N * N)) (process thread : N)
    (base : Handles) (c : WinChild) (w : ChildWorld) (calls : list WinCall) (last : WinEnd)
    (Hnew : new_handles out_pipe err_pipe process thread base)
    (Hspawn : win_spawn options out_pipe err_pipe (Some (process, thread)) (mkChildWorld base []) = (Ok c, w)) :
  let ended := win_live calls last (c, w) in
  cw_open ended = base /\ exists before, cw_log ended = before ++ [Collected process].
Proof.
  cbv zeta.
  pose proof (win_spawned _ _ _ _ _ _ _ _ Hnew Hspawn) as Hstart.
  pose proof (win_uses_in_use base process thread calls (c, w) Hstart) as Hend. cbv zeta in Hend.
  unfold win_live. destruct (foldl _ (c, w) calls) as [c' w']. cbn [fst snd] in Hend.
  destruct last as [answer|other].
  - unfold win_destroy. rewrite (wu_process _ _ _ _ _ Hend).
    set (w1 := if win_running answer c' then _ else _).
    assert (win_in_use base process thread c' (note (Collected process) w1)) as H1
      by (apply win_in_use_note; unfold w1; destruct (win_running _ _); [by apply win_in_use_note|exact Hend]).
    assert (cw_log (note (Collected process) w1) = cw_log w1 ++ [Collected process]) as Hlog by done.
    revert H1 Hlog. generalize (note (Collected process) w1) (cw_log w1). intros w2 before H1 Hlog.
    pose proof (win_closed _ _ _ _ _ (win_stop_capture c' w2).2 H1 eq_refl) as Hbase.
    unfold win_stop_capture in *. cbn [wc_process wc_thread set fst snd] in *.
    rewrite (wu_process _ _ _ _ _ H1), (wu_thread _ _ _ _ _ H1), !close_fd_log, Hlog in *. split; [exact Hbase|by exists before].
  - unfold win_assign. pose proof (wu_process _ _ _ _ _ Hend) as Hp. pose proof (wu_thread _ _ _ _ _ Hend) as Ht.
    set (w2 := note (Collected process) (note (Signalled process) (win_stop_capture c' w').2)).
    pose proof (win_closed _ _ _ _ _ w2 Hend eq_refl) as Hbase.
    assert (cw_log w2 = ((cw_log (win_stop_capture c' w').2) ++ [Signalled process]) ++ [Collected process]) as Hlog by done.
    unfold win_stop_capture in *. cbn [wc_process wc_thread set fst snd] in *. rewrite Hp, Ht in *.
    change (note (Collected process) (note (Signalled process) ?w)) with w2. cbn [snd].
    rewrite !close_fd_log, Hlog. split; [exact Hbase|by eexists].
Qed.

(** ** Concrete children *)

Definition demo_win_spawned : Result WinChild * ChildWorld :=
  win_spawn demo_process (Some (10, 11)) (Some (12, 13)) (Some (20, 21)) (mkChildWorld {[5]} []).
Definition demo_win_child : WinChild := mkWinChild (Some 20) (Some 21) (Some 10) (Some 12) 0 false.

Lemma win_child_released_witness :
  demo_win_spawned.1 = Ok demo_win_child /\
  cw_open (win_live [WinTerminate None; WinWait true (Some 57005)] (WinDestroyed (Some (ProcessExited 57005)))
             (demo_win_child, demo_win_spawned.2)) = {[5]}.
Proof.
  assert (demo_win_spawned.1 = Ok demo_win_child) as H by reflexivity. split; [exact H|].
  refine (proj1 (win_child_released demo_process (Some (10, 11)) (Some (12, 13)) 20 21 {[5]} demo_win_child
    demo_win_spawned.2 _ _ _ _)); [|reflexivity].
  split; cbn; [by repeat (apply NoDup_cons; split; [set_solver|]); apply NoDup_nil|].
  repeat (apply Forall_cons_2; [set_solver|]). apply Forall_nil_2.
Defined.

(** A child that exits with 259 counts as running, and is terminated once more at the end. *)
Example exit_code_still_active :
  (win_running (Some (ProcessExited 259)) demo_win_child,
   cw_log (win_live [WinWait true (Some 259)] (WinDestroyed (Some (ProcessExited 259))) (demo_win_child, demo_win_spawned.2)))
  = (true, [Collected 20; Signalled 20; Collected 20]).
Proof. reflexivity. Qed.

(** When the second pipe cannot be made, the end of the first that reads stays open. *)
Example failed_pipe_leaks :
  let '(r, w) := win_spawn demo_process (Some (10, 11)) None None (mkChildWorld {[5]} []) in
  (ok r, bool_decide (cw_open w = {[5; 10]})) = (false, true).
Proof. vm_compute. reflexivity. Qed.

(** A process that cannot be created leaves nothing behind. *)
Example failed_creation_is_clean :
  let '(r, w) := win_spawn demo_process (Some (10, 11)) (Some (12, 13)) None (mkChildWorld {[5]} []) in
  (ok r, bool_decide (cw_open w = {[5]})) = (false, true).
Proof. vm_compute. reflexivity. Qed.
