(* ===== verification/Lifecycle.v ===== *)
(** * Lifecycle: the threads of include/ncf/runtime/coordinator.hpp and src/runtime/coordinator.cpp

    The coordinator process as a state machine: the accepting thread, which drains the
    node when its loop has ended, a worker for each connection, and the evaluation
    thread.  A step is what one thread does under the registry's mutex, or between two
    uses of it; any thread may take the next step.  A worker blocks in a read until the
    peer writes, and in a write until the peer reads: both may never happen, and then
    only a cancellation ends the wait.  What a worker does to the fabric while it
    serves is Coordinator.v. *)

From stdpp Require Import base list relations.
From S2P Require Import Prelude Core Frame.

Open Scope N_scope.

(** ** State *)

(** The frames a single read may complete: what fits in the decoder's buffer. *)
Definition kMaxBurst : N := fd_max_buffered default_frame_decoder / kFrameHeaderSize.

(** A worker: at the head of its loop, where it looks at the stop flag; past the test
    and about to read; blocked in the read; handling what was read, with so many
    replies to write; blocked in a write, with so many to go after it; behind its loop;
    out of the registry; its channel closed and destroyed; its completion flag set. *)
Inductive Phase :=
| PhChecking | PhEntering | PhReading | PhHandling (replies : N) | PhWriting (replies : N)
| PhLeaving | PhRemoved | PhFreed | PhDone.

#[export] Instance Phase_eq_dec : EqDecision Phase.
Proof. solve_decision. Defined.

Record Worker := mkWorker { wk_id : N; wk_phase : Phase }.

(** Where the draining thread is: before it copies the registry, calling the channels it
    copied, joining the evaluation thread, reaping, testing whether anything is left;
    [first]: before the loop of [run]. *)
Inductive Drain := DrSnapshot (first : bool) | DrCancel (first : bool) | DrSweep | DrReap | DrTest.

#[export] Instance Drain_eq_dec : EqDecision Drain.
Proof. solve_decision. Defined.

(** The accepting thread: in its loop; between [add_connection] and the start of the
    worker; draining; back from [run]. *)
Inductive Stage := SgAccepting | SgAdded (id : N) | SgDraining (at_ : Drain) | SgReturned.

#[export] Instance Stage_eq_dec : EqDecision Stage.
Proof. solve_decision. Defined.

(** [lf_cancelling]: the channels [cancel_all_connections] copied and has still to call. *)
Record Life := mkLife {
  lf_stop : bool;
  lf_stage : Stage;
  lf_registry : list N;
  lf_threads : list Worker;
  lf_next : N;
  lf_accepted : N;
  lf_cancelling : list N;
  lf_sweeping : bool;
  lf_fabric_open : bool
}.

#[export] Instance Life_settable : Settable Life :=
  fields! mkLife < lf_stop; lf_stage; lf_registry; lf_threads; lf_next; lf_accepted; lf_cancelling; lf_sweeping;
    lf_fabric_open >.

(** [run] has started the evaluation thread and enters the accept loop. *)
Definition started : Life := mkLife false SgAccepting [] [] 1 0 [] true true.

(** ** Steps of the accepting thread *)

Definition add_connection (id : N) (s : Life) : Life := s <| lf_registry ::= fun l => l ++ [id] |>.
Definition remove_connection (id : N) (s : Life) : Life := s <| lf_registry ::= filter (fun other => other <> id) |>.

Definition is_done (w : Worker) : bool := bool_decide (wk_phase w = PhDone).
(** Workers whose flag is set are joined and forgotten. *)
Definition reap_finished_threads (s : Life) : Life :=
  s <| lf_threads ::= filter (fun w => is_done w = false) |>.

(** A channel was accepted. *)
Definition accept_channel (max_connections : N) (s : Life) : Life :=
  let s := reap_finished_threads s in
  let active := size64 (lf_threads s) in
  let id := lf_next s in
  let s := s <| lf_next ::= N.succ |> in
  if max_connections <=? active then s
  else add_connection id (s <| lf_accepted ::= N.succ |>) <| lf_stage := SgAdded id |>.

(** ** Steps of a worker *)

Definition worker_of (id : N) (l : list Worker) : option Worker := find (fun w => wk_id w =? id) l.
Definition set_phase (id : N) (phase : Phase) (l : list Worker) : list Worker :=
  map (fun w => if wk_id w =? id then mkWorker id phase else w) l.

(** What a worker does next of its own accord; nothing when it is blocked or done. *)
Definition next_phase (stop : bool) (phase : Phase) : option Phase :=
  match phase with
  | PhChecking => Some (if stop then PhLeaving else PhEntering)
  | PhEntering => Some PhReading
  | PhHandling replies => Some (if replies =? 0 then PhChecking else PhWriting (N.pred replies))
  | PhLeaving => Some PhRemoved
  | PhRemoved => Some PhFreed
  | PhFreed => Some PhDone
  | PhReading | PhWriting _ | PhDone => None
  end.

(** A worker changes its phase in a way its phase permits. *)
Definition move_worker (id : N) (change : Phase -> option Phase) (s : Life) : option Life :=
  match worker_of id (lf_threads s) with
  | Some w => option_map (fun phase => s <| lf_threads ::= set_phase id phase |>) (change (wk_phase w))
  | None => None
  end.

(** The own step of a worker; behind its loop it leaves the registry. *)
Definition advance (id : N) (s : Life) : option Life :=
  match worker_of id (lf_threads s) with
  | Some (mkWorker _ PhLeaving) => move_worker id (next_phase (lf_stop s)) (remove_connection id s)
  | _ => move_worker id (next_phase (lf_stop s)) s
  end.

(** *** Cancellation *)

(** [cancel_pending]: a read or write that is in progress fails, and with it the loop of
    its worker; a channel nobody waits on is left as it was (on Windows; on POSIX the
    channel is shut down, and the next use of it fails). *)
Definition cancel_pending (id : N) (s : Life) : Life :=
  match worker_of id (lf_threads s) with
  | Some (mkWorker _ (PhReading | PhWriting _)) => s <| lf_threads ::= set_phase id PhLeaving |>
  | _ => s
  end.

(** The next step of [run] behind its accept loop; none while the evaluation thread it
    joins is running. *)
Definition drain_step (at_ : Drain) (s : Life) : option Life :=
  match at_ with
  | DrSnapshot first => Some (s <| lf_cancelling := lf_registry s |> <| lf_stage := SgDraining (DrCancel first) |>)
  | DrCancel first =>
      match lf_cancelling s with
      | id :: rest => Some (cancel_pending id (s <| lf_cancelling := rest |>))
      | [] => Some (s <| lf_stage := SgDraining (if first then DrSweep else DrReap) |>)
      end
  | DrSweep => if lf_sweeping s then None else Some (s <| lf_stage := SgDraining DrReap |>)
  | DrReap => Some ((reap_finished_threads s) <| lf_stage := SgDraining DrTest |>)
  | DrTest =>
      Some (s <| lf_stage := if bool_decide (length (lf_threads s) = 0%nat) then SgReturned
                             else SgDraining (DrSnapshot false) |>)
  end.

(** ** The machine *)

(** [AcWorker] and [AcDrain] are steps the process takes of its own accord; [AcRead] and
    [AcWritten] are a peer's, which writes or reads; [AcBreak] is a worker that ends the
    connection; the sweep ends at its next look at the stop flag; [AcClose] is the part
    of [stop] behind the draining. *)
Inductive Action :=
| AcAccept | AcStart | AcLoopEnds | AcRequestStop
| AcWorker (id : N) | AcRead (id replies : N) | AcWritten (id : N) | AcBreak (id : N)
| AcDrain | AcSweepEnds | AcClose.

Definition at_stage (stage : Stage) (s : Life) (next : Life) : option Life :=
  if bool_decide (lf_stage s = stage) then Some next else None.

Definition act (max_connections : N) (a : Action) (s : Life) : option Life :=
  match a with
  | AcAccept => at_stage SgAccepting s (accept_channel max_connections s)
  | AcStart =>
      match lf_stage s with
      | SgAdded id => Some (s <| lf_threads ::= fun l => l ++ [mkWorker id PhChecking] |> <| lf_stage := SgAccepting |>)
      | _ => None
      end
  | AcLoopEnds => at_stage SgAccepting s (s <| lf_stage := SgDraining (DrSnapshot true) |> <| lf_stop := true |>)
  | AcRequestStop => Some (s <| lf_stop := true |>)
  | AcWorker id => advance id s
  | AcRead id replies =>
      if kMaxBurst <? replies then None
      else move_worker id (fun phase => match phase with PhReading => Some (PhHandling replies) | _ => None end) s
  | AcWritten id =>
      move_worker id (fun phase => match phase with PhWriting replies => Some (PhHandling replies) | _ => None end) s
  | AcBreak id =>
      move_worker id (fun phase =>
        match phase with PhReading | PhHandling _ | PhWriting _ => Some PhLeaving | _ => None end) s
  | AcDrain => match lf_stage s with SgDraining at_ => drain_step at_ s | _ => None end
  | AcSweepEnds => if lf_stop s then Some (s <| lf_sweeping := false |>) else None
  | AcClose => at_stage SgReturned s (s <| lf_fabric_open := false |>)
  end.

Fixpoint act_all (max_connections : N) (actions : list Action) (s : Life) : option Life :=
  match actions with
  | [] => Some s
  | a :: rest => match act max_connections a s with Some s => act_all max_connections rest s | None => None end
  end.

(** The states a coordinator comes to. *)
Inductive lives (max_connections : N) : Life -> Prop :=
| lives_started : lives max_connections started
| lives_acts (a : Action) (s s' : Life) :
    lives max_connections s -> act max_connections a s = Some s' -> lives max_connections s'.

(** * Properties *)

(** The workers that serve are those that have not left the registry. *)
Definition registered_phase (p : Phase) : bool := match p with PhRemoved | PhFreed | PhDone => false | _ => true end.

Definition ids (l : list Worker) : list N := map wk_id l.
Definition serving (l : list Worker) : list N := ids (filter (fun w => registered_phase (wk_phase w) = true) l).
(** The connection that was added and has no worker yet. *)
Definition pending (s : Life) : list N := match lf_stage s with SgAdded id => [id] | _ => [] end.
Definition draining (s : Life) : bool := match lf_stage s with SgDraining _ => true | _ => false end.

Definition burst_ok (p : Phase) : Prop := match p with PhHandling n | PhWriting n => n <= kMaxBurst | _ => True end.
(** The evaluation thread has been joined. *)
Definition past_sweep (at_ : Drain) : bool :=
  match at_ with DrSnapshot first | DrCancel first => negb first | DrSweep => false | DrReap | DrTest => true end.

(** The registry holds exactly the channels that are being served, and one that is
    about to be; there are never more workers than connections are permitted; shutting
    down is final, and the fabric is closed last. *)
Record life_ok (max_connections : N) (s : Life) : Prop := {
  lo_registry : lf_registry s = serving (lf_threads s) ++ pending s;
  lo_ids : NoDup (ids (lf_threads s) ++ pending s);
  lo_next : Forall (fun id => id < lf_next s) (ids (lf_threads s) ++ pending s);
  lo_bound : size64 (lf_threads s) + size64 (pending s) <= max_connections;
  lo_cancelling : size64 (lf_cancelling s) <= max_connections;
  lo_burst : Forall (fun w => burst_ok (wk_phase w)) (lf_threads s);
  lo_stop : draining s = true \/ lf_stage s = SgReturned -> lf_stop s = true;
  lo_returned : lf_stage s = SgReturned -> lf_threads s = [] /\ lf_sweeping s = false;
  lo_drained : forall at_, lf_stage s = SgDraining at_ -> past_sweep at_ = true -> lf_sweeping s = false;
  lo_closed : lf_fabric_open s = false -> lf_stage s = SgReturned
}.

(** ** Lists of workers *)

Lemma keep_all (id : N) (l : list N) : id ∉ l -> filter (fun other => other <> id) l = l.
Proof.
  induction l as [|x l IH]; intros H; [done|]. apply not_elem_of_cons in H as [Hx H].
  rewrite filter_cons_True by done. by rewrite IH.
Qed.

Lemma ids_set (id : N) (p : Phase) (l : list Worker) : ids (set_phase id p l) = ids l.
Proof.
  unfold ids, set_phase. rewrite map_map. apply map_ext. intros w. destruct (N.eqb_spec (wk_id w) id); [by subst|done].
Qed.

Lemma set_absent (id : N) (p : Phase) (l : list Worker) : id ∉ ids l -> set_phase id p l = l.
Proof.
  unfold ids, set_phase. induction l as [|w l IH]; intros H; [done|]. apply not_elem_of_cons in H as [Hw H].
  cbn [map]. destruct (N.eqb_spec (wk_id w) id) as [E|_]; [by destruct Hw|]. by rewrite IH.
Qed.

(** Where a worker is, and what changes when its phase does. *)
Lemma worker_split (id : N) (l : list Worker) (w : Worker) :
  NoDup (ids l) -> worker_of id l = Some w ->
  exists l1 l2, l = l1 ++ w :: l2 /\ wk_id w = id /\ (id ∉ ids l1) /\ (id ∉ ids l2) /\
    forall p, set_phase id p l = l1 ++ mkWorker id p :: l2.
Proof.
  induction l as [|x l IH]; [done|]. cbn. intros [Hx Hn]%NoDup_cons. destruct (N.eqb_spec (wk_id x) id) as [<-|E].
  - intros [= <-]. exists [], l. split; [done|]. split; [done|]. split; [apply not_elem_of_nil|]. split; [exact Hx|].
    intros p. cbn [app]. f_equal. by apply set_absent.
  - intros Hw. destruct (IH Hn Hw) as (l1 & l2 & -> & Hid & H1 & H2 & Hs). exists (x :: l1), l2.
    split; [done|]. split; [exact Hid|]. split; [by apply not_elem_of_cons|]. split; [exact H2|].
    intros p. cbn [app]. f_equal. apply Hs.
Qed.

Lemma worker_found (l : list Worker) (w : Worker) : NoDup (ids l) -> w ∈ l -> worker_of (wk_id w) l = Some w.
Proof.
  induction l as [|x l IH]; [by intros _ ?%not_elem_of_nil|]. cbn. intros [Hx Hn]%NoDup_cons [->|Hw]%elem_of_cons.
  - by rewrite N.eqb_refl.
  - destruct (N.eqb_spec (wk_id x) (wk_id w)) as [E|_]; [|by apply IH]. destruct Hx. apply list_elem_of_fmap. by exists w.
Qed.

Lemma serving_cons (w : Worker) (l : list Worker) :
  serving (w :: l) = (if registered_phase (wk_phase w) then [wk_id w] else []) ++ serving l.
Proof.
  unfold serving. rewrite filter_cons. destruct (registered_phase (wk_phase w)); [by rewrite decide_True|by rewrite decide_False].
Qed.

Lemma serving_app (l k : list Worker) : serving (l ++ k) = serving l ++ serving k.
Proof. unfold serving, ids. by rewrite filter_app, map_app. Qed.

Lemma serving_ids (l : list Worker) : serving l `sublist_of` ids l.
Proof. apply fmap_sublist, sublist_filter. Qed.

Lemma serving_absent (id : N) (l : list Worker) : id ∉ ids l -> id ∉ serving l.
Proof. intros H Hin. apply H. eapply elem_of_submseteq; [exact Hin|apply sublist_submseteq, serving_ids]. Qed.

Lemma serving_size (l : list Worker) : size64 (serving l) <= size64 l.
Proof. pose proof (sublist_length _ _ (serving_ids l)) as H. unfold ids in H. rewrite length_map in H. unfold size64. lia. Qed.

Lemma serving_filter (l : list Worker) : serving (filter (fun w => is_done w = false) l) = serving l.
Proof.
  induction l as [|w l IH]; [done|]. rewrite filter_cons. destruct (decide (is_done w = false)) as [H|H].
  - by rewrite !serving_cons, IH.
  - rewrite serving_cons, IH. apply not_false_iff_true, bool_decide_eq_true in H. by rewrite H.
Qed.

Lemma ids_filter (l : list Worker) : ids (filter (fun w => is_done w = false) l) `sublist_of` ids l.
Proof. apply fmap_sublist, sublist_filter. Qed.

Lemma size_filter (l : list Worker) : size64 (filter (fun w => is_done w = false) l) <= size64 l.
Proof. unfold size64. pose proof (length_filter (fun w => is_done w = false) l). lia. Qed.

(** ** What a step of a worker changes *)

(** How far a worker is from its end once the stop flag is set. *)
Definition steps_left (p : Phase) : N :=
  match p with
  | PhEntering => 2 * kMaxBurst + 8 | PhReading => 2 * kMaxBurst + 7
  | PhWriting n => 2 * n + 6 | PhHandling n => 2 * n + 5
  | PhChecking => 4 | PhLeaving => 3 | PhRemoved => 2 | PhFreed => 1 | PhDone => 0
  end.

(** The registry when a worker goes from one phase to the next. *)
Definition registry_after (id : N) (before after : Phase) (registry : list N) : list N :=
  if registered_phase before && negb (registered_phase after) then filter (fun other => other <> id) registry else registry.

(** A worker took a step, or the end of its wait was forced on it. *)
Definition moved (s s' : Life) : Prop :=
  exists id w p, worker_of id (lf_threads s) = Some w /\
    (registered_phase p = true -> registered_phase (wk_phase w) = true) /\ (burst_ok (wk_phase w) -> burst_ok p) /\
    (lf_stop s = true -> burst_ok (wk_phase w) -> steps_left p < steps_left (wk_phase w)) /\
    s' = s <| lf_registry ::= registry_after id (wk_phase w) p |> <| lf_threads ::= set_phase id p |>.

Ltac fields := cbn [set lf_stop lf_stage lf_registry lf_threads lf_next lf_accepted lf_cancelling lf_sweeping lf_fabric_open].

Lemma move_worker_moved (id : N) (change : Phase -> option Phase) (s s' : Life) :
  (forall before after, change before = Some after ->
     registered_phase before = registered_phase after /\ (burst_ok before -> burst_ok after) /\
     (lf_stop s = true -> burst_ok before -> steps_left after < steps_left before)) ->
  move_worker id change s = Some s' -> moved s s'.
Proof.
  intros Hc. unfold move_worker. destruct (worker_of id (lf_threads s)) as [w|] eqn:Ew; [|done].
  destruct (change (wk_phase w)) as [p|] eqn:Ep; [|done]. intros [= <-]. destruct (Hc _ _ Ep) as (Hr & Hb & Hl).
  exists id, w, p. split; [exact Ew|]. split; [by rewrite Hr|]. split; [exact Hb|]. split; [exact Hl|].
  unfold registry_after. rewrite Hr, andb_negb_r. by destruct s.
Qed.

(** The actions of the workers and of their peers. *)
Definition of_worker (a : Action) : bool :=
  match a with AcWorker _ | AcRead _ _ | AcWritten _ | AcBreak _ => true | _ => false end.

Lemma next_phase_steps (stop : bool) (before after : Phase) :
  next_phase stop before = Some after -> (burst_ok before -> burst_ok after) /\
  (stop = true -> burst_ok before -> steps_left after < steps_left before) /\
  (registered_phase after = registered_phase before \/ before = PhLeaving /\ after = PhRemoved).
Proof.
  destruct before as [| | |n|n| | | |]; cbn [next_phase]; try done; try (intros [= <-]; cbn; repeat split; auto; lia).
  - destruct stop; intros [= <-]; cbn; repeat split; auto; intros; try done; lia.
  - destruct (N.eqb_spec n 0) as [->|Hn]; intros [= <-]; cbn [burst_ok steps_left registered_phase];
      (split; [|split; [|by left]]); try done; intros; lia.
Qed.

Lemma advance_moved (id : N) (s s' : Life) : advance id s = Some s' -> moved s s'.
Proof.
  unfold advance, move_worker. destruct (worker_of id (lf_threads s)) as [w|] eqn:Ew; [|done].
  assert (forall registry p, next_phase (lf_stop s) (wk_phase w) = Some p ->
    registry = registry_after id (wk_phase w) p (lf_registry s) ->
    moved s (s <| lf_registry := registry |> <| lf_threads ::= set_phase id p |>)) as Hmoved.
  { intros registry p Ep ->. destruct (next_phase_steps _ _ _ Ep) as (Hb & Hl & Hr).
    exists id, w, p. repeat split; try done. destruct Hr as [->|[-> ->]]; [done|by cbn]. }
  destruct w as [wid before]. cbn [wk_phase] in *.
  assert (before <> PhLeaving -> option_map (fun phase => s <| lf_threads ::= set_phase id phase |>)
            (next_phase (lf_stop s) before) = Some s' -> moved s s') as Hother.
  { intros Hne. destruct (next_phase (lf_stop s) before) as [p|] eqn:Ep; [|done]. intros [= <-].
    replace (s <| lf_threads ::= set_phase id p |>)
      with (s <| lf_registry := lf_registry s |> <| lf_threads ::= set_phase id p |>) by by destruct s.
    apply Hmoved; [done|]. destruct (next_phase_steps _ _ _ Ep) as (_ & _ & [Hr|[? _]]); [|done].
    unfold registry_after. by rewrite Hr, andb_negb_r. }
  destruct before as [| | |n|n| | | |]; try (by apply Hother); clear Hother.
  unfold remove_connection. fields. rewrite Ew. cbn [wk_phase next_phase option_map]. intros [= <-].
  by apply (Hmoved (filter (fun other => other <> id) (lf_registry s)) PhRemoved).
Qed.

Lemma worker_act_moved (max_connections : N) (a : Action) (s s' : Life) :
  of_worker a = true -> act max_connections a s = Some s' -> moved s s'.
Proof.
  destruct a as [| | | |id|id n|id|id| | |]; try done; intros _; cbn [act].
  - apply advance_moved.
  - destruct (N.ltb_spec kMaxBurst n); [done|]. apply move_worker_moved. intros [| | |k|k| | | |] after; try done.
    intros [= <-]. repeat split; try done. cbn [steps_left]. intros. lia.
  - apply move_worker_moved. intros [| | |k|k| | | |] after; try done. intros [= <-]. repeat split; try done.
    cbn [steps_left]. intros. lia.
  - apply move_worker_moved. intros [| | |k|k| | | |] after; try done; intros [= <-]; repeat split; try done;
      cbn [steps_left]; intros; lia.
Qed.

(** The phases in which only the peer, or a cancellation, ends the wait. *)
Definition is_blocked (p : Phase) : bool := match p with PhReading | PhWriting _ => true | _ => false end.
Definition blocked (l : list Worker) (id : N) : bool :=
  match worker_of id l with Some w => is_blocked (wk_phase w) | None => false end.

Lemma cancel_pending_moved (id : N) (s : Life) :
  (if blocked (lf_threads s) id then moved s (cancel_pending id s) else cancel_pending id s = s).
Proof.
  unfold blocked, cancel_pending. destruct (worker_of id (lf_threads s)) as [[wid p]|] eqn:Ew; [|done].
  destruct p as [| | |n|n| | | |]; cbn [wk_phase is_blocked]; try done;
    (eexists id, _, PhLeaving; split; [exact Ew|]; cbn [wk_phase]; repeat split; try done;
     first [by destruct s|cbn [steps_left]; intros; lia]).
Qed.

(** ** Steps keep the invariant *)

Section Steps.
Context (max_connections : N) (Hmax : 0 < max_connections).

Lemma started_ok : life_ok max_connections started.
Proof. split; cbn; try done; [by apply NoDup_nil|unfold size64; cbn; lia|unfold size64; cbn; lia|by intros [?|?]]. Qed.

(** Fewer workers, the same ones serving. *)
Lemma reaped_ok (s : Life) : life_ok max_connections s -> life_ok max_connections (reap_finished_threads s).
Proof.
  intros [Hr Hi Hn Hb Hl Hu Hs Ht Hd Hc]. unfold reap_finished_threads.
  assert (ids (filter (fun w => is_done w = false) (lf_threads s)) ++ pending s `sublist_of` ids (lf_threads s) ++ pending s)
    as Hsub by (apply sublist_app; [apply ids_filter|done]).
  split; fields; try done.
  - by rewrite serving_filter.
  - by eapply sublist_NoDup.
  - apply Forall_forall. intros id Hid. rewrite Forall_forall in Hn. apply Hn.
    by eapply elem_of_submseteq; [|apply sublist_submseteq, Hsub].
  - pose proof (size_filter (lf_threads s)). unfold pending in *. cbn in *. lia.
  - apply Forall_forall. intros w [_ Hw]%list_elem_of_filter. by apply (proj1 (Forall_forall _ _) Hu).
  - intros H. destruct (Ht H) as [-> Hw]. by split.
Qed.

Lemma accepted_ok (s : Life) :
  life_ok max_connections s -> lf_stage s = SgAccepting -> life_ok max_connections (accept_channel max_connections s).
Proof.
  intros H Hstage. apply reaped_ok in H. unfold accept_channel.
  assert (lf_stage (reap_finished_threads s) = SgAccepting) as Hr by done.
  set (r := reap_finished_threads s) in *. clearbody r. clear s Hstage. destruct H as [H1 H2 H3 H4 H5 H6 H7 H8 H9 H10].
  unfold pending, draining in *. rewrite Hr in *. rewrite app_nil_r in *.
  assert (Forall (fun id => id < N.succ (lf_next r)) (ids (lf_threads r))) as Hlater
    by (eapply Forall_impl; [exact H3|]; cbn beta; intros id Hid; lia).
  destruct (N.leb_spec max_connections (size64 (lf_threads r))) as [Hfull|Hroom].
  - split; unfold pending, draining; fields; rewrite ?Hr; try done; rewrite ?app_nil_r; try done.
  - unfold add_connection. split; unfold pending, draining; fields; try done; try (by intros [?|?]).
    + by rewrite H1.
    + apply NoDup_app. split; [done|]. split; [|apply NoDup_singleton]. intros id Hid ->%list_elem_of_singleton.
      rewrite Forall_forall in H3. specialize (H3 _ Hid). lia.
    + apply Forall_app. split; [exact Hlater|]. apply Forall_singleton. cbn. lia.
    + unfold size64 in *. cbn. lia.
    + intros Hf. specialize (H10 Hf). congruence.
Qed.

Lemma registry_moved (l1 l2 : list Worker) (w : Worker) (p : Phase) (rest : list N) :
  wk_id w ∉ ids l1 -> wk_id w ∉ ids l2 -> wk_id w ∉ rest ->
  (registered_phase p = true -> registered_phase (wk_phase w) = true) ->
  registry_after (wk_id w) (wk_phase w) p (serving (l1 ++ w :: l2) ++ rest)
  = serving (l1 ++ mkWorker (wk_id w) p :: l2) ++ rest.
Proof.
  intros H1 H2 H3 Hr. unfold registry_after. rewrite !serving_app, !serving_cons. cbn [wk_phase wk_id].
  destruct (registered_phase (wk_phase w)), (registered_phase p); cbn [andb negb]; try done; [|by specialize (Hr eq_refl)].
  rewrite !(filter_app (fun other => other <> wk_id w)), filter_cons_False, filter_nil by auto.
  by rewrite !keep_all by (try done; by apply serving_absent).
Qed.

Lemma moved_ok (s s' : Life) : life_ok max_connections s -> moved s s' -> life_ok max_connections s'.
Proof.
  intros [H1 H2 H3 H4 H5 H6 H7 H8 H9 H10] (id & w & p & Ew & Hr & Hb & _ & ->).
  pose proof H2 as (Hnd & Hdisj & _)%NoDup_app.
  destruct (worker_split id _ w Hnd Ew) as (l1 & l2 & El & <- & N1 & N2 & Hset). specialize (Hset p).
  assert (wk_id w ∉ pending s) as Hp by (apply Hdisj; rewrite El; unfold ids; rewrite map_app; cbn; set_solver).
  split; unfold pending, draining in *; fields; rewrite ?ids_set; try done.
  - rewrite Hset, H1, El. by apply registry_moved.
  - unfold size64, set_phase in *. by rewrite length_map.
  - rewrite Hset. rewrite El in H6. apply Forall_app in H6 as [F1 [Fw F2]%Forall_cons_1]. apply Forall_app.
    split; [exact F1|]. apply Forall_cons_2; [by apply Hb|exact F2].
  - intros Hg. destruct (H8 Hg) as [Hnil _]. by rewrite Hnil in Ew.
Qed.

(** Where the draining thread goes next. *)
Lemma staged_ok (at_ next : Drain) (cancelling : list N) (s : Life) :
  life_ok max_connections s -> lf_stage s = SgDraining at_ -> size64 cancelling <= max_connections ->
  (past_sweep next = true -> lf_sweeping s = false) ->
  life_ok max_connections (s <| lf_cancelling := cancelling |> <| lf_stage := SgDraining next |>).
Proof.
  intros [H1 H2 H3 H4 H5 H6 H7 H8 H9 H10] Hg Hc Hn. unfold pending, draining in *. rewrite Hg in *.
  split; unfold pending, draining; fields; try done; [by intros _; apply H7; left|by intros at' [= <-]|].
  intros Hf. specialize (H10 Hf). congruence.
Qed.

Lemma drained_ok (at_ : Drain) (s s' : Life) :
  life_ok max_connections s -> lf_stage s = SgDraining at_ -> drain_step at_ s = Some s' -> life_ok max_connections s'.
Proof.
  intros H Hg. pose proof H as [H1 H2 H3 H4 H5 H6 H7 H8 H9 H10].
  assert (forall next, (past_sweep next = true -> lf_sweeping s = false) ->
            life_ok max_connections (s <| lf_stage := SgDraining next |>)) as Hto.
  { intros next Hn. pose proof (staged_ok at_ next (lf_cancelling s) s H Hg H5 Hn) as Hk. by destruct s. }
  destruct at_ as [first|first| | |]; cbn [drain_step].
  - intros [= <-]. apply (staged_ok _ (DrCancel first) (lf_registry s) s H Hg); [|exact (H9 _ Hg)].
    rewrite H1. unfold pending. rewrite Hg, app_nil_r. pose proof (serving_size (lf_threads s)). lia.
  - destruct (lf_cancelling s) as [|id rest] eqn:Ec; intros [= <-].
    + apply Hto. destruct first; [done|]. intros _. by apply (H9 _ Hg).
    + assert (life_ok max_connections (s <| lf_cancelling := rest |>)) as Hr.
      { pose proof (staged_ok _ (DrCancel first) rest s H Hg) as Hk. unfold size64 in *. cbn in H5.
        specialize (Hk ltac:(lia) (H9 _ Hg)). destruct s. cbn in *. by subst. }
      pose proof (cancel_pending_moved id (s <| lf_cancelling := rest |>)) as Hm.
      destruct (blocked _ _); [by eapply moved_ok|exact (eq_ind_r (life_ok _) Hr Hm)].
  - destruct (lf_sweeping s) eqn:Hsw; [done|]. intros [= <-]. by apply Hto.
  - intros [= <-]. apply reaped_ok in H.
    pose proof (staged_ok _ DrTest (lf_cancelling s) _ H Hg H5) as Hk. specialize (Hk (fun _ => H9 _ Hg eq_refl)).
    by destruct s.
  - intros [= <-]. case_bool_decide as Hl; [|by apply Hto; intros _; exact (H9 _ Hg eq_refl)].
    apply nil_length_inv in Hl. unfold pending, draining in *. rewrite Hg in *.
    split; unfold pending, draining; fields; try done; [by intros _; apply H7; left|].
    intros _. split; [exact Hl|exact (H9 _ eq_refl eq_refl)].
Qed.

Lemma act_ok (a : Action) (s s' : Life) :
  life_ok max_connections s -> act max_connections a s = Some s' -> life_ok max_connections s'.
Proof.
  intros H. destruct (of_worker a) eqn:Ha; [intros E; eapply moved_ok; [exact H|by eapply worker_act_moved]|].
  pose proof H as [H1 H2 H3 H4 H5 H6 H7 H8 H9 H10]. destruct a; try done; cbn [act]; unfold at_stage.
  - case_bool_decide as Hg; [|done]. intros [= <-]. by apply accepted_ok.
  - destruct (lf_stage s) as [|id|at_|] eqn:Hg; try done. intros [= <-].
    unfold pending, draining in *. rewrite Hg in *.
    assert (ids (lf_threads s ++ [mkWorker id PhChecking]) = ids (lf_threads s) ++ [id]) as Hids
      by (unfold ids; by rewrite map_app).
    split; unfold pending, draining; fields; rewrite ?app_nil_r, ?serving_app, ?Hids; try done; try (by intros [?|?]).
    + unfold size64 in *. rewrite length_app. cbn in *. lia.
    + apply Forall_app. split; [exact H6|]. by apply Forall_singleton.
    + intros Hf. by specialize (H10 Hf).
  - case_bool_decide as Hg; [|done]. intros [= <-]. unfold pending, draining in *. rewrite Hg in *.
    split; unfold pending, draining; fields; try done; [by intros at' [= <-]|]. intros Hf. specialize (H10 Hf). congruence.
  - intros [= <-]. by split.
  - destruct (lf_stage s) as [|id|at_|] eqn:Hg; try done. by apply drained_ok.
  - destruct (lf_stop s) eqn:Hstop; [|done]. intros [= <-]. split; fields; try done.
    intros Hg. by destruct (H8 Hg).
  - case_bool_decide as Hg; [|done]. intros [= <-]. by split.
Qed.
End Steps.

Lemma lives_ok (max_connections : N) (s : Life) : 0 < max_connections -> lives max_connections s -> life_ok max_connections s.
Proof. intros Hmax. induction 1 as [|a s s' _ IH E]; [by apply started_ok|by eapply act_ok]. Qed.

(** C15. However the threads interleave: the registry names exactly the connections that are
    being served, each of them once; there are never more workers than are permitted;
    and when [run] is back there is no worker, no channel and no evaluation thread left,
    so that nobody uses the fabric when it is closed. *)
Theorem workers_are_accounted (max_connections : N) (s : Life) (Hmax : 0 < max_connections)
    (Hs : lives max_connections s) :
  lf_registry s = serving (lf_threads s) ++ pending s /\ NoDup (lf_registry s) /\
  size64 (lf_threads s) <= max_connections /\
  (lf_stage s = SgReturned -> lf_registry s = [] /\ lf_threads s = [] /\ lf_sweeping s = false) /\
  (lf_fabric_open s = false -> lf_registry s = [] /\ lf_threads s = [] /\ lf_sweeping s = false).
Proof.
  destruct (lives_ok _ _ Hmax Hs) as [H1 H2 H3 H4 H5 H6 H7 H8 H9 H10].
  assert (lf_stage s = SgReturned -> lf_registry s = [] /\ lf_threads s = [] /\ lf_sweeping s = false) as Hreturned.
  { intros Hg. destruct (H8 Hg) as [Ht Hw]. rewrite H1, Ht. unfold pending. by rewrite Hg. }
  split; [exact H1|]. split.
  - rewrite H1. eapply sublist_NoDup; [exact H2|]. apply sublist_app; [apply serving_ids|done].
  - split; [lia|]. split; [exact Hreturned|]. intros Hf. by apply Hreturned, H10.
Qed.

(** ** Shutting down *)

(** An action that is not possible where it is tried changes nothing. *)
Definition attempt (max_connections : N) (a : Action) (s : Life) : Life := default s (act max_connections a s).
Definition attempts (max_connections : N) (actions : list Action) (s : Life) : Life :=
  fold_left (fun s a => attempt max_connections a s) actions s.

(** A stretch of the run in which each thread of the process was scheduled; whatever
    else happens in it, and in which order, is open. *)
Definition fair_round (crew : list N) (round : list Action) : Prop :=
  AcDrain ∈ round /\ AcSweepEnds ∈ round /\ forall id, id ∈ crew -> AcWorker id ∈ round.

(** The rounds a shutdown takes at the most. *)
Definition shutdown_rounds (max_connections : N) : N :=
  (max_connections * (2 * kMaxBurst + 8) + 2) * (2 * max_connections + 7).

(** *** The measure *)

Definition total (l : list Worker) : N := foldr (fun w n => steps_left (wk_phase w) + n) 0 l.
Definition work (s : Life) : N := total (lf_threads s) + (if lf_sweeping s then 1 else 0).

(** Nobody moves of his own accord. *)
Definition at_rest (w : Worker) : bool := is_blocked (wk_phase w) || is_done w.
Definition all_at_rest (s : Life) : bool := negb (lf_sweeping s) && forallb at_rest (lf_threads s).
Definition someone_blocked (l : list Worker) : bool := existsb (fun w => is_blocked (wk_phase w)) l.

Fixpoint turns_to (waiting : N -> bool) (l : list N) (beyond : N) : N :=
  match l with
  | [] => beyond
  | id :: rest => if waiting id then 1 else 1 + turns_to waiting rest beyond
  end.

(** The steps of the draining thread until it wakes somebody or is back, when nobody
    else moves. *)
Definition drain_turns (at_ : Drain) (s : Life) : N :=
  let n := size64 (lf_registry s) in
  if someone_blocked (lf_threads s) then
    match at_ with
    | DrSnapshot _ => n + 2
    | DrCancel _ => turns_to (blocked (lf_threads s)) (lf_cancelling s) (n + 6)
    | DrSweep => n + 5
    | DrReap => n + 4
    | DrTest => n + 3
    end
  else
    match at_ with
    | DrSnapshot _ => 5
    | DrCancel _ => size64 (lf_cancelling s) + 4
    | DrSweep => 3
    | DrReap => 2
    | DrTest => if size64 (lf_threads s) =? 0 then 1 else 6
    end.

Definition distance (s : Life) : N :=
  match lf_stage s with SgDraining at_ => if all_at_rest s then drain_turns at_ s else 0 | _ => 0 end.

Definition rank (max_connections : N) (s : Life) : N := work s * (2 * max_connections + 7) + distance s.

Lemma total_app (l k : list Worker) : total (l ++ k) = total l + total k.
Proof. induction l as [|w l IH]; [done|]. unfold total in *. cbn [app foldr]. rewrite IH. lia. Qed.

Lemma total_filter (l : list Worker) : total (filter (fun w => is_done w = false) l) = total l.
Proof.
  induction l as [|w l IH]; [done|]. rewrite filter_cons. destruct (decide (is_done w = false)) as [H|H].
  - unfold total in *. cbn [foldr]. by rewrite IH.
  - apply not_false_iff_true, bool_decide_eq_true in H. unfold total in *. cbn [foldr]. by rewrite IH, H.
Qed.

Lemma total_bound (l : list Worker) :
  Forall (fun w => burst_ok (wk_phase w)) l -> total l <= size64 l * (2 * kMaxBurst + 8).
Proof.
  induction 1 as [|w l Hw _ IH]; [by cbn; lia|]. rewrite size64_cons. unfold total in *. cbn [foldr].
  assert (steps_left (wk_phase w) <= 2 * kMaxBurst + 8); [|lia].
  destruct (wk_phase w); cbn [burst_ok steps_left] in *; lia.
Qed.

Lemma turns_to_bound (waiting : N -> bool) (l : list N) (beyond : N) :
  1 <= beyond -> turns_to waiting l beyond <= size64 l + beyond.
Proof. intros Hb. induction l as [|id l IH]; cbn [turns_to]; [lia|]. rewrite size64_cons. destruct (waiting id); lia. Qed.

Lemma turns_to_found (waiting : N -> bool) (l : list N) (beyond id : N) :
  id ∈ l -> waiting id = true -> turns_to waiting l beyond <= size64 l.
Proof.
  induction l as [|x l IH]; intros Hid Hw; [by apply not_elem_of_nil in Hid|]. cbn [turns_to]. rewrite size64_cons.
  destruct (waiting x) eqn:E; [lia|]. apply elem_of_cons in Hid as [->|Hid]; [congruence|]. specialize (IH Hid Hw). lia.
Qed.

(** What a step leaves as it was when nobody came closer to his end. *)
Definition same_crew (s s' : Life) : Prop :=
  lf_sweeping s' = lf_sweeping s /\ forall w, is_done w = false -> w ∈ lf_threads s' <-> w ∈ lf_threads s.

Lemma same_crew_resting (s s' : Life) : same_crew s s' -> all_at_rest s' = all_at_rest s.
Proof.
  intros [Hs Hw]. unfold all_at_rest. rewrite Hs. f_equal. apply eq_true_iff_eq. rewrite !forallb_forall.
  assert (forall w, is_done w = true -> at_rest w = true) as Hdone by (intros w H; unfold at_rest; by rewrite H, orb_true_r).
  split; intros H w Hin; (destruct (is_done w) eqn:Hd; [by apply Hdone|]); apply H, list_elem_of_In, Hw, list_elem_of_In; done.
Qed.

Lemma same_crew_blocked (s s' : Life) : same_crew s s' -> someone_blocked (lf_threads s') = someone_blocked (lf_threads s).
Proof.
  intros [_ Hw]. apply eq_true_iff_eq. unfold someone_blocked. rewrite !existsb_exists.
  split; intros (w & Hin & Hb); exists w; (split; [|exact Hb]); apply list_elem_of_In, Hw, list_elem_of_In; try done;
    unfold is_done; apply bool_decide_eq_false; intros E; by rewrite E in Hb.
Qed.

Section Draining.
Context (max_connections : N) (Hmax : 0 < max_connections).

Lemma distance_bound (s : Life) : life_ok max_connections s -> distance s < 2 * max_connections + 7.
Proof.
  intros [H1 H2 H3 H4 H5 H6 H7 H8 H9 H10]. unfold distance.
  destruct (lf_stage s) as [| |at_|] eqn:Hg; try lia. destruct (all_at_rest s); [|lia].
  assert (size64 (lf_registry s) <= max_connections) as Hr.
  { rewrite H1. unfold pending in *. rewrite Hg, app_nil_r in *. pose proof (serving_size (lf_threads s)). lia. }
  unfold drain_turns. destruct (someone_blocked (lf_threads s)), at_; try lia.
  - pose proof (turns_to_bound (blocked (lf_threads s)) (lf_cancelling s) (size64 (lf_registry s) + 6) ltac:(lia)). lia.
  - destruct (size64 (lf_threads s) =? 0); lia.
Qed.

Lemma rank_work (s s' : Life) : life_ok max_connections s' -> work s' < work s -> rank max_connections s' < rank max_connections s.
Proof. intros H%distance_bound Hw. unfold rank. nia. Qed.

(** [s'] is at the end of the shutdown, or still in it and nearer to its end; or as near. *)
Definition nearer (s s' : Life) : Prop :=
  lf_stage s' = SgReturned \/ draining s' = true /\ rank max_connections s' < rank max_connections s.
Definition as_near (s s' : Life) : Prop :=
  draining s' = true /\ rank max_connections s' = rank max_connections s /\ same_crew s s'.

Lemma moved_work (s s' : Life) :
  life_ok max_connections s -> lf_stop s = true -> moved s s' ->
  work s' < work s /\ lf_stage s' = lf_stage s /\ ids (lf_threads s') = ids (lf_threads s).
Proof.
  intros [H1 H2 H3 H4 H5 H6 H7 H8 H9 H10] Hstop (id & w & p & Ew & _ & _ & Hl & ->).
  pose proof H2 as (Hnd & _ & _)%NoDup_app.
  destruct (worker_split id _ w Hnd Ew) as (l1 & l2 & El & _ & _ & _ & Hset). fields.
  split; [|by split; [done|apply ids_set]]. unfold work. fields. rewrite Hset, El, !total_app.
  rewrite El in H6. apply Forall_app in H6 as [_ [Hb _]%Forall_cons_1]. specialize (Hl Hstop Hb).
  unfold total. cbn [foldr wk_phase]. lia.
Qed.

Lemma stop_set (s : Life) : life_ok max_connections s -> draining s = true -> lf_stop s = true.
Proof. intros H Hd. apply (lo_stop _ _ H). by left. Qed.

(** A step of a worker, forced or not, brings the end nearer. *)
Lemma moved_nearer (s s' : Life) :
  life_ok max_connections s -> draining s = true -> moved s s' -> nearer s s' /\ ids (lf_threads s') ⊆ ids (lf_threads s).
Proof.
  intros H Hd Hm. destruct (moved_work s s' H (stop_set s H Hd) Hm) as (Hw & Hg & Hi). split; [|by rewrite Hi].
  right. split; [unfold draining in *; by rewrite Hg|]. apply rank_work; [by eapply moved_ok|exact Hw].
Qed.

(** The draining thread went on, and nobody else. *)
Lemma turned_nearer (at_ next : Drain) (s s' : Life) :
  lf_stage s = SgDraining at_ -> lf_stage s' = SgDraining next -> same_crew s s' ->
  total (lf_threads s') = total (lf_threads s) -> (all_at_rest s = true -> drain_turns next s' < drain_turns at_ s) ->
  nearer s s' \/ (all_at_rest s = false /\ as_near s s').
Proof.
  intros Hg Hg' Hsame Ht Hlt. pose proof (same_crew_resting _ _ Hsame) as Hset. pose proof Hsame as [Hsw _].
  assert (work s' = work s) as Hw by (unfold work; by rewrite Ht, Hsw).
  assert (distance s = if all_at_rest s then drain_turns at_ s else 0) as D by (unfold distance; by rewrite Hg).
  assert (distance s' = if all_at_rest s' then drain_turns next s' else 0) as D' by (unfold distance; by rewrite Hg').
  rewrite Hset in D'. unfold nearer, as_near, rank, draining. rewrite Hw, Hg', D, D'.
  destruct (all_at_rest s); [left; right|right]; (split; [done|]); [specialize (Hlt eq_refl); lia|done].
Qed.

Lemma resting_done (s : Life) :
  all_at_rest s = true -> someone_blocked (lf_threads s) = false -> Forall (fun w => wk_phase w = PhDone) (lf_threads s).
Proof.
  intros [_ Hr]%andb_true_iff Hb. apply Forall_forall. intros w Hw. rewrite forallb_forall in Hr.
  apply list_elem_of_In in Hw as Hin. specialize (Hr _ Hin). unfold at_rest in Hr. apply orb_true_iff in Hr as [Hr|Hr].
  - assert (someone_blocked (lf_threads s) = true); [|congruence]. apply existsb_exists. by exists w.
  - by apply bool_decide_eq_true in Hr.
Qed.

Lemma nobody_serves (l : list Worker) :
  Forall (fun w => wk_phase w = PhDone) l -> serving l = [] /\ filter (fun w => is_done w = false) l = [].
Proof.
  induction 1 as [|w l Hw _ [IH1 IH2]]; [done|]. rewrite serving_cons, Hw, IH1, filter_cons_False; [done|].
  unfold is_done. by rewrite Hw.
Qed.

(** Somebody who waits is in the registry. *)
Lemma blocked_registered (s : Life) :
  life_ok max_connections s -> draining s = true -> someone_blocked (lf_threads s) = true ->
  exists id, id ∈ lf_registry s /\ blocked (lf_threads s) id = true.
Proof.
  intros [H1 H2 _ _ _ _ _ _ _ _] Hd (w & Hin & Hb)%existsb_exists. apply list_elem_of_In in Hin.
  pose proof H2 as (Hnd & _ & _)%NoDup_app. exists (wk_id w). split.
  - rewrite H1. apply elem_of_app. left. unfold serving, ids. apply list_elem_of_fmap. exists w. split; [done|].
    apply list_elem_of_filter. split; [by destruct (wk_phase w)|exact Hin].
  - unfold blocked. by rewrite worker_found.
Qed.

Lemma reap_same_crew (s : Life) (stage : Stage) : same_crew s ((reap_finished_threads s) <| lf_stage := stage |>).
Proof.
  split; [done|]. intros w Hd. unfold reap_finished_threads. fields. rewrite list_elem_of_filter.
  split; [by intros [_ ?]|by intros ?].
Qed.

Lemma drain_step_nearer (at_ : Drain) (s s' : Life) :
  life_ok max_connections s -> lf_stage s = SgDraining at_ -> drain_step at_ s = Some s' ->
  (nearer s s' \/ (all_at_rest s = false /\ as_near s s')) /\ ids (lf_threads s') ⊆ ids (lf_threads s).
Proof.
  intros H Hg. assert (draining s = true) as Hd by (unfold draining; by rewrite Hg).
  assert (forall next cancelling, (all_at_rest s = true ->
            drain_turns next (s <| lf_cancelling := cancelling |> <| lf_stage := SgDraining next |>) < drain_turns at_ s) ->
          nearer s (s <| lf_cancelling := cancelling |> <| lf_stage := SgDraining next |>) \/
          (all_at_rest s = false /\ as_near s (s <| lf_cancelling := cancelling |> <| lf_stage := SgDraining next |>))) as Hturn.
  { intros next cancelling Hlt. by apply (turned_nearer at_ next). }
  assert (forall next, (all_at_rest s = true -> drain_turns next (s <| lf_stage := SgDraining next |>) < drain_turns at_ s) ->
          nearer s (s <| lf_stage := SgDraining next |>) \/
          (all_at_rest s = false /\ as_near s (s <| lf_stage := SgDraining next |>))) as Hto.
  { intros next Hlt. by apply (turned_nearer at_ next). }
  destruct at_ as [first|first| | |]; cbn [drain_step].
  - intros <-%(inj Some). split; [|done]. apply Hturn. intros Hset. unfold drain_turns. fields.
    destruct (someone_blocked (lf_threads s)) eqn:Hb.
    + destruct (blocked_registered s H Hd Hb) as (id & Hin & Hw). pose proof (turns_to_found (blocked (lf_threads s)) _ (size64 (lf_registry s) + 6) _ Hin Hw). lia.
    + destruct (nobody_serves _ (resting_done s Hset Hb)) as [Hs _]. rewrite (lo_registry _ _ H), Hs.
      unfold pending. rewrite Hg. cbn [app]. rewrite size64_nil. lia.
  - destruct (lf_cancelling s) as [|id rest] eqn:Ec; intros <-%(inj Some).
    + split; [|done]. apply Hto. intros _. unfold drain_turns. fields. rewrite Ec.
      destruct first, (someone_blocked (lf_threads s)); cbn [turns_to]; rewrite ?size64_nil; lia.
    + pose proof (cancel_pending_moved id (s <| lf_cancelling := rest |>)) as Hm.
      assert (life_ok max_connections (s <| lf_cancelling := rest |>)) as Hr.
      { destruct H as [H1 H2 H3 H4 H5 H6 H7 H8 H9 H10]. split; fields; try done. rewrite Ec, size64_cons in H5. lia. }
      change (lf_threads (s <| lf_cancelling := rest |>)) with (lf_threads s) in Hm.
      destruct (blocked (lf_threads s) id) eqn:Hb.
      * pose proof (moved_nearer _ _ Hr Hd Hm) as [[Hn|[Hn Hlt]] Hi]; (split; [|exact Hi]); left; [by left|right].
        split; [exact Hn|].
        destruct (moved_work _ _ Hr (stop_set s H Hd) Hm) as (Hw & _ & _). apply rank_work; [by eapply moved_ok|exact Hw].
      * rewrite Hm. split; [|done].
        apply (turned_nearer (DrCancel first) (DrCancel first)); try done. intros Hset. unfold drain_turns. fields. rewrite Ec.
        destruct (someone_blocked (lf_threads s)); cbn [turns_to]; rewrite ?Hb, ?size64_cons; lia.
  - destruct (lf_sweeping s) eqn:Hsw; [done|]. intros <-%(inj Some). split; [|done]. apply Hto. intros _. unfold drain_turns. fields.
    destruct (someone_blocked (lf_threads s)); lia.
  - intros <-%(inj Some). pose proof (reap_same_crew s (SgDraining DrTest)) as Hsame. split.
    + apply (turned_nearer DrReap DrTest); try done; [apply total_filter|]. intros Hset. unfold drain_turns.
      rewrite (same_crew_blocked _ _ Hsame). unfold reap_finished_threads. fields.
      destruct (someone_blocked (lf_threads s)) eqn:Hb; [lia|].
      destruct (nobody_serves _ (resting_done s Hset Hb)) as [_ Hs]. rewrite Hs, size64_nil. cbn. lia.
    + unfold reap_finished_threads. fields. intros id Hid.
      by eapply elem_of_submseteq; [|apply sublist_submseteq, ids_filter].
  - intros <-%(inj Some). case_bool_decide as Hl; (split; [|done]); [by left; left|]. apply Hto. intros _. unfold drain_turns. fields.
    destruct (someone_blocked (lf_threads s)); [lia|]. destruct (N.eqb_spec (size64 (lf_threads s)) 0) as [E|_]; [|lia].
    unfold size64 in E. lia.
Qed.

Lemma same_near (s : Life) : draining s = true -> as_near s s.
Proof. by intros Hd. Qed.

(** Nothing anybody does moves the end away. *)
Lemma attempt_near (a : Action) (s : Life) :
  life_ok max_connections s -> draining s = true ->
  life_ok max_connections (attempt max_connections a s) /\
  ids (lf_threads (attempt max_connections a s)) ⊆ ids (lf_threads s) /\
  (nearer s (attempt max_connections a s) \/ as_near s (attempt max_connections a s)).
Proof.
  intros H Hd. unfold attempt. destruct (act max_connections a s) as [s'|] eqn:E; cbn [from_option id];
    [|split; [exact H|]; split; [done|]; right; by apply same_near].
  pose proof (act_ok _ Hmax _ _ _ H E) as H'. split; [exact H'|].
  destruct (of_worker a) eqn:Ha.
  { pose proof (moved_nearer s s' H Hd (worker_act_moved _ _ _ _ Ha E)) as [Hn Hi]. split; [exact Hi|by left]. }
  pose proof (stop_set s H Hd) as Hstop. unfold draining in Hd. destruct (lf_stage s) as [| |at_|] eqn:Hg; try done.
  destruct a; try done; cbn [act] in E; unfold at_stage in E; rewrite ?Hg in E;
    try done; try (by case_bool_decide).
  - assert (s' = s) as ->. { destruct s. cbn in *. congruence. }
    split; [done|]. right. apply same_near. unfold draining. by rewrite Hg.
  - destruct (drain_step_nearer at_ s s' H Hg E) as [[Hn|[_ Hn]] Hi]; (split; [exact Hi|]); [by left|by right].
  - rewrite Hstop in E. apply (inj Some) in E. subst s'. split; [done|]. destruct (lf_sweeping s) eqn:Hsw.
    + left. right. split; [unfold draining; fields; by rewrite Hg|]. apply rank_work; [exact H'|]. unfold work. fields. rewrite Hsw. lia.
    + right. assert (s <| lf_sweeping := false |> = s) as -> by (destruct s; cbn in *; congruence).
      apply same_near. unfold draining. by rewrite Hg.
Qed.

(** The actions that are certain to bring the end nearer. *)
Definition helps (a : Action) (s : Life) : Prop :=
  match a with
  | AcSweepEnds => lf_sweeping s = true
  | AcWorker id => exists w, w ∈ lf_threads s /\ wk_id w = id /\ at_rest w = false
  | AcDrain => all_at_rest s = true
  | _ => False
  end.

Lemma helps_kept (a : Action) (s s' : Life) : same_crew s s' -> helps a s -> helps a s'.
Proof.
  intros Hsame. pose proof Hsame as [Hs Hw]. destruct a; cbn [helps]; try done.
  - intros (w & Hin & Hid & Hr). exists w. split; [|done]. apply Hw; [|exact Hin].
    unfold at_rest in Hr. by apply orb_false_iff in Hr as [_ ?].
  - by rewrite (same_crew_resting _ _ Hsame).
  - by rewrite Hs.
Qed.

Lemma awake_moves (w : Worker) : at_rest w = false -> exists p, next_phase true (wk_phase w) = Some p.
Proof.
  unfold at_rest, is_done. destruct (wk_phase w); cbn; try done; eauto.
Qed.

Lemma helps_enabled (a : Action) (s : Life) :
  life_ok max_connections s -> draining s = true -> helps a s -> nearer s (attempt max_connections a s).
Proof.
  intros H Hd Hh. destruct (attempt_near a s H Hd) as (_ & _ & [Hn|(Hd' & Hrank & Hsw & _)]); [exact Hn|exfalso].
  pose proof (stop_set s H Hd) as Hstop. destruct a; cbn [helps] in Hh; try done.
  - destruct Hh as (w & Hin & <- & Hr). destruct (awake_moves w Hr) as [p Ep].
    pose proof (proj1 (proj1 (NoDup_app _ _) (lo_ids _ _ H))) as Hnd.
    assert (exists s', act max_connections (AcWorker (wk_id w)) s = Some s') as [s' E].
    { cbn [act]. unfold advance, move_worker, remove_connection. fields. rewrite (worker_found _ _ Hnd Hin), Hstop.
      destruct w as [wid q]. cbn [wk_phase] in *. destruct q; rewrite Ep; by eexists. }
    unfold attempt in Hrank. rewrite E in Hrank. cbn [from_option id] in Hrank.
    destruct (moved_work s s' H Hstop (worker_act_moved _ (AcWorker (wk_id w)) _ _ eq_refl E)) as (Hlt & _ & _).
    pose proof (rank_work s s' (act_ok _ Hmax _ _ _ H E) Hlt). lia.
  - unfold draining in Hd. destruct (lf_stage s) as [| |at_|] eqn:Hg; try done.
    destruct (drain_step at_ s) as [s'|] eqn:E.
    + unfold attempt in Hrank, Hd'. cbn [act] in Hrank, Hd'. rewrite Hg, E in Hrank, Hd'. cbn [from_option id] in Hrank, Hd'.
      destruct (drain_step_nearer at_ s s' H Hg E) as [[[Hret|[_ Hlt]]|[Hun _]] _]; [|lia|congruence].
      unfold draining in Hd'. by rewrite Hret in Hd'.
    + destruct at_; try done; cbn [drain_step] in E.
      * by destruct (lf_cancelling s).
      * unfold all_at_rest in Hh. by destruct (lf_sweeping s).
  - unfold attempt in Hsw. cbn [act] in Hsw. rewrite Hstop in Hsw. cbn in Hsw. congruence.
Qed.

(** Whoever has not come to rest will be scheduled; when nobody is left, the draining
    thread is. *)
Lemma somebody_helps (crew : list N) (round : list Action) (s : Life) :
  fair_round crew round -> ids (lf_threads s) ⊆ crew -> exists a, a ∈ round /\ helps a s.
Proof.
  intros (Hdrain & Hsweep & Hcrew) Hi. destruct (all_at_rest s) eqn:Hset; [by exists AcDrain|]. unfold all_at_rest in Hset.
  destruct (lf_sweeping s) eqn:Hsw; [by exists AcSweepEnds|]. cbn [negb andb] in Hset.
  apply not_true_iff_false in Hset. rewrite forallb_forall in Hset.
  destruct (decide (Exists (fun w => at_rest w = false) (lf_threads s))) as [(w & Hw & Hr)%Exists_exists|Hno].
  - exists (AcWorker (wk_id w)). split; [|by exists w]. apply Hcrew, Hi. apply list_elem_of_fmap. by exists w.
  - destruct Hset. intros w Hw%list_elem_of_In. destruct (at_rest w) eqn:E; [done|]. destruct Hno. apply Exists_exists. by exists w.
Qed.

Lemma returned_stays (actions : list Action) (s : Life) :
  life_ok max_connections s -> lf_stage s = SgReturned ->
  let s' := attempts max_connections actions s in life_ok max_connections s' /\ lf_stage s' = SgReturned.
Proof.
  unfold attempts. revert s. induction actions as [|a actions IH]; intros s H Hg; [done|]. cbn [fold_left].
  destruct (lo_returned _ _ H Hg) as [Ht _].
  assert (life_ok max_connections (attempt max_connections a s) /\ lf_stage (attempt max_connections a s) = SgReturned) as [H1 H2];
    [|by apply IH].
  unfold attempt. destruct (act max_connections a s) as [s'|] eqn:E; cbn [from_option id]; [|done].
  split; [by eapply act_ok|]. destruct (of_worker a) eqn:Ha.
  - apply worker_act_moved in E as (id & w & p & Ew & _); [|done]. by rewrite Ht in Ew.
  - destruct a; try done; cbn [act] in E; unfold at_stage in E; rewrite ?Hg in E; try done; try (by case_bool_decide);
      [|destruct (lf_stop s); [|done]|case_bool_decide; [|done]]; apply (inj Some) in E; by subst s'.
Qed.

(** The states a round leads to: back from [run], or nearer to it than the round began. *)
Lemma round_nearer (crew : list N) (round : list Action) (s : Life) :
  life_ok max_connections s -> draining s = true -> ids (lf_threads s) ⊆ crew ->
  let s' := attempts max_connections round s in
  life_ok max_connections s' /\ ids (lf_threads s') ⊆ crew /\
  (lf_stage s' = SgReturned \/ draining s' = true /\ rank max_connections s' <= rank max_connections s /\
     ((exists a, a ∈ round /\ helps a s) -> rank max_connections s' < rank max_connections s)).
Proof.
  unfold attempts. revert s. induction round as [|a round IH]; intros s H Hd Hi.
  { cbn [fold_left]. split; [exact H|]. split; [exact Hi|]. right. split; [exact Hd|]. split; [lia|].
    by intros (a & ?%not_elem_of_nil & _). }
  cbn [fold_left]. destruct (attempt_near a s H Hd) as (H1 & Hi1 & Hn).
  pose proof (helps_enabled a s H Hd) as Hhelp. set (t := attempt max_connections a s) in *. clearbody t.
  assert (ids (lf_threads t) ⊆ crew) as Hi2 by (by etrans).
  destruct Hn as [[Hr|[Hd1 Hlt]]|(Hd1 & Heq & Hsame)].
  - destruct (returned_stays round t H1 Hr) as [H2 Hr2]. unfold attempts in H2, Hr2. split; [exact H2|]. split; [|by left].
    destruct (lo_returned _ _ H2 Hr2) as [-> _]. by intros ? ?%not_elem_of_nil.
  - destruct (IH t H1 Hd1 Hi2) as (H2 & Hi3 & [Hr|(Hd2 & Hle & _)]); (split; [exact H2|]; split; [exact Hi3|]); [by left|].
    right. split; [exact Hd2|]. split; [lia|]. intros _. lia.
  - destruct (IH t H1 Hd1 Hi2) as (H2 & Hi3 & [Hr|(Hd2 & Hle & Hlt)]); (split; [exact H2|]; split; [exact Hi3|]); [by left|].
    right. split; [exact Hd2|]. split; [lia|]. intros (b & [->|Hb]%elem_of_cons & Hh).
    + destruct (Hhelp Hh) as [Hr|[_ Hlt']]; [|lia]. unfold draining in Hd1. by rewrite Hr in Hd1.
    + rewrite <- Heq. apply Hlt. exists b. split; [exact Hb|]. by eapply helps_kept.
Qed.

Lemma rounds_complete (crew : list N) (rounds : list (list Action)) (s : Life) :
  life_ok max_connections s -> draining s = true -> ids (lf_threads s) ⊆ crew -> Forall (fair_round crew) rounds ->
  rank max_connections s < size64 rounds ->
  let s' := attempts max_connections (concat rounds) s in life_ok max_connections s' /\ lf_stage s' = SgReturned.
Proof.
  revert s. induction rounds as [|round rounds IH]; intros s H Hd Hi Hfair Hrank; [rewrite size64_nil in Hrank; lia|].
  apply Forall_cons_1 in Hfair as [Hround Hfair]. rewrite size64_cons in Hrank. cbn [concat].
  unfold attempts. rewrite fold_left_app. destruct (round_nearer crew round s H Hd Hi) as (H1 & Hi1 & Hn).
  pose proof (somebody_helps crew round s Hround Hi) as Hhelp. unfold attempts in H1, Hi1, Hn.
  set (t := fold_left _ round s) in *. clearbody t. destruct Hn as [Hr|(Hd1 & _ & Hlt)].
  - exact (returned_stays (concat rounds) t H1 Hr).
  - apply (IH t H1 Hd1 Hi1 Hfair). specialize (Hlt Hhelp). lia.
Qed.

Lemma rank_bound (s : Life) : life_ok max_connections s -> rank max_connections s < shutdown_rounds max_connections.
Proof.
  intros H. pose proof (distance_bound s H) as Hd. pose proof (total_bound _ (lo_burst _ _ H)) as Ht.
  pose proof (lo_bound _ _ H) as Hb. unfold rank, shutdown_rounds, work.
  assert (size64 (lf_threads s) * (2 * kMaxBurst + 8) <= max_connections * (2 * kMaxBurst + 8)) as Hm by nia.
  set (B := 2 * kMaxBurst + 8) in *. clearbody B. destruct (lf_sweeping s); nia.
Qed.
End Draining.

(** C16. A shutdown ends.  From wherever a coordinator is when its accept loop has ended - workers
    in the middle of a frame, workers blocked in a read of a silent peer or in a write to
    one that does not read, a worker that looked at the stop flag just before it was
    set and will block only after the first round of cancellations - [run] is back
    within [shutdown_rounds] rounds, with every worker joined, the registry empty and the
    evaluation thread over.  All that is assumed is that in each round every thread of
    the process is scheduled once; the peers may do something or nothing, and anything
    else may happen in between.  A blocked worker does not move by itself: without the
    channels [cancel_all_connections] calls the shutdown would wait for ever. *)
Theorem shutdown_completes (max_connections : N) (s : Life) (at_ : Drain) (rounds : list (list Action))
    (Hmax : 0 < max_connections) (Hs : lives max_connections s) (Hstage : lf_stage s = SgDraining at_)
    (Hfair : Forall (fair_round (ids (lf_threads s))) rounds) (Hmany : shutdown_rounds max_connections <= size64 rounds) :
  let s' := attempts max_connections (concat rounds) s in
  lf_stage s' = SgReturned /\ lf_threads s' = [] /\ lf_registry s' = [] /\ lf_sweeping s' = false.
Proof.
  pose proof (lives_ok _ _ Hmax Hs) as Hok. pose proof (rank_bound _ Hmax s Hok) as Hrank.
  destruct (rounds_complete _ Hmax (ids (lf_threads s)) rounds s Hok) as [H' Hr]; [|done|exact Hfair|lia|].
  - unfold draining. by rewrite Hstage.
  - destruct (lo_returned _ _ H' Hr) as [Ht Hw]. split; [exact Hr|]. split; [exact Ht|]. split; [|exact Hw].
    rewrite (lo_registry _ _ H'), Ht. unfold pending. by rewrite Hr.
Qed.

(** ** Concrete runs *)

Lemma act_all_lives (max_connections : N) (actions : list Action) (s s' : Life) :
  lives max_connections s -> act_all max_connections actions s = Some s' -> lives max_connections s'.
Proof.
  revert s. induction actions as [|a actions IH]; intros s Hs H; cbn [act_all] in H; [by injection H as <-|].
  destruct (act max_connections a s) as [s1|] eqn:E; [|done]. apply (IH s1); [by eapply lives_acts|exact H].
Qed.

Definition after (actions : list Action) : Life := default started (act_all 2 actions started).

Lemma after_lives (actions : list Action) : act_all 2 actions started <> None -> lives 2 (after actions).
Proof.
  intros H. unfold after. destruct (act_all 2 actions started) as [s|] eqn:E; [|done].
  eapply act_all_lives; [apply lives_started|exact E].
Qed.

(** Three connections, two of them at once; the first has gone, the second waits for its peer. *)
Definition busy : list Action :=
  [AcAccept; AcStart; AcAccept; AcStart; AcAccept; AcWorker 1; AcWorker 2; AcWorker 1; AcBreak 1; AcWorker 1; AcWorker 1;
   AcWorker 1; AcAccept; AcStart; AcWorker 2].

Lemma workers_are_accounted_witness :
  lives 2 (after busy) /\ lf_registry (after busy) = serving (lf_threads (after busy)) ++ [] /\ lf_registry (after busy) = [2; 4].
Proof.
  assert (lives 2 (after busy)) as H by (apply after_lives; discriminate).
  split; [exact H|]. split; [|reflexivity].
  exact (proj1 (workers_are_accounted 2 (after busy) eq_refl H)).
Defined.

(** The two that are left: one waits for a peer that says nothing. *)
Definition turn : list Action := [AcWorker 2; AcDrain; AcWorker 4; AcSweepEnds].

Lemma shutdown_completes_witness :
  map wk_phase (lf_threads (after (busy ++ [AcLoopEnds]))) = [PhReading; PhChecking] /\
  lf_stage (attempts 2 (concat (replicate (N.to_nat (shutdown_rounds 2)) turn)) (after (busy ++ [AcLoopEnds]))) = SgReturned.
Proof.
  assert (lives 2 (after (busy ++ [AcLoopEnds]))) as H by (apply after_lives; discriminate).
  split; [reflexivity|].
  refine (proj1 (shutdown_completes 2 (after (busy ++ [AcLoopEnds])) (DrSnapshot true)
    (replicate (N.to_nat (shutdown_rounds 2)) turn) eq_refl H eq_refl _ _)).
  - apply Forall_replicate. repeat split; [by repeat constructor..|].
    change (ids (lf_threads (after (busy ++ [AcLoopEnds])))) with [2; 4].
    intros id [->|[->|Hid%not_elem_of_nil]%elem_of_cons]%elem_of_cons; [by repeat constructor..|done].
  - unfold size64. rewrite length_replicate, N2Nat.id. reflexivity.
Defined.

(** Seven turns are enough for them. *)
Example shutdown_in_seven : lf_stage (attempts 2 (concat (replicate 7 turn)) (after (busy ++ [AcLoopEnds]))) = SgReturned.
Proof. reflexivity. Qed.

(** ** What the model shows *)

(** The channels are called after the registry's mutex was released: by then a worker
    may have destroyed the channel that is called next. *)
Example cancelled_after_free :
  let s := after [AcAccept; AcStart; AcWorker 1; AcWorker 1; AcBreak 1; AcLoopEnds; AcDrain; AcWorker 1; AcWorker 1] in
  (head (lf_cancelling s), map wk_phase (lf_threads s)) = (Some 1, [PhFreed]).
Proof. reflexivity. Qed.

(** A worker that looked at the stop flag before it was set is called before it waits:
    the call does nothing, the worker then blocks, and nothing but the next turn of the
    draining loop ends its wait. *)
Example lost_cancellation :
  let s := after [AcAccept; AcStart; AcWorker 1; AcLoopEnds; AcDrain; AcDrain; AcWorker 1] in
  (lf_stop s, lf_cancelling s, map wk_phase (lf_threads s)) = (true, [], [PhReading]) /\
  act 2 (AcWorker 1) s = None /\
  map wk_phase (lf_threads (attempts 2 [AcDrain; AcSweepEnds; AcDrain; AcDrain; AcDrain; AcDrain; AcDrain] s)) = [PhLeaving].
Proof. repeat split; reflexivity. Qed.
