(* ===== verification/Journal.v ===== *)
(** * Journal: include/ncf/durability/journal.hpp, src/durability/journal.cpp and
      the file helpers of src/internal/io.cpp

    The append-only record log.  A journal's file is the list of its bytes; the
    operating system (how many bytes [fwrite] accepts, whether flushing,
    truncating and reopening succeed) is a parameter, the record [Io], so that
    every theorem holds for each behaviour of it.  The stream is always
    positioned at the end of the file, so a write appends. *)

From Stdlib Require Import Strings.Byte.
From S2P Require Import Prelude Core Bytes.

Open Scope N_scope.

Inductive RecordType :=
| RtUnknown | RtIntent | RtPayload | RtCommit | RtAbort | RtRebase | RtCount | RtRaw (v : N).

#[export] Instance RecordType_eq_dec : EqDecision RecordType.
Proof. solve_decision. Defined.

Definition record_type_val (t : RecordType) : N :=
  match t with
  | RtUnknown => 0 | RtIntent => 1 | RtPayload => 2 | RtCommit => 3 | RtAbort => 4 | RtRebase => 5
  | RtCount => 6 | RtRaw v => 7 + v
  end.
Definition record_type_of (v : N) : RecordType :=
  match v with
  | 0 => RtUnknown | 1 => RtIntent | 2 => RtPayload | 3 => RtCommit | 4 => RtAbort | 5 => RtRebase
  | 6 => RtCount | _ => RtRaw (v - 7)
  end.
Definition record_type_to_string (t : RecordType) : string :=
  match t with
  | RtUnknown => "unknown" | RtIntent => "intent" | RtPayload => "payload" | RtCommit => "commit"
  | RtAbort => "abort" | RtRebase => "rebase" | RtCount => "count" | RtRaw _ => "unknown"
  end.

Definition kRecordMagic : N := 0x4E434652.
Definition kRecordHeaderSize : N := 64.

Record RecordHeader := mkRecordHeader {
  rh_magic : N;
  rh_format : N;
  rh_type : N;
  rh_header_crc : N;
  rh_payload_len : N;
  rh_payload_crc : N;
  rh_reserved : N;
  rh_sequence : N;
  rh_epoch : N;
  rh_generation : N;
  rh_transaction : N;
  rh_reserved2 : N;
  rh_reserved3 : N
}.

#[export] Instance RecordHeader_settable : Settable RecordHeader :=
  fields! mkRecordHeader < rh_magic; rh_format; rh_type; rh_header_crc; rh_payload_len; rh_payload_crc;
    rh_reserved; rh_sequence; rh_epoch; rh_generation; rh_transaction; rh_reserved2; rh_reserved3 >.

(** A default-constructed header. *)
Definition record_header_default : RecordHeader := mkRecordHeader kRecordMagic 0 0 0 0 0 0 0 0 0 0 0 0.

(** Written at offsets 0, 4, 6, 8, 12, 16, 20, 24, 32, 40, 48, 56 and 60. *)
Definition encode_header (h : RecordHeader) : list byte :=
  put_u32 (rh_magic h) ++ put_u16 (rh_format h) ++ put_u16 (rh_type h) ++ put_u32 (rh_header_crc h)
  ++ put_u32 (rh_payload_len h) ++ put_u32 (rh_payload_crc h) ++ put_u32 (rh_reserved h)
  ++ put_u64 (rh_sequence h) ++ put_u64 (rh_epoch h) ++ put_u64 (rh_generation h)
  ++ put_u64 (rh_transaction h) ++ put_u32 (rh_reserved2 h) ++ put_u32 (rh_reserved3 h).

Definition computed_header_crc (h : RecordHeader) : N :=
  crc32c (encode_header (h <| rh_header_crc := 0 |>)).

(** The reads of [decode_header], before its integrity check. *)
Definition read_header (bytes : list byte) : RecordHeader :=
  mkRecordHeader (get_u32 bytes 0) (get_u16 bytes 4) (get_u16 bytes 6) (get_u32 bytes 8)
    (get_u32 bytes 12) (get_u32 bytes 16) (get_u32 bytes 20) (get_u64 bytes 24) (get_u64 bytes 32)
    (get_u64 bytes 40) (get_u64 bytes 48) (get_u32 bytes 56) (get_u32 bytes 60).
Definition decode_header (bytes : list byte) : RecordHeader :=
  let header := read_header bytes in
  if negb (computed_header_crc header =? rh_header_crc header) then header <| rh_magic := 0 |> else header.

Record JournalRecord := mkJournalRecord { jr_header : RecordHeader; jr_payload : list byte }.

Inductive ReplayStatus := RsEmpty | RsComplete | RsTruncatedTail | RsCorrupt.

#[export] Instance ReplayStatus_eq_dec : EqDecision ReplayStatus.
Proof. solve_decision. Defined.

Definition replay_status_to_string (s : ReplayStatus) : string :=
  match s with
  | RsEmpty => "empty" | RsComplete => "complete" | RsTruncatedTail => "truncated-tail"
  | RsCorrupt => "corrupt"
  end.

Record JournalReplay := mkJournalReplay {
  rp_records : list JournalRecord;
  rp_file_bytes : N;
  rp_valid_bytes : N;
  rp_dropped_bytes : N;
  rp_rejected_records : N;
  rp_status : ReplayStatus;
  rp_detail : string;
  rp_last_header : RecordHeader;
  rp_has_last : bool
}.

#[export] Instance JournalReplay_settable : Settable JournalReplay :=
  fields! mkJournalReplay < rp_records; rp_file_bytes; rp_valid_bytes; rp_dropped_bytes;
    rp_rejected_records; rp_status; rp_detail; rp_last_header; rp_has_last >.

Definition journal_replay_empty : JournalReplay :=
  mkJournalReplay [] 0 0 0 0 RsEmpty "" record_header_default false.

Record JournalOptions := mkJournalOptions {
  jo_max_record_bytes : N;
  jo_max_journal_bytes : N;
  jo_sync_on_append : bool;
  jo_read_only : bool
}.

(** The operating system under the journal: how many of the bytes handed to
    [fwrite] reach the file, and whether a flush, a truncation, an [fopen] of an
    existing file and the [fopen] that starts a file afresh succeed. *)
Record Io := mkIo {
  io_write : list byte -> list byte -> nat;
  io_flush : list byte -> bool;
  io_truncate : list byte -> N -> bool;
  io_open : bool;
  io_reopen : bool
}.

(** [j_open] is [file_ != nullptr], [j_file] the content of the file. *)
Record Journal := mkJournal {
  j_options : JournalOptions;
  j_open : bool;
  j_file : list byte;
  j_size : N;
  j_next_sequence : N
}.

#[export] Instance Journal_settable : Settable Journal :=
  fields! mkJournal < j_options; j_open; j_file; j_size; j_next_sequence >.

Definition resume_sequence (next : N) (j : Journal) : Journal :=
  if j_next_sequence j <? next then j <| j_next_sequence := next |> else j.

Definition open_for_write (j : Journal) : bool := j_open j && negb (jo_read_only (j_options j)).

Definition close (j : Journal) : Journal := j <| j_open := false |>.

(** [internal::read_file] on the file, if there is one. *)
Definition read_file (file : option (list byte)) (max_bytes : N) : Result (list byte) :=
  match file with
  | None => fail NotFound "cannot open file for reading"
  | Some bytes =>
      if max_bytes <? size64 bytes then fail Oversized "file exceeds the permitted size" else Ok bytes
  end.

(** ** Replay *)

Definition replay_stop (status : ReplayStatus) (detail : string) (r : JournalReplay) : JournalReplay * bool :=
  (r <| rp_status := status |> <| rp_detail := detail |>, true).
Definition replay_reject (detail : string) (r : JournalReplay) : JournalReplay * bool :=
  replay_stop RsCorrupt detail (r <| rp_rejected_records ::= N.succ |>).
(** [saw_record] is set together with [has_last]. *)
Definition replay_torn (detail : string) (r : JournalReplay) : JournalReplay * bool :=
  replay_stop (if rp_has_last r then RsTruncatedTail else RsEmpty) detail r.

(** The loop over the file; [rest] is what follows [offset], and the flag is
    [stopped_early].  Each turn consumes a header, so the number of bytes is
    enough fuel. *)
Fixpoint replay_loop (fuel : nat) (max_record : N) (rest : list byte) (offset : N) (r : JournalReplay) :
    JournalReplay * bool :=
  match fuel, rest with
  | O, _ | _, [] => (r, false)
  | S fuel', _ =>
      if size64 rest <? kRecordHeaderSize
      then replay_torn "trailing bytes are shorter than a record header" r
      else
        let header := decode_header (slice 0 (N.to_nat kRecordHeaderSize) rest) in
        if negb (rh_magic header =? kRecordMagic)
        then replay_reject "record header failed its integrity check" r
        else if negb (rh_format header =? kFormatVersion)
        then replay_reject "record format version is not supported" r
        else if max_record <? rh_payload_len header
        then replay_reject "record declares a payload beyond the permitted size" r
        else
          let total := kRecordHeaderSize + rh_payload_len header in
          if size64 rest <? total then replay_torn "record payload is incomplete" r
          else
            let payload := slice (N.to_nat kRecordHeaderSize) (N.to_nat (rh_payload_len header)) rest in
            if negb (crc32c payload =? rh_payload_crc header)
            then replay_reject "record payload failed its integrity check" r
            else
              replay_loop fuel' max_record (drop (N.to_nat total) rest) (offset + total)
                (r <| rp_records ::= fun l => l ++ [mkJournalRecord header payload] |>
                   <| rp_last_header := header |> <| rp_has_last := true |>
                   <| rp_valid_bytes := offset + total |>)
  end.

(** [Journal::replay], from the content of the file. *)
Definition replay_bytes (max_record : N) (data : list byte) : JournalReplay :=
  let start := journal_replay_empty <| rp_file_bytes := size64 data |> in
  match data with
  | [] => start
  | _ =>
      let '(r, stopped_early) := replay_loop (length data) max_record data 0 start in
      let r := if stopped_early then r
               else r <| rp_status := if rp_has_last r then RsComplete else RsEmpty |> in
      let r := r <| rp_dropped_bytes := size64 data - rp_valid_bytes r |> in
      if bool_decide (rp_status r = RsTruncatedTail) && String.eqb (rp_detail r) ""
      then r <| rp_detail := "a torn tail was found and will be cut"%string |> else r
  end.
Definition journal_replay (options : JournalOptions) (file : option (list byte)) : Result JournalReplay :=
  match read_file file (jo_max_journal_bytes options) with
  | Err s => if bool_decide (st_code s = NotFound) then Ok journal_replay_empty else Err s
  | Ok data => Ok (replay_bytes (jo_max_record_bytes options) data)
  end.

(** ** Writing *)

Section Writing.
Context (io : Io).

(** [Journal::open]: the stream is opened or, for a journal that does not exist
    yet, created; [file] is what the path holds. *)
Definition journal_open (options : JournalOptions) (file : option (list byte)) : Result Journal :=
  let opened :=
    match file with
    | Some bytes => if io_open io then Some bytes else None
    | None => if jo_read_only options then None else if io_reopen io then Some [] else None
    end in
  match opened with
  | None => fail IoError "cannot open the journal"
  | Some bytes => Ok (mkJournal options true bytes (size64 bytes) 1)
  end.

Definition sync (j : Journal) : Result unit :=
  if negb (j_open j) then fail Closed "journal is not open"
  else if io_flush io (j_file j) then Ok tt else fail IoError "flush to stable storage failed".

(** A short write leaves what was accepted in the file. *)
Definition write_all (bytes : list byte) (j : Journal) : Result unit * Journal :=
  if negb (j_open j) then (fail Closed "journal is not open", j)
  else
    match bytes with
    | [] => (Ok tt, j)
    | _ =>
        let written := Nat.min (io_write io (j_file j) bytes) (length bytes) in
        let j := j <| j_file ::= fun f => f ++ take written bytes |> in
        if (written =? length bytes)%nat then (Ok tt, j)
        else (fail IoError "short write to the journal", j)
    end.

(** The header [append] writes for a payload. *)
Definition record_header (type : RecordType) (epoch generation transaction sequence : N)
    (payload : list byte) : RecordHeader :=
  let header := mkRecordHeader kRecordMagic kFormatVersion (record_type_val type) 0
                  (w32 (size64 payload)) (crc32c payload) 0 sequence epoch generation transaction 0 0 in
  header <| rh_header_crc := computed_header_crc header |>.

Definition append (type : RecordType) (epoch generation transaction : N) (payload : list byte) (j : Journal) :
    Result unit * Journal :=
  if jo_read_only (j_options j) then (fail Unauthorized "journal is open read-only", j)
  else if negb (j_open j) then (fail Closed "journal is not open", j)
  else if jo_max_record_bytes (j_options j) <? size64 payload
  then (fail Oversized "journal record exceeds the permitted size", j)
  else
    let projected := w64 (j_size j + kRecordHeaderSize + size64 payload) in
    if jo_max_journal_bytes (j_options j) <? projected
    then (fail LimitExceeded "journal would exceed its permitted size", j)
    else
      let header := record_header type epoch generation transaction (j_next_sequence j) payload in
      match write_all (encode_header header) j with
      | (Err s, j) => (Err s, j)
      | (Ok _, j) =>
          match write_all payload j with
          | (Err s, j) => (Err s, j)
          | (Ok _, j) =>
              let j := j <| j_size := projected |> <| j_next_sequence := w64 (j_next_sequence j + 1) |> in
              if jo_sync_on_append (j_options j) then (sync j, j) else (Ok tt, j)
          end
      end.

Definition truncate_to (valid_bytes : N) (j : Journal) : Result unit * Journal :=
  if jo_read_only (j_options j) then (fail Unauthorized "journal is open read-only", j)
  else if negb (j_open j) then (fail Closed "journal is not open", j)
  else if j_size j <? valid_bytes
  then (fail InvalidArgument "refusing to grow the journal by truncation", j)
  else if negb (io_flush io (j_file j)) then (fail IoError "flush before truncation failed", j)
  else if negb (io_truncate io (j_file j) valid_bytes) then (fail IoError "truncation failed", j)
  else
    let j := j <| j_file ::= take (N.to_nat valid_bytes) |> <| j_size := valid_bytes |> in
    (sync j, j).

(** [Journal::rebase]: the file is started afresh with a rebase marker; the
    sequence goes on. *)
Definition rebase (epoch generation : N) (j : Journal) : Result unit * Journal :=
  if jo_read_only (j_options j) then (fail Unauthorized "journal is open read-only", j)
  else if negb (j_open j) then (fail Closed "journal is not open", j)
  else if negb (io_reopen io) then (fail IoError "cannot reopen the journal for rebase", j <| j_open := false |>)
  else append RtRebase epoch generation 0 [] (j <| j_file := [] |> <| j_size := 0 |>).
End Writing.

(** * Properties *)

(** ** The header *)

Record record_header_words (h : RecordHeader) : Prop := {
  rhw_magic : u32_ok (rh_magic h);
  rhw_format : u16_ok (rh_format h);
  rhw_type : u16_ok (rh_type h);
  rhw_header_crc : u32_ok (rh_header_crc h);
  rhw_payload_len : u32_ok (rh_payload_len h);
  rhw_payload_crc : u32_ok (rh_payload_crc h);
  rhw_reserved : u32_ok (rh_reserved h);
  rhw_sequence : u64_ok (rh_sequence h);
  rhw_epoch : u64_ok (rh_epoch h);
  rhw_generation : u64_ok (rh_generation h);
  rhw_transaction : u64_ok (rh_transaction h);
  rhw_reserved2 : u32_ok (rh_reserved2 h);
  rhw_reserved3 : u32_ok (rh_reserved3 h)
}.

Lemma header_length (h : RecordHeader) : length (encode_header h) = 64%nat.
Proof. unfold encode_header. rewrite !length_app. unfold put_u16, put_u32, put_u64. by rewrite !length_le_put. Qed.

Lemma read_encode_header (h : RecordHeader) : record_header_words h -> read_header (encode_header h) = h.
Proof.
  intros []. unfold read_header, encode_header, get_u16, get_u32, get_u64, put_u16, put_u32, put_u64.
  destruct h. cbn [rh_magic rh_format rh_type rh_header_crc rh_payload_len rh_payload_crc rh_reserved
    rh_sequence rh_epoch rh_generation rh_transaction rh_reserved2 rh_reserved3] in *.
  read_words. by rewrite !le_get_put.
Qed.

Lemma encode_read_header (bytes : list byte) :
  length bytes = 64%nat -> encode_header (read_header bytes) = bytes.
Proof.
  intros Hl. unfold encode_header, read_header, get_u16, get_u32, get_u64, put_u16, put_u32, put_u64.
  cbn [rh_magic rh_format rh_type rh_header_crc rh_payload_len rh_payload_crc rh_reserved
    rh_sequence rh_epoch rh_generation rh_transaction rh_reserved2 rh_reserved3].
  join_slices.
Qed.

Lemma zero_header_crc (h : RecordHeader) :
  encode_header (h <| rh_header_crc := 0 |>) = zero_field 8 (encode_header h).
Proof.
  destruct h. unfold encode_header.
  cbn [set rh_magic rh_format rh_type rh_header_crc rh_payload_len rh_payload_crc rh_reserved
    rh_sequence rh_epoch rh_generation rh_transaction rh_reserved2 rh_reserved3].
  match goal with
  | |- _ = zero_field _ (?a ++ ?b ++ ?c ++ ?w ++ ?r) =>
      replace (a ++ b ++ c ++ w ++ r) with ((a ++ b ++ c) ++ w ++ r) by (by rewrite <- !app_assoc)
  end.
  rewrite zero_field_app; [by rewrite <- !app_assoc| |apply length_le_put].
  rewrite !length_app. unfold put_u16, put_u32. by rewrite !length_le_put.
Qed.

Lemma computed_header_crc_set (h : RecordHeader) (c : N) :
  computed_header_crc (h <| rh_header_crc := c |>) = computed_header_crc h.
Proof. reflexivity. Qed.

Lemma decode_header_sealed (bytes : list byte) :
  length bytes = 64%nat -> rh_magic (decode_header bytes) = kRecordMagic ->
  decode_header bytes = read_header bytes /\ sealed 8 bytes.
Proof.
  intros Hl Hm.
  assert (computed_header_crc (read_header bytes) = crc32c (zero_field 8 bytes)) as Hz.
  { unfold computed_header_crc. by rewrite zero_header_crc, encode_read_header. }
  assert (rh_header_crc (read_header bytes) = get_u32 bytes 8) as Hc by reflexivity.
  unfold sealed. revert Hm. unfold decode_header. rewrite Hz, Hc. clear Hz Hc.
  generalize (crc32c (zero_field 8 bytes)) (get_u32 bytes 8). intros c c'.
  destruct (N.eqb_spec c c'); cbn [negb]; [done|]. cbn [set rh_magic]. discriminate.
Qed.

(** ** Records *)

(** A record as [append] writes it. *)
Record record_ok (max_record : N) (r : JournalRecord) : Prop := {
  rok_magic : rh_magic (jr_header r) = kRecordMagic;
  rok_format : rh_format (jr_header r) = kFormatVersion;
  rok_len : rh_payload_len (jr_header r) = size64 (jr_payload r);
  rok_bound : size64 (jr_payload r) <= max_record;
  rok_crc : rh_payload_crc (jr_header r) = crc32c (jr_payload r);
  rok_seal : rh_header_crc (jr_header r) = computed_header_crc (jr_header r);
  rok_words : record_header_words (jr_header r)
}.

Definition record_bytes (r : JournalRecord) : list byte := encode_header (jr_header r) ++ jr_payload r.

Lemma record_bytes_size (r : JournalRecord) :
  size64 (record_bytes r) = kRecordHeaderSize + size64 (jr_payload r).
Proof. unfold record_bytes. rewrite size64_app. unfold size64 at 1. by rewrite header_length. Qed.

Lemma record_bytes_length (r : JournalRecord) :
  length (record_bytes r) = N.to_nat (kRecordHeaderSize + size64 (jr_payload r)).
Proof. rewrite <- record_bytes_size. unfold size64. by rewrite Nat2N.id. Qed.

Lemma decode_record_header (max_record : N) (r : JournalRecord) :
  record_ok max_record r -> decode_header (encode_header (jr_header r)) = jr_header r.
Proof.
  intros Hr. unfold decode_header. rewrite read_encode_header by apply (rok_words _ _ Hr).
  rewrite <- (rok_seal _ _ Hr). by rewrite N.eqb_refl.
Qed.

Lemma record_header_slice (r : JournalRecord) (rest : list byte) :
  slice 0 (N.to_nat kRecordHeaderSize) (record_bytes r ++ rest) = encode_header (jr_header r).
Proof. unfold record_bytes. rewrite <- app_assoc. apply slice_here, header_length. Qed.

Lemma record_payload_slice (r : JournalRecord) (rest : list byte) :
  slice (N.to_nat kRecordHeaderSize) (N.to_nat (size64 (jr_payload r))) (record_bytes r ++ rest) = jr_payload r.
Proof.
  unfold record_bytes, size64. rewrite <- app_assoc, Nat2N.id.
  rewrite slice_skip by (rewrite header_length; done). rewrite header_length. by apply slice_here.
Qed.

(** What replay has gathered after one more record at [offset]. *)
Definition gather (offset : N) (r : JournalRecord) (acc : JournalReplay) : JournalReplay :=
  acc <| rp_records ::= fun l => l ++ [r] |> <| rp_last_header := jr_header r |>
      <| rp_has_last := true |> <| rp_valid_bytes := offset + size64 (record_bytes r) |>.

(** A whole record is gathered, whatever follows it. *)
Lemma replay_loop_record (fuel : nat) (max_record offset : N) (r : JournalRecord) (rest : list byte)
    (acc : JournalReplay) :
  record_ok max_record r ->
  replay_loop (S fuel) max_record (record_bytes r ++ rest) offset acc
  = replay_loop fuel max_record rest (offset + size64 (record_bytes r)) (gather offset r acc).
Proof.
  intros Hr. pose proof (record_bytes_size r) as Hsize. unfold gather.
  assert (exists b l, record_bytes r ++ rest = b :: l) as (b & l & Hcons).
  { destruct (record_bytes r) as [|b l] eqn:E; [|by exists b, (l ++ rest)].
    change (size64 []) with 0 in Hsize. unfold kRecordHeaderSize in Hsize. lia. }
  cbn [replay_loop]. rewrite Hcons. rewrite <- Hcons. clear b l Hcons.
  rewrite record_header_slice, (decode_record_header _ _ Hr).
  rewrite (rok_magic _ _ Hr), (rok_format _ _ Hr), (rok_len _ _ Hr), (rok_crc _ _ Hr).
  rewrite record_payload_slice, !N.eqb_refl, size64_app, <- Hsize. cbn [negb].
  pose proof (rok_bound _ _ Hr).
  destruct (N.ltb_spec (size64 (record_bytes r) + size64 rest) kRecordHeaderSize); [lia|].
  destruct (N.ltb_spec max_record (size64 (jr_payload r))); [lia|].
  destruct (N.ltb_spec (size64 (record_bytes r) + size64 rest) (size64 (record_bytes r))); [lia|].
  f_equal.
  - unfold size64. rewrite Nat2N.id. apply drop_app_length.
  - destruct r; done.
Qed.

Definition records_bytes (l : list JournalRecord) : list byte := concat (map record_bytes l).

Lemma records_bytes_app (l k : list JournalRecord) :
  records_bytes (l ++ k) = records_bytes l ++ records_bytes k.
Proof. unfold records_bytes. by rewrite map_app, concat_app. Qed.

Lemma record_bytes_pos (r : JournalRecord) : (64 <= length (record_bytes r))%nat.
Proof. rewrite record_bytes_length. unfold kRecordHeaderSize. lia. Qed.

Lemma records_bytes_length (l : list JournalRecord) : (length l <= length (records_bytes l))%nat.
Proof.
  induction l as [|r l IH]; [done|]. unfold records_bytes in *. cbn [map concat]. rewrite length_app.
  pose proof (record_bytes_pos r). cbn [length]. lia.
Qed.

(** The replay state after the records of [l], read from the start of a file of
    [n] bytes. *)
Definition gathered (n : N) (l : list JournalRecord) : JournalReplay :=
  mkJournalReplay l n (size64 (records_bytes l)) 0 0 RsEmpty ""
    (default record_header_default (jr_header <$> last l)) (negb (bool_decide (l = []))).

Lemma gather_gathered (n : N) (l : list JournalRecord) (r : JournalRecord) :
  gather (size64 (records_bytes l)) r (gathered n l) = gathered n (l ++ [r]).
Proof.
  unfold gather, gathered. cbn [set rp_records rp_last_header rp_has_last rp_valid_bytes].
  f_equal.
  - rewrite records_bytes_app, size64_app. unfold records_bytes at 3. cbn [map concat].
    by rewrite app_nil_r.
  - by rewrite last_snoc.
  - by rewrite bool_decide_eq_false_2 by (by destruct l).
Qed.

(** Replay reads every whole record before it looks at what follows them. *)
Lemma replay_loop_records (max_record n : N) (fuel : nat) (l done_ : list JournalRecord) (tail : list byte) :
  Forall (record_ok max_record) l ->
  replay_loop (length l + fuel) max_record (records_bytes l ++ tail) (size64 (records_bytes done_))
    (gathered n done_)
  = replay_loop fuel max_record tail (size64 (records_bytes (done_ ++ l))) (gathered n (done_ ++ l)).
Proof.
  revert done_. induction l as [|r l IH]; intros done_ Hl; [by rewrite app_nil_r|].
  apply Forall_cons in Hl as [Hr Hl]. unfold records_bytes at 1. cbn [map concat length Nat.add].
  rewrite <- app_assoc. rewrite (replay_loop_record _ _ _ r _ _ Hr), gather_gathered.
  change (done_ ++ r :: l) with (done_ ++ [r] ++ l). rewrite (app_assoc done_).
  rewrite <- (IH (done_ ++ [r]) Hl). f_equal.
  rewrite records_bytes_app, size64_app. unfold records_bytes at 3. cbn [map concat]. by rewrite app_nil_r.
Qed.

(** How the loop ends on what follows the records. *)
Definition ends (p : JournalReplay * bool) (n : N) (l : list JournalRecord) (status : ReplayStatus)
    (rejected : N) : Prop :=
  exists detail, detail <> ""%string /\
    p = ((gathered n l) <| rp_rejected_records := rejected |> <| rp_status := status |>
           <| rp_detail := detail |>, true).

Lemma gathered_has_last (n : N) (l : list JournalRecord) :
  rp_has_last (gathered n l) = negb (bool_decide (l = [])).
Proof. done. Qed.

(** A part of a record is a torn tail. *)
Lemma replay_loop_torn (fuel : nat) (max_record n offset : N) (l : list JournalRecord) (r : JournalRecord)
    (tail more : list byte) :
  record_ok max_record r -> tail <> [] -> more <> [] -> tail ++ more = record_bytes r ->
  ends (replay_loop (S fuel) max_record tail offset (gathered n l)) n l
    (if bool_decide (l = []) then RsEmpty else RsTruncatedTail) 0.
Proof.
  intros Hr Ht Hm Heq. destruct tail as [|b tail]; [done|]. cbn [replay_loop]. set (t := b :: tail) in *.
  assert (forall detail, detail <> ""%string -> ends (replay_torn detail (gathered n l)) n l
    (if bool_decide (l = []) then RsEmpty else RsTruncatedTail) 0) as Htorn.
  { intros detail Hd. exists detail. split; [done|]. unfold replay_torn, replay_stop.
    rewrite gathered_has_last. by destruct (bool_decide (l = [])). }
  destruct (N.ltb_spec (size64 t) kRecordHeaderSize) as [|Hge]; [by apply Htorn|].
  assert (slice 0 (N.to_nat kRecordHeaderSize) t = encode_header (jr_header r)) as ->.
  { pose proof (record_header_slice r []) as Hs. rewrite app_nil_r, <- Heq in Hs. unfold slice in *.
    rewrite drop_0 in *. rewrite take_app_le in Hs; [done|]. unfold size64 in Hge. lia. }
  rewrite (decode_record_header _ _ Hr), (rok_magic _ _ Hr), (rok_format _ _ Hr), (rok_len _ _ Hr).
  rewrite !N.eqb_refl. cbn [negb]. pose proof (rok_bound _ _ Hr).
  destruct (N.ltb_spec max_record (size64 (jr_payload r))); [lia|].
  pose proof (record_bytes_size r) as Hsz. rewrite <- Heq, size64_app in Hsz.
  assert (size64 more <> 0) by (intros E; by apply size64_zero in E).
  destruct (N.ltb_spec (size64 t) (kRecordHeaderSize + size64 (jr_payload r))); [by apply Htorn|lia].
Qed.

(** A record with a byte changed either fails the check of its header, or has its
    header and fails the check of its payload. *)
Lemma record_damage (max_record : N) (r : JournalRecord) (i : nat) (old new : byte) (rest : list byte) :
  record_ok max_record r -> record_bytes r !! i = Some old -> new <> old ->
  let t := <[i:=new]> (record_bytes r) ++ rest in
  rh_magic (decode_header (slice 0 64 t)) <> kRecordMagic \/
  (slice 0 64 t = encode_header (jr_header r) /\
   crc32c (slice 64 (N.to_nat (size64 (jr_payload r))) t) <> crc32c (jr_payload r)).
Proof.
  cbv zeta. intros Hr Hold Hne. pose proof (lookup_lt_Some _ _ _ Hold) as Hi.
  pose proof (record_bytes_pos r) as Hpos. assert (record_bytes r !! i = Some new -> False) as Hno by congruence.
  pose proof (record_header_slice r []) as Hrs. pose proof (record_payload_slice r []) as Hp.
  change (N.to_nat kRecordHeaderSize) with 64%nat in Hrs, Hp. rewrite app_nil_r in Hrs, Hp.
  destruct (decide (i < 64)%nat) as [Hlt|Hge]; [left; intros Hm|right; split].
  - apply decode_header_sealed in Hm as [_ Hseal];
      [|apply slice_length; rewrite length_app, length_insert; lia].
    unfold slice in Hseal, Hrs. rewrite drop_0, take_app_le, take_insert_lt in Hseal by (rewrite ?length_insert; lia).
    rewrite drop_0 in Hrs. apply sealed_insert in Hseal.
    + rewrite lookup_take_lt in Hseal by lia. by apply Hno.
    + rewrite length_take. lia.
    + rewrite length_take. lia.
    + rewrite Hrs. unfold sealed. rewrite <- zero_header_crc. fold (computed_header_crc (jr_header r)).
      rewrite <- (rok_seal _ _ Hr). by rewrite <- (read_encode_header (jr_header r)) at 1 by apply (rok_words _ _ Hr).
  - rewrite <- Hrs. unfold slice. by rewrite !drop_0, take_app_le, take_insert_ge by (rewrite ?length_insert; lia).
  - pose proof (record_bytes_length r) as Hlen. unfold kRecordHeaderSize in Hlen.
    assert (slice 64 (N.to_nat (size64 (jr_payload r))) (<[i:=new]> (record_bytes r) ++ rest)
      = <[(i - 64)%nat := new]> (jr_payload r)) as ->.
    { unfold slice in *. rewrite drop_app_le by (rewrite length_insert; lia).
      rewrite drop_insert_ge by lia. rewrite take_app_le by (rewrite length_insert, length_drop; lia).
      rewrite take_insert_lt by lia. by rewrite Hp. }
    intros Hc. apply crc32c_insert in Hc; [|unfold size64 in *; lia].
    apply Hno. rewrite <- Hc, <- Hp at 1. unfold slice. rewrite lookup_take_lt, lookup_drop by lia.
    f_equal. lia.
Qed.

(** A record with a byte changed is refused. *)
Lemma replay_loop_corrupt (fuel : nat) (max_record n offset : N) (l : list JournalRecord) (r : JournalRecord)
    (i : nat) (old new : byte) (rest : list byte) :
  record_ok max_record r -> record_bytes r !! i = Some old -> new <> old ->
  ends (replay_loop (S fuel) max_record (<[i:=new]> (record_bytes r) ++ rest) offset (gathered n l)) n l
    RsCorrupt 1.
Proof.
  intros Hr Hold Hne. pose proof (record_damage max_record r i old new rest Hr Hold Hne) as Hd.
  set (t := <[i:=new]> (record_bytes r) ++ rest) in *.
  assert (length t = length (record_bytes r) + length rest)%nat as Hlt
    by (subst t; by rewrite length_app, length_insert).
  pose proof (record_bytes_length r) as Hlen. unfold kRecordHeaderSize in Hlen.
  destruct t as [|b l'] eqn:Et; [simpl in Hlt; lia|]. cbn [replay_loop]. rewrite <- Et in *.
  assert (forall detail, detail <> ""%string ->
    ends (replay_reject detail (gathered n l)) n l RsCorrupt 1) as Hrej by (intros detail Hdet; by exists detail).
  destruct (N.ltb_spec (size64 t) kRecordHeaderSize) as [Hs|_].
  { unfold size64, kRecordHeaderSize in Hs. lia. }
  change (N.to_nat kRecordHeaderSize) with 64%nat.
  destruct (N.eqb_spec (rh_magic (decode_header (slice 0 64 t))) kRecordMagic) as [Hm|]; cbn [negb]; [|by apply Hrej].
  destruct Hd as [|[E Hc]]; [done|].
  rewrite E, (decode_record_header _ _ Hr), (rok_format _ _ Hr), (rok_len _ _ Hr), (rok_crc _ _ Hr).
  rewrite N.eqb_refl. cbn [negb]. pose proof (rok_bound _ _ Hr).
  destruct (N.ltb_spec max_record (size64 (jr_payload r))); [lia|].
  destruct (N.ltb_spec (size64 t) (kRecordHeaderSize + size64 (jr_payload r))) as [Hs|_].
  { unfold size64, kRecordHeaderSize in *. lia. }
  rewrite (proj2 (N.eqb_neq _ _) Hc). by apply Hrej.
Qed.

(** ** The replay contract *)

(** The records that lie entirely within the first [n] bytes. *)
Fixpoint whole_records (n : nat) (l : list JournalRecord) : list JournalRecord :=
  match l with
  | [] => []
  | r :: l' =>
      if (length (record_bytes r) <=? n)%nat
      then r :: whole_records (n - length (record_bytes r)) l' else []
  end.

Lemma whole_records_split (n : nat) (l : list JournalRecord) :
  (n <= length (records_bytes l))%nat ->
  exists rest tail more, l = whole_records n l ++ rest /\
    take n (records_bytes l) = records_bytes (whole_records n l) ++ tail /\
    (tail = [] \/ exists r rest', rest = r :: rest' /\ tail <> [] /\ more <> [] /\ tail ++ more = record_bytes r).
Proof.
  revert n. induction l as [|r l IH]; intros n Hn.
  { exists [], [], []. cbn in *. rewrite take_nil. by repeat split; [..|left]. }
  cbn [whole_records]. unfold records_bytes in *. cbn [map concat] in *. rewrite length_app in Hn.
  destruct (Nat.leb_spec (length (record_bytes r)) n) as [Hle|Hgt].
  - destruct (IH (n - length (record_bytes r))%nat) as (rest & tail & more & Hl & Ht & Hc); [lia|].
    exists rest, tail, more. split; [by rewrite Hl at 1|]. split; [|done].
    rewrite take_app_ge, Ht by lia. cbn [map concat]. by rewrite <- app_assoc.
  - exists (r :: l), (take n (record_bytes r)), (drop n (record_bytes r)). split; [done|].
    split; [by rewrite take_app_le by lia|].
    destruct n as [|n]; [by left|right]. exists r, l. split; [done|]. pose proof (record_bytes_pos r).
    split; [|split; [|apply take_drop]].
    + intros E. apply (f_equal (@length byte)) in E. rewrite length_take in E. cbn [length] in E. lia.
    + intros E. apply (f_equal (@length byte)) in E. rewrite length_drop in E. cbn [length] in E. lia.
Qed.

Lemma whole_records_Forall (P : JournalRecord -> Prop) (n : nat) (l : list JournalRecord) :
  Forall P l -> Forall P (whole_records n l).
Proof.
  intros Hl. revert n. induction Hl as [|r l Hr _ IH]; intros n; [constructor|]. cbn [whole_records].
  destruct (_ <=? _)%nat; [|constructor]. by constructor.
Qed.

Lemma whole_records_prefix (n : nat) (l : list JournalRecord) : whole_records n l `prefix_of` l.
Proof.
  revert n. induction l as [|r l IH]; intros n; [done|]. cbn [whole_records].
  destruct (_ <=? _)%nat; [by apply prefix_cons|apply prefix_nil].
Qed.

(** A cut beyond a log keeps the log. *)
Lemma whole_records_keep (l k : list JournalRecord) (m : nat) :
  l `prefix_of` whole_records (length (records_bytes l) + m) (l ++ k).
Proof.
  induction l as [|r l IH]; [apply prefix_nil|]. unfold records_bytes in *. cbn [map concat app whole_records].
  rewrite length_app. destruct (Nat.leb_spec (length (record_bytes r))
    (length (record_bytes r) + length (concat (map record_bytes l)) + m)) as [_|]; [|lia].
  apply prefix_cons. by replace (length (record_bytes r) + length (concat (map record_bytes l)) + m -
    length (record_bytes r))%nat with (length (concat (map record_bytes l)) + m)%nat by lia.
Qed.

Lemma replay_start (max_record : N) (l : list JournalRecord) (tail : list byte) :
  Forall (record_ok max_record) l ->
  exists fuel, (length tail <= fuel)%nat /\
    replay_loop (length (records_bytes l ++ tail)) max_record (records_bytes l ++ tail) 0
      (journal_replay_empty <| rp_file_bytes := size64 (records_bytes l ++ tail) |>)
    = replay_loop fuel max_record tail (size64 (records_bytes l)) (gathered (size64 (records_bytes l ++ tail)) l).
Proof.
  intros Hl. pose proof (records_bytes_length l) as Hlen.
  exists (length (records_bytes l) - length l + length tail)%nat. split; [lia|].
  replace (length (records_bytes l ++ tail))
    with (length l + (length (records_bytes l) - length l + length tail))%nat by (rewrite length_app; lia).
  exact (replay_loop_records max_record _ _ l [] tail Hl).
Qed.

(** What [replay] does with the loop's result. *)
Definition replay_finish (data : list byte) (p : JournalReplay * bool) : JournalReplay :=
  let '(r, stopped_early) := p in
  let r := if stopped_early then r
           else r <| rp_status := if rp_has_last r then RsComplete else RsEmpty |> in
  let r := r <| rp_dropped_bytes := size64 data - rp_valid_bytes r |> in
  if bool_decide (rp_status r = RsTruncatedTail) && String.eqb (rp_detail r) ""
  then r <| rp_detail := "a torn tail was found and will be cut"%string |> else r.

Lemma replay_bytes_finish (max_record : N) (data : list byte) :
  data <> [] ->
  replay_bytes max_record data = replay_finish data (replay_loop (length data) max_record data 0
    (journal_replay_empty <| rp_file_bytes := size64 data |>)).
Proof. by destruct data. Qed.

(** Replay of whole records followed by what ends the loop. *)
Lemma replay_bytes_ends (max_record : N) (l : list JournalRecord) (tail : list byte)
    (status : ReplayStatus) (rejected : N) :
  Forall (record_ok max_record) l -> tail <> [] ->
  (forall fuel, ends (replay_loop (S fuel) max_record tail (size64 (records_bytes l))
     (gathered (size64 (records_bytes l ++ tail)) l)) (size64 (records_bytes l ++ tail)) l status rejected) ->
  let p := replay_bytes max_record (records_bytes l ++ tail) in
  rp_records p = l /\ rp_status p = status /\ rp_rejected_records p = rejected /\
  rp_valid_bytes p = size64 (records_bytes l) /\ rp_dropped_bytes p = size64 tail.
Proof.
  intros Hl Ht Hends. destruct (replay_start max_record l tail Hl) as (fuel & Hfuel & E).
  destruct fuel as [|fuel]; [destruct tail; [done|simpl in Hfuel; lia]|].
  destruct (Hends fuel) as (detail & Hdet & Hp). rewrite Hp in E.
  cbv zeta. rewrite replay_bytes_finish by (intros Hn; by apply app_eq_nil in Hn as [_ ?]).
  rewrite E. unfold replay_finish, gathered.
  cbn [set rp_records rp_status rp_rejected_records rp_valid_bytes rp_dropped_bytes rp_detail].
  rewrite (proj2 (String.eqb_neq detail "") Hdet), andb_false_r.
  cbn [set rp_records rp_status rp_rejected_records rp_valid_bytes rp_dropped_bytes rp_detail].
  repeat split. rewrite size64_app. lia.
Qed.

(** Replay of whole records and nothing else. *)
Lemma replay_bytes_whole (max_record : N) (l : list JournalRecord) :
  Forall (record_ok max_record) l ->
  let p := replay_bytes max_record (records_bytes l) in
  rp_records p = l /\ rp_status p = (if bool_decide (l = []) then RsEmpty else RsComplete) /\
  rp_rejected_records p = 0 /\ rp_valid_bytes p = size64 (records_bytes l) /\ rp_dropped_bytes p = 0.
Proof.
  intros Hl. destruct (replay_start max_record l [] Hl) as (fuel & _ & E). rewrite app_nil_r in E.
  destruct l as [|r l]; [done|].
  assert (replay_loop fuel max_record [] (size64 (records_bytes (r :: l)))
    (gathered (size64 (records_bytes (r :: l))) (r :: l))
    = (gathered (size64 (records_bytes (r :: l))) (r :: l), false)) as Hend by (by destruct fuel).
  rewrite Hend in E. cbv zeta. rewrite replay_bytes_finish.
  - rewrite E. unfold replay_finish, gathered.
    cbn [set rp_records rp_status rp_rejected_records rp_valid_bytes rp_dropped_bytes rp_detail rp_has_last].
    rewrite bool_decide_eq_false_2 by done. cbn. repeat split. lia.
  - intros Hn. pose proof (records_bytes_length (r :: l)) as Hlen. rewrite Hn in Hlen. simpl in Hlen. lia.
Qed.

(** What replay makes of a part of a log. *)
Lemma replay_cut (max_record : N) (l : list JournalRecord) (n : nat)
    (Hl : Forall (record_ok max_record) l) (Hn : (n <= length (records_bytes l))%nat) :
  let p := replay_bytes max_record (take n (records_bytes l)) in
  let whole := whole_records n l in
  rp_records p = whole /\ rp_rejected_records p = 0 /\
  rp_valid_bytes p = size64 (records_bytes whole) /\
  rp_dropped_bytes p = N.of_nat n - size64 (records_bytes whole) /\
  rp_status p = (if bool_decide (whole = []) then RsEmpty
                 else if rp_dropped_bytes p =? 0 then RsComplete else RsTruncatedTail).
Proof.
  cbv zeta. destruct (whole_records_split n l Hn) as (rest & tail & more & Hsplit & Ht & Hcase).
  pose proof (whole_records_Forall (record_ok max_record) n l Hl) as Hw.
  pose proof (f_equal size64 Ht) as Hsz. rewrite size64_app in Hsz. unfold size64 at 1 in Hsz.
  rewrite length_take, Nat.min_l in Hsz by done. rewrite Ht.
  destruct Hcase as [->|(r & rest' & -> & Hne & Hmore & Heq)].
  - change (size64 []) with 0 in Hsz. rewrite app_nil_r.
    destruct (replay_bytes_whole max_record (whole_records n l) Hw) as (H1 & H2 & H3 & H4 & H5).
    rewrite H1, H2, H3, H4, H5. repeat split. lia.
  - assert (record_ok max_record r) as Hr.
    { rewrite Hsplit in Hl. apply Forall_app in Hl as [_ Hl]. by apply Forall_cons in Hl as [? _]. }
    destruct (replay_bytes_ends max_record (whole_records n l) tail
      (if bool_decide (whole_records n l = []) then RsEmpty else RsTruncatedTail) 0 Hw Hne)
      as (H1 & H2 & H3 & H4 & H5).
    { intros fuel. by eapply replay_loop_torn. }
    rewrite H1, H2, H3, H4, H5. repeat split; [lia|].
    destruct (bool_decide _); [done|]. destruct (N.eqb_spec (size64 tail) 0) as [E|]; [|done].
    by apply size64_zero in E.
Qed.

Lemma whole_records_take (n : nat) (l : list JournalRecord) :
  (n <= length (records_bytes l))%nat ->
  records_bytes (whole_records n l)
  = take (N.to_nat (size64 (records_bytes (whole_records n l)))) (take n (records_bytes l)).
Proof.
  intros Hn. destruct (whole_records_split n l Hn) as (rest & tail & more & _ & Ht & _). rewrite Ht.
  unfold size64. by rewrite Nat2N.id, take_app_length.
Qed.

(** What replay makes of a log with a byte changed. *)
Lemma replay_damaged (max_record : N) (before after : list JournalRecord) (r : JournalRecord)
    (i : nat) (old new : byte) (Hl : Forall (record_ok max_record) (before ++ r :: after))
    (Hold : record_bytes r !! i = Some old) (Hne : new <> old) :
  let data := <[(length (records_bytes before) + i)%nat := new]> (records_bytes (before ++ r :: after)) in
  let p := replay_bytes max_record data in
  rp_records p = before /\ rp_status p = RsCorrupt /\ rp_rejected_records p = 1 /\
  rp_valid_bytes p = size64 (records_bytes before).
Proof.
  cbv zeta. apply Forall_app in Hl as [Hb Hl]. apply Forall_cons in Hl as [Hr _].
  pose proof (lookup_lt_Some _ _ _ Hold) as Hi.
  assert (<[(length (records_bytes before) + i)%nat := new]> (records_bytes (before ++ r :: after))
    = records_bytes before ++ <[i:=new]> (record_bytes r) ++ records_bytes after) as ->.
  { rewrite records_bytes_app, insert_app_r. unfold records_bytes at 2. cbn [map concat].
    by rewrite insert_app_l. }
  destruct (replay_bytes_ends max_record before (<[i:=new]> (record_bytes r) ++ records_bytes after) RsCorrupt 1 Hb)
    as (H1 & H2 & H3 & H4 & H5).
  - intros E. apply app_eq_nil in E as [E _]. apply (f_equal (@length byte)) in E.
    rewrite length_insert in E. pose proof (record_bytes_pos r). cbn [length] in E. lia.
  - intros fuel. by eapply replay_loop_corrupt.
  - split; [exact H1|]. split; [exact H2|]. split; [exact H3|exact H4].
Qed.

(** However much of a log survives a crash, replay recovers exactly the records
    that lie entirely in the surviving part, never reports it corrupt, and tells
    how many bytes to cut.  A tail that is torn before the first record is
    complete is reported as an empty log. *)
Theorem torn_tail_recovered (max_record : N) (l : list JournalRecord) (n : nat)
    (Hl : Forall (record_ok max_record) l) (Hn : (n <= length (records_bytes l))%nat) :
  let p := replay_bytes max_record (take n (records_bytes l)) in
  let whole := whole_records n l in
  rp_records p = whole /\ rp_rejected_records p = 0 /\
  rp_valid_bytes p = size64 (records_bytes whole) /\
  rp_dropped_bytes p = N.of_nat n - size64 (records_bytes whole) /\
  rp_status p = (if bool_decide (whole = []) then RsEmpty
                 else if rp_dropped_bytes p =? 0 then RsComplete else RsTruncatedTail).
Proof. exact (replay_cut max_record l n Hl Hn). Qed.

(** A change of any one byte of a log is noticed: the records before the damaged
    one are recovered, nothing after them is interpreted, and the log is reported
    corrupt. *)
Theorem corruption_stops_replay (max_record : N) (before after : list JournalRecord) (r : JournalRecord)
    (i : nat) (old new : byte) (Hl : Forall (record_ok max_record) (before ++ r :: after))
    (Hold : record_bytes r !! i = Some old) (Hne : new <> old) :
  let data := <[(length (records_bytes before) + i)%nat := new]> (records_bytes (before ++ r :: after)) in
  let p := replay_bytes max_record data in
  rp_records p = before /\ rp_status p = RsCorrupt /\ rp_rejected_records p = 1 /\
  rp_valid_bytes p = size64 (records_bytes before).
Proof. exact (replay_damaged max_record before after r i old new Hl Hold Hne). Qed.

(** ** Appending *)

Section AppendSpec.
Context (io : Io).

Lemma write_all_spec (bytes : list byte) (j : Journal) :
  j_open j = true ->
  match write_all io bytes j with
  | (Ok _, j') => j' = j <| j_file ::= fun f => f ++ bytes |>
  | (Err _, j') => exists k, (k < length bytes)%nat /\ j' = j <| j_file ::= fun f => f ++ take k bytes |>
  end.
Proof.
  intros Ho. unfold write_all. rewrite Ho. simpl negb. cbv iota. destruct bytes as [|b bytes].
  { destruct j. cbn. by rewrite app_nil_r. }
  set (bs := b :: bytes). set (written := Nat.min _ _).
  assert (written <= length bs)%nat by (subst written; lia).
  destruct (Nat.eqb_spec written (length bs)) as [E|E].
  - rewrite E, firstn_all. done.
  - exists written. split; [lia|done].
Qed.

(** The record [append] adds. *)
Definition new_record (j : Journal) (type : RecordType) (epoch generation transaction : N)
    (payload : list byte) : JournalRecord :=
  mkJournalRecord (record_header type epoch generation transaction (j_next_sequence j) payload) payload.

Lemma new_record_ok (j : Journal) (type : RecordType) (epoch generation transaction : N) (payload : list byte)
    (max_record : N) :
  u16_ok (record_type_val type) -> u64_ok epoch -> u64_ok generation -> u64_ok transaction ->
  u64_ok (j_next_sequence j) -> size64 payload <= max_record -> u32_ok max_record ->
  record_ok max_record (new_record j type epoch generation transaction payload).
Proof.
  intros Ht He Hg Hx Hs Hp Hm. unfold new_record, record_header.
  assert (w32 (size64 payload) = size64 payload) as Hw.
  { apply N.mod_small. unfold u32_ok in Hm. lia. }
  split; cbn [jr_header jr_payload set rh_magic rh_format rh_payload_len rh_payload_crc rh_header_crc]; try done.
  rewrite Hw. split; cbn [set rh_magic rh_format rh_type rh_header_crc rh_payload_len rh_payload_crc rh_reserved
    rh_sequence rh_epoch rh_generation rh_transaction rh_reserved2 rh_reserved3]; try done.
  - apply crc32c_ok.
  - unfold u32_ok in *. lia.
  - apply crc32c_ok.
Qed.

(** What an append does, for every behaviour of the operating system. *)
Inductive append_result (j : Journal) (r : JournalRecord) : Result unit * Journal -> Prop :=
| append_done j' :
    j_file j' = j_file j ++ record_bytes r -> j_size j' = j_size j + size64 (record_bytes r) ->
    j_next_sequence j' = w64 (j_next_sequence j + 1) -> j_open j' = true -> j_options j' = j_options j ->
    j_size j' <= jo_max_journal_bytes (j_options j) ->
    append_result j r (Ok tt, j')
| append_refused s j' k :
    j_file j' = j_file j ++ take k (record_bytes r) -> j_options j' = j_options j ->
    append_result j r (Err s, j').

Lemma append_spec (j : Journal) (type : RecordType) (epoch generation transaction : N) (payload : list byte) :
  j_size j + kRecordHeaderSize + size64 payload < 2 ^ 64 ->
  append_result j (new_record j type epoch generation transaction payload)
    (append io type epoch generation transaction payload j).
Proof.
  intros Hsz. set (r := new_record j type epoch generation transaction payload). unfold append.
  assert (forall (s : Status), append_result j r (Err s, j)) as Hno.
  { intros s. apply (append_refused j r s j 0%nat); [|done]. by rewrite take_0, app_nil_r. }
  destruct (jo_read_only _); [apply Hno|]. destruct (j_open j) eqn:Ho; [|apply Hno]. cbn [negb].
  destruct (_ <? size64 payload); [apply Hno|]. cbv zeta.
  destruct (N.ltb_spec (jo_max_journal_bytes (j_options j)) (w64 (j_size j + kRecordHeaderSize + size64 payload)))
    as [|Hmax]; [apply Hno|].
  assert (w64 (j_size j + kRecordHeaderSize + size64 payload) = j_size j + size64 (record_bytes r)) as Hproj.
  { rewrite record_bytes_size. unfold w64. rewrite N.mod_small by done. cbn [jr_payload r new_record]. lia. }
  pose proof (write_all_spec (encode_header (jr_header r)) j Ho) as H1.
  change (record_header type epoch generation transaction (j_next_sequence j) payload) with (jr_header r).
  destruct (write_all io (encode_header (jr_header r)) j) as [[s|[]] j1].
  { destruct H1 as (k & Hk & ->). apply (append_refused j r s _ k); [|done]. cbn [set j_file].
    unfold record_bytes. by rewrite take_app_le by lia. }
  subst j1.
  match goal with |- context [write_all io payload ?x] =>
    pose proof (write_all_spec payload x Ho) as H2; destruct (write_all io payload x) as [[s|[]] j2]
  end.
  { destruct H2 as (k & Hk & ->). apply (append_refused j r s _ (64 + k)%nat); [|done]. cbn [set j_file].
    unfold record_bytes. rewrite take_app_ge by (rewrite header_length; lia). rewrite header_length.
    rewrite <- app_assoc. do 2 f_equal. f_equal. lia. }
  subst j2. rewrite Hproj in *. cbn [set j_options j_next_sequence].
  destruct (jo_sync_on_append (j_options j)).
  - unfold sync. cbn [set j_open j_file]. rewrite Ho. cbn [negb]. destruct (io_flush io _).
    + apply append_done; try done. cbn [set j_file]. by rewrite <- app_assoc.
    + apply (append_refused j r _ _ (length (record_bytes r))); [|done]. cbn [set j_file].
      rewrite firstn_all, <- app_assoc. done.
  - apply append_done; try done. cbn [set j_file]. by rewrite <- app_assoc.
Qed.

(** A journal whose file is the log [l]. *)
Record journal_log (j : Journal) (l : list JournalRecord) : Prop := {
  jl_file : j_file j = records_bytes l;
  jl_size : j_size j = size64 (j_file j);
  jl_records : Forall (record_ok (jo_max_record_bytes (j_options j))) l;
  jl_sequence : u64_ok (j_next_sequence j);
  jl_bounds : u32_ok (jo_max_record_bytes (j_options j))
}.

(** Appending to a log either adds exactly the record, under the next sequence
    number, and the longer log replays completely; or it reports an error, and
    whatever it left in the file still replays the records that were there. *)
Theorem append_replays (j : Journal) (l : list JournalRecord) (type : RecordType)
    (epoch generation transaction : N) (payload : list byte) (Hlog : journal_log j l)
    (Ht : u16_ok (record_type_val type)) (He : u64_ok epoch) (Hg : u64_ok generation)
    (Hx : u64_ok transaction) (Hp : size64 payload <= jo_max_record_bytes (j_options j))
    (Hsz : j_size j + kRecordHeaderSize + size64 payload < 2 ^ 64) :
  let r := new_record j type epoch generation transaction payload in
  let '(res, j') := append io type epoch generation transaction payload j in
  let p := replay_bytes (jo_max_record_bytes (j_options j)) (j_file j') in
  match res with
  | Ok _ => journal_log j' (l ++ [r]) /\ rp_records p = l ++ [r] /\ rp_status p = RsComplete
  | Err _ => rp_records p `prefix_of` l ++ [r] /\ l `prefix_of` rp_records p /\ rp_status p <> RsCorrupt
  end.
Proof.
  cbv zeta. set (r := new_record j type epoch generation transaction payload).
  pose proof (append_spec j type epoch generation transaction payload Hsz) as H. fold r in H.
  destruct Hlog as [Hf Hs Hl Hq Hb].
  pose proof (new_record_ok j type epoch generation transaction payload _ Ht He Hg Hx Hq Hp Hb) as Hr. fold r in Hr.
  assert (Forall (record_ok (jo_max_record_bytes (j_options j))) (l ++ [r])) as Hlr.
  { apply Forall_app. split; [done|]. by constructor. }
  assert (records_bytes (l ++ [r]) = records_bytes l ++ record_bytes r) as Happ.
  { rewrite records_bytes_app. unfold records_bytes at 2. cbn [map concat]. by rewrite app_nil_r. }
  destruct H as [j' Hf' Hs' Hq' Ho' Hopt _|s j' k Hf' Hopt].
  - rewrite Hf', Hf, <- Happ. split.
    + split; rewrite ?Hopt; [by rewrite Hf', Hf, Happ| |done|rewrite Hq'; apply w64_ok|done].
      by rewrite Hs', Hs, Hf', size64_app.
    + destruct (replay_bytes_whole _ _ Hlr) as (H1 & H2 & _). rewrite H1, H2.
      by rewrite bool_decide_eq_false_2 by (by destruct l).
  - rewrite Hf', Hf.
    assert (records_bytes l ++ take k (record_bytes r)
      = take (length (records_bytes l) + k) (records_bytes (l ++ [r]))) as E.
    { by rewrite Happ, take_app_add. }
    pose proof (take_ge (record_bytes r) (Nat.max k (length (record_bytes r)))) as Hge.
    set (m := Nat.min k (length (record_bytes r))).
    assert (take k (record_bytes r) = take m (record_bytes r)) as Hm.
    { subst m. destruct (Nat.le_gt_cases k (length (record_bytes r))); [by rewrite Nat.min_l|].
      rewrite Nat.min_r by lia. rewrite !take_ge by lia. done. }
    clear E Hge. rewrite Hm.
    assert (records_bytes l ++ take m (record_bytes r)
      = take (length (records_bytes l) + m) (records_bytes (l ++ [r]))) as E2.
    { by rewrite Happ, take_app_add. }
    rewrite E2.
    destruct (replay_cut _ (l ++ [r]) (length (records_bytes l) + m) Hlr) as (H1 & _ & _ & _ & H5).
    { rewrite Happ, length_app. subst m. lia. }
    rewrite H1, H5. split; [|split].
    + apply whole_records_prefix.
    + apply whole_records_keep.
    + destruct (bool_decide _); [done|]. by destruct (_ =? 0).
Qed.
End AppendSpec.

(** ** Concrete journals *)

(** An operating system on which everything succeeds. *)
Definition steady_io : Io := mkIo (fun _ bytes => length bytes) (fun _ => true) (fun _ _ => true) true true.
Definition default_options : JournalOptions :=
  mkJournalOptions kMaxJournalRecordBytes kMaxJournalBytes true false.
Definition new_journal : Journal := mkJournal default_options true [] 0 1.

Definition demo_record (sequence : N) : JournalRecord :=
  new_record (new_journal <| j_next_sequence := sequence |>) RtPayload 1 1 7 [x01; x02; x03].

Lemma demo_record_ok (sequence : N) : u64_ok sequence -> record_ok kMaxJournalRecordBytes (demo_record sequence).
Proof. intros H. by apply new_record_ok. Qed.

Lemma torn_tail_recovered_witness :
  rp_records (replay_bytes kMaxJournalRecordBytes (take 100 (records_bytes [demo_record 1; demo_record 2])))
  = whole_records 100 [demo_record 1; demo_record 2].
Proof.
  assert (Forall (record_ok kMaxJournalRecordBytes) [demo_record 1; demo_record 2]) as Hl
    by (repeat constructor; by apply demo_record_ok).
  refine (proj1 (torn_tail_recovered kMaxJournalRecordBytes [demo_record 1; demo_record 2] 100 Hl _)).
  apply Nat.leb_le. vm_compute. reflexivity.
Defined.

Lemma corruption_stops_replay_witness :
  let data := <[(length (records_bytes [demo_record 1]) + 64)%nat := xff]>
                (records_bytes ([demo_record 1] ++ [demo_record 2])) in
  rp_records (replay_bytes kMaxJournalRecordBytes data) = [demo_record 1].
Proof.
  assert (Forall (record_ok kMaxJournalRecordBytes) ([demo_record 1] ++ [demo_record 2])) as Hl
    by (repeat constructor; by apply demo_record_ok).
  assert (xff <> x01) as Hne by discriminate.
  exact (proj1 (corruption_stops_replay kMaxJournalRecordBytes [demo_record 1] [] (demo_record 2) 64 x01 xff
    Hl ltac:(vm_compute; reflexivity) Hne)).
Defined.

Lemma append_replays_witness :
  match append steady_io RtIntent 1 1 1 [x01] new_journal with
  | (Ok _, j') => rp_status (replay_bytes kMaxJournalRecordBytes (j_file j')) = RsComplete
  | (Err _, _) => False
  end.
Proof.
  assert (journal_log new_journal []) as Hlog by (by split).
  pose proof (append_replays steady_io new_journal [] RtIntent 1 1 1 [x01] Hlog eq_refl eq_refl eq_refl eq_refl
    ltac:(vm_compute; discriminate) ltac:(vm_compute; reflexivity)) as H.
  destruct (append steady_io RtIntent 1 1 1 [x01] new_journal) as [res j'] eqn:E.
  assert (res = Ok tt) as -> by (by vm_compute in E; injection E as <- _).
  exact (proj2 (proj2 H)).
Defined.

(** An append that fails halfway leaves its torn bytes in the file; the next
    append of the same journal succeeds behind them, and the log it reported
    durable is refused as corrupt at the next start. *)
Theorem short_write_poisons_log :
  let full_disk := mkIo (fun _ _ => 10%nat) (fun _ => true) (fun _ _ => true) true true in
  let '(first, j1) := append steady_io RtIntent 1 1 1 [] new_journal in
  let '(second, j2) := append full_disk RtPayload 1 1 1 [x01] j1 in
  let '(third, j3) := append steady_io RtIntent 1 1 2 [x02] j2 in
  first = Ok tt /\ ok second = false /\ third = Ok tt /\
  rp_status (replay_bytes kMaxJournalRecordBytes (j_file j3)) = RsCorrupt.
Proof. vm_compute. repeat split. Qed.
