(* ===== verification/StoreCodec.v ===== *)
(** * Store codec: the document of include/ncf/durability/store.hpp and the payload
      codecs of src/durability/store_codec.cpp

    The durable document, its records, and the encoding of every durable
    mutation.  A decoder bounds every count before it reads the elements,
    refuses a payload that ends early or misses its identity, and validates the
    policies, topologies and capacities it reads.  The round trips, one for each
    payload, are proved field by field through the [Codec] interface. *)

From Stdlib Require Import Strings.Byte.
From S2P Require Import Prelude Core Enums OMap Bytes Codec Evidence Authority Policy Topology State Intervention.

Open Scope N_scope.

(** [MuRaw] is the value [v] places past [Count]. *)
Inductive MutationKind :=
| MuUnknown | MuPolicySet | MuDomainState | MuIntervention | MuFence | MuEpochAdvance | MuRevalidation
| MuTopologySet | MuCapacitySet | MuHistoryAppend | MuAttemptRecord | MuProvenanceAppend | MuCount
| MuRaw (v : N).

#[export] Instance MutationKind_eq_dec : EqDecision MutationKind.
Proof. solve_decision. Defined.

Definition mutation_val (k : MutationKind) : N :=
  match k with
  | MuUnknown => 0 | MuPolicySet => 1 | MuDomainState => 2 | MuIntervention => 3 | MuFence => 4
  | MuEpochAdvance => 5 | MuRevalidation => 6 | MuTopologySet => 7 | MuCapacitySet => 8
  | MuHistoryAppend => 9 | MuAttemptRecord => 10 | MuProvenanceAppend => 11 | MuCount => 12
  | MuRaw v => 13 + v
  end.
Definition mutation_of (v : N) : MutationKind :=
  match v with
  | 0 => MuUnknown | 1 => MuPolicySet | 2 => MuDomainState | 3 => MuIntervention | 4 => MuFence
  | 5 => MuEpochAdvance | 6 => MuRevalidation | 7 => MuTopologySet | 8 => MuCapacitySet
  | 9 => MuHistoryAppend | 10 => MuAttemptRecord | 11 => MuProvenanceAppend | 12 => MuCount
  | _ => MuRaw (v - 13)
  end.
Definition mutation_to_string (k : MutationKind) : string :=
  match k with
  | MuUnknown => "unknown" | MuPolicySet => "policy-set" | MuDomainState => "domain-state"
  | MuIntervention => "intervention" | MuFence => "fence" | MuEpochAdvance => "epoch-advance"
  | MuRevalidation => "revalidation" | MuTopologySet => "topology-set" | MuCapacitySet => "capacity-set"
  | MuHistoryAppend => "history-append" | MuAttemptRecord => "attempt-record"
  | MuProvenanceAppend => "provenance-append" | MuCount => "count" | MuRaw _ => "unknown"
  end.

(** ** The document *)

Record HistoryEntry := mkHistoryEntry {
  he_domain : N;
  he_from : CongestionState;
  he_to : CongestionState;
  he_tick : N;
  he_evaluation : N;
  he_epoch : N;
  he_reason : string
}.

Record AttemptRecord := mkAttemptRecord {
  at_attempt : N;
  at_transaction : N;
  at_kind : MutationKind;
  at_state : AttemptState;
  at_epoch : N;
  at_generation : N;
  at_recorded_tick : N;
  at_provenance : N;
  at_detail : string
}.

Record DurableDocument := mkDurableDocument {
  doc_epoch : N;
  doc_coordinator_boot : N;
  doc_coordinator_boot_counter : N;
  doc_authority_generation : N;
  doc_policy : option CongestionPolicy;
  doc_topology : option TopologySnapshot;
  doc_capacity : option CapacitySnapshot;
  doc_domains : list DomainState;
  doc_history : list HistoryEntry;
  doc_interventions : list InterventionRecord;
  doc_fences : list FenceRecord;
  doc_attempts : list AttemptRecord;
  doc_provenance : list Provenance;
  doc_revalidations : list RevalidationRecord;
  doc_last_sequence : N;
  doc_mutation_count : N
}.

#[export] Instance DurableDocument_settable : Settable DurableDocument :=
  fields! mkDurableDocument < doc_epoch; doc_coordinator_boot; doc_coordinator_boot_counter;
    doc_authority_generation; doc_policy; doc_topology; doc_capacity; doc_domains; doc_history;
    doc_interventions; doc_fences; doc_attempts; doc_provenance; doc_revalidations;
    doc_last_sequence; doc_mutation_count >.

(** A default-constructed document; [has_policy], [has_topology] and
    [has_capacity] are the options being [Some]. *)
Definition durable_document : DurableDocument :=
  mkDurableDocument 0 0 0 0 None None None [] [] [] [] [] [] [] 0 0.

(** [std::lower_bound] on the domains, which are kept in identity order. *)
Definition domain_position (domain : N) (l : list DomainState) : nat :=
  lower_bound (fun s => ds_domain s <? domain) l.
Definition find_domain (domain : N) (d : DurableDocument) : option DomainState :=
  match doc_domains d !! domain_position domain (doc_domains d) with
  | Some s => if ds_domain s =? domain then Some s else None
  | None => None
  end.

(** [upsert_domain] followed by the assignment of the slot, its only use. *)
Definition put_domain (state : DomainState) (l : list DomainState) : list DomainState :=
  let i := domain_position (ds_domain state) l in
  match l !! i with
  | Some s => if ds_domain s =? ds_domain state then <[i := state]> l else insert_at i state l
  | None => insert_at i state l
  end.

Definition is_fenced (publisher boot : N) (d : DurableDocument) : bool :=
  existsb (fun f => (fr_publisher f =? publisher) && (fr_boot f =? boot)) (doc_fences d).

(** ** Policy *)

Definition write_threshold_rule (r : ThresholdRule) : Writer :=
  bw_u16 (metric_val (tr_metric r));;
  bw_u8 (op_val (tr_op r));;
  bw_u64 (tr_watch r);;
  bw_u64 (tr_congested r);;
  bw_u64 (tr_severe r);;
  bw_boolean (tr_required r);;
  bw_u64 (tr_max_age_ticks r);;
  bw_u32 (tr_weight r).
Definition read_threshold_rule : Reader ThresholdRule :=
  let! metric := br_cast metric_of br_u16 in
  let! op := br_cast op_of br_u8 in
  let! watch := br_u64 in
  let! congested := br_u64 in
  let! severe := br_u64 in
  let! required := br_boolean in
  let! max_age := br_u64 in
  let! weight := br_u32 in
  br_ret (mkThresholdRule metric op watch congested severe required max_age weight).

Definition write_intervention_rule (r : InterventionRule) : Writer :=
  bw_u8 (sev_val (ir_at_least r));;
  bw_u8 (intervention_val (ir_kind r));;
  bw_u64 (ir_target_class r);;
  bw_u64 (ir_target_domain r);;
  bw_boolean (ir_require_fresh_evidence r);;
  bw_boolean (ir_require_authoritative_state r);;
  bw_u64 (ir_parameter_min r);;
  bw_u64 (ir_parameter_max r);;
  bw_u64 (ir_parameter_default r);;
  bw_u32 (ir_priority r);;
  bw_u64 (ir_min_repeat_interval_ticks r).
Definition read_intervention_rule : Reader InterventionRule :=
  let! at_least := br_cast sev_of br_u8 in
  let! kind := br_cast intervention_of br_u8 in
  let! target_class := br_u64 in
  let! target_domain := br_u64 in
  let! fresh := br_boolean in
  let! authoritative := br_boolean in
  let! parameter_min := br_u64 in
  let! parameter_max := br_u64 in
  let! parameter_default := br_u64 in
  let! priority := br_u32 in
  let! interval := br_u64 in
  br_ret (mkInterventionRule at_least kind target_class target_domain fresh authoritative parameter_min
            parameter_max parameter_default priority interval).

Definition write_hysteresis (h : HysteresisPolicy) : Writer :=
  bw_u32 (hp_escalate_samples h);;
  bw_u32 (hp_deescalate_samples h);;
  bw_u64 (hp_min_dwell_ticks h);;
  bw_u32 (hp_downgrade_margin_ppm h);;
  bw_boolean (hp_require_all_rules_agree_on_downgrade h);;
  bw_boolean (hp_apply_dwell_on_escalation h).
Definition read_hysteresis : Reader HysteresisPolicy :=
  let! escalate := br_u32 in
  let! deescalate := br_u32 in
  let! dwell := br_u64 in
  let! margin := br_u32 in
  let! agree := br_boolean in
  let! apply_dwell := br_boolean in
  br_ret (mkHysteresisPolicy escalate deescalate dwell margin agree apply_dwell).

Definition write_recovery (p : RecoveryPolicy) : Writer :=
  bw_boolean (rp_enabled p);;
  bw_u32 (rp_min_improved_samples p);;
  bw_boolean (rp_allow_single_sample p);;
  bw_u32 (rp_clear_samples p);;
  bw_u64 (rp_recovering_hold_ticks p).
Definition read_recovery : Reader RecoveryPolicy :=
  let! enabled := br_boolean in
  let! min_improved := br_u32 in
  let! single := br_boolean in
  let! clear := br_u32 in
  let! hold := br_u64 in
  br_ret (mkRecoveryPolicy enabled min_improved single clear hold).

Definition write_propagation (p : PropagationPolicy) : Writer :=
  bw_boolean (pp_enabled p);;
  bw_u32 (pp_max_depth p);;
  bw_u32 (pp_decay_ppm p);;
  bw_u8 (sev_val (pp_max_induced_severity p));;
  bw_boolean (pp_follow_links p);;
  bw_boolean (pp_follow_paths p);;
  bw_u32 (pp_min_pressure_ppm p).
Definition read_propagation : Reader PropagationPolicy :=
  let! enabled := br_boolean in
  let! depth := br_u32 in
  let! decay := br_u32 in
  let! severity := br_cast sev_of br_u8 in
  let! links := br_boolean in
  let! paths := br_boolean in
  let! pressure := br_u32 in
  br_ret (mkPropagationPolicy enabled depth decay severity links paths pressure).

Definition write_freshness (p : FreshnessPolicy) : Writer :=
  bw_u64 (fp_default_max_age_ticks p);;
  bw_u64 (fp_max_future_skew_ticks p);;
  bw_boolean (fp_heartbeat_refreshes_freshness p).
Definition read_freshness : Reader FreshnessPolicy :=
  let! max_age := br_u64 in
  let! skew := br_u64 in
  let! heartbeat := br_boolean in
  br_ret (mkFreshnessPolicy max_age skew heartbeat).

Definition write_contradiction (p : ContradictionPolicy) : Writer :=
  bw_u8 (cmode_val (cp_mode p));;
  bw_u64 (cp_absolute_tolerance p);;
  bw_u32 (cp_relative_tolerance_ppm p);;
  bw_u64 (cp_min_distinct_publishers p);;
  bw_u64 (size64 (cp_priority_order p));;
  bw_each bw_u64 (cp_priority_order p).
Definition read_contradiction : Reader ContradictionPolicy :=
  let! mode := br_cast cmode_of br_u8 in
  let! absolute := br_u64 in
  let! relative := br_u32 in
  let! distinct := br_u64 in
  let! priority_count := br_count kMaxPublishers "durable policy declares too many priority publishers" in
  let! priority := br_vector priority_count br_u64 in
  br_ret (mkContradictionPolicy mode absolute relative distinct priority).

Definition write_limits (l : PolicyLimits) : Writer :=
  bw_u64 (pl_max_resources_per_domain l);;
  bw_u64 (pl_max_metrics_per_sample l);;
  bw_u64 (pl_max_paths_considered l);;
  bw_u32 (pl_max_domain_depth l);;
  bw_u64 (pl_max_explanation_entries l);;
  bw_u64 (pl_max_interventions_per_plan l);;
  bw_u64 (pl_max_conflict_reports l);;
  bw_u64 (pl_max_stale_reports l).
Definition read_limits : Reader PolicyLimits :=
  let! resources := br_u64 in
  let! metrics := br_u64 in
  let! paths := br_u64 in
  let! depth := br_u32 in
  let! explanation := br_u64 in
  let! interventions := br_u64 in
  let! conflicts := br_u64 in
  let! stale := br_u64 in
  br_ret (mkPolicyLimits resources metrics paths depth explanation interventions conflicts stale).

Definition encode_policy (p : CongestionPolicy) : Result (list byte) :=
  bw_finish (
    bw_u64 (cpol_id p);;
    bw_u32 (cpol_version p);;
    bw_text (cpol_name p) kMaxPolicyNameBytes;;
    bw_u64 (cpol_fingerprint p);;
    bw_u64 (size64 (cpol_rules p));;
    bw_each write_threshold_rule (cpol_rules p);;
    write_hysteresis (cpol_hysteresis p);;
    write_recovery (cpol_recovery p);;
    write_propagation (cpol_propagation p);;
    write_freshness (cpol_freshness p);;
    write_contradiction (cpol_contradiction p);;
    bw_u64 (size64 (cpol_interventions p));;
    bw_each write_intervention_rule (cpol_interventions p);;
    write_limits (cpol_limits p);;
    bw_u32 (cpol_min_agreeing_rules_for_watch p);;
    bw_u32 (cpol_min_agreeing_rules_for_congested p);;
    bw_u32 (cpol_min_agreeing_rules_for_severe p)).

Definition decode_policy (payload : list byte) : Result CongestionPolicy :=
  br_run (
    let! id := br_u64 in
    let! version := br_u32 in
    let! name := br_text kMaxPolicyNameBytes in
    let! fingerprint := br_u64 in
    let! rule_count := br_count kMaxThresholdRules "durable policy declares too many threshold rules" in
    let! rules := br_vector rule_count read_threshold_rule in
    let! hysteresis := read_hysteresis in
    let! recovery := read_recovery in
    let! propagation := read_propagation in
    let! freshness := read_freshness in
    let! contradiction := read_contradiction in
    let! intervention_count :=
      br_count kMaxInterventionRules "durable policy declares too many intervention rules" in
    let! interventions := br_vector intervention_count read_intervention_rule in
    let! limits := read_limits in
    let! gate_watch := br_u32 in
    let! gate_congested := br_u32 in
    let! gate_severe := br_u32 in
    let! _ := br_check in
    br_lift (validate_policy
      (mkCongestionPolicy id version name rules hysteresis recovery propagation freshness contradiction
         interventions limits gate_watch gate_congested gate_severe fingerprint))) payload.

(** ** Domain state *)

Definition encode_domain_state (s : DomainState) : Result (list byte) :=
  bw_finish (
    bw_u64 (ds_domain s);;
    bw_u8 (state_val (ds_state s));;
    bw_u8 (state_val (ds_candidate s));;
    bw_u32 (ds_candidate_streak s);;
    bw_u64 (ds_last_change_tick s);;
    bw_u64 (ds_last_authoritative_tick s);;
    bw_u64 (ds_last_evaluated_tick s);;
    bw_u64 (ds_last_evaluation s);;
    bw_u64 (ds_last_evidence s);;
    bw_u64 (ds_epoch s);;
    bw_u64 (ds_topology_generation s);;
    bw_u64 (ds_capacity_generation s);;
    bw_u64 (ds_policy s);;
    bw_u64 (ds_policy_fingerprint s);;
    bw_u64 (ds_authority_generation s);;
    bw_u8 (sev_val (ds_last_committed_severity s));;
    bw_u64 (ds_transition_count s);;
    bw_u64 (ds_evaluation_count s);;
    bw_boolean (ds_requires_revalidation s)).
Definition decode_domain_state (payload : list byte) : Result DomainState :=
  br_run (
    let! domain := br_u64 in
    let! state := br_cast state_cast br_u8 in
    let! candidate := br_cast state_cast br_u8 in
    let! streak := br_u32 in
    let! change_tick := br_u64 in
    let! authoritative_tick := br_u64 in
    let! evaluated_tick := br_u64 in
    let! evaluation := br_u64 in
    let! evidence := br_u64 in
    let! epoch := br_u64 in
    let! topology_generation := br_u64 in
    let! capacity_generation := br_u64 in
    let! policy := br_u64 in
    let! policy_fingerprint := br_u64 in
    let! authority_generation := br_u64 in
    let! committed := br_cast sev_of br_u8 in
    let! transitions := br_u64 in
    let! evaluations := br_u64 in
    let! revalidation := br_boolean in
    let! _ := br_check in
    let! _ := br_guard (negb (valid domain)) Malformed "durable domain state has no domain identity" in
    br_ret (mkDomainState domain state candidate streak change_tick authoritative_tick evaluated_tick
              evaluation evidence epoch topology_generation capacity_generation policy policy_fingerprint
              authority_generation committed transitions evaluations revalidation)) payload.

(** ** Topology and capacity *)

Definition write_resource (r : ResourceRecord) : Writer :=
  bw_u64 (rc_id r);;
  bw_u64 (rc_domain r);;
  bw_u64 (rc_parent r);;
  bw_u64 (rc_serving_class r);;
  bw_u8 (resource_kind_val (rc_kind r));;
  bw_u32 (rc_depth r);;
  bw_u64 (rc_nominal_capacity_bps r);;
  bw_u32 (rc_flags r).
Definition read_resource : Reader ResourceRecord :=
  let! id := br_u64 in
  let! domain := br_u64 in
  let! parent := br_u64 in
  let! serving_class := br_u64 in
  let! kind := br_cast resource_kind_of br_u8 in
  let! depth := br_u32 in
  let! capacity := br_u64 in
  let! flags := br_u32 in
  br_ret (mkResourceRecord id domain parent serving_class kind depth capacity flags).

Definition write_link (l : LinkRecord) : Writer :=
  bw_u64 (lk_id l);;
  bw_u64 (lk_from l);;
  bw_u64 (lk_to l);;
  bw_u64 (lk_capacity_bps l);;
  bw_u64 (lk_latency_micros l);;
  bw_u32 (lk_weight l).
Definition read_link : Reader LinkRecord :=
  let! id := br_u64 in
  let! from := br_u64 in
  let! to := br_u64 in
  let! capacity := br_u64 in
  let! latency := br_u64 in
  let! weight := br_u32 in
  br_ret (mkLinkRecord id from to capacity latency weight).

Definition write_path (p : PathRecord) : Writer :=
  bw_u64 (pa_id p);;
  bw_u64 (pa_capacity_bps p);;
  bw_u32 (pa_flags p);;
  bw_u64 (size64 (pa_hops p));;
  bw_each bw_u64 (pa_hops p).
Definition read_path : Reader PathRecord :=
  let! id := br_u64 in
  let! capacity := br_u64 in
  let! flags := br_u32 in
  let! hop_count := br_count kMaxResourcesPerPath "durable path declares too many hops" in
  let! hops := br_vector hop_count br_u64 in
  br_ret (mkPathRecord id hops capacity flags).

Definition encode_topology (t : TopologySnapshot) : Result (list byte) :=
  bw_finish (
    bw_u64 (ts_id t);;
    bw_u64 (ts_generation t);;
    bw_u64 (ts_epoch t);;
    bw_u64 (ts_observed_tick t);;
    bw_u64 (ts_fingerprint t);;
    bw_u64 (size64 (ts_resources t));;
    bw_each write_resource (ts_resources t);;
    bw_u64 (size64 (ts_links t));;
    bw_each write_link (ts_links t);;
    bw_u64 (size64 (ts_paths t));;
    bw_each write_path (ts_paths t)).
Definition decode_topology (payload : list byte) : Result TopologySnapshot :=
  br_run (
    let! id := br_u64 in
    let! generation := br_u64 in
    let! epoch := br_u64 in
    let! observed := br_u64 in
    let! fingerprint := br_u64 in
    let! resource_count := br_count kMaxResourcesPerFabric "durable topology declares too many resources" in
    let! resources := br_vector resource_count read_resource in
    let! link_count := br_count kMaxLinksPerTopology "durable topology declares too many links" in
    let! links := br_vector link_count read_link in
    let! path_count := br_count kMaxPathsPerTopology "durable topology declares too many paths" in
    let! paths := br_vector path_count read_path in
    let! _ := br_check in
    let topology := mkTopologySnapshot id generation epoch observed resources links paths fingerprint in
    let! _ := br_lift (validate_topology topology) in
    br_ret topology) payload.

Definition write_capacity_entry (e : CapacityEntry) : Writer :=
  bw_u64 (ce_resource e);;
  bw_u64 (ce_capacity_bps e);;
  bw_u64 (ce_residual_bps e);;
  bw_u64 (ce_admissible_bps e).
Definition read_capacity_entry : Reader CapacityEntry :=
  let! resource := br_u64 in
  let! capacity := br_u64 in
  let! residual := br_u64 in
  let! admissible := br_u64 in
  br_ret (mkCapacityEntry resource capacity residual admissible).

Definition encode_capacity (c : CapacitySnapshot) : Result (list byte) :=
  bw_finish (
    bw_u64 (cs_id c);;
    bw_u64 (cs_generation c);;
    bw_u64 (cs_epoch c);;
    bw_u64 (cs_observed_tick c);;
    bw_u64 (cs_fingerprint c);;
    bw_u64 (size64 (cs_entries c));;
    bw_each write_capacity_entry (cs_entries c)).
Definition decode_capacity (payload : list byte) : Result CapacitySnapshot :=
  br_run (
    let! id := br_u64 in
    let! generation := br_u64 in
    let! epoch := br_u64 in
    let! observed := br_u64 in
    let! fingerprint := br_u64 in
    let! count := br_count kMaxResourcesPerFabric "durable capacity snapshot declares too many entries" in
    let! entries := br_vector count read_capacity_entry in
    let! _ := br_check in
    let capacity := mkCapacitySnapshot id generation epoch observed entries fingerprint in
    let! _ := br_lift (validate_capacity capacity) in
    br_ret capacity) payload.

(** ** Records *)

Definition encode_intervention (r : InterventionRecord) : Result (list byte) :=
  bw_finish (
    bw_u64 (irec_id r);;
    bw_u8 (intervention_val (irec_kind r));;
    bw_u64 (irec_domain r);;
    bw_u64 (irec_resource r);;
    bw_u8 (sev_val (irec_basis_severity r));;
    bw_u64 (irec_evidence r);;
    bw_u64 (irec_evaluation r);;
    bw_u64 (irec_epoch r);;
    bw_u64 (irec_authority_generation r);;
    bw_u64 (irec_policy r);;
    bw_u64 (irec_provenance r);;
    bw_u64 (irec_recorded_tick r);;
    bw_u64 (irec_parameter r)).
Definition decode_intervention (payload : list byte) : Result InterventionRecord :=
  br_run (
    let! id := br_u64 in
    let! kind := br_cast intervention_of br_u8 in
    let! domain := br_u64 in
    let! resource := br_u64 in
    let! severity := br_cast sev_of br_u8 in
    let! evidence := br_u64 in
    let! evaluation := br_u64 in
    let! epoch := br_u64 in
    let! generation := br_u64 in
    let! policy := br_u64 in
    let! provenance := br_u64 in
    let! recorded_tick := br_u64 in
    let! parameter := br_u64 in
    let! _ := br_check in
    let! _ := br_guard (negb (valid id) || negb (valid domain)) Malformed
                "durable intervention record is missing its identity" in
    br_ret (mkInterventionRecord id kind domain resource severity evidence evaluation epoch generation
              policy provenance recorded_tick parameter)) payload.

Definition encode_fence (r : FenceRecord) : Result (list byte) :=
  bw_finish (
    bw_u64 (fr_id r);;
    bw_u64 (fr_epoch r);;
    bw_u64 (fr_publisher r);;
    bw_u64 (fr_boot r);;
    bw_u64 (fr_last_generation r);;
    bw_u8 (fence_reason_val (fr_reason r));;
    bw_u64 (fr_issued_tick r);;
    bw_u64 (fr_provenance r);;
    bw_text (fr_detail r) kMaxDurableNote).
Definition decode_fence (payload : list byte) : Result FenceRecord :=
  br_run (
    let! id := br_u64 in
    let! epoch := br_u64 in
    let! publisher := br_u64 in
    let! boot := br_u64 in
    let! generation := br_u64 in
    let! reason := br_cast fence_reason_of br_u8 in
    let! issued := br_u64 in
    let! provenance := br_u64 in
    let! detail := br_text kMaxDurableNote in
    let! _ := br_check in
    let! _ := br_guard (negb (valid id) || negb (valid publisher) || negb (valid boot)) Malformed
                "durable fence record is missing its identity" in
    br_ret (mkFenceRecord id epoch publisher boot generation reason issued provenance detail)) payload.

Definition encode_history (e : HistoryEntry) : Result (list byte) :=
  bw_finish (
    bw_u64 (he_domain e);;
    bw_u8 (state_val (he_from e));;
    bw_u8 (state_val (he_to e));;
    bw_u64 (he_tick e);;
    bw_u64 (he_evaluation e);;
    bw_u64 (he_epoch e);;
    bw_text (he_reason e) kMaxDurableNote).
Definition decode_history (payload : list byte) : Result HistoryEntry :=
  br_run (
    let! domain := br_u64 in
    let! from := br_cast state_cast br_u8 in
    let! to := br_cast state_cast br_u8 in
    let! tick := br_u64 in
    let! evaluation := br_u64 in
    let! epoch := br_u64 in
    let! reason := br_text kMaxDurableNote in
    let! _ := br_check in
    br_ret (mkHistoryEntry domain from to tick evaluation epoch reason)) payload.

Definition encode_attempt (r : AttemptRecord) : Result (list byte) :=
  bw_finish (
    bw_u64 (at_attempt r);;
    bw_u64 (at_transaction r);;
    bw_u16 (mutation_val (at_kind r));;
    bw_u8 (attempt_state_val (at_state r));;
    bw_u64 (at_epoch r);;
    bw_u64 (at_generation r);;
    bw_u64 (at_recorded_tick r);;
    bw_u64 (at_provenance r);;
    bw_text (at_detail r) kMaxDurableNote).
Definition decode_attempt (payload : list byte) : Result AttemptRecord :=
  br_run (
    let! attempt := br_u64 in
    let! transaction := br_u64 in
    let! kind := br_cast mutation_of br_u16 in
    let! state := br_cast attempt_state_of br_u8 in
    let! epoch := br_u64 in
    let! generation := br_u64 in
    let! recorded_tick := br_u64 in
    let! provenance := br_u64 in
    let! detail := br_text kMaxDurableNote in
    let! _ := br_check in
    br_ret (mkAttemptRecord attempt transaction kind state epoch generation recorded_tick provenance detail))
    payload.

Definition encode_provenance (p : Provenance) : Result (list byte) :=
  bw_finish (
    bw_u64 (pv_id p);;
    bw_u8 (provenance_kind_val (pv_kind p));;
    bw_u64 (pv_publisher p);;
    bw_u64 (pv_boot p);;
    bw_u64 (pv_epoch p);;
    bw_u64 (pv_attempt p);;
    bw_u64 (pv_recorded_tick p);;
    bw_i64 (pv_wall p);;
    bw_text (pv_note p) kMaxDurableNote).
Definition decode_provenance (payload : list byte) : Result Provenance :=
  br_run (
    let! id := br_u64 in
    let! kind := br_cast provenance_kind_of br_u8 in
    let! publisher := br_u64 in
    let! boot := br_u64 in
    let! epoch := br_u64 in
    let! attempt := br_u64 in
    let! recorded_tick := br_u64 in
    let! wall := br_i64 in
    let! note := br_text kMaxDurableNote in
    let! _ := br_check in
    br_ret (mkProvenance id kind publisher boot epoch attempt recorded_tick wall note)) payload.

Definition encode_epoch (epoch boot boot_counter : N) : Result (list byte) :=
  bw_finish (bw_u64 epoch;; bw_u64 boot;; bw_u64 boot_counter).
Definition decode_epoch (payload : list byte) : Result (N * N * N) :=
  br_run (
    let! epoch := br_u64 in
    let! boot := br_u64 in
    let! counter := br_u64 in
    let! _ := br_check in
    let! _ := br_guard (negb (valid epoch) || negb (valid boot)) Malformed
                "durable epoch record is missing its identity" in
    br_ret (epoch, boot, counter)) payload.

Definition encode_revalidation (r : RevalidationRecord) : Result (list byte) :=
  bw_finish (
    bw_u64 (rr_domain r);;
    bw_u64 (rr_previous_epoch r);;
    bw_u64 (rr_epoch r);;
    bw_u8 (state_val (rr_restored_state r));;
    bw_u8 (state_val (rr_effective_state r));;
    bw_boolean (rr_state_restored r);;
    bw_boolean (rr_authority_restored r);;
    bw_boolean (rr_freshness_restored r);;
    bw_u64 (rr_recorded_tick r);;
    bw_u64 (rr_provenance r);;
    bw_text (rr_detail r) kMaxDurableNote).
Definition decode_revalidation (payload : list byte) : Result RevalidationRecord :=
  br_run (
    let! domain := br_u64 in
    let! previous := br_u64 in
    let! epoch := br_u64 in
    let! restored := br_cast state_cast br_u8 in
    let! effective := br_cast state_cast br_u8 in
    let! state_restored := br_boolean in
    let! authority_restored := br_boolean in
    let! freshness_restored := br_boolean in
    let! recorded_tick := br_u64 in
    let! provenance := br_u64 in
    let! detail := br_text kMaxDurableNote in
    let! _ := br_check in
    br_ret (mkRevalidationRecord domain previous epoch restored effective state_restored authority_restored
              freshness_restored recorded_tick provenance detail)) payload.

(** * Properties *)

Lemma op_of_val (x : ThresholdOp) : op_of (op_val x) = x.
Proof. destruct x; try reflexivity; cbn [op_val]; cast_raw. Qed.
Lemma cmode_of_val (x : ContradictionMode) : cmode_of (cmode_val x) = x.
Proof. destruct x; try reflexivity; cbn [cmode_val]; cast_raw. Qed.
Lemma mutation_of_val (x : MutationKind) : mutation_of (mutation_val x) = x.
Proof. destruct x; try reflexivity; cbn [mutation_val]; cast_raw. Qed.
#[export] Hint Resolve op_of_val cmode_of_val mutation_of_val : ncf.

(** ** What fits the fields

    [..._words] says that the integers of a record have their C++ width and its
    texts fit their bounds: every value of the C++ type whose texts are short. *)

Definition threshold_rule_words (r : ThresholdRule) : Prop :=
  u16_ok (metric_val (tr_metric r)) /\ u8_ok (op_val (tr_op r)) /\ u32_ok (tr_weight r) /\
  Forall u64_ok [tr_watch r; tr_congested r; tr_severe r; tr_max_age_ticks r].

Lemma rt_threshold_rule (r : ThresholdRule) :
  threshold_rule_words r -> round_trip (write_threshold_rule r) read_threshold_rule r.
Proof.
  intros H. split_words H. unfold write_threshold_rule, read_threshold_rule. rt_fields.
  destruct r. rt_tail.
Qed.

Definition intervention_rule_words (r : InterventionRule) : Prop :=
  Forall u8_ok [sev_val (ir_at_least r); intervention_val (ir_kind r)] /\ u32_ok (ir_priority r) /\
  Forall u64_ok [ir_target_class r; ir_target_domain r; ir_parameter_min r; ir_parameter_max r;
                 ir_parameter_default r; ir_min_repeat_interval_ticks r].

Lemma rt_intervention_rule (r : InterventionRule) :
  intervention_rule_words r -> round_trip (write_intervention_rule r) read_intervention_rule r.
Proof.
  intros H. split_words H. unfold write_intervention_rule, read_intervention_rule. rt_fields.
  destruct r. rt_tail.
Qed.

Definition hysteresis_words (h : HysteresisPolicy) : Prop :=
  Forall u32_ok [hp_escalate_samples h; hp_deescalate_samples h; hp_downgrade_margin_ppm h] /\
  u64_ok (hp_min_dwell_ticks h).

Lemma rt_hysteresis (h : HysteresisPolicy) :
  hysteresis_words h -> round_trip (write_hysteresis h) read_hysteresis h.
Proof. intros H. split_words H. unfold write_hysteresis, read_hysteresis. rt_fields. destruct h. rt_tail. Qed.

Definition recovery_words (p : RecoveryPolicy) : Prop :=
  Forall u32_ok [rp_min_improved_samples p; rp_clear_samples p] /\ u64_ok (rp_recovering_hold_ticks p).

Lemma rt_recovery (p : RecoveryPolicy) : recovery_words p -> round_trip (write_recovery p) read_recovery p.
Proof. intros H. split_words H. unfold write_recovery, read_recovery. rt_fields. destruct p. rt_tail. Qed.

Definition propagation_words (p : PropagationPolicy) : Prop :=
  Forall u32_ok [pp_max_depth p; pp_decay_ppm p; pp_min_pressure_ppm p] /\
  u8_ok (sev_val (pp_max_induced_severity p)).

Lemma rt_propagation (p : PropagationPolicy) :
  propagation_words p -> round_trip (write_propagation p) read_propagation p.
Proof.
  intros H. split_words H. unfold write_propagation, read_propagation. rt_fields. destruct p. rt_tail.
Qed.

Definition freshness_words (p : FreshnessPolicy) : Prop :=
  Forall u64_ok [fp_default_max_age_ticks p; fp_max_future_skew_ticks p].

Lemma rt_freshness (p : FreshnessPolicy) : freshness_words p -> round_trip (write_freshness p) read_freshness p.
Proof. intros H. split_words H. unfold write_freshness, read_freshness. rt_fields. destruct p. rt_tail. Qed.

Definition contradiction_words (p : ContradictionPolicy) : Prop :=
  u8_ok (cmode_val (cp_mode p)) /\ u32_ok (cp_relative_tolerance_ppm p) /\
  Forall u64_ok [cp_absolute_tolerance p; cp_min_distinct_publishers p] /\ Forall u64_ok (cp_priority_order p).

Lemma rt_each_u64 (l : list N) :
  Forall u64_ok l -> round_trip (bw_each bw_u64 l) (br_vector (size64 l) br_u64) l.
Proof. intros Hl. apply round_trip_vector. eapply Forall_impl; [exact Hl|]. apply rt_u64. Qed.

(** A count within a bound that is itself a word. *)
Lemma count_word (n limit : N) : n <= limit -> limit < 2 ^ 64 -> u64_ok n.
Proof. unfold u64_ok. lia. Qed.

Lemma rt_contradiction (p : ContradictionPolicy) :
  contradiction_words p -> size64 (cp_priority_order p) <= kMaxPublishers ->
  round_trip (write_contradiction p) read_contradiction p.
Proof.
  intros (? & ? & H & Hl) Hn. split_words H. pose proof (rt_each_u64 _ Hl).
  pose proof (count_word _ _ Hn eq_refl).
  unfold write_contradiction, read_contradiction. rt_fields. destruct p. rt_tail.
Qed.

Definition limits_words (l : PolicyLimits) : Prop :=
  u32_ok (pl_max_domain_depth l) /\
  Forall u64_ok [pl_max_resources_per_domain l; pl_max_metrics_per_sample l; pl_max_paths_considered l;
                 pl_max_explanation_entries l; pl_max_interventions_per_plan l; pl_max_conflict_reports l;
                 pl_max_stale_reports l].

Lemma rt_limits (l : PolicyLimits) : limits_words l -> round_trip (write_limits l) read_limits l.
Proof. intros H. split_words H. unfold write_limits, read_limits. rt_fields. destruct l. rt_tail. Qed.

#[export] Hint Resolve rt_threshold_rule rt_intervention_rule rt_hysteresis rt_recovery rt_propagation
  rt_freshness rt_contradiction rt_limits rt_each_u64 : codec.

Record policy_words (p : CongestionPolicy) : Prop := {
  pw_ids : Forall u64_ok [cpol_id p; cpol_fingerprint p];
  pw_gates : Forall u32_ok [cpol_version p; cpol_min_agreeing_rules_for_watch p;
                cpol_min_agreeing_rules_for_congested p; cpol_min_agreeing_rules_for_severe p];
  pw_rules : Forall threshold_rule_words (cpol_rules p);
  pw_hysteresis : hysteresis_words (cpol_hysteresis p);
  pw_recovery : recovery_words (cpol_recovery p);
  pw_propagation : propagation_words (cpol_propagation p);
  pw_freshness : freshness_words (cpol_freshness p);
  pw_contradiction : contradiction_words (cpol_contradiction p);
  pw_interventions : Forall intervention_rule_words (cpol_interventions p);
  pw_limits : limits_words (cpol_limits p)
}.

Lemma rt_each {A : Type} (write : A -> Writer) (read : Reader A) (P : A -> Prop) (l : list A) :
  (forall x, P x -> round_trip (write x) read x) -> Forall P l ->
  round_trip (bw_each write l) (br_vector (size64 l) read) l.
Proof. intros HP Hl. apply round_trip_vector. eapply Forall_impl; [exact Hl|exact HP]. Qed.

Lemma policy_rt (p p' : CongestionPolicy) :
  policy_words p -> validate_policy p = Ok p' ->
  exists bytes, encode_policy p = Ok bytes /\ decode_policy bytes = Ok p'.
Proof.
  intros [Hi Hg Hr ? ? ? ? ? Hir ?] Hv. split_words Hi. split_words Hg.
  pose proof (proj1 (proj1 (validate_policy_iff p p') Hv)) as Hok.
  destruct (po_counts _ Hok) as [[_ Hc] Hci]. destruct (po_identity _ Hok) as (_ & _ & Hname).
  destruct (po_contradiction _ Hok) as (_ & _ & Hcp).
  pose proof (count_word _ _ Hc eq_refl). pose proof (count_word _ _ Hci eq_refl).
  pose proof (rt_each _ _ _ _ rt_threshold_rule Hr). pose proof (rt_each _ _ _ _ rt_intervention_rule Hir).
  apply round_trip_run. rt_fields. eapply reads_silent; [apply reads_check|]. cbv beta.
  apply reads_lift. rewrite <- Hv. by destruct p.
Qed.

(** ** Topology and capacity *)

Definition resource_words (r : ResourceRecord) : Prop :=
  Forall u64_ok [rc_id r; rc_domain r; rc_parent r; rc_serving_class r; rc_nominal_capacity_bps r] /\
  Forall u32_ok [rc_depth r; rc_flags r] /\ u8_ok (resource_kind_val (rc_kind r)).

Lemma rt_resource (r : ResourceRecord) : resource_words r -> round_trip (write_resource r) read_resource r.
Proof. intros H. split_words H. unfold write_resource, read_resource. rt_fields. destruct r. rt_tail. Qed.

Definition link_words (l : LinkRecord) : Prop :=
  Forall u64_ok [lk_id l; lk_from l; lk_to l; lk_capacity_bps l; lk_latency_micros l] /\ u32_ok (lk_weight l).

Lemma rt_link (l : LinkRecord) : link_words l -> round_trip (write_link l) read_link l.
Proof. intros H. split_words H. unfold write_link, read_link. rt_fields. destruct l. rt_tail. Qed.

Definition path_words (p : PathRecord) : Prop :=
  Forall u64_ok [pa_id p; pa_capacity_bps p] /\ u32_ok (pa_flags p) /\ Forall u64_ok (pa_hops p).

Lemma rt_path (p : PathRecord) :
  path_words p -> size64 (pa_hops p) <= kMaxResourcesPerPath -> round_trip (write_path p) read_path p.
Proof.
  intros (H & ? & Hh) Hn. split_words H. pose proof (count_word _ _ Hn eq_refl).
  unfold write_path, read_path. rt_fields. destruct p. rt_tail.
Qed.

Record topology_words (t : TopologySnapshot) : Prop := {
  tw_ids : Forall u64_ok [ts_id t; ts_generation t; ts_epoch t; ts_observed_tick t; ts_fingerprint t];
  tw_resources : Forall resource_words (ts_resources t);
  tw_links : Forall link_words (ts_links t);
  tw_paths : Forall path_words (ts_paths t)
}.

(** The bounds a valid topology keeps are the ones its decoder enforces. *)
Lemma validate_paths_hops (ids seen : gset N) (l : list PathRecord) (u : unit) :
  validate_paths ids seen l = Ok u -> Forall (fun p => size64 (pa_hops p) <= kMaxResourcesPerPath) l.
Proof.
  revert seen. induction l as [|p l IH]; intros seen H; [constructor|]. cbn [validate_paths] in H.
  peel_guards H. reflect_bools. constructor; [done|by eapply IH].
Qed.

Lemma validate_topology_counts (t : TopologySnapshot) (u : unit) :
  validate_topology t = Ok u ->
  size64 (ts_resources t) <= kMaxResourcesPerFabric /\ size64 (ts_links t) <= kMaxLinksPerTopology /\
  size64 (ts_paths t) <= kMaxPathsPerTopology /\
  Forall (fun p => size64 (pa_hops p) <= kMaxResourcesPerPath) (ts_paths t).
Proof.
  unfold validate_topology. intros H. peel_guards H. apply validate_paths_hops in H. reflect_bools.
  refine (conj _ (conj _ (conj _ H))); same_fact.
Qed.

Lemma topology_rt (t : TopologySnapshot) :
  topology_words t -> validate_topology t = Ok tt ->
  exists bytes, encode_topology t = Ok bytes /\ decode_topology bytes = Ok t.
Proof.
  intros [Hi Hr Hl Hp] Hv. split_words Hi.
  destruct (validate_topology_counts _ _ Hv) as (Hnr & Hnl & Hnp & Hh).
  pose proof (count_word _ _ Hnr eq_refl). pose proof (count_word _ _ Hnl eq_refl).
  pose proof (count_word _ _ Hnp eq_refl).
  pose proof (rt_each _ _ _ _ rt_resource Hr). pose proof (rt_each _ _ _ _ rt_link Hl).
  assert (round_trip (bw_each write_path (ts_paths t)) (br_vector (size64 (ts_paths t)) read_path) (ts_paths t)).
  { apply (rt_each _ _ (fun p => path_words p /\ size64 (pa_hops p) <= kMaxResourcesPerPath)).
    - intros p [? ?]. by apply rt_path.
    - by apply Forall_and. }
  apply round_trip_run. rt_fields. eapply reads_silent; [apply reads_check|]. cbv beta zeta.
  destruct t as [i g e o rs ls ps f]. cbn in *. rewrite Hv.
  eapply reads_silent; [by apply reads_lift|]. apply reads_ret.
Qed.

Definition capacity_entry_words (e : CapacityEntry) : Prop :=
  Forall u64_ok [ce_resource e; ce_capacity_bps e; ce_residual_bps e; ce_admissible_bps e].

Lemma rt_capacity_entry (e : CapacityEntry) :
  capacity_entry_words e -> round_trip (write_capacity_entry e) read_capacity_entry e.
Proof.
  intros H. split_words H. unfold write_capacity_entry, read_capacity_entry. rt_fields. destruct e. rt_tail.
Qed.

Definition capacity_words (c : CapacitySnapshot) : Prop :=
  Forall u64_ok [cs_id c; cs_generation c; cs_epoch c; cs_observed_tick c; cs_fingerprint c] /\
  Forall capacity_entry_words (cs_entries c).

Lemma capacity_rt (c : CapacitySnapshot) :
  capacity_words c -> validate_capacity c = Ok tt ->
  exists bytes, encode_capacity c = Ok bytes /\ decode_capacity bytes = Ok c.
Proof.
  intros [Hi He] Hv. split_words Hi.
  assert (size64 (cs_entries c) <= kMaxResourcesPerFabric) as Hn.
  { unfold validate_capacity in Hv. peel_guards Hv. by reflect_bools. }
  pose proof (count_word _ _ Hn eq_refl). pose proof (rt_each _ _ _ _ rt_capacity_entry He).
  apply round_trip_run. rt_fields. eapply reads_silent; [apply reads_check|]. cbv beta zeta.
  destruct c as [i g e o es f]. cbn in *. rewrite Hv.
  eapply reads_silent; [by apply reads_lift|]. apply reads_ret.
Qed.

(** ** The records *)

Definition domain_state_words (s : DomainState) : Prop :=
  Forall u64_ok [ds_domain s; ds_last_change_tick s; ds_last_authoritative_tick s; ds_last_evaluated_tick s;
    ds_last_evaluation s; ds_last_evidence s; ds_epoch s; ds_topology_generation s;
    ds_capacity_generation s; ds_policy s; ds_policy_fingerprint s; ds_authority_generation s;
    ds_transition_count s; ds_evaluation_count s] /\
  Forall u8_ok [state_val (ds_state s); state_val (ds_candidate s); sev_val (ds_last_committed_severity s)] /\
  u32_ok (ds_candidate_streak s).

(** The steps after the last field: the check of the reader and the guards. *)
Ltac rt_checks :=
  repeat (eapply reads_silent;
          [first [apply reads_check | apply reads_guard; repeat (apply orb_false_intro); by apply negb_false_iff]
          |]; cbv beta);
  apply reads_ret.

Lemma domain_state_rt (s : DomainState) :
  domain_state_words s -> valid (ds_domain s) = true ->
  exists bytes, encode_domain_state s = Ok bytes /\ decode_domain_state bytes = Ok s.
Proof.
  intros H Hv. split_words H. apply round_trip_run. rt_fields. destruct s. rt_checks.
Qed.

Definition intervention_words (r : InterventionRecord) : Prop :=
  Forall u64_ok [irec_id r; irec_domain r; irec_resource r; irec_evidence r; irec_evaluation r; irec_epoch r;
    irec_authority_generation r; irec_policy r; irec_provenance r; irec_recorded_tick r; irec_parameter r] /\
  Forall u8_ok [intervention_val (irec_kind r); sev_val (irec_basis_severity r)].

Lemma intervention_rt (r : InterventionRecord) :
  intervention_words r -> valid (irec_id r) = true -> valid (irec_domain r) = true ->
  exists bytes, encode_intervention r = Ok bytes /\ decode_intervention bytes = Ok r.
Proof. intros H Hi Hd. split_words H. apply round_trip_run. rt_fields. destruct r. rt_checks. Qed.

Definition note_ok (s : string) : Prop := N.of_nat (String.length s) <= kMaxDurableNote.

Definition fence_words (r : FenceRecord) : Prop :=
  Forall u64_ok [fr_id r; fr_epoch r; fr_publisher r; fr_boot r; fr_last_generation r; fr_issued_tick r;
    fr_provenance r] /\
  u8_ok (fence_reason_val (fr_reason r)) /\ note_ok (fr_detail r).

Lemma fence_rt (r : FenceRecord) :
  fence_words r -> valid (fr_id r) = true -> valid (fr_publisher r) = true -> valid (fr_boot r) = true ->
  exists bytes, encode_fence r = Ok bytes /\ decode_fence bytes = Ok r.
Proof. intros H Hi Hp Hb. split_words H. apply round_trip_run. rt_fields. destruct r. rt_checks. Qed.

Definition history_words (e : HistoryEntry) : Prop :=
  Forall u64_ok [he_domain e; he_tick e; he_evaluation e; he_epoch e] /\
  Forall u8_ok [state_val (he_from e); state_val (he_to e)] /\ note_ok (he_reason e).

Lemma history_rt (e : HistoryEntry) :
  history_words e -> exists bytes, encode_history e = Ok bytes /\ decode_history bytes = Ok e.
Proof. intros H. split_words H. apply round_trip_run. rt_fields. destruct e. rt_checks. Qed.

Definition attempt_words (r : AttemptRecord) : Prop :=
  Forall u64_ok [at_attempt r; at_transaction r; at_epoch r; at_generation r; at_recorded_tick r; at_provenance r] /\
  u16_ok (mutation_val (at_kind r)) /\ u8_ok (attempt_state_val (at_state r)) /\ note_ok (at_detail r).

Lemma attempt_rt (r : AttemptRecord) :
  attempt_words r -> exists bytes, encode_attempt r = Ok bytes /\ decode_attempt bytes = Ok r.
Proof. intros H. split_words H. apply round_trip_run. rt_fields. destruct r. rt_checks. Qed.

Definition provenance_words (p : Provenance) : Prop :=
  Forall u64_ok [pv_id p; pv_publisher p; pv_boot p; pv_epoch p; pv_attempt p; pv_recorded_tick p] /\
  u8_ok (provenance_kind_val (pv_kind p)) /\ i64_ok (pv_wall p) /\ note_ok (pv_note p).

Lemma provenance_rt (p : Provenance) :
  provenance_words p -> exists bytes, encode_provenance p = Ok bytes /\ decode_provenance bytes = Ok p.
Proof. intros H. split_words H. apply round_trip_run. rt_fields. destruct p. rt_checks. Qed.

Lemma epoch_rt (epoch boot counter : N) :
  Forall u64_ok [epoch; boot; counter] -> valid epoch = true -> valid boot = true ->
  exists bytes, encode_epoch epoch boot counter = Ok bytes /\ decode_epoch bytes = Ok (epoch, boot, counter).
Proof. intros H He Hb. split_words H. apply round_trip_run. rt_fields. rt_checks. Qed.

Definition revalidation_words (r : RevalidationRecord) : Prop :=
  Forall u64_ok [rr_domain r; rr_previous_epoch r; rr_epoch r; rr_recorded_tick r; rr_provenance r] /\
  Forall u8_ok [state_val (rr_restored_state r); state_val (rr_effective_state r)] /\ note_ok (rr_detail r).

Lemma revalidation_rt (r : RevalidationRecord) :
  revalidation_words r -> exists bytes, encode_revalidation r = Ok bytes /\ decode_revalidation bytes = Ok r.
Proof. intros H. split_words H. apply round_trip_run. rt_fields. destruct r. rt_checks. Qed.

(** ** The domains of a document *)

Definition domain_before (a b : DomainState) : Prop := ds_domain a < ds_domain b.

Lemma put_domain_cons (s x : DomainState) (l : list DomainState) :
  put_domain s (x :: l)
  = if ds_domain x <? ds_domain s then x :: put_domain s l
    else if ds_domain x =? ds_domain s then s :: l else s :: x :: l.
Proof.
  unfold put_domain, domain_position. cbn [lower_bound]. destruct (ds_domain x <? ds_domain s); [|done].
  cbn [lookup list_lookup]. destruct (l !! _) as [y|]; [|done]. by destruct (ds_domain y =? ds_domain s).
Qed.

Lemma put_domain_elem (s y : DomainState) (l : list DomainState) : y ∈ put_domain s l -> y = s \/ y ∈ l.
Proof.
  induction l as [|x l IH]; [intros H; left; by apply list_elem_of_singleton in H|].
  rewrite put_domain_cons. destruct (_ <? _); [|destruct (_ =? _)]; rewrite !elem_of_cons; tauto.
Qed.

(** The domains stay strictly in identity order. *)
Lemma put_domain_sorted (s : DomainState) (l : list DomainState) :
  StronglySorted domain_before l -> StronglySorted domain_before (put_domain s l).
Proof.
  induction l as [|x l IH]; intros Hs; [repeat constructor|]. apply StronglySorted_inv in Hs as [Hl Hx].
  rewrite put_domain_cons. rewrite Forall_forall in Hx. unfold domain_before in *.
  destruct (N.ltb_spec (ds_domain x) (ds_domain s)) as [Hlt|Hge].
  - constructor; [by apply IH|]. apply Forall_forall. intros y [->|Hy]%put_domain_elem; [done|by apply Hx].
  - destruct (N.eqb_spec (ds_domain x) (ds_domain s)) as [E|E].
    + constructor; [done|]. apply Forall_forall. intros y Hy. rewrite <- E. by apply Hx.
    + constructor; [by constructor; [|apply Forall_forall]|]. constructor; [lia|].
      apply Forall_forall. intros y Hy. specialize (Hx _ Hy). lia.
Qed.

(** [find_domain], as a search of the list. *)
Definition find_in (k : N) (l : list DomainState) : option DomainState :=
  match l !! domain_position k l with
  | Some s => if ds_domain s =? k then Some s else None
  | None => None
  end.

Lemma find_in_cons (k : N) (x : DomainState) (l : list DomainState) :
  find_in k (x :: l) = if ds_domain x <? k then find_in k l else if ds_domain x =? k then Some x else None.
Proof. unfold find_in, domain_position. cbn [lower_bound]. by destruct (ds_domain x <? k). Qed.

(** Assigning a domain's slot changes that domain only. *)
Lemma find_put_domain (s : DomainState) (l : list DomainState) (k : N) :
  StronglySorted domain_before l ->
  find_in k (put_domain s l) = if ds_domain s =? k then Some s else find_in k l.
Proof.
  induction l as [|x l IH]; intros Hs.
  { change (put_domain s []) with [s]. rewrite find_in_cons. change (find_in k []) with (@None DomainState).
    destruct (N.ltb_spec (ds_domain s) k); [|done]. by destruct (N.eqb_spec (ds_domain s) k); [lia|]. }
  apply StronglySorted_inv in Hs as [Hl Hx]. rewrite put_domain_cons, (find_in_cons k x l).
  destruct (N.ltb_spec (ds_domain x) (ds_domain s)).
  - rewrite find_in_cons, IH by done. destruct (N.ltb_spec (ds_domain x) k); [done|].
    destruct (N.eqb_spec (ds_domain s) k); [lia|done].
  - destruct (N.eqb_spec (ds_domain x) (ds_domain s)) as [E|E]; rewrite find_in_cons, ?find_in_cons, <- ?E.
    + destruct (N.ltb_spec (ds_domain x) k); [|by destruct (ds_domain x =? k)].
      by destruct (N.eqb_spec (ds_domain x) k); [lia|].
    + destruct (N.ltb_spec (ds_domain s) k); [destruct (N.eqb_spec (ds_domain s) k); [lia|done]|].
      destruct (N.eqb_spec (ds_domain s) k); [done|].
      destruct (N.ltb_spec (ds_domain x) k); [lia|]. destruct (N.eqb_spec (ds_domain x) k); [lia|done].
Qed.

(** A domain is found exactly when the document holds a state for it. *)
Lemma find_in_spec (k : N) (l : list DomainState) (s : DomainState) :
  StronglySorted domain_before l -> find_in k l = Some s <-> s ∈ l /\ ds_domain s = k.
Proof.
  induction l as [|x l IH]; intros Hs; [split; [done|]; by intros [?%not_elem_of_nil _]|].
  apply StronglySorted_inv in Hs as [Hl Hx]. rewrite Forall_forall in Hx. unfold domain_before in Hx.
  rewrite find_in_cons, elem_of_cons. destruct (N.ltb_spec (ds_domain x) k).
  - rewrite IH by done. split; [tauto|]. intros [[->|?] ?]; [lia|tauto].
  - destruct (N.eqb_spec (ds_domain x) k) as [E|E].
    + split; [intros [= ->]; tauto|]. intros [[->|Hin] Hd]; [done|]. specialize (Hx _ Hin). lia.
    + split; [done|]. intros [[->|Hin] Hd]; [done|]. specialize (Hx _ Hin). lia.
Qed.

(** ** What the decoders accept *)

Lemma decode_policy_valid (payload : list byte) (p : CongestionPolicy) :
  decode_policy payload = Ok p -> exists p0, validate_policy p0 = Ok p.
Proof. apply (yields_run _ (fun p => exists p0, validate_policy p0 = Ok p)). yield_fields. by eexists. Qed.

Lemma decode_topology_valid (payload : list byte) (t : TopologySnapshot) :
  decode_topology payload = Ok t -> validate_topology t = Ok tt.
Proof.
  apply (yields_run _ (fun t => validate_topology t = Ok tt)).
  yield_fields. by repeat match goal with u : unit |- _ => destruct u end.
Qed.

Lemma decode_capacity_valid (payload : list byte) (c : CapacitySnapshot) :
  decode_capacity payload = Ok c -> validate_capacity c = Ok tt.
Proof.
  apply (yields_run _ (fun c => validate_capacity c = Ok tt)).
  yield_fields. by repeat match goal with u : unit |- _ => destruct u end.
Qed.

Lemma decode_domain_state_valid (payload : list byte) (s : DomainState) :
  decode_domain_state payload = Ok s -> valid (ds_domain s) = true.
Proof. apply (yields_run _ (fun s => valid (ds_domain s) = true)). yield_fields. by apply negb_false_iff. Qed.

Lemma decode_intervention_valid (payload : list byte) (r : InterventionRecord) :
  decode_intervention payload = Ok r -> valid (irec_id r) = true /\ valid (irec_domain r) = true.
Proof.
  apply (yields_run _ (fun r => valid (irec_id r) = true /\ valid (irec_domain r) = true)).
  yield_fields. by rewrite !orb_false_iff, !negb_false_iff in H.
Qed.

Lemma decode_fence_valid (payload : list byte) (r : FenceRecord) :
  decode_fence payload = Ok r ->
  valid (fr_id r) = true /\ valid (fr_publisher r) = true /\ valid (fr_boot r) = true.
Proof.
  apply (yields_run _ (fun r => valid (fr_id r) = true /\ valid (fr_publisher r) = true /\ valid (fr_boot r) = true)).
  yield_fields. rewrite !orb_false_iff, !negb_false_iff in H. simpl. tauto.
Qed.

Lemma decode_epoch_valid (payload : list byte) (x : N * N * N) :
  decode_epoch payload = Ok x -> valid x.1.1 = true /\ valid x.1.2 = true.
Proof.
  apply (yields_run _ (fun x => valid x.1.1 = true /\ valid x.1.2 = true)).
  yield_fields. by rewrite !orb_false_iff, !negb_false_iff in H.
Qed.

(** The durable configuration: a policy, topology or capacity snapshot that
    passes its validation and whose fields are words of their C++ width is encoded,
    and decoding the payload gives it back, the policy with its fingerprint
    recomputed. *)
Theorem configuration_roundtrip :
  (forall p p', policy_words p -> validate_policy p = Ok p' ->
     exists bytes, encode_policy p = Ok bytes /\ decode_policy bytes = Ok p') /\
  (forall t, topology_words t -> validate_topology t = Ok tt ->
     exists bytes, encode_topology t = Ok bytes /\ decode_topology bytes = Ok t) /\
  (forall c, capacity_words c -> validate_capacity c = Ok tt ->
     exists bytes, encode_capacity c = Ok bytes /\ decode_capacity bytes = Ok c).
Proof. split; [exact policy_rt|]. split; [exact topology_rt|exact capacity_rt]. Qed.

(** C39. Every durable record with its identities present and its note within the
    bound is encoded and read back unchanged. *)
Theorem records_roundtrip :
  (forall s, domain_state_words s -> valid (ds_domain s) = true ->
     exists bytes, encode_domain_state s = Ok bytes /\ decode_domain_state bytes = Ok s) /\
  (forall r, intervention_words r -> valid (irec_id r) = true -> valid (irec_domain r) = true ->
     exists bytes, encode_intervention r = Ok bytes /\ decode_intervention bytes = Ok r) /\
  (forall r, fence_words r -> valid (fr_id r) = true -> valid (fr_publisher r) = true -> valid (fr_boot r) = true ->
     exists bytes, encode_fence r = Ok bytes /\ decode_fence bytes = Ok r) /\
  (forall e, history_words e -> exists bytes, encode_history e = Ok bytes /\ decode_history bytes = Ok e) /\
  (forall r, attempt_words r -> exists bytes, encode_attempt r = Ok bytes /\ decode_attempt bytes = Ok r) /\
  (forall p, provenance_words p -> exists bytes, encode_provenance p = Ok bytes /\ decode_provenance bytes = Ok p) /\
  (forall epoch boot counter, Forall u64_ok [epoch; boot; counter] -> valid epoch = true -> valid boot = true ->
     exists bytes, encode_epoch epoch boot counter = Ok bytes /\ decode_epoch bytes = Ok (epoch, boot, counter)) /\
  (forall r, revalidation_words r ->
     exists bytes, encode_revalidation r = Ok bytes /\ decode_revalidation bytes = Ok r).
Proof.
  repeat match goal with |- _ /\ _ => split end;
    [exact domain_state_rt|exact intervention_rt|exact fence_rt|exact history_rt|exact attempt_rt
    |exact provenance_rt|exact epoch_rt|exact revalidation_rt].
Qed.

(** Concrete values fit their fields by computation. *)
Ltac concrete_words :=
  hnf;
  repeat match goal with
    | |- _ /\ _ => split; hnf
    | |- Forall _ [] => apply Forall_nil_2
    | |- Forall _ (_ :: _) => apply Forall_cons; split; hnf
    | |- Forall _ ?l => let l' := eval vm_compute in l in change l with l'
    end;
  first [ vm_compute; reflexivity | vm_compute; intros [=] | idtac ].

Lemma configuration_roundtrip_witness :
  exists bytes, encode_policy make_default_policy = Ok bytes /\ decode_policy bytes = Ok make_default_policy.
Proof.
  refine (proj1 configuration_roundtrip make_default_policy make_default_policy _ _).
  - split; concrete_words.
  - vm_compute. reflexivity.
Defined.

Definition demo_provenance : Provenance := mkProvenance 1 PkFence 2 3 4 5 6 (-7) "note".

Lemma records_roundtrip_witness :
  exists bytes, encode_provenance demo_provenance = Ok bytes /\ decode_provenance bytes = Ok demo_provenance.
Proof.
  refine (proj1 (proj2 (proj2 (proj2 (proj2 (proj2 records_roundtrip))))) demo_provenance _).
  concrete_words.
Defined.
