(* ===== verification/Snapshot.v ===== *)
(** * Snapshot: include/ncf/durability/snapshot.hpp, src/durability/snapshot.cpp and
      [write_file] of src/internal/io.cpp

    The snapshot container: a sealed header, the sealed records, a sealed footer.
    The directory is the content of the snapshot and of its temporary file; what
    the operating system does when the temporary file is created, written,
    flushed and renamed is the parameter [FileIo].  A [Status] keeps its code and
    its message; the path or system text it carries as detail is left out. *)

From Stdlib Require Import Strings.Byte.
From S2P Require Import Prelude Core Bytes Journal.

Open Scope N_scope.

Definition kSnapshotMagic : N := 0x4E434653.
Definition kSnapshotFooterMagic : N := 0x4E434645.
Definition kSnapshotHeaderSize : N := 72.
Definition kSnapshotFooterSize : N := 32.

Record SnapshotHeader := mkSnapshotHeader {
  sh_magic : N;
  sh_format : N;
  sh_reserved : N;
  sh_header_crc : N;
  sh_reserved2 : N;
  sh_epoch : N;
  sh_coordinator_boot : N;
  sh_coordinator_boot_counter : N;
  sh_last_sequence : N;
  sh_record_count : N;
  sh_payload_bytes : N;
  sh_payload_crc : N;
  sh_reserved3 : N
}.

#[export] Instance SnapshotHeader_settable : Settable SnapshotHeader :=
  fields! mkSnapshotHeader < sh_magic; sh_format; sh_reserved; sh_header_crc; sh_reserved2; sh_epoch;
    sh_coordinator_boot; sh_coordinator_boot_counter; sh_last_sequence; sh_record_count;
    sh_payload_bytes; sh_payload_crc; sh_reserved3 >.

Definition snapshot_header_default : SnapshotHeader :=
  mkSnapshotHeader kSnapshotMagic 0 0 0 0 0 0 0 0 0 0 0 0.

Record SnapshotFooter := mkSnapshotFooter {
  sf_magic : N;
  sf_footer_crc : N;
  sf_record_count : N;
  sf_payload_bytes : N;
  sf_payload_crc : N;
  sf_reserved : N
}.

#[export] Instance SnapshotFooter_settable : Settable SnapshotFooter :=
  fields! mkSnapshotFooter < sf_magic; sf_footer_crc; sf_record_count; sf_payload_bytes; sf_payload_crc;
    sf_reserved >.

Record SnapshotContents := mkSnapshotContents {
  sc_header : SnapshotHeader;
  sc_records : list JournalRecord;
  sc_complete : bool
}.

Record SnapshotOptions := mkSnapshotOptions { so_max_bytes : N; so_max_records : N; so_sync : bool }.

(** Written at offsets 0, 4, 6, 8, 12, 16, 24, 32, 40, 48, 56, 64 and 68. *)
Definition encode_snapshot_header (h : SnapshotHeader) : list byte :=
  put_u32 (sh_magic h) ++ put_u16 (sh_format h) ++ put_u16 (sh_reserved h) ++ put_u32 (sh_header_crc h)
  ++ put_u32 (sh_reserved2 h) ++ put_u64 (sh_epoch h) ++ put_u64 (sh_coordinator_boot h)
  ++ put_u64 (sh_coordinator_boot_counter h) ++ put_u64 (sh_last_sequence h) ++ put_u64 (sh_record_count h)
  ++ put_u64 (sh_payload_bytes h) ++ put_u32 (sh_payload_crc h) ++ put_u32 (sh_reserved3 h).

(** [SnapshotHeader::computed_header_crc]. *)
Definition snapshot_header_crc (h : SnapshotHeader) : N :=
  crc32c (encode_snapshot_header (h <| sh_header_crc := 0 |>)).

Definition read_snapshot_header (bytes : list byte) : SnapshotHeader :=
  mkSnapshotHeader (get_u32 bytes 0) (get_u16 bytes 4) (get_u16 bytes 6) (get_u32 bytes 8)
    (get_u32 bytes 12) (get_u64 bytes 16) (get_u64 bytes 24) (get_u64 bytes 32) (get_u64 bytes 40)
    (get_u64 bytes 48) (get_u64 bytes 56) (get_u32 bytes 64) (get_u32 bytes 68).
Definition decode_snapshot_header (bytes : list byte) : SnapshotHeader :=
  let header := read_snapshot_header bytes in
  if negb (snapshot_header_crc header =? sh_header_crc header) then header <| sh_magic := 0 |> else header.

Definition encode_snapshot_footer (f : SnapshotFooter) : list byte :=
  put_u32 (sf_magic f) ++ put_u32 (sf_footer_crc f) ++ put_u64 (sf_record_count f)
  ++ put_u64 (sf_payload_bytes f) ++ put_u32 (sf_payload_crc f) ++ put_u32 (sf_reserved f).

(** [SnapshotFooter::computed_footer_crc]. *)
Definition snapshot_footer_crc (f : SnapshotFooter) : N :=
  crc32c (encode_snapshot_footer (f <| sf_footer_crc := 0 |>)).

Definition read_snapshot_footer (bytes : list byte) : SnapshotFooter :=
  mkSnapshotFooter (get_u32 bytes 0) (get_u32 bytes 4) (get_u64 bytes 8) (get_u64 bytes 16)
    (get_u32 bytes 24) (get_u32 bytes 28).
Definition decode_snapshot_footer (bytes : list byte) : SnapshotFooter :=
  let footer := read_snapshot_footer bytes in
  if negb (snapshot_footer_crc footer =? sf_footer_crc footer) then footer <| sf_magic := 0 |> else footer.

(** ** Reading *)

(** The loop over the records; [rest] is what lies between [offset] and
    [body_end].  Returns the records, the payload accounting and what is left. *)
Fixpoint read_records (count : nat) (rest : list byte) (records : list JournalRecord)
    (payload_bytes rolling_crc : N) : Result (list JournalRecord * N * N * list byte) :=
  match count with
  | O => Ok (records, payload_bytes, rolling_crc, rest)
  | S count' =>
      guard (size64 rest <? kRecordHeaderSize) Truncated "snapshot ended inside a record header" (
      let header := decode_header (slice 0 (N.to_nat kRecordHeaderSize) rest) in
      guard (negb (rh_magic header =? kRecordMagic)) IntegrityFailure
        "snapshot record header failed its integrity check" (
      guard (negb (rh_format header =? kFormatVersion)) Unsupported
        "snapshot record format version is not supported" (
      let total := kRecordHeaderSize + rh_payload_len header in
      guard (size64 rest <? total) Truncated "snapshot ended inside a record payload" (
      let payload := slice (N.to_nat kRecordHeaderSize) (N.to_nat (rh_payload_len header)) rest in
      guard (negb (crc32c payload =? rh_payload_crc header)) IntegrityFailure
        "snapshot record payload failed its integrity check" (
      read_records count' (drop (N.to_nat total) rest) (records ++ [mkJournalRecord header payload])
        (w64 (payload_bytes + rh_payload_len header)) (crc32c_continue rolling_crc payload))))))
  end.

Definition read_snapshot (file : option (list byte)) (options : SnapshotOptions) : Result SnapshotContents :=
  let? data := read_file file (so_max_bytes options) in
  guard (size64 data <? kSnapshotHeaderSize + kSnapshotFooterSize) Truncated
    "snapshot container is shorter than its framing" (
  let header := decode_snapshot_header (slice 0 (N.to_nat kSnapshotHeaderSize) data) in
  guard (negb (sh_magic header =? kSnapshotMagic)) IntegrityFailure
    "snapshot header failed its integrity check" (
  guard (negb (sh_format header =? kFormatVersion)) Unsupported
    "snapshot format version is not supported" (
  let body_end := (length data - N.to_nat kSnapshotFooterSize)%nat in
  let footer := decode_snapshot_footer (slice body_end (N.to_nat kSnapshotFooterSize) data) in
  guard (negb (sf_magic footer =? kSnapshotFooterMagic)) Truncated
    "snapshot has no valid footer and was never completed" (
  guard (negb (sf_record_count footer =? sh_record_count header)
         || negb (sf_payload_bytes footer =? sh_payload_bytes header)
         || negb (sf_payload_crc footer =? sh_payload_crc header)) IntegrityFailure
    "snapshot header and footer disagree" (
  guard (so_max_records options <? sh_record_count header) Oversized
    "snapshot declares more records than permitted" (
  let body := slice (N.to_nat kSnapshotHeaderSize) (body_end - N.to_nat kSnapshotHeaderSize) data in
  let? loop := read_records (N.to_nat (sh_record_count header)) body [] 0 0 in
  let '(records, payload_bytes, rolling_crc, rest) := loop in
  guard (negb (size64 rest =? 0)) Malformed "snapshot contains bytes beyond its declared record count" (
  guard (negb (payload_bytes =? sh_payload_bytes header) || negb (rolling_crc =? sh_payload_crc header))
    IntegrityFailure "snapshot payload accounting does not match" (
  Ok (mkSnapshotContents header records true))))))))).

(** ** Writing *)

(** A record with the header fields the writer owns. *)
Definition seal_record (r : JournalRecord) : JournalRecord :=
  let header := (jr_header r) <| rh_magic := kRecordMagic |> <| rh_format := kFormatVersion |>
                  <| rh_payload_len := w32 (size64 (jr_payload r)) |>
                  <| rh_payload_crc := crc32c (jr_payload r) |> in
  mkJournalRecord (header <| rh_header_crc := computed_header_crc header |>) (jr_payload r).

(** The loop over the records: the body and the payload accounting. *)
Fixpoint write_records (records : list JournalRecord) (body : list byte) (payload_bytes rolling_crc : N) :
    Result (list byte * N * N) :=
  match records with
  | [] => Ok (body, payload_bytes, rolling_crc)
  | record :: rest =>
      guard (kMaxJournalRecordBytes <? size64 (jr_payload record)) Oversized
        "snapshot record exceeds the permitted size" (
      write_records rest (body ++ encode_header (jr_header (seal_record record)) ++ jr_payload record)
        (w64 (payload_bytes + size64 (jr_payload record)))
        (crc32c_continue rolling_crc (jr_payload record)))
  end.

Definition final_snapshot_header (header : SnapshotHeader) (count payload_bytes rolling_crc : N) : SnapshotHeader :=
  let header := header <| sh_magic := kSnapshotMagic |> <| sh_format := kFormatVersion |>
                  <| sh_record_count := count |> <| sh_payload_bytes := payload_bytes |>
                  <| sh_payload_crc := rolling_crc |> in
  header <| sh_header_crc := snapshot_header_crc header |>.

Definition final_snapshot_footer (count payload_bytes rolling_crc : N) : SnapshotFooter :=
  let footer := mkSnapshotFooter kSnapshotFooterMagic 0 count payload_bytes rolling_crc 0 in
  footer <| sf_footer_crc := snapshot_footer_crc footer |>.

(** What the operating system does with a file that is created, written,
    flushed and renamed: whether it is created, how many bytes it accepts,
    whether the flush and the replacement succeed. *)
Record FileIo := mkFileIo {
  fio_create : bool;
  fio_write : list byte -> nat;
  fio_flush : bool;
  fio_replace : bool
}.

(** The snapshot and its temporary file. *)
Record SnapshotFiles := mkSnapshotFiles { fs_snapshot : option (list byte); fs_temporary : option (list byte) }.

(** [internal::write_file]: the result and the content of the file. *)
Definition write_file (io : FileIo) (bytes : list byte) (file : option (list byte)) :
    Result unit * option (list byte) :=
  if negb (fio_create io) then (fail IoError "cannot open file for writing", file)
  else
    let written := Nat.min (fio_write io bytes) (length bytes) in
    if negb (size64 bytes =? 0) && negb (written =? length bytes)%nat
    then (fail IoError "short write", Some (take written bytes))
    else if fio_flush io then (Ok tt, Some bytes) else (fail IoError "fflush failed", Some bytes).

Definition atomic_replace (io : FileIo) (files : SnapshotFiles) : Result unit * SnapshotFiles :=
  if fio_replace io
  then (Ok tt, mkSnapshotFiles (fs_temporary files) None)
  else (fail IoError "atomic replace failed", files).

(** The container [write_snapshot] builds before it touches a file. *)
Definition snapshot_container (header : SnapshotHeader) (records : list JournalRecord)
    (options : SnapshotOptions) : Result (list byte) :=
  guard (so_max_records options <? size64 records) LimitExceeded
    "snapshot would exceed the permitted record count" (
  let? loop := write_records records [] 0 0 in
  let '(body, payload_bytes, rolling_crc) := loop in
  let final_header := final_snapshot_header header (size64 records) payload_bytes rolling_crc in
  let footer := final_snapshot_footer (size64 records) payload_bytes rolling_crc in
  guard (so_max_bytes options <? kSnapshotHeaderSize + size64 body + kSnapshotFooterSize) LimitExceeded
    "snapshot would exceed the permitted size" (
  Ok (encode_snapshot_header final_header ++ body ++ encode_snapshot_footer footer))).

Definition write_snapshot (io : FileIo) (header : SnapshotHeader) (records : list JournalRecord)
    (options : SnapshotOptions) (files : SnapshotFiles) : Result unit * SnapshotFiles :=
  match snapshot_container header records options with
  | Err s => (Err s, files)
  | Ok container =>
      let '(written, temporary) := write_file io container (fs_temporary files) in
      let files := mkSnapshotFiles (fs_snapshot files) temporary in
      match written with
      | Err s => (Err s, files)
      | Ok _ => atomic_replace io files
      end
  end.

(** * Properties *)

(** ** The framing *)

Record snapshot_header_words (h : SnapshotHeader) : Prop := {
  shw_32 : Forall u32_ok [sh_magic h; sh_header_crc h; sh_reserved2 h; sh_payload_crc h; sh_reserved3 h];
  shw_16 : Forall u16_ok [sh_format h; sh_reserved h];
  shw_64 : Forall u64_ok [sh_epoch h; sh_coordinator_boot h; sh_coordinator_boot_counter h;
             sh_last_sequence h; sh_record_count h; sh_payload_bytes h]
}.

Lemma snapshot_header_length (h : SnapshotHeader) : length (encode_snapshot_header h) = 72%nat.
Proof.
  unfold encode_snapshot_header. rewrite !length_app. unfold put_u16, put_u32, put_u64. by rewrite !length_le_put.
Qed.

Lemma read_encode_snapshot_header (h : SnapshotHeader) :
  snapshot_header_words h -> read_snapshot_header (encode_snapshot_header h) = h.
Proof.
  intros [H32 H16 H64]. split_words H32. split_words H16. split_words H64.
  unfold read_snapshot_header, encode_snapshot_header, get_u16, get_u32, get_u64, put_u16, put_u32, put_u64.
  destruct h. cbn [sh_magic sh_format sh_reserved sh_header_crc sh_reserved2 sh_epoch sh_coordinator_boot
    sh_coordinator_boot_counter sh_last_sequence sh_record_count sh_payload_bytes sh_payload_crc sh_reserved3] in *.
  read_words. by rewrite !le_get_put.
Qed.

Lemma encode_read_snapshot_header (bytes : list byte) :
  length bytes = 72%nat -> encode_snapshot_header (read_snapshot_header bytes) = bytes.
Proof.
  intros Hl. unfold encode_snapshot_header, read_snapshot_header, get_u16, get_u32, get_u64, put_u16, put_u32, put_u64.
  cbn [sh_magic sh_format sh_reserved sh_header_crc sh_reserved2 sh_epoch sh_coordinator_boot
    sh_coordinator_boot_counter sh_last_sequence sh_record_count sh_payload_bytes sh_payload_crc sh_reserved3].
  join_slices.
Qed.

Lemma zero_snapshot_header_crc (h : SnapshotHeader) :
  encode_snapshot_header (h <| sh_header_crc := 0 |>) = zero_field 8 (encode_snapshot_header h).
Proof.
  destruct h. unfold encode_snapshot_header.
  cbn [set sh_magic sh_format sh_reserved sh_header_crc sh_reserved2 sh_epoch sh_coordinator_boot
    sh_coordinator_boot_counter sh_last_sequence sh_record_count sh_payload_bytes sh_payload_crc sh_reserved3].
  match goal with
  | |- _ = zero_field _ (?a ++ ?b ++ ?c ++ ?w ++ ?r) =>
      replace (a ++ b ++ c ++ w ++ r) with ((a ++ b ++ c) ++ w ++ r) by (by rewrite <- !app_assoc)
  end.
  rewrite zero_field_app; [by rewrite <- !app_assoc| |apply length_le_put].
  rewrite !length_app. unfold put_u16, put_u32. by rewrite !length_le_put.
Qed.

Lemma snapshot_header_crc_set (h : SnapshotHeader) (c : N) :
  snapshot_header_crc (h <| sh_header_crc := c |>) = snapshot_header_crc h.
Proof. reflexivity. Qed.

Lemma decode_snapshot_header_sealed (bytes : list byte) :
  length bytes = 72%nat -> sh_magic (decode_snapshot_header bytes) = kSnapshotMagic -> sealed 8 bytes.
Proof.
  intros Hl. assert (snapshot_header_crc (read_snapshot_header bytes) = crc32c (zero_field 8 bytes)) as Hz.
  { unfold snapshot_header_crc. by rewrite zero_snapshot_header_crc, encode_read_snapshot_header. }
  assert (sh_header_crc (read_snapshot_header bytes) = get_u32 bytes 8) as Hc by reflexivity.
  unfold sealed, decode_snapshot_header. rewrite Hz, Hc. clear Hz Hc.
  generalize (crc32c (zero_field 8 bytes)) (get_u32 bytes 8). intros c c'.
  destruct (N.eqb_spec c c'); cbn [negb]; [done|]. cbn [set sh_magic]. discriminate.
Qed.

Record snapshot_footer_words (f : SnapshotFooter) : Prop := {
  sfw_32 : Forall u32_ok [sf_magic f; sf_footer_crc f; sf_payload_crc f; sf_reserved f];
  sfw_64 : Forall u64_ok [sf_record_count f; sf_payload_bytes f]
}.

Lemma snapshot_footer_length (f : SnapshotFooter) : length (encode_snapshot_footer f) = 32%nat.
Proof. unfold encode_snapshot_footer. rewrite !length_app. unfold put_u32, put_u64. by rewrite !length_le_put. Qed.

Lemma read_encode_snapshot_footer (f : SnapshotFooter) :
  snapshot_footer_words f -> read_snapshot_footer (encode_snapshot_footer f) = f.
Proof.
  intros [H32 H64]. split_words H32. split_words H64.
  unfold read_snapshot_footer, encode_snapshot_footer, get_u32, get_u64, put_u32, put_u64.
  destruct f. cbn [sf_magic sf_footer_crc sf_record_count sf_payload_bytes sf_payload_crc sf_reserved] in *.
  read_words. by rewrite !le_get_put.
Qed.

Lemma encode_read_snapshot_footer (bytes : list byte) :
  length bytes = 32%nat -> encode_snapshot_footer (read_snapshot_footer bytes) = bytes.
Proof.
  intros Hl. unfold encode_snapshot_footer, read_snapshot_footer, get_u32, get_u64, put_u32, put_u64.
  cbn [sf_magic sf_footer_crc sf_record_count sf_payload_bytes sf_payload_crc sf_reserved]. join_slices.
Qed.

Lemma zero_snapshot_footer_crc (f : SnapshotFooter) :
  encode_snapshot_footer (f <| sf_footer_crc := 0 |>) = zero_field 4 (encode_snapshot_footer f).
Proof.
  destruct f. unfold encode_snapshot_footer.
  cbn [set sf_magic sf_footer_crc sf_record_count sf_payload_bytes sf_payload_crc sf_reserved].
  rewrite zero_field_app; [done|apply length_le_put..].
Qed.

Lemma decode_snapshot_footer_sealed (bytes : list byte) :
  length bytes = 32%nat -> sf_magic (decode_snapshot_footer bytes) = kSnapshotFooterMagic -> sealed 4 bytes.
Proof.
  intros Hl. assert (snapshot_footer_crc (read_snapshot_footer bytes) = crc32c (zero_field 4 bytes)) as Hz.
  { unfold snapshot_footer_crc. by rewrite zero_snapshot_footer_crc, encode_read_snapshot_footer. }
  assert (sf_footer_crc (read_snapshot_footer bytes) = get_u32 bytes 4) as Hc by reflexivity.
  unfold sealed, decode_snapshot_footer. rewrite Hz, Hc. clear Hz Hc.
  generalize (crc32c (zero_field 4 bytes)) (get_u32 bytes 4). intros c c'.
  destruct (N.eqb_spec c c'); cbn [negb]; [done|]. cbn [set sf_magic]. discriminate.
Qed.

(** ** The records *)

Lemma crc32c_continue_ok (seed : N) (data : list byte) : u32_ok seed -> u32_ok (crc32c_continue seed data).
Proof. intros H. apply lxor_ok; [|done]. by apply crc32c_fold_ok, lxor_ok. Qed.

(** The payload accounting of a list of records. *)
Definition payload_account (l : list JournalRecord) (n : N) : N :=
  foldl (fun n r => w64 (n + size64 (jr_payload r))) n l.
Definition crc_account (l : list JournalRecord) (crc : N) : N :=
  foldl (fun crc r => crc32c_continue crc (jr_payload r)) crc l.

Lemma payload_account_ok (l : list JournalRecord) : u64_ok (payload_account l 0).
Proof. unfold payload_account. apply (foldl_inv u64_ok); [done|]. intros. apply w64_ok. Qed.

Lemma crc_account_ok (l : list JournalRecord) : u32_ok (crc_account l 0).
Proof. unfold crc_account. apply (foldl_inv u32_ok); [done|]. intros. by apply crc32c_continue_ok. Qed.

(** Every record a snapshot is given fits the journal's bound and its header
    fields are words. *)
Definition sealable (r : JournalRecord) : Prop :=
  record_header_words (jr_header r) /\ size64 (jr_payload r) <= kMaxJournalRecordBytes.

Lemma seal_record_ok (r : JournalRecord) : sealable r -> record_ok kMaxJournalRecordBytes (seal_record r).
Proof.
  intros [Hh Hs]. assert (w32 (size64 (jr_payload r)) = size64 (jr_payload r)) as Hw.
  { apply N.mod_small. unfold kMaxJournalRecordBytes in Hs. lia. }
  assert (rh_header_crc (jr_header (seal_record r)) = computed_header_crc (jr_header (seal_record r))) as Hseal
    by (symmetry; apply computed_header_crc_set).
  split; [reflexivity|reflexivity|exact Hw|exact Hs|reflexivity|exact Hseal|].
  assert (u32_ok (size64 (jr_payload r))) by (unfold u32_ok, kMaxJournalRecordBytes in *; lia).
  unfold seal_record. cbv zeta. cbn [jr_header]. rewrite Hw.
  pose proof (crc32c_ok (jr_payload r)) as Hp. generalize dependent (crc32c (jr_payload r)). intros p Hp.
  match goal with |- record_header_words (set rh_header_crc (fun _ => computed_header_crc ?h) _) =>
    pose proof (crc32c_ok (encode_header (h <| rh_header_crc := 0 |>)) : u32_ok (computed_header_crc h)) as Hc;
    generalize dependent (computed_header_crc h)
  end.
  intros c Hc. destruct r as [[] payload], Hh. cbn in *. by split.
Qed.

Lemma write_records_spec (l : list JournalRecord) (body : list byte) (n crc : N) :
  Forall sealable l ->
  write_records l body n crc
  = Ok (body ++ records_bytes (map seal_record l), payload_account l n, crc_account l crc).
Proof.
  revert body n crc. induction l as [|r l IH]; intros body n crc Hl; cbn [write_records map].
  { by rewrite app_nil_r. }
  apply Forall_cons in Hl as [[_ Hr] Hl]. unfold guard.
  destruct (N.ltb_spec kMaxJournalRecordBytes (size64 (jr_payload r))); [lia|].
  rewrite (IH _ _ _ Hl). do 3 f_equal. unfold records_bytes. cbn [map concat].
  change (record_bytes (seal_record r)) with (encode_header (jr_header (seal_record r)) ++ jr_payload r).
  by rewrite <- !app_assoc.
Qed.

Lemma read_records_step (n : nat) (r : JournalRecord) (rest : list byte) (acc : list JournalRecord) (pb crc : N) :
  record_ok kMaxJournalRecordBytes r ->
  read_records (S n) (record_bytes r ++ rest) acc pb crc
  = read_records n rest (acc ++ [r]) (w64 (pb + size64 (jr_payload r))) (crc32c_continue crc (jr_payload r)).
Proof.
  intros Hr. cbn [read_records]. rewrite record_header_slice, (decode_record_header _ _ Hr).
  rewrite (rok_magic _ _ Hr), (rok_format _ _ Hr), (rok_len _ _ Hr), (rok_crc _ _ Hr), record_payload_slice.
  rewrite !N.eqb_refl, size64_app, record_bytes_size. cbn [negb]. unfold guard.
  destruct (N.ltb_spec (kRecordHeaderSize + size64 (jr_payload r) + size64 rest) kRecordHeaderSize); [lia|].
  destruct (N.ltb_spec (kRecordHeaderSize + size64 (jr_payload r) + size64 rest)
    (kRecordHeaderSize + size64 (jr_payload r))); [lia|].
  rewrite <- record_bytes_size. unfold size64 at 1. rewrite Nat2N.id, drop_app_length. by destruct r.
Qed.

Lemma read_records_whole (l : list JournalRecord) (rest : list byte) (acc : list JournalRecord) (pb crc : N) :
  Forall (record_ok kMaxJournalRecordBytes) l ->
  read_records (length l) (records_bytes l ++ rest) acc pb crc
  = Ok (acc ++ l, payload_account l pb, crc_account l crc, rest).
Proof.
  revert acc pb crc. induction l as [|r l IH]; intros acc pb crc Hl; [by rewrite app_nil_r|].
  apply Forall_cons in Hl as [Hr Hl]. unfold records_bytes. cbn [map concat length]. rewrite <- app_assoc.
  rewrite (read_records_step _ _ _ _ _ _ Hr). fold (records_bytes l). rewrite (IH _ _ _ Hl).
  by rewrite <- app_assoc.
Qed.

(** A body that ends before its last record does is refused. *)
Lemma read_records_short (l : list JournalRecord) (n : nat) (acc : list JournalRecord) (pb crc : N) :
  Forall (record_ok kMaxJournalRecordBytes) l -> (n < length (records_bytes l))%nat ->
  ok (read_records (length l) (take n (records_bytes l)) acc pb crc) = false.
Proof.
  revert n acc pb crc. induction l as [|r l IH]; intros n acc pb crc Hl Hn; [simpl in Hn; lia|].
  apply Forall_cons in Hl as [Hr Hl]. unfold records_bytes in *. cbn [map concat length] in *.
  rewrite length_app in Hn. destruct (Nat.le_gt_cases (length (record_bytes r)) n) as [Hle|Hgt].
  - rewrite take_app_ge by done. rewrite (read_records_step _ _ _ _ _ _ Hr). apply IH; [done|lia].
  - rewrite take_app_le by lia. cbn [read_records]. unfold guard. change (N.to_nat kRecordHeaderSize) with 64%nat.
    pose proof (record_bytes_length r) as Hlen.
    assert (size64 (take n (record_bytes r)) = N.of_nat n) as Hsz.
    { unfold size64. rewrite length_take. f_equal. lia. }
    destruct (N.ltb_spec (size64 (take n (record_bytes r))) kRecordHeaderSize) as [|Hge]; [done|].
    rewrite Hsz in Hge. unfold kRecordHeaderSize in Hge, Hlen.
    assert (slice 0 64 (take n (record_bytes r)) = encode_header (jr_header r)) as ->.
    { pose proof (record_header_slice r []) as Hs. rewrite app_nil_r in Hs. rewrite <- Hs. unfold slice.
      rewrite !drop_0, take_take. f_equal. change (N.to_nat kRecordHeaderSize) with 64%nat. lia. }
    rewrite (decode_record_header _ _ Hr), (rok_magic _ _ Hr), (rok_format _ _ Hr), (rok_len _ _ Hr).
    rewrite !N.eqb_refl. cbn [negb].
    destruct (N.ltb_spec (size64 (take n (record_bytes r))) (kRecordHeaderSize + size64 (jr_payload r))) as [|Hge'];
      [done|]. rewrite Hsz in Hge'. unfold kRecordHeaderSize in Hge'. lia.
Qed.

(** A body with a byte changed is refused. *)
Lemma read_records_damaged (l : list JournalRecord) (i : nat) (old new : byte) (acc : list JournalRecord)
    (pb crc : N) :
  Forall (record_ok kMaxJournalRecordBytes) l -> records_bytes l !! i = Some old -> new <> old ->
  ok (read_records (length l) (<[i:=new]> (records_bytes l)) acc pb crc) = false.
Proof.
  revert i acc pb crc. induction l as [|r l IH]; intros i acc pb crc Hl Hold Hne; [done|].
  apply Forall_cons in Hl as [Hr Hl]. unfold records_bytes in *. cbn [map concat length] in *.
  destruct (Nat.le_gt_cases (length (record_bytes r)) i) as [Hle|Hlt].
  - rewrite insert_app_r_alt by done. rewrite (read_records_step _ _ _ _ _ _ Hr).
    rewrite lookup_app_r in Hold by done. by apply IH.
  - rewrite lookup_app_l in Hold by done. rewrite insert_app_l by done.
    pose proof (record_damage _ r i old new (concat (map record_bytes l)) Hr Hold Hne) as Hd.
    cbn [read_records]. unfold guard. destruct (_ <? kRecordHeaderSize); [done|].
    change (N.to_nat kRecordHeaderSize) with 64%nat. cbv zeta in Hd.
    destruct Hd as [Hm|[Hh Hc]].
    + by rewrite (proj2 (N.eqb_neq _ _) Hm).
    + rewrite Hh, (decode_record_header _ _ Hr), (rok_magic _ _ Hr), (rok_format _ _ Hr), (rok_len _ _ Hr),
        (rok_crc _ _ Hr), !N.eqb_refl. cbn [negb].
      destruct (_ <? _); [done|]. by rewrite (proj2 (N.eqb_neq _ _) Hc).
Qed.

(** ** The container *)

(** [read_snapshot] of a file that is framed as a header, a body and a footer. *)
Definition read_framed (hb body fb : list byte) (options : SnapshotOptions) : Result SnapshotContents :=
  let header := decode_snapshot_header hb in
  guard (negb (sh_magic header =? kSnapshotMagic)) IntegrityFailure
    "snapshot header failed its integrity check" (
  guard (negb (sh_format header =? kFormatVersion)) Unsupported
    "snapshot format version is not supported" (
  let footer := decode_snapshot_footer fb in
  guard (negb (sf_magic footer =? kSnapshotFooterMagic)) Truncated
    "snapshot has no valid footer and was never completed" (
  guard (negb (sf_record_count footer =? sh_record_count header)
         || negb (sf_payload_bytes footer =? sh_payload_bytes header)
         || negb (sf_payload_crc footer =? sh_payload_crc header)) IntegrityFailure
    "snapshot header and footer disagree" (
  guard (so_max_records options <? sh_record_count header) Oversized
    "snapshot declares more records than permitted" (
  let? loop := read_records (N.to_nat (sh_record_count header)) body [] 0 0 in
  let '(records, payload_bytes, rolling_crc, rest) := loop in
  guard (negb (size64 rest =? 0)) Malformed "snapshot contains bytes beyond its declared record count" (
  guard (negb (payload_bytes =? sh_payload_bytes header) || negb (rolling_crc =? sh_payload_crc header))
    IntegrityFailure "snapshot payload accounting does not match" (
  Ok (mkSnapshotContents header records true)))))))).

Lemma read_snapshot_framed (hb body fb : list byte) (options : SnapshotOptions) :
  length hb = 72%nat -> length fb = 32%nat ->
  size64 (hb ++ body ++ fb) <= so_max_bytes options ->
  read_snapshot (Some (hb ++ body ++ fb)) options = read_framed hb body fb options.
Proof.
  intros Hh Hf Hs. unfold read_snapshot, read_file. rewrite (proj2 (N.ltb_ge _ _) Hs). cbn [res_bind]. unfold guard at 1.
  assert (length (hb ++ body ++ fb) = 104 + length body)%nat as Hl by (rewrite !length_app; lia).
  destruct (N.ltb_spec (size64 (hb ++ body ++ fb)) (kSnapshotHeaderSize + kSnapshotFooterSize)) as [Hlt|_].
  { unfold size64, kSnapshotHeaderSize, kSnapshotFooterSize in Hlt. lia. }
  rewrite Hl. change (N.to_nat kSnapshotHeaderSize) with 72%nat. change (N.to_nat kSnapshotFooterSize) with 32%nat.
  rewrite slice_here by done. rewrite slice_skip by lia.
  replace (104 + length body - 32 - length hb)%nat with (length body + 0)%nat by lia.
  rewrite slice_skip by lia. replace (length body + 0 - length body)%nat with 0%nat by lia.
  rewrite slice_all by done. rewrite slice_skip by lia. rewrite Hh.
  replace (104 + length body - 32 - 72)%nat with (length body) by lia. rewrite slice_here by done. done.
Qed.

(** What the framing refuses, [read_snapshot] refuses. *)
Lemma read_refused (hb body fb : list byte) (options : SnapshotOptions) :
  length hb = 72%nat -> length fb = 32%nat -> ok (read_framed hb body fb options) = false ->
  ok (read_snapshot (Some (hb ++ body ++ fb)) options) = false.
Proof.
  intros Hh Hf Hr. destruct (N.le_gt_cases (size64 (hb ++ body ++ fb)) (so_max_bytes options)) as [Hs|Hs].
  - by rewrite read_snapshot_framed.
  - unfold read_snapshot, read_file. by rewrite (proj2 (N.ltb_lt _ _) Hs).
Qed.

Section Container.
Context (header : SnapshotHeader) (records : list JournalRecord).
Hypothesis Hwords : snapshot_header_words header.
Hypothesis Hrecords : Forall sealable records.
Hypothesis Hcount : u64_ok (size64 records).

Let count := size64 records.
Let bytes_total := payload_account records 0.
Let rolling := crc_account records 0.
Let sealed_header := final_snapshot_header header count bytes_total rolling.
Let sealed_footer := final_snapshot_footer count bytes_total rolling.
Let body := records_bytes (map seal_record records).

Lemma snapshot_container_spec (options : SnapshotOptions) (container : list byte) :
  snapshot_container header records options = Ok container ->
  container = encode_snapshot_header sealed_header ++ body ++ encode_snapshot_footer sealed_footer /\
  count <= so_max_records options /\ size64 container <= so_max_bytes options.
Proof.
  unfold snapshot_container. rewrite (write_records_spec _ _ _ _ Hrecords). cbn [res_bind]. rewrite app_nil_l.
  intros H. peel_guards H. apply Ok_inj in H as <-. reflect_bools. split; [reflexivity|]. split; [assumption|].
  rewrite !size64_app. rewrite <- N.add_assoc in Hg0.
  assert (forall h, size64 (encode_snapshot_header h) = kSnapshotHeaderSize) as ->
    by (intros h; unfold size64; by rewrite snapshot_header_length).
  assert (forall f, size64 (encode_snapshot_footer f) = kSnapshotFooterSize) as ->
    by (intros f; unfold size64; by rewrite snapshot_footer_length).
  exact Hg0.
Qed.

Lemma final_header_words : snapshot_header_words sealed_header.
Proof.
  destruct Hwords as [H32 H16 H64]. split_words H32. split_words H16. split_words H64.
  split; cbn [sealed_header final_snapshot_header set sh_magic sh_format sh_reserved sh_header_crc sh_reserved2
    sh_epoch sh_coordinator_boot sh_coordinator_boot_counter sh_last_sequence sh_record_count sh_payload_bytes
    sh_payload_crc sh_reserved3]; repeat (apply Forall_cons; split); try apply Forall_nil_2; try same_fact.
  all: first [ reflexivity | apply crc32c_ok | exact (crc_account_ok records) | exact Hcount
             | exact (payload_account_ok records) ].
Qed.

Lemma final_footer_words : snapshot_footer_words sealed_footer.
Proof.
  split; cbn [sealed_footer final_snapshot_footer set sf_magic sf_footer_crc sf_record_count sf_payload_bytes
    sf_payload_crc sf_reserved]; repeat (apply Forall_cons; split); try apply Forall_nil_2.
  all: first [ reflexivity | apply crc32c_ok | exact (crc_account_ok records) | exact Hcount
             | exact (payload_account_ok records) ].
Qed.

Lemma decode_final_header : decode_snapshot_header (encode_snapshot_header sealed_header) = sealed_header.
Proof.
  unfold decode_snapshot_header. rewrite read_encode_snapshot_header by exact final_header_words.
  assert (snapshot_header_crc sealed_header = sh_header_crc sealed_header) as ->
    by apply snapshot_header_crc_set.
  by rewrite N.eqb_refl.
Qed.

Lemma decode_final_footer : decode_snapshot_footer (encode_snapshot_footer sealed_footer) = sealed_footer.
Proof.
  unfold decode_snapshot_footer. rewrite read_encode_snapshot_footer by exact final_footer_words.
  assert (snapshot_footer_crc sealed_footer = sf_footer_crc sealed_footer) as -> by reflexivity.
  by rewrite N.eqb_refl.
Qed.

Lemma sealed_records_ok : Forall (record_ok kMaxJournalRecordBytes) (map seal_record records).
Proof.
  apply Forall_fmap. eapply Forall_impl; [exact Hrecords|]. intros r Hr. by apply seal_record_ok.
Qed.

(** What the checks before the record loop find in the container's framing. *)
Lemma read_framed_final (body' : list byte) (options : SnapshotOptions) :
  count <= so_max_records options ->
  read_framed (encode_snapshot_header sealed_header) body' (encode_snapshot_footer sealed_footer) options
  = let? loop := read_records (length records) body' [] 0 0 in
    let '(l, pb, crc, rest) := loop in
    guard (negb (size64 rest =? 0)) Malformed "snapshot contains bytes beyond its declared record count" (
    guard (negb (pb =? bytes_total) || negb (crc =? rolling)) IntegrityFailure
      "snapshot payload accounting does not match" (Ok (mkSnapshotContents sealed_header l true))).
Proof.
  intros Hmax. unfold read_framed. rewrite decode_final_header, decode_final_footer.
  change (sh_magic sealed_header) with kSnapshotMagic. change (sh_format sealed_header) with kFormatVersion.
  change (sf_magic sealed_footer) with kSnapshotFooterMagic. change (sf_record_count sealed_footer) with count.
  change (sh_record_count sealed_header) with count. change (sf_payload_bytes sealed_footer) with bytes_total.
  change (sh_payload_bytes sealed_header) with bytes_total. change (sf_payload_crc sealed_footer) with rolling.
  change (sh_payload_crc sealed_header) with rolling. rewrite !N.eqb_refl. cbn [negb orb]. unfold guard.
  rewrite (proj2 (N.ltb_ge _ _) Hmax). unfold count, size64. by rewrite Nat2N.id.
Qed.

(** A container reads back as the sealed header and records. *)
Lemma read_container (options options' : SnapshotOptions) (container : list byte) :
  snapshot_container header records options = Ok container ->
  count <= so_max_records options' -> size64 container <= so_max_bytes options' ->
  read_snapshot (Some container) options'
  = Ok (mkSnapshotContents sealed_header (map seal_record records) true).
Proof.
  intros Hc Hm Hs. apply snapshot_container_spec in Hc as (-> & _ & _).
  rewrite (read_snapshot_framed _ _ _ _ (snapshot_header_length _) (snapshot_footer_length _) Hs).
  rewrite read_framed_final by done.
  pose proof (read_records_whole _ [] [] 0 0 sealed_records_ok) as H.
  rewrite length_map, app_nil_r in H. unfold body. rewrite H. cbn [res_bind]. unfold guard.
  assert (forall l n, payload_account (map seal_record l) n = payload_account l n) as Hp.
  { unfold payload_account. intros l n. by rewrite foldl_fmap. }
  assert (forall l n, crc_account (map seal_record l) n = crc_account l n) as Hk.
  { unfold crc_account. intros l n. by rewrite foldl_fmap. }
  rewrite Hp, Hk. unfold bytes_total, rolling. rewrite !N.eqb_refl. done.
Qed.

(** A header with a byte changed fails its check. *)
Lemma damaged_header (i : nat) (old new : byte) (body' fb : list byte) (options : SnapshotOptions) :
  encode_snapshot_header sealed_header !! i = Some old -> new <> old ->
  ok (read_framed (<[i:=new]> (encode_snapshot_header sealed_header)) body' fb options) = false.
Proof.
  intros Hold Hne. unfold read_framed, guard. pose proof (lookup_lt_Some _ _ _ Hold) as Hi.
  rewrite snapshot_header_length in Hi.
  destruct (N.eqb_spec (sh_magic (decode_snapshot_header (<[i:=new]> (encode_snapshot_header sealed_header))))
    kSnapshotMagic) as [Hm|]; [exfalso|done].
  apply decode_snapshot_header_sealed in Hm; [|by rewrite length_insert, snapshot_header_length].
  apply sealed_insert in Hm; [congruence| | |]; rewrite ?snapshot_header_length; [lia|done|].
  apply decode_snapshot_header_sealed; [apply snapshot_header_length|by rewrite decode_final_header].
Qed.

(** So does a footer. *)
Lemma damaged_footer (i : nat) (old new : byte) (body' : list byte) (options : SnapshotOptions) :
  encode_snapshot_footer sealed_footer !! i = Some old -> new <> old ->
  ok (read_framed (encode_snapshot_header sealed_header) body' (<[i:=new]> (encode_snapshot_footer sealed_footer))
        options) = false.
Proof.
  intros Hold Hne. unfold read_framed, guard. pose proof (lookup_lt_Some _ _ _ Hold) as Hi.
  rewrite snapshot_footer_length in Hi. destruct (negb _); [done|]. destruct (negb _); [done|].
  destruct (N.eqb_spec (sf_magic (decode_snapshot_footer (<[i:=new]> (encode_snapshot_footer sealed_footer))))
    kSnapshotFooterMagic) as [Hm|]; [exfalso|done].
  apply decode_snapshot_footer_sealed in Hm; [|by rewrite length_insert, snapshot_footer_length].
  apply sealed_insert in Hm; [congruence| | |]; rewrite ?snapshot_footer_length; [lia|done|].
  apply decode_snapshot_footer_sealed; [apply snapshot_footer_length|by rewrite decode_final_footer].
Qed.

(** The checks before the record loop find in a sealed header. *)
Lemma framed_loop_fails (body' fb : list byte) (options : SnapshotOptions) :
  (forall acc pb crc, ok (read_records (length records) body' acc pb crc) = false) ->
  ok (read_framed (encode_snapshot_header sealed_header) body' fb options) = false.
Proof.
  intros Hbad. unfold read_framed. rewrite decode_final_header.
  change (sh_magic sealed_header) with kSnapshotMagic. change (sh_format sealed_header) with kFormatVersion.
  change (sh_record_count sealed_header) with count. unfold guard. cbn [negb].
  rewrite !N.eqb_refl. cbn [negb]. destruct (negb _); [done|]. destruct (_ || _); [done|].
  destruct (_ <? _); [done|]. unfold count, size64. rewrite Nat2N.id. specialize (Hbad [] 0 0).
  by destruct (read_records (length records) body' [] 0 0).
Qed.
End Container.

(** ** The snapshot contract *)

(** C36. Writing a snapshot is atomic for every behaviour of the file system: on an
    error the snapshot that was there is untouched, and on success it is the new
    container, which reads back as the header and records that were written,
    sealed, under any bounds that admit it. *)
Theorem write_snapshot_atomic (io : FileIo) (header : SnapshotHeader) (records : list JournalRecord)
    (options options' : SnapshotOptions) (files : SnapshotFiles)
    (Hwords : snapshot_header_words header) (Hrecords : Forall sealable records)
    (Hcount : u64_ok (size64 records))
    (Hmax : so_max_records options <= so_max_records options')
    (Hbytes : so_max_bytes options <= so_max_bytes options') :
  match write_snapshot io header records options files with
  | (Ok _, files') =>
      read_snapshot (fs_snapshot files') options'
      = Ok (mkSnapshotContents
              (final_snapshot_header header (size64 records) (payload_account records 0) (crc_account records 0))
              (map seal_record records) true)
  | (Err _, files') => fs_snapshot files' = fs_snapshot files
  end.
Proof.
  unfold write_snapshot. destruct (snapshot_container header records options) as [s|container] eqn:E; [done|].
  destruct (snapshot_container_spec _ _ Hrecords _ _ E) as (_ & Hc & Hs).
  unfold write_file, atomic_replace. destruct (fio_create io); cbn [negb]; [|done]. cbv zeta.
  destruct (negb _ && negb _); [done|]. destruct (fio_flush io); [|done].
  destruct (fio_replace io); [|done]. cbn [fs_snapshot fs_temporary].
  apply (read_container header records Hwords Hrecords Hcount options options' container E).
  - by apply (N.le_trans _ _ _ Hc).
  - by apply (N.le_trans _ _ _ Hs).
Qed.

(** A container that was damaged in any one byte, or that ends early, is refused in
    full: nothing of it is trusted. *)
Theorem snapshot_damage_refused (header : SnapshotHeader) (records : list JournalRecord)
    (options options' : SnapshotOptions) (container : list byte)
    (Hwords : snapshot_header_words header) (Hrecords : Forall sealable records)
    (Hcount : u64_ok (size64 records)) (Hc : snapshot_container header records options = Ok container) :
  (forall i old new, container !! i = Some old -> new <> old ->
     ok (read_snapshot (Some (<[i:=new]> container)) options') = false) /\
  (forall n, (n < length container)%nat -> ok (read_snapshot (Some (take n container)) options') = false).
Proof.
  apply snapshot_container_spec in Hc as (-> & _ & _); [|done].
  set (hb := encode_snapshot_header _). set (fb := encode_snapshot_footer _).
  set (body := records_bytes (map seal_record records)).
  pose proof (snapshot_header_length (final_snapshot_header header (size64 records) (payload_account records 0)
    (crc_account records 0))) as Hh. fold hb in Hh.
  pose proof (snapshot_footer_length (final_snapshot_footer (size64 records) (payload_account records 0)
    (crc_account records 0))) as Hf. fold fb in Hf.
  pose proof (sealed_records_ok records Hrecords) as Hok.
  split.
  - intros i old new Hold Hne. destruct (Nat.lt_ge_cases i 72) as [H1|H1].
    + rewrite insert_app_l by lia. rewrite lookup_app_l in Hold by lia.
      apply read_refused; [by rewrite length_insert|done|]. by apply (damaged_header header records Hwords Hcount _ old).
    + rewrite insert_app_r_alt by lia. rewrite lookup_app_r in Hold by lia. rewrite Hh in *.
      destruct (Nat.lt_ge_cases (i - 72) (length body)) as [H2|H2].
      * rewrite insert_app_l by lia. rewrite lookup_app_l in Hold by lia.
        apply read_refused; [done..|]. apply (framed_loop_fails header records Hwords Hcount). intros acc pb crc.
        pose proof (read_records_damaged (map seal_record records) (i - 72) old new acc pb crc Hok Hold Hne) as H.
        by rewrite length_map in H.
      * rewrite insert_app_r_alt by lia. rewrite lookup_app_r in Hold by lia.
        apply read_refused; [done|by rewrite length_insert|].
        by apply (damaged_footer header records Hcount _ old).
  - intros n Hn. rewrite !length_app in Hn. destruct (Nat.lt_ge_cases n 104) as [H1|H1].
    { unfold read_snapshot, read_file. destruct (_ <? _); [done|]. cbn [res_bind]. unfold guard at 1.
      destruct (N.ltb_spec (size64 (take n (hb ++ body ++ fb))) (kSnapshotHeaderSize + kSnapshotFooterSize)); [done|].
      unfold size64, kSnapshotHeaderSize, kSnapshotFooterSize in *. rewrite length_take in *. lia. }
    rewrite take_app_ge by lia. set (m := (n - 72 - 32)%nat). set (t := take (n - length hb) (body ++ fb)).
    assert (length t = m + 32)%nat as Ht by (subst t m; rewrite length_take, length_app; lia).
    rewrite <- (take_drop m t). assert (take m t = take m body) as ->.
    { subst t m. rewrite take_take, Nat.min_l by lia. by rewrite take_app_le by lia. }
    apply read_refused; [done|rewrite length_drop; lia|].
    apply (framed_loop_fails header records Hwords Hcount). intros acc pb crc.
    pose proof (read_records_short (map seal_record records) m acc pb crc Hok) as H. rewrite length_map in H.
    apply H. subst m. fold body. lia.
Qed.

(** ** A concrete snapshot *)

Definition steady_files : FileIo := mkFileIo true (fun bytes => length bytes) true true.
Definition demo_options : SnapshotOptions := mkSnapshotOptions kMaxSnapshotBytes 16 true.
Definition demo_header : SnapshotHeader := snapshot_header_default <| sh_epoch := 3 |> <| sh_last_sequence := 9 |>.

Lemma demo_header_words : snapshot_header_words demo_header.
Proof. split; repeat (apply Forall_cons; split); first [reflexivity | apply Forall_nil_2]. Qed.

Lemma demo_sealable : Forall sealable [demo_record 1; demo_record 2].
Proof.
  repeat (apply Forall_cons; split); try apply Forall_nil_2.
  all: split; [apply (rok_words kMaxJournalRecordBytes), demo_record_ok; reflexivity|vm_compute; discriminate].
Qed.

Lemma write_snapshot_atomic_witness :
  match write_snapshot steady_files demo_header [demo_record 1; demo_record 2] demo_options (mkSnapshotFiles None None) with
  | (Ok _, files') => ok (read_snapshot (fs_snapshot files') demo_options) = true
  | (Err _, _) => False
  end.
Proof.
  pose proof (write_snapshot_atomic steady_files demo_header [demo_record 1; demo_record 2] demo_options demo_options
    (mkSnapshotFiles None None) demo_header_words demo_sealable eq_refl (N.le_refl _) (N.le_refl _)) as H.
  destruct (write_snapshot steady_files demo_header [demo_record 1; demo_record 2] demo_options
    (mkSnapshotFiles None None)) as [res files'] eqn:E.
  assert (ok res = true) as Hok.
  { change res with (res, files').1. rewrite <- E. vm_compute. reflexivity. }
  destruct res; [discriminate|]. by rewrite H.
Defined.

Lemma snapshot_damage_refused_witness :
  exists container, snapshot_container demo_header [demo_record 2] demo_options = Ok container /\
    forall n, (n < length container)%nat -> ok (read_snapshot (Some (take n container)) demo_options) = false.
Proof.
  destruct (snapshot_container demo_header [demo_record 2] demo_options) as [s|container] eqn:E.
  - exfalso. apply (f_equal ok) in E. vm_compute in E. discriminate.
  - exists container. split; [reflexivity|].
    exact (proj2 (snapshot_damage_refused demo_header [demo_record 2] demo_options demo_options container
      demo_header_words (proj2 (proj1 (Forall_cons _ _ _) demo_sealable)) eq_refl E)).
Defined.
