(* ===== verification/Store.v ===== *)
(** * Store: include/ncf/durability/store.hpp and src/durability/store.cpp

    The durable store: the commit protocol (intent, payload, commit), the
    application of a mutation to the document, the retention bounds, recovery
    (snapshot, then journal, then unfinished attempts) and compaction.  The
    directory is the content of the snapshot, its temporary file and the journal;
    the operating system is the parameter [StoreIo].  [transaction_counter_] is
    never read and is left out; [payload_bytes] and the like that only a
    diagnostic shows are kept. *)

From Stdlib Require Import Strings.Byte.
From S2P Require Import Prelude Core Enums OMap Bytes Codec Evidence Authority Policy Topology State Intervention.
From S2P Require Import Journal StoreCodec Snapshot.

Open Scope N_scope.

(** The authority context a mutation is committed under. *)
Record MutationStamp := mkMutationStamp {
  ms_epoch : N;
  ms_generation : N;
  ms_attempt : N;
  ms_provenance : N;
  ms_tick : N
}.

#[export] Instance MutationStamp_settable : Settable MutationStamp :=
  fields! mkMutationStamp < ms_epoch; ms_generation; ms_attempt; ms_provenance; ms_tick >.

Record StoreOptions := mkStoreOptions {
  sto_max_history_entries : N;
  sto_max_intervention_records : N;
  sto_max_fences : N;
  sto_max_attempts : N;
  sto_max_provenance : N;
  sto_max_domains : N;
  sto_sync_on_append : bool;
  sto_read_only : bool;
  sto_tolerate_corrupt_snapshot : bool
}.

Definition store_options_default : StoreOptions :=
  mkStoreOptions kMaxDurableHistoryEntries kMaxInterventionHistory (2 ^ 16) (2 ^ 16) (2 ^ 16) kMaxDomains
    true false true.

(** What recovery found. *)
Record StoreReplay := mkStoreReplay {
  sr_snapshot_present : bool;
  sr_snapshot_loaded : bool;
  sr_snapshot_corrupt : bool;
  sr_journal_present : bool;
  sr_journal_truncated : bool;
  sr_journal_status : ReplayStatus;
  sr_records_read : N;
  sr_records_applied : N;
  sr_records_skipped : N;
  sr_records_rejected : N;
  sr_unfinished_attempts : N;
  sr_ambiguous_attempts : N;
  sr_torn_bytes : N;
  sr_integrity_failure : bool;
  sr_detail : string;
  sr_last_epoch : N;
  sr_last_sequence : N
}.

#[export] Instance StoreReplay_settable : Settable StoreReplay :=
  fields! mkStoreReplay < sr_snapshot_present; sr_snapshot_loaded; sr_snapshot_corrupt; sr_journal_present;
    sr_journal_truncated; sr_journal_status; sr_records_read; sr_records_applied; sr_records_skipped;
    sr_records_rejected; sr_unfinished_attempts; sr_ambiguous_attempts; sr_torn_bytes;
    sr_integrity_failure; sr_detail; sr_last_epoch; sr_last_sequence >.

Definition store_replay_default : StoreReplay :=
  mkStoreReplay false false false false false RsEmpty 0 0 0 0 0 0 0 false "" 0 0.

(** ** Mutation bodies *)

Definition kMutationPrefix : N := 2.

Definition frame_body (kind : MutationKind) (body : list byte) : list byte :=
  put_u16 (w16 (mutation_val kind)) ++ body.

(** The kinds no durable payload may name. *)
Definition unnamed_kind (kind : MutationKind) : bool :=
  bool_decide (kind = MuUnknown) || bool_decide (kind = MuCount).

Definition unframe_body (framed : list byte) : Result (MutationKind * list byte) :=
  guard (size64 framed <? kMutationPrefix) Truncated "durable payload has no mutation kind prefix" (
  let kind := mutation_of (get_u16 framed 0) in
  guard (unnamed_kind kind) Malformed "durable payload names an unknown mutation kind" (
  Ok (kind, drop (N.to_nat kMutationPrefix) framed))).

Definition decode_intent_kind (payload : list byte) : option MutationKind :=
  if size64 payload <? kMutationPrefix then None
  else
    let kind := mutation_of (get_u16 payload 0) in
    if unnamed_kind kind then None else Some kind.

Definition forget {A : Type} (r : Result A) : Result unit := let? _ := r in Ok tt.

(** Decode-only validation. *)
Definition validate_body (kind : MutationKind) (payload : list byte) : Result unit :=
  match kind with
  | MuPolicySet => forget (decode_policy payload)
  | MuTopologySet => forget (decode_topology payload)
  | MuCapacitySet => forget (decode_capacity payload)
  | MuDomainState => forget (decode_domain_state payload)
  | MuIntervention => forget (decode_intervention payload)
  | MuFence => forget (decode_fence payload)
  | MuEpochAdvance => forget (decode_epoch payload)
  | MuRevalidation => forget (decode_revalidation payload)
  | MuHistoryAppend => forget (decode_history payload)
  | MuAttemptRecord => forget (decode_attempt payload)
  | MuProvenanceAppend => forget (decode_provenance payload)
  | MuUnknown | MuCount | MuRaw _ => fail Malformed "unknown durable mutation kind"
  end.

(** [push_back], unless an entry with the same identity is there. *)
Definition append_unique {A : Type} (id : A -> N) (x : A) (l : list A) : list A :=
  if existsb (fun existing => id existing =? id x) l then l else l ++ [x].

(** [Store::apply]; on an error the document is as it was. *)
Definition apply (kind : MutationKind) (payload : list byte) (d : DurableDocument) : Result DurableDocument :=
  match kind with
  | MuPolicySet => let? policy := decode_policy payload in Ok (d <| doc_policy := Some policy |>)
  | MuTopologySet => let? topology := decode_topology payload in Ok (d <| doc_topology := Some topology |>)
  | MuCapacitySet => let? capacity := decode_capacity payload in Ok (d <| doc_capacity := Some capacity |>)
  | MuDomainState => let? state := decode_domain_state payload in Ok (d <| doc_domains ::= put_domain state |>)
  | MuIntervention =>
      let? record := decode_intervention payload in Ok (d <| doc_interventions ::= append_unique irec_id record |>)
  | MuFence => let? record := decode_fence payload in Ok (d <| doc_fences ::= append_unique fr_id record |>)
  | MuEpochAdvance =>
      let? x := decode_epoch payload in
      let '(epoch, boot, counter) := x in
      Ok (d <| doc_epoch := epoch |> <| doc_coordinator_boot := boot |> <| doc_coordinator_boot_counter := counter |>)
  | MuRevalidation =>
      let? record := decode_revalidation payload in Ok (d <| doc_revalidations ::= fun l => l ++ [record] |>)
  | MuHistoryAppend => let? entry := decode_history payload in Ok (d <| doc_history ::= fun l => l ++ [entry] |>)
  | MuAttemptRecord => let? record := decode_attempt payload in Ok (d <| doc_attempts ::= fun l => l ++ [record] |>)
  | MuProvenanceAppend =>
      let? record := decode_provenance payload in Ok (d <| doc_provenance ::= append_unique pv_id record |>)
  | MuUnknown | MuCount | MuRaw _ => fail Malformed "unknown durable mutation kind"
  end.

(** ** Retention *)

(** The [trim] of [prune_document]: what is kept and how many records were dropped. *)
Definition trim {A : Type} (l : list A) (limit : N) : list A * N :=
  if (limit =? 0) || (size64 l <=? limit) then (l, 0)
  else let excess := size64 l - limit in (drop (N.to_nat excess) l, excess).

Definition prune_document (o : StoreOptions) (d : DurableDocument) : DurableDocument * N :=
  let '(history, a) := trim (doc_history d) (sto_max_history_entries o) in
  let '(interventions, b) := trim (doc_interventions d) (sto_max_intervention_records o) in
  let '(fences, c) := trim (doc_fences d) (sto_max_fences o) in
  let '(attempts, e) := trim (doc_attempts d) (sto_max_attempts o) in
  let '(provenance, f) := trim (doc_provenance d) (sto_max_provenance o) in
  let '(revalidations, g) := trim (doc_revalidations d) (sto_max_attempts o) in
  (d <| doc_history := history |> <| doc_interventions := interventions |> <| doc_fences := fences |>
     <| doc_attempts := attempts |> <| doc_provenance := provenance |> <| doc_revalidations := revalidations |>,
   a + b + c + e + f + g).

(** ** The store *)

(** The operating system under the store: the journal's and the snapshot's files,
    and whether the directory is created and the snapshot can be looked up. *)
Record StoreIo := mkStoreIo {
  sio_journal : Io;
  sio_files : FileIo;
  sio_directory : bool;
  sio_stat : bool
}.

(** [sto_files] is the content of the snapshot files on disk; the journal's is in
    [sto_journal]. *)
Record Store := mkStore {
  sto_options : StoreOptions;
  sto_journal : Journal;
  sto_files : SnapshotFiles;
  sto_document : DurableDocument;
  sto_report : StoreReplay;
  sto_pruned_records : N;
  sto_open : bool
}.

#[export] Instance Store_settable : Settable Store :=
  fields! mkStore < sto_options; sto_journal; sto_files; sto_document; sto_report; sto_pruned_records; sto_open >.

Definition enforce_growth_limits (kind : MutationKind) (s : Store) : Result unit :=
  match kind with
  | MuDomainState =>
      guard (sto_max_domains (sto_options s) <=? size64 (doc_domains (sto_document s))) LimitExceeded
        "durable domain count is at its bound" (Ok tt)
  | _ => Ok tt
  end.

(** The bodies of the intent and commit records. *)
Definition intent_body (kind : MutationKind) (stamp : MutationStamp) : list byte :=
  bw_buffer ((bw_u16 (w16 (mutation_val kind));; bw_u64 (ms_attempt stamp);; bw_u64 (ms_tick stamp)) byte_writer).
Definition commit_body (kind : MutationKind) (framed : list byte) : list byte :=
  bw_buffer ((bw_u16 (w16 (mutation_val kind));; bw_u32 (crc32c framed)) byte_writer).

Section Operations.
Context (io : StoreIo).

(** One [journal_.append] of the commit protocol. *)
Definition append_record (type : RecordType) (stamp : MutationStamp) (transaction : N) (payload : list byte)
    (s : Store) : Result unit * Store :=
  let '(status, journal) :=
    append (sio_journal io) type (ms_epoch stamp) (ms_generation stamp) transaction payload (sto_journal s) in
  (status, s <| sto_journal := journal |>).

(** [Store::commit]. *)
Definition commit (kind : MutationKind) (payload : list byte) (stamp : MutationStamp) (s : Store) :
    Result unit * Store :=
  if negb (sto_open s) then (fail Closed "store is not open", s)
  else if unnamed_kind kind then (fail InvalidArgument "durable mutation has no kind", s)
  else if kMaxJournalRecordBytes <? size64 payload + kMutationPrefix
  then (fail Oversized "durable mutation body exceeds the permitted size", s)
  else
    match enforce_growth_limits kind s with
    | Err e => (Err e, s)
    | Ok _ =>
        match validate_body kind payload with
        | Err e => (Err e, s)
        | Ok _ =>
            let framed := frame_body kind payload in
            let transaction := j_next_sequence (sto_journal s) in
            match append_record RtIntent stamp transaction (intent_body kind stamp) s with
            | (Err e, s) => (Err e, s)
            | (Ok _, s) =>
                match append_record RtPayload stamp transaction framed s with
                | (Err e, s) => (Err e, s)
                | (Ok _, s) =>
                    match append_record RtCommit stamp transaction (commit_body kind framed) s with
                    | (Err e, s) => (Err e, s)
                    | (Ok _, s) =>
                        match apply kind payload (sto_document s) with
                        | Err e => (Err e, s)
                        | Ok document =>
                            let document := document
                              <| doc_last_sequence := w64 (j_next_sequence (sto_journal s) + kMaxU64) |>
                              <| doc_authority_generation := ms_generation stamp |>
                              <| doc_mutation_count ::= fun n => w64 (n + 1) |> in
                            let '(document, dropped) := prune_document (sto_options s) document in
                            (Ok tt, s <| sto_document := document |>
                                      <| sto_pruned_records ::= fun n => w64 (n + dropped) |>)
                        end
                    end
                end
            end
        end
    end.

(** Encode, then commit. *)
Definition commit_encoded (kind : MutationKind) (encoded : Result (list byte)) (stamp : MutationStamp) (s : Store) :
    Result unit * Store :=
  match encoded with
  | Err e => (Err e, s)
  | Ok payload => commit kind payload stamp s
  end.

Definition set_policy (policy : CongestionPolicy) := commit_encoded MuPolicySet (encode_policy policy).
Definition set_topology (topology : TopologySnapshot) := commit_encoded MuTopologySet (encode_topology topology).
Definition set_capacity (capacity : CapacitySnapshot) := commit_encoded MuCapacitySet (encode_capacity capacity).
Definition put_domain_state (state : DomainState) (stamp : MutationStamp) (s : Store) : Result unit * Store :=
  match encode_domain_state state with
  | Err e => (Err e, s)
  | Ok payload =>
      if bool_decide (find_domain (ds_domain state) (sto_document s) = None)
         && (sto_max_domains (sto_options s) <=? size64 (doc_domains (sto_document s)))
      then (fail LimitExceeded "durable domain count is at its bound", s)
      else commit MuDomainState payload stamp s
  end.
Definition append_intervention (record : InterventionRecord) :=
  commit_encoded MuIntervention (encode_intervention record).
Definition append_fence (record : FenceRecord) := commit_encoded MuFence (encode_fence record).
Definition append_history (entry : HistoryEntry) := commit_encoded MuHistoryAppend (encode_history entry).
Definition append_attempt (record : AttemptRecord) := commit_encoded MuAttemptRecord (encode_attempt record).
Definition append_provenance (provenance : Provenance) :=
  commit_encoded MuProvenanceAppend (encode_provenance provenance).
Definition advance_epoch (epoch boot boot_counter : N) (stamp : MutationStamp) :=
  commit_encoded MuEpochAdvance (encode_epoch epoch boot boot_counter) (stamp <| ms_epoch := epoch |>).
Definition write_revalidation (record : RevalidationRecord) :=
  commit_encoded MuRevalidation (encode_revalidation record).
Definition store_sync (s : Store) : Result unit := sync (sio_journal io) (sto_journal s).

(** ** Recovery *)

Record PendingTransaction := mkPendingTransaction {
  pt_kind : MutationKind;
  pt_payload : list byte;
  pt_has_payload : bool;
  pt_sequence : N
}.

#[export] Instance PendingTransaction_settable : Settable PendingTransaction :=
  fields! mkPendingTransaction < pt_kind; pt_payload; pt_has_payload; pt_sequence >.

Definition pending_default : PendingTransaction := mkPendingTransaction MuUnknown [] false 0.

(** The loop state of the journal replay; [rs_pending] is the [std::map]. *)
Record ReplayState := mkReplayState {
  rs_document : DurableDocument;
  rs_report : StoreReplay;
  rs_pending : list (N * PendingTransaction)
}.

#[export] Instance ReplayState_settable : Settable ReplayState :=
  fields! mkReplayState < rs_document; rs_report; rs_pending >.

Definition reject_record (st : ReplayState) : ReplayState :=
  st <| rs_report ::= fun r => r <| sr_records_rejected ::= N.succ |> |>.

(** [case RecordType::Commit]. *)
Definition replay_commit (record : JournalRecord) (st : ReplayState) : ReplayState :=
  let transaction := rh_transaction (jr_header record) in
  match om_find transaction (rs_pending st) with
  | Some slot =>
      if negb (pt_has_payload slot) then reject_record st
      else
        let erased := st <| rs_pending ::= om_erase transaction |> in
        match (let? unframed := unframe_body (pt_payload slot) in
               apply unframed.1 unframed.2 (rs_document st)) with
        | Err _ => reject_record erased
        | Ok document =>
            erased <| rs_document := document <| doc_last_sequence := rh_sequence (jr_header record) |> |>
                   <| rs_report ::= fun r => r <| sr_records_applied ::= N.succ |> |>
        end
  | None => reject_record st
  end.

(** One turn of the loop over the journal's records. *)
Definition replay_record (st : ReplayState) (record : JournalRecord) : ReplayState :=
  let st := st <| rs_report ::= fun r => r <| sr_records_read ::= N.succ |> |> in
  let sequence := rh_sequence (jr_header record) in
  let transaction := rh_transaction (jr_header record) in
  let slot := default pending_default (om_find transaction (rs_pending st)) in
  if sequence <=? doc_last_sequence (rs_document st)
  then st <| rs_report ::= fun r => r <| sr_records_skipped ::= N.succ |> |>
  else
    match record_type_of (rh_type (jr_header record)) with
    | RtIntent =>
        match decode_intent_kind (jr_payload record) with
        | None => reject_record st
        | Some kind =>
            st <| rs_pending ::= om_insert transaction (slot <| pt_kind := kind |> <| pt_sequence := sequence |>) |>
        end
    | RtPayload =>
        let slot := slot <| pt_payload := jr_payload record |> <| pt_has_payload := true |> in
        let slot := if pt_sequence slot =? 0 then slot <| pt_sequence := sequence |> else slot in
        st <| rs_pending ::= om_insert transaction slot |>
    | RtCommit => replay_commit record st
    | RtAbort =>
        st <| rs_pending ::= om_erase transaction |>
           <| rs_document ::= fun d => d <| doc_last_sequence := sequence |> |>
    | RtRebase => st <| rs_document ::= fun d => d <| doc_last_sequence := sequence |> |>
    | RtUnknown | RtCount => reject_record st
    | RtRaw _ => st
    end.

Definition replay_records (st : ReplayState) (records : list JournalRecord) : ReplayState :=
  foldl replay_record st records.

(** The loop over what is left pending: an unfinished attempt is reported and its
    ambiguity retained, never applied. *)
Definition report_pending (st : ReplayState) (entry : N * PendingTransaction) : ReplayState :=
  let '(transaction, slot) := entry in
  if negb (pt_has_payload slot) then st
  else
    let record := mkAttemptRecord transaction transaction (pt_kind slot) AtAmbiguous
                    (doc_epoch (rs_document st)) 0 0 0 "unfinished attempt recovered from the journal" in
    st <| rs_document ::= fun d => d <| doc_attempts ::= fun l => l ++ [record] |> |>
       <| rs_report ::= fun r => r <| sr_unfinished_attempts ::= N.succ |> <| sr_ambiguous_attempts ::= N.succ |>
                                   <| sr_records_rejected ::= N.succ |> |>.
Definition report_unfinished (st : ReplayState) : ReplayState := foldl report_pending st (rs_pending st).

(** The loop over the records of a snapshot, up to the first one refused. *)
Fixpoint apply_snapshot_records (records : list JournalRecord) (d : DurableDocument) (report : StoreReplay) :
    DurableDocument * StoreReplay :=
  match records with
  | [] => (d, report)
  | record :: rest =>
      let refuse (prefix : string) (s : Status) :=
        (d, report <| sr_snapshot_corrupt := true |> <| sr_integrity_failure := true |>
                   <| sr_detail := (prefix ++ describe s)%string |>) in
      match unframe_body (jr_payload record) with
      | Err s => refuse "snapshot record refused: "%string s
      | Ok (kind, body) =>
          match apply kind body d with
          | Err s => refuse "snapshot record rejected: "%string s
          | Ok d' => apply_snapshot_records rest d' report
          end
      end
  end.

Definition snapshot_options_of (o : StoreOptions) : SnapshotOptions :=
  mkSnapshotOptions kMaxSnapshotBytes
    (w64 (sto_max_history_entries o + sto_max_domains o + sto_max_intervention_records o + sto_max_fences o
          + sto_max_attempts o + sto_max_provenance o + 8)) true.

Definition journal_options_of (o : StoreOptions) : JournalOptions :=
  mkJournalOptions kMaxJournalRecordBytes kMaxJournalBytes (sto_sync_on_append o) (sto_read_only o).

(** The snapshot part of [open]: the document it leaves and the report. *)
Definition load_snapshot (o : StoreOptions) (snapshot : option (list byte)) :
    Result (DurableDocument * StoreReplay) :=
  let report := store_replay_default <| sr_snapshot_present := bool_decide (is_Some snapshot) |> in
  match snapshot with
  | None => Ok (durable_document, report)
  | Some _ =>
      match read_snapshot snapshot (snapshot_options_of o) with
      | Err s =>
          if negb (sto_tolerate_corrupt_snapshot o) then Err s
          else Ok (durable_document,
                   report <| sr_snapshot_corrupt := true |> <| sr_integrity_failure := true |>
                          <| sr_detail := ("snapshot refused: " ++ describe s)%string |>)
      | Ok contents =>
          let header := sc_header contents in
          let d := durable_document
            <| doc_last_sequence := sh_last_sequence header |> <| doc_epoch := sh_epoch header |>
            <| doc_coordinator_boot := sh_coordinator_boot header |>
            <| doc_coordinator_boot_counter := sh_coordinator_boot_counter header |> in
          let '(d, report) := apply_snapshot_records (sc_records contents) d report in
          Ok (d, report <| sr_snapshot_loaded := negb (sr_snapshot_corrupt report) |>)
      end
  end.

(** What the directory holds: the snapshot files and the journal. *)
Record Directory := mkDirectory { dir_files : SnapshotFiles; dir_journal : option (list byte) }.

(** The end of [open]: the torn tail is cut. *)
Definition cut_torn_tail (o : StoreOptions) (replay : JournalReplay) (s : Store) : Result Store :=
  let torn := fun s => s <| sto_report ::= fun r => r <| sr_torn_bytes := rp_dropped_bytes replay |>
                             <| sr_integrity_failure := true |> <| sr_detail := rp_detail replay |> |> in
  if negb (bool_decide (rp_status replay = RsTruncatedTail)) then Ok s
  else if sto_read_only o then Ok (torn s)
  else
    let '(cut, journal) := truncate_to (sio_journal io) (rp_valid_bytes replay) (sto_journal s) in
    let? _ := cut in
    Ok (torn (s <| sto_journal := journal |>
                <| sto_report ::= fun r => r <| sr_journal_truncated := true |> |>)).

(** [Store::open] on a directory that [path] names. *)
Definition open_store (path : string) (o : StoreOptions) (dir : Directory) : Result Store :=
  guard (String.eqb path "") InvalidArgument "store directory is empty" (
  guard (negb (sio_directory io)) IoError "cannot create the store directory" (
  guard (negb (sio_stat io)) IoError "cannot stat the snapshot" (
  let? loaded := load_snapshot o (fs_snapshot (dir_files dir)) in
  let '(document, report) := loaded in
  let? journal := journal_open (sio_journal io) (journal_options_of o) (dir_journal dir) in
  let? replay := journal_replay (j_options journal) (Some (j_file journal)) in
  let report := report <| sr_journal_present := true |> <| sr_journal_status := rp_status replay |> in
  if bool_decide (rp_status replay = RsCorrupt)
  then fail_detail Corrupt "durable journal failed its integrity check" (rp_detail replay)
  else
    let st := report_unfinished (replay_records (mkReplayState document report []) (rp_records replay)) in
    let journal := resume_sequence (w64 (doc_last_sequence (rs_document st) + 1)) journal in
    let? s := cut_torn_tail o replay
                (mkStore o journal (dir_files dir) (rs_document st) (rs_report st) 0 false) in
    Ok (s <| sto_report ::= fun r => r <| sr_last_epoch := doc_epoch (sto_document s) |>
                                       <| sr_last_sequence := doc_last_sequence (sto_document s) |> |>
          <| sto_open := true |>)))).

(** ** Compaction *)

Fixpoint map_result {A B : Type} (f : A -> Result B) (l : list A) : Result (list B) :=
  match l with
  | [] => Ok []
  | x :: l' => let? y := f x in let? ys := map_result f l' in Ok (y :: ys)
  end.

Definition tagged {A : Type} (kind : MutationKind) (encode : A -> Result (list byte)) (x : A) :
    Result (MutationKind * list byte) :=
  let? body := encode x in Ok (kind, body).

(** The bodies [checkpoint] encodes, in its order, up to the first that fails. *)
Definition checkpoint_bodies (d : DurableDocument) : Result (list (MutationKind * list byte)) :=
  let? policy := map_result (tagged MuPolicySet encode_policy) (option_list (doc_policy d)) in
  let? topology := map_result (tagged MuTopologySet encode_topology) (option_list (doc_topology d)) in
  let? capacity := map_result (tagged MuCapacitySet encode_capacity) (option_list (doc_capacity d)) in
  let? epoch :=
    map_result (tagged MuEpochAdvance (fun _ : unit =>
        encode_epoch (doc_epoch d) (doc_coordinator_boot d) (doc_coordinator_boot_counter d)))
      (if valid (doc_epoch d) && valid (doc_coordinator_boot d) then [tt] else []) in
  let? domains := map_result (tagged MuDomainState encode_domain_state) (doc_domains d) in
  let? interventions := map_result (tagged MuIntervention encode_intervention) (doc_interventions d) in
  let? fences := map_result (tagged MuFence encode_fence) (doc_fences d) in
  let? history := map_result (tagged MuHistoryAppend encode_history) (doc_history d) in
  let? attempts := map_result (tagged MuAttemptRecord encode_attempt) (doc_attempts d) in
  let? provenance := map_result (tagged MuProvenanceAppend encode_provenance) (doc_provenance d) in
  let? revalidations := map_result (tagged MuRevalidation encode_revalidation) (doc_revalidations d) in
  Ok (policy ++ topology ++ capacity ++ epoch ++ domains ++ interventions ++ fences ++ history ++ attempts
      ++ provenance ++ revalidations).

(** The [push] of [checkpoint]: the record that carries a body. *)
Definition checkpoint_record (epoch sequence : N) (body : MutationKind * list byte) : JournalRecord :=
  mkJournalRecord
    (record_header_default <| rh_format := kFormatVersion |> <| rh_type := record_type_val RtPayload |>
       <| rh_sequence := sequence |> <| rh_epoch := epoch |>)
    (frame_body body.1 body.2).
Definition checkpoint_records (epoch : N) (bodies : list (MutationKind * list byte)) : list JournalRecord :=
  imap (fun i body => checkpoint_record epoch (N.of_nat i + 1) body) bodies.

(** Every record decodes before it is allowed into a snapshot. *)
Fixpoint check_decodable (records : list JournalRecord) : Result unit :=
  match records with
  | [] => Ok tt
  | record :: rest =>
      let? unframed := unframe_body (jr_payload record) in
      let? _ := validate_body unframed.1 unframed.2 in
      check_decodable rest
  end.

(** The scratch store the read-back records are applied to. *)
Fixpoint recover_scratch (records : list JournalRecord) (d : DurableDocument) : Result DurableDocument :=
  match records with
  | [] => Ok d
  | record :: rest =>
      let? unframed := unframe_body (jr_payload record) in
      match apply unframed.1 unframed.2 d with
      | Err s => fail_detail IntegrityFailure "compacted snapshot cannot be recovered" (describe s)
      | Ok d' => recover_scratch rest d'
      end
  end.

(** What is verified of the snapshot once it is written. *)
Definition verify_snapshot (files : SnapshotFiles) (options : SnapshotOptions) (count : N) (d : DurableDocument) :
    Result unit :=
  let? verified := read_snapshot (fs_snapshot files) options in
  guard (negb (size64 (sc_records verified) =? count)) IntegrityFailure
    "compacted snapshot does not read back intact" (
  let? scratch := recover_scratch (sc_records verified) durable_document in
  guard (negb (Bool.eqb (bool_decide (is_Some (doc_policy scratch))) (bool_decide (is_Some (doc_policy d))))
         || negb (size64 (doc_domains scratch) =? size64 (doc_domains d))
         || negb (size64 (doc_fences scratch) =? size64 (doc_fences d))) IntegrityFailure
    "compacted snapshot recovers a different document" (Ok tt)).

Definition checkpoint_header (d : DurableDocument) : SnapshotHeader :=
  snapshot_header_default <| sh_epoch := doc_epoch d |> <| sh_coordinator_boot := doc_coordinator_boot d |>
    <| sh_coordinator_boot_counter := doc_coordinator_boot_counter d |>
    <| sh_last_sequence := doc_last_sequence d |>.

(** [Store::checkpoint]. *)
Definition checkpoint (s : Store) : Result unit * Store :=
  if negb (sto_open s) then (fail Closed "store is not open", s)
  else
    let d := sto_document s in
    match (let? bodies := checkpoint_bodies d in
           let records := checkpoint_records (doc_epoch d) bodies in
           let? _ := check_decodable records in
           Ok records) with
    | Err e => (Err e, s)
    | Ok records =>
        let options := mkSnapshotOptions kMaxSnapshotBytes (size64 records + 1) (sto_sync_on_append (sto_options s)) in
        let '(written, files) := write_snapshot (sio_files io) (checkpoint_header d) records options (sto_files s) in
        let s := s <| sto_files := files |> in
        match written with
        | Err e => (Err e, s)
        | Ok _ =>
            match verify_snapshot files options (size64 records) d with
            | Err e => (Err e, s)
            | Ok _ =>
                let '(rebased, journal) :=
                  rebase (sio_journal io) (doc_epoch d) (doc_authority_generation d) (sto_journal s) in
                (rebased, s <| sto_journal := journal |>)
            end
        end
    end.
End Operations.

(** * Properties *)

(** ** Mutation bodies *)

Definition u16_kind (kind : MutationKind) : Prop := u16_ok (mutation_val kind).

Lemma mutation_prefix (kind : MutationKind) (rest : list byte) :
  u16_kind kind -> mutation_of (get_u16 (put_u16 (w16 (mutation_val kind)) ++ rest) 0) = kind.
Proof.
  intros Hk. unfold w16. rewrite N.mod_small by exact Hk. unfold get_u16.
  rewrite slice_here by apply length_le_put. unfold put_u16. rewrite le_get_put by exact Hk.
  apply mutation_of_val.
Qed.

Lemma unframe_frame (kind : MutationKind) (body : list byte) :
  u16_kind kind -> unnamed_kind kind = false -> unframe_body (frame_body kind body) = Ok (kind, body).
Proof.
  intros Hk Hu. unfold unframe_body, frame_body. rewrite mutation_prefix by done. rewrite Hu. unfold guard.
  assert (length (put_u16 (w16 (mutation_val kind))) = 2%nat) as Hl by apply length_le_put.
  destruct (N.ltb_spec (size64 (put_u16 (w16 (mutation_val kind)) ++ body)) kMutationPrefix) as [Hs|_].
  - rewrite size64_app in Hs. unfold size64 at 1 in Hs. rewrite Hl in Hs. unfold kMutationPrefix in Hs. lia.
  - reflexivity.
Qed.

Lemma intent_body_bytes (kind : MutationKind) (stamp : MutationStamp) :
  intent_body kind stamp
  = put_u16 (w16 (mutation_val kind)) ++ put_u64 (ms_attempt stamp) ++ put_u64 (ms_tick stamp).
Proof. reflexivity. Qed.

Lemma decode_intent_body (kind : MutationKind) (stamp : MutationStamp) :
  u16_kind kind -> unnamed_kind kind = false -> decode_intent_kind (intent_body kind stamp) = Some kind.
Proof.
  intros Hk Hu. unfold decode_intent_kind. rewrite intent_body_bytes, mutation_prefix, Hu by done. reflexivity.
Qed.

Lemma intent_body_size (kind : MutationKind) (stamp : MutationStamp) : size64 (intent_body kind stamp) = 18.
Proof. reflexivity. Qed.
Lemma commit_body_size (kind : MutationKind) (framed : list byte) : size64 (commit_body kind framed) = 6.
Proof. reflexivity. Qed.
Lemma frame_body_size (kind : MutationKind) (body : list byte) : size64 (frame_body kind body) = size64 body + 2.
Proof. unfold frame_body. rewrite size64_app. change (size64 (put_u16 _)) with 2. lia. Qed.

(** A body that validates is applied to any document. *)
Lemma forget_Ok {A : Type} (r : Result A) : forget r = Ok tt -> exists a, r = Ok a.
Proof. destruct r as [|a]; [done|by exists a]. Qed.

Lemma validate_body_apply (kind : MutationKind) (payload : list byte) (d : DurableDocument) :
  validate_body kind payload = Ok tt -> exists d', apply kind payload d = Ok d'.
Proof.
  destruct kind; cbn [validate_body apply]; intros H; try discriminate;
    apply forget_Ok in H as [x ->]; cbn [res_bind]; try by eexists.
  destruct x as [[? ?] ?]. by eexists.
Qed.

Lemma validate_body_kind (kind : MutationKind) (payload : list byte) :
  validate_body kind payload = Ok tt -> u16_kind kind /\ unnamed_kind kind = false.
Proof. by destruct kind. Qed.

(** ** Recovery never applies what was not committed *)

(** The records of one commit, from the sequence number [q]. *)
Definition commit_records (kind : MutationKind) (payload : list byte) (stamp : MutationStamp) (q : N) :
    list JournalRecord :=
  let framed := frame_body kind payload in
  let record type sequence body :=
    mkJournalRecord (record_header type (ms_epoch stamp) (ms_generation stamp) q sequence body) body in
  [record RtIntent q (intent_body kind stamp); record RtPayload (w64 (q + 1)) framed;
   record RtCommit (w64 (w64 (q + 1) + 1)) (commit_body kind framed)].

Lemma replay_records_app (st : ReplayState) (l k : list JournalRecord) :
  replay_records st (l ++ k) = replay_records (replay_records st l) k.
Proof. apply foldl_app. Qed.

Lemma prefix_of_three {A : Type} (a b c : A) (pre : list A) :
  pre `prefix_of` [a; b; c] -> pre = [] \/ pre = [a] \/ pre = [a; b] \/ pre = [a; b; c].
Proof.
  intros [k Hk]. destruct pre as [|x [|y [|z [|w pre]]]]; simpl in Hk; simplify_eq; auto.
Qed.

Section ReplayCommit.
Context (kind : MutationKind) (payload : list byte) (stamp : MutationStamp) (q : N).
Hypothesis Hvalid : validate_body kind payload = Ok tt.

Let record type sequence body :=
  mkJournalRecord (record_header type (ms_epoch stamp) (ms_generation stamp) q sequence body) body.

(** The record is not behind what the document has seen. *)
Ltac take_step :=
  unfold replay_record;
  cbn [record jr_header jr_payload record_header set rs_document rs_report rs_pending rh_sequence rh_transaction rh_type];
  match goal with |- context [?s <=? doc_last_sequence ?d] =>
    destruct (N.leb_spec s (doc_last_sequence d)); [lia|] end.

Lemma replay_intent (st : ReplayState) (sequence : N) :
  doc_last_sequence (rs_document st) < sequence ->
  rs_document (replay_record st (record RtIntent sequence (intent_body kind stamp))) = rs_document st.
Proof.
  destruct (validate_body_kind _ _ Hvalid) as [Hk Hu]. intros Hs. take_step.
  change (record_type_of (record_type_val RtIntent)) with RtIntent. cbv iota.
  by rewrite (decode_intent_body _ _ Hk Hu).
Qed.

Lemma replay_payload (st : ReplayState) (sequence : N) :
  doc_last_sequence (rs_document st) < sequence ->
  let st' := replay_record st (record RtPayload sequence (frame_body kind payload)) in
  rs_document st' = rs_document st /\
  exists slot, om_find q (rs_pending st') = Some slot /\ pt_has_payload slot = true /\
    pt_payload slot = frame_body kind payload.
Proof.
  cbv zeta. intros Hs. take_step. change (record_type_of (record_type_val RtPayload)) with RtPayload. cbv iota zeta.
  cbn [set rs_document rs_report rs_pending]. split; [done|].
  rewrite om_find_insert_eq. eexists. split; [done|]. by destruct (pt_sequence _ =? 0).
Qed.

Lemma replay_commit_applies (st : ReplayState) (sequence : N) (slot : PendingTransaction) (d' : DurableDocument)
    (body : list byte) :
  doc_last_sequence (rs_document st) < sequence ->
  om_find q (rs_pending st) = Some slot -> pt_has_payload slot = true ->
  pt_payload slot = frame_body kind payload -> apply kind payload (rs_document st) = Ok d' ->
  rs_document (replay_record st (record RtCommit sequence body)) = d' <| doc_last_sequence := sequence |>.
Proof.
  destruct (validate_body_kind _ _ Hvalid) as [Hk Hu]. intros Hs Hf Hp Hb Hd. take_step.
  change (record_type_of (record_type_val RtCommit)) with RtCommit. cbv iota. unfold replay_commit.
  cbn [record jr_header jr_payload record_header set rs_document rs_report rs_pending rh_sequence rh_transaction rh_type].
  rewrite Hf, Hp, Hb, (unframe_frame _ _ Hk Hu). cbn [negb res_bind fst snd]. by rewrite Hd.
Qed.

(** Up to the commit record the document is the one before; with it the mutation
    is applied, exactly once. *)
Lemma replay_commit_prefix (st : ReplayState) (pre : list JournalRecord) :
  q + 2 < 2 ^ 64 -> doc_last_sequence (rs_document st) < q -> pre `prefix_of` commit_records kind payload stamp q ->
  let d := rs_document (replay_records st pre) in
  ((length pre < 3)%nat /\ d = rs_document st) \/
  (pre = commit_records kind payload stamp q /\ exists d', apply kind payload (rs_document st) = Ok d' /\
     d = d' <| doc_last_sequence := q + 2 |>).
Proof.
  intros Hq Hs Hpre. cbv zeta.
  assert (w64 (q + 1) = q + 1) as Hw by (apply N.mod_small; lia).
  assert (w64 (q + 1 + 1) = q + 2) as Hw2 by (rewrite <- N.add_assoc; apply N.mod_small; lia).
  unfold commit_records in *. rewrite Hw, Hw2 in *.
  pose proof (replay_intent st q Hs) as H1.
  destruct (replay_payload (replay_record st (record RtIntent q (intent_body kind stamp))) (q + 1))
    as (H2 & slot & Hf & Hp & Hb); [rewrite H1; lia|].
  apply prefix_of_three in Hpre as [->|[->|[->| ->]]]; cbn [replay_records foldl length].
  - left. split; [lia|reflexivity].
  - left. split; [lia|exact H1].
  - left. split; [lia|]. transitivity (rs_document (replay_record st (record RtIntent q (intent_body kind stamp))));
      [exact H2|exact H1].
  - right. split; [reflexivity|]. destruct (validate_body_apply _ _ (rs_document st) Hvalid) as [d' Hd].
    exists d'. split; [exact Hd|]. rewrite <- H1, <- H2 in Hd.
    exact (replay_commit_applies _ (q + 2) slot d' _ ltac:(rewrite H2, H1; lia) Hf Hp Hb Hd).
Qed.
End ReplayCommit.

(** ** What a commit leaves in the journal *)

(** The journal of the store is the log [l], within its bounds. *)
Record store_log (s : Store) (l : list JournalRecord) : Prop := {
  sl_log : journal_log (sto_journal s) l;
  sl_options : j_options (sto_journal s) = journal_options_of (sto_options s);
  sl_size : j_size (sto_journal s) <= kMaxJournalBytes
}.

Definition stamp_words (stamp : MutationStamp) : Prop := u64_ok (ms_epoch stamp) /\ u64_ok (ms_generation stamp).

(** The record [append_record] adds. *)
Definition stamped_record (type : RecordType) (stamp : MutationStamp) (transaction sequence : N) (body : list byte) :
    JournalRecord :=
  mkJournalRecord (record_header type (ms_epoch stamp) (ms_generation stamp) transaction sequence body) body.

Lemma records_bytes_snoc (l : list JournalRecord) (r : JournalRecord) :
  records_bytes (l ++ [r]) = records_bytes l ++ record_bytes r.
Proof. rewrite records_bytes_app. unfold records_bytes at 2. cbn [map concat]. by rewrite app_nil_r. Qed.

Section CommitLog.
Context (io : StoreIo).

Inductive append_outcome (s : Store) (l : list JournalRecord) (r : JournalRecord) : Result unit * Store -> Prop :=
| outcome_done j :
    store_log (s <| sto_journal := j |>) (l ++ [r]) ->
    j_next_sequence j = w64 (j_next_sequence (sto_journal s) + 1) ->
    append_outcome s l r (Ok tt, s <| sto_journal := j |>)
| outcome_refused e j k :
    j_file j = take (length (records_bytes l) + k) (records_bytes (l ++ [r])) ->
    append_outcome s l r (Err e, s <| sto_journal := j |>).

Lemma append_record_outcome (s : Store) (l : list JournalRecord) (type : RecordType) (stamp : MutationStamp)
    (transaction : N) (body : list byte) :
  store_log s l -> stamp_words stamp -> u16_ok (record_type_val type) -> u64_ok transaction ->
  size64 body <= kMaxJournalRecordBytes ->
  append_outcome s l (stamped_record type stamp transaction (j_next_sequence (sto_journal s)) body)
    (append_record io type stamp transaction body s).
Proof.
  intros [Hlog Ho Hsz] [He Hg] Ht Hx Hb. unfold append_record.
  assert (jo_max_record_bytes (j_options (sto_journal s)) = kMaxJournalRecordBytes) as Hmax by (by rewrite Ho).
  pose proof (append_spec (sio_journal io) (sto_journal s) type (ms_epoch stamp) (ms_generation stamp) transaction body)
    as H.
  set (r := stamped_record _ _ _ _ _). change (new_record _ _ _ _ _ _) with r in H.
  assert (append_result (sto_journal s) r (append (sio_journal io) type (ms_epoch stamp) (ms_generation stamp)
    transaction body (sto_journal s))) as Hr.
  { apply H. unfold kMaxJournalBytes, kRecordHeaderSize, kMaxJournalRecordBytes in *. lia. }
  clear H. destruct Hlog as [Hf Hs Hl Hq Hbd]. destruct Hr as [j Hf' Hs' Hq' Hopen Hopt Hle|e j k Hf' Hopt].
  - apply outcome_done; [|done]. split; cbn [set sto_journal sto_options].
    + split; rewrite ?Hopt.
      * by rewrite Hf', Hf, records_bytes_snoc.
      * by rewrite Hs', Hs, Hf', size64_app.
      * apply Forall_app. split; [done|]. constructor; [|constructor].
        apply (new_record_ok (sto_journal s)); try done. by rewrite Hmax.
      * rewrite Hq'. apply w64_ok.
      * done.
    + by rewrite Hopt.
    + by rewrite Ho in Hle.
  - apply (outcome_refused _ _ _ _ _ k). by rewrite Hf', Hf, records_bytes_snoc, take_app_add.
Qed.

(** A file cut in the middle of a longer log. *)
Definition cut_between (l rs : list JournalRecord) (file : list byte) : Prop :=
  exists m, (length (records_bytes l) <= m <= length (records_bytes (l ++ rs)))%nat /\
    file = take m (records_bytes (l ++ rs)).

Lemma cut_between_refused (l pre : list JournalRecord) (r : JournalRecord) (rest : list JournalRecord) (k : nat) :
  cut_between l (pre ++ r :: rest) (take (length (records_bytes (l ++ pre)) + k) (records_bytes ((l ++ pre) ++ [r]))).
Proof.
  exists (Nat.min (length (records_bytes (l ++ pre)) + k) (length (records_bytes ((l ++ pre) ++ [r])))).
  assert (records_bytes (l ++ pre ++ r :: rest) = records_bytes ((l ++ pre) ++ [r]) ++ records_bytes rest) as E.
  { rewrite <- records_bytes_app. f_equal. by rewrite <- !app_assoc. }
  pose proof (f_equal (@length byte) E) as El. rewrite length_app in El.
  assert (length (records_bytes l) <= length (records_bytes (l ++ pre)))%nat as H1.
  { rewrite records_bytes_app, length_app. lia. }
  assert (length (records_bytes (l ++ pre)) <= length (records_bytes ((l ++ pre) ++ [r])))%nat as H2.
  { rewrite (records_bytes_app (l ++ pre)), length_app. lia. }
  split; [lia|]. rewrite E, take_app_le by lia. destruct (Nat.le_gt_cases (length (records_bytes (l ++ pre)) + k)
    (length (records_bytes ((l ++ pre) ++ [r])))) as [Hle|Hgt]; [by rewrite Nat.min_l|].
  rewrite Nat.min_r by lia. rewrite firstn_all. apply take_ge. lia.
Qed.

Lemma cut_between_whole (l rs : list JournalRecord) : cut_between l rs (records_bytes (l ++ rs)).
Proof.
  exists (length (records_bytes (l ++ rs))). rewrite firstn_all. split; [|done].
  rewrite records_bytes_app, length_app. lia.
Qed.

(** A commit leaves a cut of the log with its three records; on success all of
    them, the document with the mutation applied, and a store that can go on. *)
Inductive commit_outcome (kind : MutationKind) (payload : list byte) (stamp : MutationStamp) (s : Store)
    (l : list JournalRecord) : Result unit * Store -> Prop :=
| commit_done s' d :
    validate_body kind payload = Ok tt -> size64 payload + kMutationPrefix <= kMaxJournalRecordBytes ->
    apply kind payload (sto_document s) = Ok d ->
    store_log s' (l ++ commit_records kind payload stamp (j_next_sequence (sto_journal s))) ->
    j_next_sequence (sto_journal s') = w64 (j_next_sequence (sto_journal s) + 3) ->
    sto_options s' = sto_options s -> sto_open s' = true ->
    sto_document s' = (prune_document (sto_options s)
      (d <| doc_last_sequence := w64 (w64 (j_next_sequence (sto_journal s) + 3) + kMaxU64) |>
         <| doc_authority_generation := ms_generation stamp |> <| doc_mutation_count ::= fun n => w64 (n + 1) |>)).1 ->
    commit_outcome kind payload stamp s l (Ok tt, s')
| commit_refused e :
    commit_outcome kind payload stamp s l (Err e, s)
| commit_failed e j :
    validate_body kind payload = Ok tt -> size64 payload + kMutationPrefix <= kMaxJournalRecordBytes ->
    cut_between l (commit_records kind payload stamp (j_next_sequence (sto_journal s))) (j_file j) ->
    commit_outcome kind payload stamp s l (Err e, s <| sto_journal := j |>).

Lemma w64_step (q a b : N) : w64 (w64 (q + a) + b) = w64 (q + (a + b)).
Proof. unfold w64. rewrite N.Div0.add_mod_idemp_l. f_equal. lia. Qed.

Lemma commit_spec (kind : MutationKind) (payload : list byte) (stamp : MutationStamp) (s : Store)
    (l : list JournalRecord) :
  store_log s l -> stamp_words stamp ->
  commit_outcome kind payload stamp s l (commit io kind payload stamp s).
Proof.
  intros Hlog Hst. unfold commit. destruct (sto_open s) eqn:Hopen; cbn [negb]; [|apply commit_refused].
  destruct (unnamed_kind kind); [apply commit_refused|].
  destruct (N.ltb_spec kMaxJournalRecordBytes (size64 payload + kMutationPrefix)) as [|Hsz]; [apply commit_refused|].
  destruct (enforce_growth_limits kind s); [apply commit_refused|].
  destruct (validate_body kind payload) as [|[]] eqn:Hv; [apply commit_refused|]. cbv zeta.
  set (q := j_next_sequence (sto_journal s)). set (framed := frame_body kind payload).
  assert (u64_ok q) as Hq by apply (jl_sequence _ _ (sl_log _ _ Hlog)).
  set (r1 := stamped_record RtIntent stamp q q (intent_body kind stamp)).
  set (r2 := stamped_record RtPayload stamp q (w64 (q + 1)) framed).
  set (r3 := stamped_record RtCommit stamp q (w64 (w64 (q + 1) + 1)) (commit_body kind framed)).
  assert (commit_records kind payload stamp q = [r1; r2; r3]) as Hrs by reflexivity.
  destruct (append_record_outcome s l RtIntent stamp q (intent_body kind stamp) Hlog Hst eq_refl Hq)
    as [j1 Hl1 Hn1|e j1 k Hf1]; [by rewrite intent_body_size| |].
  2:{ apply commit_failed; [done|done|]. rewrite Hf1. fold q. rewrite Hrs. fold r1.
      pose proof (cut_between_refused l [] r1 [r2; r3] k) as H. by rewrite !app_nil_r in H. }
  fold q r1 in Hl1, Hn1. set (s1 := s <| sto_journal := j1 |>) in *.
  assert (j_next_sequence (sto_journal s1) = w64 (q + 1)) as Hq1 by exact Hn1.
  destruct (append_record_outcome s1 (l ++ [r1]) RtPayload stamp q framed Hl1 Hst eq_refl Hq)
    as [j2 Hl2 Hn2|e j2 k Hf2]; [unfold framed; rewrite frame_body_size; unfold kMutationPrefix in *; lia| |].
  2:{ rewrite Hq1 in Hf2. fold r2 in Hf2. apply (commit_failed kind payload stamp s l e j2); [done|done|].
      rewrite Hf2. fold q. rewrite Hrs. exact (cut_between_refused l [r1] r2 [r3] k). }
  rewrite Hq1 in Hl2, Hn2. fold r2 in Hl2. set (s2 := s1 <| sto_journal := j2 |>) in *.
  assert (j_next_sequence (sto_journal s2) = w64 (w64 (q + 1) + 1)) as Hq2 by exact Hn2.
  destruct (append_record_outcome s2 ((l ++ [r1]) ++ [r2]) RtCommit stamp q (commit_body kind framed) Hl2 Hst eq_refl Hq)
    as [j3 Hl3 Hn3|e j3 k Hf3]; [by rewrite commit_body_size| |].
  2:{ rewrite Hq2 in Hf3. fold r3 in Hf3. apply (commit_failed kind payload stamp s l e j3); [done|done|].
      rewrite Hf3. fold q. rewrite Hrs.
      replace ((l ++ [r1]) ++ [r2]) with (l ++ [r1; r2]) by (by rewrite <- app_assoc).
      exact (cut_between_refused l [r1; r2] r3 [] k). }
  rewrite Hq2 in Hl3, Hn3. fold r3 in Hl3. cbn [set s2 s1 sto_document sto_options].
  destruct (validate_body_apply kind payload (sto_document s) Hv) as [d Hd]. rewrite Hd.
  assert (w64 (w64 (w64 (q + 1) + 1) + 1) = w64 (q + 3)) as Hw by (by rewrite !w64_step).
  rewrite Hw in Hn3. cbn [sto_journal]. rewrite Hn3. destruct (prune_document _ _) as [document dropped] eqn:Hprune.
  apply (commit_done kind payload stamp s l _ d); fold q;
    [exact Hv|exact Hsz|exact Hd| |exact Hn3|reflexivity|exact Hopen|].
  - rewrite Hrs. rewrite <- !app_assoc in Hl3. destruct Hl3 as [H1 H2 H3]. split; [exact H1|exact H2|exact H3].
  - cbn [set sto_document]. by rewrite Hprune.
Qed.
End CommitLog.

(** ** The commit protocol *)

(** What survives a cut of the log is the log, the records that were whole, and
    never a corruption. *)
Lemma cut_replays (max_record : N) (l rs : list JournalRecord) (file : list byte) (n : nat) :
  Forall (record_ok max_record) (l ++ rs) -> cut_between l rs file ->
  (length (records_bytes l) <= n)%nat ->
  let p := replay_bytes max_record (take n file) in
  rp_status p <> RsCorrupt /\ exists pre, pre `prefix_of` rs /\ rp_records p = l ++ pre.
Proof.
  intros Hok (m & Hm & ->) Hn. cbv zeta. rewrite take_take.
  destruct (replay_cut max_record (l ++ rs) (Nat.min n m) Hok) as (H1 & _ & _ & _ & H5); [lia|].
  rewrite H1, H5. split; [destruct (bool_decide _); [done|]; by destruct (_ =? 0)|].
  pose proof (whole_records_prefix (Nat.min n m) (l ++ rs)) as [k Hk].
  pose proof (whole_records_keep l rs (Nat.min n m - length (records_bytes l))) as [pre Hpre].
  replace (length (records_bytes l) + (Nat.min n m - length (records_bytes l)))%nat with (Nat.min n m) in Hpre by lia.
  exists pre. split; [|done]. exists k. rewrite Hpre, <- app_assoc in Hk. by apply app_inv_head in Hk.
Qed.

Lemma commit_records_fit (kind : MutationKind) (payload : list byte) (stamp : MutationStamp) (q : N) :
  stamp_words stamp -> u64_ok q -> size64 payload + kMutationPrefix <= kMaxJournalRecordBytes ->
  Forall (record_ok kMaxJournalRecordBytes) (commit_records kind payload stamp q).
Proof.
  intros [He Hg] Hq Hs. unfold commit_records, kMutationPrefix in *.
  assert (forall type sequence body, u16_ok (record_type_val type) -> u64_ok sequence ->
    size64 body <= kMaxJournalRecordBytes ->
    record_ok kMaxJournalRecordBytes (stamped_record type stamp q sequence body)) as H.
  { intros type sequence body Ht Hx Hb.
    exact (new_record_ok (new_journal <| j_next_sequence := sequence |>) type _ _ q body _ Ht He Hg Hq Hx Hb eq_refl). }
  repeat (apply Forall_cons; split); [..|apply Forall_nil_2]; apply H; try reflexivity; try apply w64_ok; try done.
  by rewrite frame_body_size.
Qed.

(** C2. Crash atomicity of the commit protocol, for every behaviour of the operating
    system.  However much of what a commit wrote survives, beyond what was durable
    before it, the journal is not corrupt and recovery gives the document before
    the mutation or the document with the mutation applied; once the commit has
    reported success, and all of it survives, it is the latter. *)
Theorem commit_crash_atomic (io : StoreIo) (kind : MutationKind) (payload : list byte) (stamp : MutationStamp)
    (s : Store) (l : list JournalRecord) (base : ReplayState) (n : nat)
    (Hlog : store_log s l) (Hst : stamp_words stamp) (Hnext : j_next_sequence (sto_journal s) + 3 < 2 ^ 64)
    (Hseq : doc_last_sequence (rs_document (replay_records base l)) < j_next_sequence (sto_journal s))
    (Hn : (length (records_bytes l) <= n)%nat) :
  let '(result, s') := commit io kind payload stamp s in
  let file := j_file (sto_journal s') in
  let recovered := replay_bytes kMaxJournalRecordBytes (take n file) in
  let before := rs_document (replay_records base l) in
  let after := rs_document (replay_records base (rp_records recovered)) in
  let applied := exists d, apply kind payload before = Ok d /\
    after = d <| doc_last_sequence := j_next_sequence (sto_journal s) + 2 |> in
  rp_status recovered <> RsCorrupt /\ (after = before \/ applied) /\
  (result = Ok tt -> (length file <= n)%nat -> applied).
Proof.
  pose proof (commit_spec io kind payload stamp s l Hlog Hst) as H.
  pose proof (jl_sequence _ _ (sl_log _ _ Hlog)) as Hq. pose proof (sl_options _ _ Hlog) as Ho.
  pose proof (jl_records _ _ (sl_log _ _ Hlog)) as Hl. rewrite Ho in Hl. cbn [journal_options_of jo_max_record_bytes] in Hl.
  destruct H as [s' d Hv Hsz Hd Hlog' _ _ _ _|e|e j Hv Hsz Hcut]; cbv zeta.
  - pose proof (jl_file _ _ (sl_log _ _ Hlog')) as Hf.
    pose proof (commit_records_fit kind payload stamp _ Hst Hq Hsz) as Hfit.
    destruct (cut_replays kMaxJournalRecordBytes l (commit_records kind payload stamp (j_next_sequence (sto_journal s)))
      (j_file (sto_journal s')) n) as (Hc & pre & Hpre & Hr);
      [by apply Forall_app|rewrite Hf; apply cut_between_whole|done|].
    rewrite Hr, replay_records_app. split; [exact Hc|].
    destruct (replay_commit_prefix kind payload stamp (j_next_sequence (sto_journal s)) Hv (replay_records base l) pre
      ltac:(lia) Hseq Hpre) as [[Hlen ->]|[-> Happ]].
    + split; [by left|]. intros _ Hle. exfalso. rewrite take_ge, Hf in Hr by done.
      destruct (replay_bytes_whole kMaxJournalRecordBytes
        (l ++ commit_records kind payload stamp (j_next_sequence (sto_journal s)))) as (Hw & _); [by apply Forall_app|].
      rewrite Hw in Hr. apply app_inv_head in Hr. subst pre. unfold commit_records in Hlen. cbn [length] in Hlen. lia.
    + split; [by right|]. by intros _ _.
  - pose proof (jl_file _ _ (sl_log _ _ Hlog)) as Hf. rewrite Hf, take_ge by done.
    destruct (replay_bytes_whole kMaxJournalRecordBytes l Hl) as (-> & -> & _).
    split; [by destruct (bool_decide _)|]. split; [by left|done].
  - pose proof (commit_records_fit kind payload stamp _ Hst Hq Hsz) as Hfit. cbn [set sto_journal].
    destruct (cut_replays kMaxJournalRecordBytes l (commit_records kind payload stamp (j_next_sequence (sto_journal s)))
      (j_file j) n) as (Hc & pre & Hpre & Hr); [by apply Forall_app|done|done|].
    rewrite Hr, replay_records_app. split; [exact Hc|]. split; [|done].
    destruct (replay_commit_prefix kind payload stamp (j_next_sequence (sto_journal s)) Hv (replay_records base l) pre
      ltac:(lia) Hseq Hpre) as [[_ ->]|[_ Happ]]; [by left|by right].
Qed.

(** ** The document invariant *)

(** What every durable document keeps: validated configuration, domains in
    identity order, and records that carry and do not repeat their identities. *)
Record document_ok (d : DurableDocument) : Prop := {
  dok_policy : forall p, doc_policy d = Some p -> policy_ok p /\ cpol_fingerprint p = fingerprint_policy p;
  dok_topology : forall t, doc_topology d = Some t -> topology_ok t;
  dok_capacity : forall c, doc_capacity d = Some c -> capacity_ok c;
  dok_domains : StronglySorted domain_before (doc_domains d) /\
                Forall (fun s => valid (ds_domain s) = true) (doc_domains d);
  dok_interventions : NoDup (map irec_id (doc_interventions d)) /\
                Forall (fun r => valid (irec_id r) = true /\ valid (irec_domain r) = true) (doc_interventions d);
  dok_fences : NoDup (map fr_id (doc_fences d)) /\
                Forall (fun r => valid (fr_id r) = true /\ valid (fr_publisher r) = true /\ valid (fr_boot r) = true)
                  (doc_fences d);
  dok_provenance : NoDup (map pv_id (doc_provenance d))
}.

(** The parts of a document the invariant speaks of. *)
Definition document_parts (d : DurableDocument) :=
  (doc_policy d, doc_topology d, doc_capacity d, doc_domains d, doc_interventions d, doc_fences d, doc_provenance d).

Lemma document_ok_parts (d d' : DurableDocument) :
  document_parts d = document_parts d' -> document_ok d -> document_ok d'.
Proof.
  unfold document_parts. intros E [H1 H2 H3 H4 H5 H6 H7].
  injection E as E1 E2 E3 E4 E5 E6 E7. rewrite E1, E2, E3, E4, E5, E6, E7 in *. by split.
Qed.

Lemma durable_document_ok : document_ok durable_document.
Proof. split; try done; repeat first [apply NoDup_nil_2 | split | constructor]. Qed.

Lemma append_unique_ok {A : Type} (id : A -> N) (P : A -> Prop) (x : A) (l : list A) :
  P x -> NoDup (map id l) -> Forall P l -> NoDup (map id (append_unique id x l)) /\ Forall P (append_unique id x l).
Proof.
  intros Hx Hn Hl. unfold append_unique. destruct (existsb _ l) eqn:E; [done|]. split.
  - rewrite map_app. apply NoDup_app. split; [done|]. split; [|apply NoDup_singleton].
    intros y Hy ->%list_elem_of_singleton. apply list_elem_of_fmap in Hy as (z & Hz & Hin).
    assert (existsb (fun e => id e =? id x) l = true) as Ht; [|congruence].
    apply existsb_exists. exists z. split; [by apply list_elem_of_In|]. apply N.eqb_eq. by rewrite <- Hz.
  - apply Forall_app. split; [done|]. by constructor.
Qed.

(** The fingerprint does not cover itself. *)
Lemma fingerprint_policy_set (p : CongestionPolicy) (f : N) :
  fingerprint_policy (p <| cpol_fingerprint := f |>) = fingerprint_policy p.
Proof.
  unfold fingerprint_policy. cbn [set cpol_id cpol_version cpol_name cpol_rules cpol_hysteresis cpol_recovery
    cpol_propagation cpol_freshness cpol_contradiction cpol_interventions cpol_limits
    cpol_min_agreeing_rules_for_watch cpol_min_agreeing_rules_for_congested cpol_min_agreeing_rules_for_severe].
  reflexivity.
Qed.

Lemma validated_policy_ok (p0 p : CongestionPolicy) :
  validate_policy p0 = Ok p -> policy_ok p /\ cpol_fingerprint p = fingerprint_policy p.
Proof.
  intros [[] ->]%validate_policy_iff. split; [by split|]. symmetry. apply fingerprint_policy_set.
Qed.

Lemma put_domain_ok (s : DomainState) (l : list DomainState) :
  valid (ds_domain s) = true -> StronglySorted domain_before l -> Forall (fun s => valid (ds_domain s) = true) l ->
  StronglySorted domain_before (put_domain s l) /\ Forall (fun s => valid (ds_domain s) = true) (put_domain s l).
Proof.
  intros Hv Hs Hl. split; [by apply put_domain_sorted|]. rewrite Forall_forall in *.
  intros y [->|Hy]%put_domain_elem; [done|by apply Hl].
Qed.

(** Applying a mutation keeps the invariant. *)
Lemma apply_ok (kind : MutationKind) (payload : list byte) (d d' : DurableDocument) :
  document_ok d -> apply kind payload d = Ok d' -> document_ok d'.
Proof.
  intros Hd. pose proof Hd as [H1 H2 H3 [H4 H4'] [H5 H5'] [H6 H6'] H7].
  destruct kind; cbn [apply]; try discriminate; intros H; apply res_bind_Ok in H as (x & Hx & H);
    try (destruct x as [[epoch boot] counter]); apply Ok_inj in H as <-;
    try (by apply (document_ok_parts d)).
  - split; cbn [set doc_policy doc_topology doc_capacity doc_domains doc_interventions doc_fences doc_provenance]; try done.
    intros p [= <-]. apply decode_policy_valid in Hx as [p0 Hp0]. by eapply validated_policy_ok.
  - split; cbn [set doc_policy doc_topology doc_capacity doc_domains doc_interventions doc_fences doc_provenance]; try done.
    apply put_domain_ok; [by apply decode_domain_state_valid in Hx|done..].
  - split; cbn [set doc_policy doc_topology doc_capacity doc_domains doc_interventions doc_fences doc_provenance]; try done.
    apply decode_intervention_valid in Hx. by apply append_unique_ok.
  - split; cbn [set doc_policy doc_topology doc_capacity doc_domains doc_interventions doc_fences doc_provenance]; try done.
    apply decode_fence_valid in Hx. by apply append_unique_ok.
  - split; cbn [set doc_policy doc_topology doc_capacity doc_domains doc_interventions doc_fences doc_provenance]; try done.
    intros t [= <-]. apply decode_topology_valid in Hx. by apply validate_topology_Ok.
  - split; cbn [set doc_policy doc_topology doc_capacity doc_domains doc_interventions doc_fences doc_provenance]; try done.
    intros c [= <-]. apply decode_capacity_valid in Hx. by eapply validate_capacity_Ok.
  - split; cbn [set doc_policy doc_topology doc_capacity doc_domains doc_interventions doc_fences doc_provenance]; try done.
    apply (append_unique_ok pv_id (fun _ => True)); [done|done|]. by apply Forall_forall.
Qed.

(** Retention drops the oldest records and keeps the invariant. *)
Lemma trim_drop {A : Type} (l : list A) (limit : N) : exists n, (trim l limit).1 = drop n l.
Proof. unfold trim. destruct (_ || _); [by exists 0%nat|by eexists]. Qed.

Lemma map_drop_NoDup {A : Type} (id : A -> N) (n : nat) (l : list A) : NoDup (map id l) -> NoDup (map id (drop n l)).
Proof. intros H. rewrite <- (take_drop n l), map_app in H. by apply NoDup_app in H as (_ & _ & H). Qed.

Lemma prune_ok (o : StoreOptions) (d : DurableDocument) : document_ok d -> document_ok (prune_document o d).1.
Proof.
  intros [H1 H2 H3 H4 [H5 H5'] [H6 H6'] H7]. unfold prune_document.
  destruct (trim_drop (doc_interventions d) (sto_max_intervention_records o)) as [n1 E1].
  destruct (trim_drop (doc_fences d) (sto_max_fences o)) as [n2 E2].
  destruct (trim_drop (doc_provenance d) (sto_max_provenance o)) as [n3 E3].
  destruct (trim (doc_history d) _), (trim (doc_interventions d) _), (trim (doc_fences d) _),
    (trim (doc_attempts d) _), (trim (doc_provenance d) _), (trim (doc_revalidations d) _).
  simpl in E1, E2, E3. subst.
  split; cbn [fst set doc_policy doc_topology doc_capacity doc_domains doc_interventions doc_fences doc_provenance];
    try done; try split; try (by apply map_drop_NoDup); by apply Forall_drop.
Qed.

(** Recovery establishes it. *)
Lemma replay_record_ok (st : ReplayState) (r : JournalRecord) :
  document_ok (rs_document st) -> document_ok (rs_document (replay_record st r)).
Proof.
  intros Hd. unfold replay_record.
  cbn [set rs_document rs_report rs_pending]. destruct (_ <=? _); [done|].
  destruct (record_type_of _); cbn [set rs_document rs_report rs_pending reject_record]; try done;
    try (by apply (document_ok_parts (rs_document st))).
  - by destruct (decode_intent_kind _).
  - unfold replay_commit. cbn [set rs_document rs_report rs_pending].
    destruct (om_find _ _) as [slot|]; [|done]. destruct (negb _); [done|].
    destruct (res_bind _ _) as [|document] eqn:E; [done|]. apply res_bind_Ok in E as ([kind body] & _ & E).
    cbn [set rs_document rs_report rs_pending]. apply (document_ok_parts document); [done|]. by eapply apply_ok.
Qed.

Lemma replay_records_ok (st : ReplayState) (l : list JournalRecord) :
  document_ok (rs_document st) -> document_ok (rs_document (replay_records st l)).
Proof.
  intros Hd. unfold replay_records. apply (foldl_inv (fun st => document_ok (rs_document st))); [done|].
  intros acc r _ Hacc. by apply replay_record_ok.
Qed.

Lemma report_unfinished_ok (st : ReplayState) :
  document_ok (rs_document st) -> document_ok (rs_document (report_unfinished st)).
Proof.
  intros Hd. unfold report_unfinished. apply (foldl_inv (fun st => document_ok (rs_document st))); [done|].
  intros acc [transaction slot] _ Hacc. unfold report_pending. destruct (negb _); [done|].
  by apply (document_ok_parts (rs_document acc)).
Qed.

Lemma apply_snapshot_records_ok (l : list JournalRecord) (d : DurableDocument) (report : StoreReplay) :
  document_ok d -> document_ok (apply_snapshot_records l d report).1.
Proof.
  revert d. induction l as [|r l IH]; intros d Hd; [done|]. cbn [apply_snapshot_records]. cbv zeta.
  destruct (unframe_body _) as [|[kind body]]; [done|]. destruct (apply kind body d) as [|d'] eqn:E; [done|].
  apply IH. by eapply apply_ok.
Qed.

Lemma load_snapshot_ok (o : StoreOptions) (snapshot : option (list byte)) (x : DurableDocument * StoreReplay) :
  load_snapshot o snapshot = Ok x -> document_ok x.1.
Proof.
  unfold load_snapshot. destruct snapshot as [bytes|]; [|intros <-%Ok_inj; apply durable_document_ok].
  destruct (read_snapshot _ _) as [s|contents].
  - destruct (negb _); [done|]. intros <-%Ok_inj. apply durable_document_ok.
  - cbv zeta. match goal with |- context [apply_snapshot_records ?l ?d ?r] =>
      pose proof (apply_snapshot_records_ok l d r) as H; destruct (apply_snapshot_records l d r) end.
    intros <-%Ok_inj. apply H. apply (document_ok_parts durable_document); [done|apply durable_document_ok].
Qed.

Lemma prune_document_eq (o : StoreOptions) (d : DurableDocument) :
  prune_document o d
  = (d <| doc_history := (trim (doc_history d) (sto_max_history_entries o)).1 |>
       <| doc_interventions := (trim (doc_interventions d) (sto_max_intervention_records o)).1 |>
       <| doc_fences := (trim (doc_fences d) (sto_max_fences o)).1 |>
       <| doc_attempts := (trim (doc_attempts d) (sto_max_attempts o)).1 |>
       <| doc_provenance := (trim (doc_provenance d) (sto_max_provenance o)).1 |>
       <| doc_revalidations := (trim (doc_revalidations d) (sto_max_attempts o)).1 |>,
     (trim (doc_history d) (sto_max_history_entries o)).2
     + (trim (doc_interventions d) (sto_max_intervention_records o)).2
     + (trim (doc_fences d) (sto_max_fences o)).2 + (trim (doc_attempts d) (sto_max_attempts o)).2
     + (trim (doc_provenance d) (sto_max_provenance o)).2 + (trim (doc_revalidations d) (sto_max_attempts o)).2).
Proof.
  unfold prune_document. destruct (trim (doc_history d) _), (trim (doc_interventions d) _), (trim (doc_fences d) _),
    (trim (doc_attempts d) _), (trim (doc_provenance d) _), (trim (doc_revalidations d) _). reflexivity.
Qed.

(** A commit changes the document exactly when it reports success. *)
Lemma commit_document (io : StoreIo) (kind : MutationKind) (payload : list byte) (stamp : MutationStamp) (s : Store) :
  match commit io kind payload stamp s with
  | (Ok _, s') => exists d, apply kind payload (sto_document s) = Ok d /\
      document_parts (sto_document s') = document_parts (prune_document (sto_options s) d).1
  | (Err _, s') => sto_document s' = sto_document s
  end.
Proof.
  assert (forall type tx body s0, sto_document (append_record io type stamp tx body s0).2 = sto_document s0 /\
    sto_options (append_record io type stamp tx body s0).2 = sto_options s0) as Ha.
  { intros. unfold append_record. by destruct (append _ _ _ _ _ _ _). }
  unfold commit. destruct (negb _); [done|]. destruct (unnamed_kind _); [done|]. destruct (_ <? _); [done|].
  destruct (enforce_growth_limits _ _); [done|]. destruct (validate_body _ _); [done|]. cbv zeta.
  set (q := j_next_sequence (sto_journal s)). clearbody q.
  destruct (Ha RtIntent q (intent_body kind stamp) s) as [H1 O1].
  destruct (append_record io RtIntent stamp q (intent_body kind stamp) s) as [[e|] s1]; [done|]. cbn [snd] in *.
  destruct (Ha RtPayload q (frame_body kind payload) s1) as [H2 O2].
  destruct (append_record io RtPayload stamp q (frame_body kind payload) s1) as [[e|] s2]; [cbn [snd] in *; congruence|].
  cbn [snd] in *. destruct (Ha RtCommit q (commit_body kind (frame_body kind payload)) s2) as [H3 O3].
  destruct (append_record io RtCommit stamp q (commit_body kind (frame_body kind payload)) s2) as [[e|] s3];
    [cbn [snd] in *; congruence|]. cbn [snd] in *.
  assert (sto_document s3 = sto_document s) as -> by congruence. assert (sto_options s3 = sto_options s) as -> by congruence.
  destruct (apply kind payload (sto_document s)) as [e|d] eqn:Hd; [congruence|].
  rewrite prune_document_eq. exists d. split; [reflexivity|]. rewrite prune_document_eq. reflexivity.
Qed.

(** The operations of a store. *)
Inductive store_operation : (Store -> Result unit * Store) -> StoreIo -> Prop :=
| op_policy io p stamp : store_operation (set_policy io p stamp) io
| op_topology io t stamp : store_operation (set_topology io t stamp) io
| op_capacity io c stamp : store_operation (set_capacity io c stamp) io
| op_domain io x stamp : store_operation (put_domain_state io x stamp) io
| op_intervention io r stamp : store_operation (append_intervention io r stamp) io
| op_fence io r stamp : store_operation (append_fence io r stamp) io
| op_history io e stamp : store_operation (append_history io e stamp) io
| op_attempt io r stamp : store_operation (append_attempt io r stamp) io
| op_provenance io p stamp : store_operation (append_provenance io p stamp) io
| op_epoch io epoch boot counter stamp : store_operation (advance_epoch io epoch boot counter stamp) io
| op_revalidation io r stamp : store_operation (write_revalidation io r stamp) io
| op_checkpoint io : store_operation (checkpoint io) io.

(** A store that was opened on some directory and then used, whatever the
    operating system did at each step. *)
Inductive reachable_store : Store -> Prop :=
| reach_open io path o dir s : open_store io path o dir = Ok s -> reachable_store s
| reach_step io operation s : store_operation operation io -> reachable_store s -> reachable_store (operation s).2.

Lemma commit_ok (io : StoreIo) (kind : MutationKind) (payload : list byte) (stamp : MutationStamp) (s : Store) :
  document_ok (sto_document s) -> document_ok (sto_document (commit io kind payload stamp s).2).
Proof.
  intros Hd. pose proof (commit_document io kind payload stamp s) as H.
  destruct (commit io kind payload stamp s) as [[e|] s']; cbn [snd]; [by rewrite H|].
  destruct H as (d & Ha & Hp). eapply document_ok_parts; [symmetry; exact Hp|]. apply prune_ok. by eapply apply_ok.
Qed.

Lemma commit_encoded_ok (io : StoreIo) (kind : MutationKind) (encoded : Result (list byte)) (stamp : MutationStamp)
    (s : Store) :
  document_ok (sto_document s) -> document_ok (sto_document (commit_encoded io kind encoded stamp s).2).
Proof. intros Hd. unfold commit_encoded. destruct encoded; [done|by apply commit_ok]. Qed.

Lemma checkpoint_document (io : StoreIo) (s : Store) : sto_document (checkpoint io s).2 = sto_document s.
Proof.
  unfold checkpoint. destruct (negb _); [done|]. destruct (res_bind _ _); [done|]. cbv zeta.
  destruct (write_snapshot _ _ _ _ _) as [[e|] files]; [done|]. destruct (verify_snapshot _ _ _ _); [done|].
  by destruct (rebase _ _ _ _).
Qed.

Lemma cut_torn_tail_document (io : StoreIo) (o : StoreOptions) (replay : JournalReplay) (s s' : Store) :
  cut_torn_tail io o replay s = Ok s' -> sto_document s' = sto_document s.
Proof.
  unfold cut_torn_tail. cbv zeta. destruct (negb _); [by intros <-%Ok_inj|].
  destruct (sto_read_only o); [by intros <-%Ok_inj|]. destruct (truncate_to _ _ _) as [cut j].
  intros H. apply res_bind_Ok in H as (u & _ & H). by apply Ok_inj in H as <-.
Qed.

Lemma open_store_ok (io : StoreIo) (path : string) (o : StoreOptions) (dir : Directory) (s : Store) :
  open_store io path o dir = Ok s -> document_ok (sto_document s).
Proof.
  unfold open_store. intros H. peel_guards H. destruct x as [document report].
  apply res_bind_Ok in H as (journal & _ & H). apply res_bind_Ok in H as (replay & _ & H). cbv zeta in H.
  destruct (bool_decide _); [done|]. apply res_bind_Ok in H as (s' & Hs & H). apply Ok_inj in H as <-.
  cbn [set sto_document]. apply load_snapshot_ok in Hx. cbn [fst] in Hx.
  rewrite (cut_torn_tail_document io o replay _ s' Hs). cbn [sto_document].
  apply report_unfinished_ok, replay_records_ok. exact Hx.
Qed.

(** Every operation keeps the document in order. *)
Lemma store_operation_ok (operation : Store -> Result unit * Store) (io : StoreIo) (s : Store) :
  store_operation operation io -> document_ok (sto_document s) -> document_ok (sto_document (operation s).2).
Proof.
  intros [] IH; try by apply commit_encoded_ok.
  - unfold put_domain_state. destruct (encode_domain_state _); [done|]. destruct (_ && _); [done|].
    by apply commit_ok.
  - by rewrite checkpoint_document.
Qed.

(** C31. Every store that was opened, on whatever the directory holds, and every store
    reached from it by its operations, whatever the operating system does, holds
    a document whose configuration is validated and whose records are in order
    and unique. *)
Theorem reachable_document_ok (s : Store) (Hs : reachable_store s) : document_ok (sto_document s).
Proof.
  induction Hs as [io path o dir s H|io operation s Hop _ IH]; [by eapply open_store_ok|].
  by apply (store_operation_ok operation io).
Qed.

(** ** The log as the specification of the store *)

(** A mutation as a client commits it. *)
Record Mutation := mkMutation { mu_kind : MutationKind; mu_payload : list byte; mu_stamp : MutationStamp }.

(** What a sequence of mutations means: each is applied in turn. *)
Fixpoint apply_all (ms : list Mutation) (d : DurableDocument) : Result DurableDocument :=
  match ms with
  | [] => Ok d
  | m :: rest => let? d' := apply (mu_kind m) (mu_payload m) d in apply_all rest d'
  end.

(** What it means for the document in memory, where the retention bounds are
    enforced after each mutation. *)
Fixpoint apply_retained (o : StoreOptions) (ms : list Mutation) (d : DurableDocument) : Result DurableDocument :=
  match ms with
  | [] => Ok d
  | m :: rest =>
      let? d' := apply (mu_kind m) (mu_payload m) d in apply_retained o rest (prune_document o d').1
  end.

(** Commits in sequence, up to the first that fails. *)
Fixpoint commit_all (io : StoreIo) (ms : list Mutation) (s : Store) : Result unit * Store :=
  match ms with
  | [] => (Ok tt, s)
  | m :: rest =>
      match commit io (mu_kind m) (mu_payload m) (mu_stamp m) s with
      | (Err e, s') => (Err e, s')
      | (Ok _, s') => commit_all io rest s'
      end
  end.

(** A document without the bookkeeping of the log. *)
Definition content (d : DurableDocument) : DurableDocument :=
  d <| doc_last_sequence := 0 |> <| doc_authority_generation := 0 |> <| doc_mutation_count := 0 |>.

Definition map_ok {A B : Type} (f : A -> B) (r : Result A) : Result B := let? a := r in Ok (f a).

Lemma apply_content (kind : MutationKind) (payload : list byte) (d : DurableDocument) :
  apply kind payload (content d) = map_ok content (apply kind payload d).
Proof.
  destruct kind; cbn [apply]; try reflexivity; unfold map_ok;
    match goal with |- context [res_bind ?x _] => destruct x as [e|x']; cbn [res_bind]; [reflexivity|] end;
    try reflexivity.
  destruct x' as [[? ?] ?]. reflexivity.
Qed.

Lemma apply_same_content (kind : MutationKind) (payload : list byte) (d d' e : DurableDocument) :
  content d = content d' -> apply kind payload d = Ok e ->
  exists e', apply kind payload d' = Ok e' /\ content e = content e'.
Proof.
  intros Hc He. pose proof (apply_content kind payload d) as H. pose proof (apply_content kind payload d') as H'.
  rewrite He in H. rewrite <- Hc, H in H'. unfold map_ok in H'. cbn [res_bind] in H'.
  destruct (apply kind payload d') as [s|e']; [done|]. exists e'. split; [done|]. by apply Ok_inj in H'.
Qed.

Lemma content_set (d : DurableDocument) (n g : N) (f : N -> N) :
  content (d <| doc_last_sequence := n |> <| doc_authority_generation := g |> <| doc_mutation_count ::= f |>) = content d.
Proof. reflexivity. Qed.

Lemma prune_content (o : StoreOptions) (d d' : DurableDocument) :
  content d = content d' -> content (prune_document o d).1 = content (prune_document o d').1.
Proof.
  intros H. rewrite !prune_document_eq. cbn [fst].
  assert (forall d, content (prune_document o d).1 = (prune_document o (content d)).1) as Hp.
  { intros x. rewrite !prune_document_eq. reflexivity. }
  pose proof (Hp d) as H1. pose proof (Hp d') as H2. rewrite !prune_document_eq in H1, H2. cbn [fst] in H1, H2.
  rewrite H1, H2, H. reflexivity.
Qed.

Lemma apply_all_content (ms : list Mutation) (d d' e : DurableDocument) :
  content d = content d' -> apply_all ms d = Ok e -> exists e', apply_all ms d' = Ok e' /\ content e = content e'.
Proof.
  revert d d'. induction ms as [|m ms IH]; intros d d' Hc He; cbn [apply_all] in *.
  { apply Ok_inj in He as <-. by exists d'. }
  apply res_bind_Ok in He as (x & Hx & He). destruct (apply_same_content _ _ _ _ _ Hc Hx) as (x' & -> & Hc').
  cbn [res_bind]. by apply (IH x x').
Qed.

Lemma apply_retained_content (o : StoreOptions) (ms : list Mutation) (d d' e : DurableDocument) :
  content d = content d' -> apply_retained o ms d = Ok e ->
  exists e', apply_retained o ms d' = Ok e' /\ content e = content e'.
Proof.
  revert d d'. induction ms as [|m ms IH]; intros d d' Hc He; cbn [apply_retained] in *.
  { apply Ok_inj in He as <-. by exists d'. }
  apply res_bind_Ok in He as (x & Hx & He). destruct (apply_same_content _ _ _ _ _ Hc Hx) as (x' & -> & Hc').
  cbn [res_bind]. by apply (IH _ _ (prune_content o x x' Hc')).
Qed.

(** C8. The store implements the log: after any sequence of commits that reported
    success, the journal replays to the mutations applied one after the other,
    and the document in memory is the same with the retention bounds enforced
    on the way. *)
Theorem commits_refine_log (io : StoreIo) (ms : list Mutation) (s : Store) (l : list JournalRecord)
    (base : ReplayState) (Hlog : store_log s l) (Hst : Forall (fun m => stamp_words (mu_stamp m)) ms)
    (Hnext : j_next_sequence (sto_journal s) + 3 * size64 ms < 2 ^ 64)
    (Hseq : doc_last_sequence (rs_document (replay_records base l)) < j_next_sequence (sto_journal s)) :
  match commit_all io ms s with
  | (Err _, _) => True
  | (Ok _, s') =>
      exists l' durable retained, store_log s' l' /\
        apply_all ms (rs_document (replay_records base l)) = Ok durable /\
        content (rs_document (replay_records base l')) = content durable /\
        apply_retained (sto_options s) ms (sto_document s) = Ok retained /\
        content (sto_document s') = content retained
  end.
Proof.
  revert s l Hlog Hnext Hseq. induction ms as [|m ms IH]; intros s l Hlog Hnext Hseq; cbn [commit_all].
  { exists l, (rs_document (replay_records base l)), (sto_document s). by split. }
  apply Forall_cons in Hst as [Hm Hst]. rewrite size64_cons in Hnext.
  pose proof (commit_spec io (mu_kind m) (mu_payload m) (mu_stamp m) s l Hlog Hm) as H.
  destruct H as [s' d Hv Hsz Hd Hlog' Hn Hopt Hop Hdoc|e|e j Hv Hsz Hcut]; [|done|done].
  set (q := j_next_sequence (sto_journal s)) in *.
  assert (w64 (q + 3) = q + 3) as Hw by (apply N.mod_small; lia). rewrite Hw in *.
  destruct (replay_commit_prefix (mu_kind m) (mu_payload m) (mu_stamp m) q Hv (replay_records base l)
    (commit_records (mu_kind m) (mu_payload m) (mu_stamp m) q) ltac:(lia) Hseq ltac:(reflexivity))
    as [[Hlen _]|(_ & d1 & Hd1 & Hafter)]; [unfold commit_records in Hlen; cbn [length] in Hlen; lia|].
  rewrite <- replay_records_app in Hafter.
  specialize (IH Hst s' _ Hlog' ltac:(rewrite Hn; lia) ltac:(rewrite Hafter, Hn; cbn [set doc_last_sequence]; lia)).
  destruct (commit_all io ms s') as [[e|u] s2]; [done|].
  destruct IH as (l' & durable & retained & Hl2 & Hdur & Hcd & Hret & Hcr).
  rewrite Hafter in Hdur.
  assert (content (d1 <| doc_last_sequence := q + 2 |>) = content d1) as Hc1 by reflexivity.
  destruct (apply_all_content ms _ d1 durable Hc1 Hdur) as (durable' & Hd' & Hc').
  rewrite Hopt, Hdoc in Hret.
  destruct (apply_retained_content (sto_options s) ms _ (prune_document (sto_options s) d).1 retained
    (prune_content _ _ d (content_set d _ _ _)) Hret) as (retained' & Hr' & Hcr').
  exists l', durable', retained'. split; [exact Hl2|]. cbn [apply_all apply_retained]. rewrite Hd1, Hd. cbn [res_bind].
  split; [exact Hd'|]. split; [congruence|]. split; [exact Hr'|congruence].
Qed.

(** ** Compaction keeps the document *)

(** Every field of the document fits its encoding. *)
Record document_words (d : DurableDocument) : Prop := {
  dw_header : Forall u64_ok [doc_epoch d; doc_coordinator_boot d; doc_coordinator_boot_counter d; doc_last_sequence d];
  dw_policy : forall p, doc_policy d = Some p -> policy_words p;
  dw_topology : forall t, doc_topology d = Some t -> topology_words t /\ validate_topology t = Ok tt;
  dw_capacity : forall c, doc_capacity d = Some c -> capacity_words c /\ validate_capacity c = Ok tt;
  dw_domains : Forall domain_state_words (doc_domains d);
  dw_interventions : Forall intervention_words (doc_interventions d);
  dw_fences : Forall fence_words (doc_fences d);
  dw_history : Forall history_words (doc_history d);
  dw_attempts : Forall attempt_words (doc_attempts d);
  dw_provenance : Forall provenance_words (doc_provenance d);
  dw_revalidations : Forall revalidation_words (doc_revalidations d)
}.

(** The bodies of a snapshot, applied in turn. *)
Fixpoint apply_bodies (bodies : list (MutationKind * list byte)) (d : DurableDocument) : Result DurableDocument :=
  match bodies with
  | [] => Ok d
  | (kind, body) :: rest => let? d' := apply kind body d in apply_bodies rest d'
  end.

Lemma apply_bodies_step (l k : list (MutationKind * list byte)) (d d' : DurableDocument) (r : Result DurableDocument) :
  apply_bodies l d = Ok d' -> apply_bodies k d' = r -> apply_bodies (l ++ k) d = r.
Proof.
  intros H <-. revert d H. induction l as [|[kind body] l IH]; intros d H; cbn [apply_bodies app] in *;
    [by apply Ok_inj in H as ->|].
  apply res_bind_Ok in H as (x & -> & H). cbn [res_bind]. by apply IH.
Qed.

(** A section of a snapshot whose elements are each read back and applied. *)
Lemma section_applies {A : Type} (kind : MutationKind) (encode : A -> Result (list byte))
    (step : DurableDocument -> A -> DurableDocument) (l : list A) (bodies : list (MutationKind * list byte)) :
  map_result (tagged kind encode) l = Ok bodies ->
  forall d,
  (forall pre x post, l = pre ++ x :: post -> forall body, encode x = Ok body ->
     apply kind body (foldl step d pre) = Ok (step (foldl step d pre) x)) ->
  apply_bodies bodies d = Ok (foldl step d l).
Proof.
  revert bodies. induction l as [|x l IH]; intros bodies H d Hstep; cbn [map_result] in H.
  { by apply Ok_inj in H as <-. }
  apply res_bind_Ok in H as (y & Hy & H). apply res_bind_Ok in H as (ys & Hys & H). apply Ok_inj in H as <-.
  unfold tagged in Hy. apply res_bind_Ok in Hy as (body & Hb & Hy). apply Ok_inj in Hy as <-. cbn [apply_bodies].
  pose proof (Hstep [] x l eq_refl body Hb) as Hx. cbn [foldl] in Hx. rewrite Hx. cbn [res_bind foldl].
  apply IH; [done|]. intros pre z post -> body' Hb'. exact (Hstep (x :: pre) z post eq_refl body' Hb').
Qed.

(** The element an encoding stands for. *)
Definition reads_back {A : Type} (encode : A -> Result (list byte)) (decode : list byte -> Result A) (x : A) : Prop :=
  exists body, encode x = Ok body /\ decode body = Ok x.

Lemma reads_back_body {A : Type} (encode : A -> Result (list byte)) (decode : list byte -> Result A) (x : A)
    (body : list byte) :
  reads_back encode decode x -> encode x = Ok body -> decode body = Ok x.
Proof. intros (b & Hb & Hd) He. rewrite He in Hb. by apply Ok_inj in Hb as ->. Qed.

Lemma Forall_middle {A : Type} (P : A -> Prop) (pre post : list A) (x : A) : Forall P (pre ++ x :: post) -> P x.
Proof. intros H. apply Forall_app in H as [_ H]. by apply Forall_cons in H as [H _]. Qed.

(** A section that is appended to a list of the document. *)
Lemma append_section {A : Type} (kind : MutationKind) (encode : A -> Result (list byte))
    (decode : list byte -> Result A) (step : DurableDocument -> A -> DurableDocument)
    (field : DurableDocument -> list A) (l : list A) (bodies : list (MutationKind * list byte))
    (d : DurableDocument) (fresh : list A -> A -> Prop) :
  map_result (tagged kind encode) l = Ok bodies ->
  Forall (reads_back encode decode) l ->
  (forall e x body, decode body = Ok x -> fresh (field e) x -> apply kind body e = Ok (step e x)) ->
  (forall e x, field (step e x) = field e ++ [x]) ->
  (forall pre x post, l = pre ++ x :: post -> fresh (field d ++ pre) x) ->
  apply_bodies bodies d = Ok (foldl step d l).
Proof.
  intros Hb Hr Happ Hfield Hfresh. eapply section_applies; [exact Hb|]. intros pre x post -> body He.
  apply Happ; [exact (reads_back_body _ _ _ _ (Forall_middle _ _ _ _ Hr) He)|].
  assert (field (foldl step d pre) = field d ++ pre) as ->; [|by eapply Hfresh].
  clear -Hfield. revert d. induction pre as [|y pre IH]; intros d; cbn [foldl]; [by rewrite app_nil_r|].
  rewrite IH, Hfield. by rewrite <- app_assoc.
Qed.

Lemma append_unique_fresh {A : Type} (id : A -> N) (pre post : list A) (x : A) :
  NoDup (map id (pre ++ x :: post)) -> append_unique id x pre = pre ++ [x].
Proof.
  intros Hn. unfold append_unique. destruct (existsb _ pre) eqn:E; [exfalso|done].
  apply existsb_exists in E as (y & Hy & He). apply N.eqb_eq in He. rewrite map_app in Hn. cbn [map] in Hn.
  apply NoDup_app in Hn as (_ & Hn & _). apply (Hn (id x)); [|constructor]. rewrite <- He.
  apply list_elem_of_fmap. exists y. split; [done|]. by apply list_elem_of_In.
Qed.

Lemma put_domain_last (s : DomainState) (l : list DomainState) :
  Forall (fun x => domain_before x s) l -> put_domain s l = l ++ [s].
Proof.
  induction 1 as [|x l Hx _ IH]; [done|]. rewrite put_domain_cons, IH.
  by rewrite (proj2 (N.ltb_lt _ _) Hx).
Qed.

Lemma sorted_before_middle (pre post : list DomainState) (x : DomainState) :
  StronglySorted domain_before (pre ++ x :: post) -> Forall (fun y => domain_before y x) pre.
Proof.
  induction pre as [|y pre IH]; intros H; [constructor|]. cbn [app] in H. apply StronglySorted_inv in H as [H Hy].
  constructor; [|by apply IH]. by eapply Forall_middle in Hy.
Qed.

(** Appending the elements of a list one by one appends the list. *)
Lemma foldl_append {A : Type} (put : list A -> DurableDocument -> DurableDocument) (field : DurableDocument -> list A)
    (step : DurableDocument -> A -> DurableDocument) (l : list A) (d : DurableDocument) :
  (forall e x, step e x = put (field e ++ [x]) e) -> (forall e, put (field e) e = e) ->
  (forall e a b, put a (put b e) = put a e) -> (forall e a, field (put a e) = a) ->
  foldl step d l = put (field d ++ l) d.
Proof.
  intros Hs Hid Hpp Hf. revert d. induction l as [|x l IH]; intros d; cbn [foldl]; [by rewrite app_nil_r, Hid|].
  by rewrite IH, Hs, Hf, Hpp, <- app_assoc.
Qed.

(** The document a snapshot's header alone gives. *)
Definition header_document (d : DurableDocument) : DurableDocument :=
  durable_document <| doc_last_sequence := doc_last_sequence d |> <| doc_epoch := doc_epoch d |>
    <| doc_coordinator_boot := doc_coordinator_boot d |>
    <| doc_coordinator_boot_counter := doc_coordinator_boot_counter d |>.

Section Checkpoint.
Context (d : DurableDocument).
Hypothesis Hok : document_ok d.
Hypothesis Hwords : document_words d.

Lemma policy_section (e : DurableDocument) (bodies : list (MutationKind * list byte)) :
  map_result (tagged MuPolicySet encode_policy) (option_list (doc_policy d)) = Ok bodies ->
  doc_policy e = None -> apply_bodies bodies e = Ok (e <| doc_policy := doc_policy d |>).
Proof.
  intros Hb He. destruct (doc_policy d) as [p|] eqn:E; cbn [option_list] in Hb.
  - rewrite (section_applies MuPolicySet encode_policy (fun e p => e <| doc_policy := Some p |>) _ _ Hb); [done|].
    intros pre x post Hl body Hbody. destruct pre as [|? [|]]; [|done..]. injection Hl as <- <-. cbn [foldl apply].
    destruct (dok_policy _ Hok _ E) as [Hp Hf]. pose proof (dw_policy _ Hwords _ E) as Hw.
    assert (validate_policy p = Ok p) as Hv.
    { apply validate_policy_iff. split; [done|]. rewrite <- Hf. by destruct p. }
    destruct (policy_rt p p Hw Hv) as (b & Hb' & Hd). rewrite Hbody in Hb'. apply Ok_inj in Hb' as ->.
    by rewrite Hd.
  - apply Ok_inj in Hb as <-. cbn [apply_bodies]. f_equal. destruct e. cbn in *. by subst.
Qed.

Lemma topology_section (e : DurableDocument) (bodies : list (MutationKind * list byte)) :
  map_result (tagged MuTopologySet encode_topology) (option_list (doc_topology d)) = Ok bodies ->
  doc_topology e = None -> apply_bodies bodies e = Ok (e <| doc_topology := doc_topology d |>).
Proof.
  intros Hb He. destruct (doc_topology d) as [t|] eqn:E; cbn [option_list] in Hb.
  - rewrite (section_applies MuTopologySet encode_topology (fun e t => e <| doc_topology := Some t |>) _ _ Hb); [done|].
    intros pre x post Hl body Hbody. destruct pre as [|? [|]]; [|done..]. injection Hl as <- <-. cbn [foldl apply].
    destruct (dw_topology _ Hwords _ E) as [Hw Hv].
    by rewrite (reads_back_body _ _ _ _ (topology_rt t Hw Hv) Hbody).
  - apply Ok_inj in Hb as <-. cbn [apply_bodies]. f_equal. destruct e. cbn in *. by subst.
Qed.

Lemma capacity_section (e : DurableDocument) (bodies : list (MutationKind * list byte)) :
  map_result (tagged MuCapacitySet encode_capacity) (option_list (doc_capacity d)) = Ok bodies ->
  doc_capacity e = None -> apply_bodies bodies e = Ok (e <| doc_capacity := doc_capacity d |>).
Proof.
  intros Hb He. destruct (doc_capacity d) as [c|] eqn:E; cbn [option_list] in Hb.
  - rewrite (section_applies MuCapacitySet encode_capacity (fun e c => e <| doc_capacity := Some c |>) _ _ Hb); [done|].
    intros pre x post Hl body Hbody. destruct pre as [|? [|]]; [|done..]. injection Hl as <- <-. cbn [foldl apply].
    destruct (dw_capacity _ Hwords _ E) as [Hw Hv].
    by rewrite (reads_back_body _ _ _ _ (capacity_rt c Hw Hv) Hbody).
  - apply Ok_inj in Hb as <-. cbn [apply_bodies]. f_equal. destruct e. cbn in *. by subst.
Qed.

Lemma epoch_section (e : DurableDocument) (bodies : list (MutationKind * list byte)) :
  map_result (tagged MuEpochAdvance (fun _ : unit =>
      encode_epoch (doc_epoch d) (doc_coordinator_boot d) (doc_coordinator_boot_counter d)))
    (if valid (doc_epoch d) && valid (doc_coordinator_boot d) then [tt] else []) = Ok bodies ->
  doc_epoch e = doc_epoch d -> doc_coordinator_boot e = doc_coordinator_boot d ->
  doc_coordinator_boot_counter e = doc_coordinator_boot_counter d -> apply_bodies bodies e = Ok e.
Proof.
  intros Hb H1 H2 H3. destruct (valid (doc_epoch d)) eqn:Hv1; [|by apply Ok_inj in Hb as <-].
  destruct (valid (doc_coordinator_boot d)) eqn:Hv2; [|by apply Ok_inj in Hb as <-]. cbn [andb] in Hb.
  pose proof (dw_header _ Hwords) as Hw. rewrite ?Forall_cons in Hw. destruct Hw as (Hw1 & Hw2 & Hw3 & _).
  rewrite (section_applies _ _ (fun e _ => e) _ _ Hb); [done|].
  intros pre x post Hl body Hbody. destruct pre as [|? [|]]; [|done..]. cbn [foldl apply].
  destruct (epoch_rt (doc_epoch d) (doc_coordinator_boot d) (doc_coordinator_boot_counter d)
    ltac:(repeat constructor; done) Hv1 Hv2) as (b & Hb' & Hd).
  rewrite Hbody in Hb'. apply Ok_inj in Hb' as ->. rewrite Hd. cbn [res_bind]. f_equal. rewrite <- H1, <- H2, <- H3.
  by destruct e.
Qed.

Lemma domain_section (e : DurableDocument) (bodies : list (MutationKind * list byte)) :
  map_result (tagged MuDomainState encode_domain_state) (doc_domains d) = Ok bodies ->
  doc_domains e = [] -> apply_bodies bodies e = Ok (e <| doc_domains := doc_domains d |>).
Proof.
  intros Hb He. destruct (dok_domains _ Hok) as [Hs Hv].
  rewrite (append_section MuDomainState encode_domain_state decode_domain_state
    (fun e s => e <| doc_domains ::= fun l => l ++ [s] |>) doc_domains _ _ e
    (fun l s => Forall (fun x => domain_before x s) l) Hb).
  - rewrite (foldl_append (fun l e => e <| doc_domains := l |>) doc_domains) by (intros []; reflexivity).
    by rewrite He.
  - apply Forall_forall. intros s Hin. rewrite Forall_forall in Hv.
    apply domain_state_rt; [|by apply Hv]. pose proof (dw_domains _ Hwords) as Hw. rewrite Forall_forall in Hw. by apply Hw.
  - intros x s body Hd Hf. cbn [apply]. rewrite Hd. cbn [res_bind set]. by rewrite put_domain_last.
  - done.
  - intros pre s post Hl. rewrite He, app_nil_l. rewrite Hl in Hs. by eapply sorted_before_middle.
Qed.

Lemma intervention_section (e : DurableDocument) (bodies : list (MutationKind * list byte)) :
  map_result (tagged MuIntervention encode_intervention) (doc_interventions d) = Ok bodies ->
  doc_interventions e = [] -> apply_bodies bodies e = Ok (e <| doc_interventions := doc_interventions d |>).
Proof.
  intros Hb He. destruct (dok_interventions _ Hok) as [Hn Hv].
  rewrite (append_section MuIntervention encode_intervention decode_intervention
    (fun e s => e <| doc_interventions ::= fun l => l ++ [s] |>) doc_interventions _ _ e
    (fun l x => append_unique irec_id x l = l ++ [x]) Hb).
  - rewrite (foldl_append (fun l e => e <| doc_interventions := l |>) doc_interventions) by (intros []; reflexivity).
    by rewrite He.
  - apply Forall_forall. intros r Hin. rewrite Forall_forall in Hv. destruct (Hv _ Hin).
    apply intervention_rt; [|done..]. pose proof (dw_interventions _ Hwords) as Hw. rewrite Forall_forall in Hw. by apply Hw.
  - intros x r body Hd Hf. cbn [apply]. rewrite Hd. cbn [res_bind set]. by rewrite Hf.
  - done.
  - intros pre r post Hl. rewrite He, app_nil_l. rewrite Hl in Hn. by eapply append_unique_fresh.
Qed.

Lemma fence_section (e : DurableDocument) (bodies : list (MutationKind * list byte)) :
  map_result (tagged MuFence encode_fence) (doc_fences d) = Ok bodies ->
  doc_fences e = [] -> apply_bodies bodies e = Ok (e <| doc_fences := doc_fences d |>).
Proof.
  intros Hb He. destruct (dok_fences _ Hok) as [Hn Hv].
  rewrite (append_section MuFence encode_fence decode_fence
    (fun e s => e <| doc_fences ::= fun l => l ++ [s] |>) doc_fences _ _ e
    (fun l x => append_unique fr_id x l = l ++ [x]) Hb).
  - rewrite (foldl_append (fun l e => e <| doc_fences := l |>) doc_fences) by (intros []; reflexivity).
    by rewrite He.
  - apply Forall_forall. intros r Hin. rewrite Forall_forall in Hv. destruct (Hv _ Hin) as (? & ? & ?).
    apply fence_rt; [|done..]. pose proof (dw_fences _ Hwords) as Hw. rewrite Forall_forall in Hw. by apply Hw.
  - intros x r body Hd Hf. cbn [apply]. rewrite Hd. cbn [res_bind set]. by rewrite Hf.
  - done.
  - intros pre r post Hl. rewrite He, app_nil_l. rewrite Hl in Hn. by eapply append_unique_fresh.
Qed.

Lemma provenance_section (e : DurableDocument) (bodies : list (MutationKind * list byte)) :
  map_result (tagged MuProvenanceAppend encode_provenance) (doc_provenance d) = Ok bodies ->
  doc_provenance e = [] -> apply_bodies bodies e = Ok (e <| doc_provenance := doc_provenance d |>).
Proof.
  intros Hb He. pose proof (dok_provenance _ Hok) as Hn.
  rewrite (append_section MuProvenanceAppend encode_provenance decode_provenance
    (fun e s => e <| doc_provenance ::= fun l => l ++ [s] |>) doc_provenance _ _ e
    (fun l x => append_unique pv_id x l = l ++ [x]) Hb).
  - rewrite (foldl_append (fun l e => e <| doc_provenance := l |>) doc_provenance) by (intros []; reflexivity).
    by rewrite He.
  - eapply Forall_impl; [exact (dw_provenance _ Hwords)|exact provenance_rt].
  - intros x r body Hd Hf. cbn [apply]. rewrite Hd. cbn [res_bind set]. by rewrite Hf.
  - done.
  - intros pre r post Hl. rewrite He, app_nil_l. rewrite Hl in Hn. by eapply append_unique_fresh.
Qed.

(** History, attempts and revalidations are appended unconditionally. *)
Lemma plain_section {A : Type} (kind : MutationKind) (encode : A -> Result (list byte))
    (decode : list byte -> Result A) (field : DurableDocument -> list A)
    (put : list A -> DurableDocument -> DurableDocument) (e : DurableDocument) (l : list A)
    (bodies : list (MutationKind * list byte)) :
  map_result (tagged kind encode) l = Ok bodies -> Forall (reads_back encode decode) l ->
  (forall e x body, decode body = Ok x -> apply kind body e = Ok (put (field e ++ [x]) e)) ->
  (forall e, put (field e) e = e) -> (forall e a b, put a (put b e) = put a e) ->
  (forall e a, field (put a e) = a) -> field e = [] ->
  apply_bodies bodies e = Ok (put l e).
Proof.
  intros Hb Hr Happ Hid Hpp Hf He.
  rewrite (append_section kind encode decode (fun e x => put (field e ++ [x]) e) field l bodies e (fun _ _ => True) Hb Hr).
  - rewrite (foldl_append put field) by done. by rewrite He.
  - intros x y body Hd _. by apply Happ.
  - intros x y. by rewrite Hf.
  - done.
Qed.

(** The field laws of a [plain_section]. *)
Ltac plain_field :=
  first [ intros x y body Hdec; cbn [apply]; by rewrite Hdec | by intros [] | intros; reflexivity ].

(** Applied to what the header gives, the bodies of a snapshot rebuild the
    document, less the authority generation and the mutation count. *)
Lemma checkpoint_bodies_apply (bodies : list (MutationKind * list byte)) :
  checkpoint_bodies d = Ok bodies ->
  apply_bodies bodies (header_document d)
  = Ok (d <| doc_authority_generation := 0 |> <| doc_mutation_count := 0 |>).
Proof.
  unfold checkpoint_bodies. intros H.
  apply res_bind_Ok in H as (b1 & H1 & H). apply res_bind_Ok in H as (b2 & H2 & H).
  apply res_bind_Ok in H as (b3 & H3 & H). apply res_bind_Ok in H as (b4 & H4 & H).
  apply res_bind_Ok in H as (b5 & H5 & H). apply res_bind_Ok in H as (b6 & H6 & H).
  apply res_bind_Ok in H as (b7 & H7 & H). apply res_bind_Ok in H as (b8 & H8 & H).
  apply res_bind_Ok in H as (b9 & H9 & H). apply res_bind_Ok in H as (b10 & H10 & H).
  apply res_bind_Ok in H as (b11 & H11 & H). apply Ok_inj in H as <-.
  eapply apply_bodies_step; [apply (policy_section _ _ H1); reflexivity|].
  eapply apply_bodies_step; [apply (topology_section _ _ H2); reflexivity|].
  eapply apply_bodies_step; [apply (capacity_section _ _ H3); reflexivity|].
  eapply apply_bodies_step; [apply (epoch_section _ _ H4); reflexivity|].
  eapply apply_bodies_step; [apply (domain_section _ _ H5); reflexivity|].
  eapply apply_bodies_step; [apply (intervention_section _ _ H6); reflexivity|].
  eapply apply_bodies_step; [apply (fence_section _ _ H7); reflexivity|].
  eapply apply_bodies_step.
  { apply (plain_section MuHistoryAppend encode_history decode_history doc_history
      (fun l e => e <| doc_history := l |>) _ _ _ H8 (Forall_impl _ _ _ (dw_history _ Hwords) history_rt));
      [plain_field..|reflexivity]. }
  eapply apply_bodies_step.
  { apply (plain_section MuAttemptRecord encode_attempt decode_attempt doc_attempts
      (fun l e => e <| doc_attempts := l |>) _ _ _ H9 (Forall_impl _ _ _ (dw_attempts _ Hwords) attempt_rt));
      [plain_field..|reflexivity]. }
  eapply apply_bodies_step; [apply (provenance_section _ _ H10); reflexivity|].
  rewrite (plain_section MuRevalidation encode_revalidation decode_revalidation doc_revalidations
    (fun l e => e <| doc_revalidations := l |>) _ _ _ H11 (Forall_impl _ _ _ (dw_revalidations _ Hwords) revalidation_rt));
    [|plain_field..|reflexivity].
  reflexivity.
Qed.
End Checkpoint.

(** ** From a checkpoint back to the document *)

Lemma write_snapshot_Ok (io : FileIo) (header : SnapshotHeader) (records : list JournalRecord)
    (options : SnapshotOptions) (files files' : SnapshotFiles) (u : unit) :
  write_snapshot io header records options files = (Ok u, files') ->
  exists container, snapshot_container header records options = Ok container /\ fs_snapshot files' = Some container.
Proof.
  unfold write_snapshot. destruct (snapshot_container _ _ _) as [|container]; [done|].
  unfold write_file, atomic_replace. destruct (negb _); [done|]. cbv zeta. destruct (_ && _); [done|].
  destruct (fio_flush io); [|done]. destruct (fio_replace io); [|done]. intros [= _ <-]. by exists container.
Qed.

Lemma write_records_size (l : list JournalRecord) (body : list byte) (n crc : N) (x : list byte * N * N) :
  write_records l body n crc = Ok x ->
  Forall (fun r => size64 (jr_payload r) <= kMaxJournalRecordBytes) l /\
  (length body + length l <= length x.1.1)%nat.
Proof.
  revert body n crc. induction l as [|r l IH]; intros body n crc H; cbn [write_records] in H.
  { apply Ok_inj in H as <-. split; [constructor|simpl; lia]. }
  apply guard_Ok in H as [Hr H]. apply IH in H as [Hl Hx]. reflect_bools. split; [by constructor|].
  rewrite !length_app, header_length in Hx. cbn [length]. lia.
Qed.

Lemma checkpoint_records_body (epoch : N) (bodies : list (MutationKind * list byte)) :
  Forall2 (fun r b => jr_payload r = frame_body b.1 b.2)
    (map seal_record (checkpoint_records epoch bodies)) bodies.
Proof.
  unfold checkpoint_records.
  assert (forall sequence : nat -> N, Forall2 (fun r b => jr_payload r = frame_body b.1 b.2)
    (map seal_record (imap (fun i body => checkpoint_record epoch (sequence i) body) bodies)) bodies) as H;
    [|exact (H (fun i => N.of_nat i + 1))].
  induction bodies as [|b bodies IH]; intros sequence; [constructor|].
  rewrite imap_cons. cbn [map]. constructor; [done|]. exact (IH (fun i => sequence (S i))).
Qed.

Lemma checkpoint_records_header (epoch : N) (bodies : list (MutationKind * list byte)) (r : JournalRecord) :
  r ∈ checkpoint_records epoch bodies -> exists i b, (i < length bodies)%nat /\ r = checkpoint_record epoch (N.of_nat i + 1) b.
Proof.
  intros (i & Hi)%list_elem_of_lookup_1. unfold checkpoint_records in Hi. rewrite list_lookup_imap in Hi.
  destruct (bodies !! i) as [b|] eqn:Hb; [|done]. injection Hi as <-. exists i, b. split; [|done].
  by apply lookup_lt_Some in Hb.
Qed.

Lemma apply_kind (kind : MutationKind) (payload : list byte) (d d' : DurableDocument) :
  apply kind payload d = Ok d' -> u16_kind kind /\ unnamed_kind kind = false.
Proof. by destruct kind. Qed.

Lemma snapshot_records_apply (records : list JournalRecord) (bodies : list (MutationKind * list byte))
    (d d' : DurableDocument) (report : StoreReplay) :
  Forall2 (fun r b => jr_payload r = frame_body b.1 b.2) records bodies ->
  apply_bodies bodies d = Ok d' -> apply_snapshot_records records d report = (d', report).
Proof.
  intros H. revert d. induction H as [|r [kind body] records bodies Hp _ IH]; intros d Ha; cbn [apply_bodies] in Ha.
  { by apply Ok_inj in Ha as <-. }
  apply res_bind_Ok in Ha as (x & Hx & Ha). cbn [apply_snapshot_records]. rewrite Hp. cbn [fst snd].
  destruct (apply_kind _ _ _ _ Hx) as [Hk Hu]. rewrite (unframe_frame _ _ Hk Hu), Hx. by apply IH.
Qed.

Lemma checkpoint_sealable (epoch : N) (bodies : list (MutationKind * list byte)) :
  u64_ok epoch -> N.of_nat (length bodies) < 2 ^ 64 ->
  Forall (fun r => size64 (jr_payload r) <= kMaxJournalRecordBytes) (checkpoint_records epoch bodies) ->
  Forall sealable (checkpoint_records epoch bodies).
Proof.
  intros He Hn Hs. rewrite !Forall_forall in *. intros r Hr. split; [|by apply Hs].
  destruct (checkpoint_records_header epoch bodies r Hr) as (i & b & Hi & ->).
  split; try reflexivity; [|exact He]. cbn [checkpoint_record jr_header set rh_sequence]. unfold u64_ok. lia.
Qed.

(** A snapshot that was written for a document loads as that document. *)
Lemma snapshot_loads (d : DurableDocument) (bodies : list (MutationKind * list byte)) (options : SnapshotOptions)
    (container : list byte) (o : StoreOptions) :
  document_ok d -> document_words d -> checkpoint_bodies d = Ok bodies ->
  snapshot_container (checkpoint_header d) (checkpoint_records (doc_epoch d) bodies) options = Ok container ->
  so_max_bytes options <= kMaxSnapshotBytes -> size64 bodies <= so_max_records (snapshot_options_of o) ->
  exists report, load_snapshot o (Some container)
    = Ok (d <| doc_authority_generation := 0 |> <| doc_mutation_count := 0 |>, report)
    /\ sr_snapshot_loaded report = true.
Proof.
  intros Hok Hw Hb Hc Hbytes Hmax.
  pose proof (dw_header _ Hw) as Hh. rewrite ?Forall_cons in Hh. destruct Hh as (He & Hboot & Hcount & Hseq & _).
  assert (size64 (checkpoint_records (doc_epoch d) bodies) = size64 bodies) as Hlen.
  { unfold size64, checkpoint_records. by rewrite length_imap. }
  assert (Forall sealable (checkpoint_records (doc_epoch d) bodies) /\ size64 bodies < 2 ^ 64) as [Hseal Hn].
  { unfold snapshot_container in Hc. apply guard_Ok in Hc as [_ Hc]. apply res_bind_Ok in Hc as ([[body pb] crc] & Hx & Hc).
    apply guard_Ok in Hc as [Hg _]. apply write_records_size in Hx as [Hsz Hx]. cbn [fst length] in Hx. reflect_bools.
    assert (size64 bodies < 2 ^ 64) as Hn.
    { rewrite <- Hlen. unfold size64 in *. unfold kMaxSnapshotBytes in Hbytes. simpl in Hx. lia. }
    split; [|done]. by apply checkpoint_sealable. }
  assert (snapshot_header_words (checkpoint_header d)) as Hhw.
  { split; cbn [checkpoint_header snapshot_header_default set sh_magic sh_format sh_reserved sh_header_crc sh_reserved2
      sh_epoch sh_coordinator_boot sh_coordinator_boot_counter sh_last_sequence sh_record_count sh_payload_bytes
      sh_payload_crc sh_reserved3]; repeat (apply Forall_cons; split); first [reflexivity|assumption|apply Forall_nil_2]. }
  assert (u64_ok (size64 (checkpoint_records (doc_epoch d) bodies))) as Hcw by (by rewrite Hlen).
  destruct (snapshot_container_spec _ _ Hseal _ _ Hc) as (_ & _ & Hsize).
  unfold load_snapshot.
  rewrite (read_container _ _ Hhw Hseal Hcw options (snapshot_options_of o) container Hc);
    [|by rewrite Hlen|by etransitivity].
  cbv zeta. cbn [sc_header sc_records final_snapshot_header checkpoint_header set sh_last_sequence sh_epoch
    sh_coordinator_boot sh_coordinator_boot_counter].
  pose proof (checkpoint_bodies_apply d Hok Hw bodies Hb) as Happ. unfold header_document in Happ.
  rewrite (snapshot_records_apply _ bodies _ _ _ (checkpoint_records_body _ _) Happ).
  eexists. split; reflexivity.
Qed.

(** What a successful checkpoint did. *)
Lemma checkpoint_Ok (io : StoreIo) (s s' : Store) (u : unit) :
  checkpoint io s = (Ok u, s') ->
  exists bodies options container journal,
    checkpoint_bodies (sto_document s) = Ok bodies /\ so_max_bytes options = kMaxSnapshotBytes /\
    snapshot_container (checkpoint_header (sto_document s))
      (checkpoint_records (doc_epoch (sto_document s)) bodies) options = Ok container /\
    fs_snapshot (sto_files s') = Some container /\ sto_document s' = sto_document s /\
    rebase (sio_journal io) (doc_epoch (sto_document s)) (doc_authority_generation (sto_document s)) (sto_journal s)
    = (Ok u, journal) /\ sto_journal s' = journal.
Proof.
  unfold checkpoint. destruct (negb _); [done|].
  destruct (checkpoint_bodies (sto_document s)) as [|bodies]; [done|]. cbn [res_bind].
  destruct (check_decodable _); [done|]. cbn [res_bind]. cbv zeta.
  destruct (write_snapshot _ _ _ _ _) as [[e|u'] files] eqn:Hw; [done|].
  destruct (verify_snapshot _ _ _ _); [done|]. cbn [set sto_journal].
  destruct (rebase _ _ _ _) as [rebased journal] eqn:Hr. intros H. injection H as -> <-.
  apply write_snapshot_Ok in Hw as (container & Hc & Hf).
  eexists bodies, _, container, journal. split; [done|]. split; [|split; [exact Hc|]]; [done|].
  split; [exact Hf|]. by repeat split.
Qed.

(** A rebased journal is the marker alone. *)
Lemma rebase_log (io : Io) (epoch generation : N) (j j' : Journal) (u : unit) :
  rebase io epoch generation j = (Ok u, j') ->
  j_file j' = record_bytes (new_record j RtRebase epoch generation 0 []).
Proof.
  unfold rebase. destruct (jo_read_only _); [done|]. destruct (negb (j_open j)); [done|].
  destruct (negb (io_reopen io)); [done|]. intros H.
  match type of H with append _ _ _ _ _ _ ?j0 = _ =>
    pose proof (append_spec io j0 RtRebase epoch generation 0 [] ltac:(reflexivity)) as Ha end.
  rewrite H in Ha. inversion Ha as [j0 Hf|]; subst. exact Hf.
Qed.

(** C28. Compaction loses nothing a restart needs: after a checkpoint that reported
    success, the snapshot alone loads as the document, and replaying the
    rebased journal on top leaves it as it is, at the sequence number of the
    rebase marker.  The hypothesis bounds the records by what [open] accepts. *)
Theorem checkpoint_preserves_document (io : StoreIo) (s s' : Store) (l : list JournalRecord) (o : StoreOptions)
    (Hcp : checkpoint io s = (Ok tt, s')) (Hlog : store_log s l)
    (Hok : document_ok (sto_document s)) (Hwords : document_words (sto_document s))
    (Hgen : u64_ok (doc_authority_generation (sto_document s)))
    (Hseq : doc_last_sequence (sto_document s) < j_next_sequence (sto_journal s))
    (Hfit : forall bodies, checkpoint_bodies (sto_document s) = Ok bodies ->
              size64 bodies <= so_max_records (snapshot_options_of o)) :
  exists d report,
    load_snapshot o (fs_snapshot (sto_files s')) = Ok (d, report) /\ sr_snapshot_loaded report = true /\
    content d = content (sto_document s) /\ doc_last_sequence d = doc_last_sequence (sto_document s) /\
    let p := replay_bytes kMaxJournalRecordBytes (j_file (sto_journal s')) in
    rp_status p = RsComplete /\
    rs_document (replay_records (mkReplayState d report []) (rp_records p))
    = d <| doc_last_sequence := j_next_sequence (sto_journal s) |>.
Proof.
  apply checkpoint_Ok in Hcp as (bodies & options & container & journal & Hb & Hmax & Hc & Hf & Hd & Hr & Hj).
  destruct (snapshot_loads _ bodies options container o Hok Hwords Hb Hc ltac:(by rewrite Hmax) (Hfit _ Hb))
    as (report & Hload & Hloaded).
  rewrite Hf. eexists _, report. split; [exact Hload|]. split; [exact Hloaded|]. split; [reflexivity|].
  split; [reflexivity|]. cbv zeta. rewrite Hj, (rebase_log _ _ _ _ _ _ Hr).
  pose proof (dw_header _ Hwords) as Hh. apply Forall_cons in Hh as [He _].
  assert (record_ok kMaxJournalRecordBytes
    (new_record (sto_journal s) RtRebase (doc_epoch (sto_document s)) (doc_authority_generation (sto_document s)) 0 []))
    as Hrec.
  { apply new_record_ok; try done. apply (jl_sequence _ _ (sl_log _ _ Hlog)). }
  destruct (replay_bytes_whole kMaxJournalRecordBytes [new_record (sto_journal s) RtRebase
    (doc_epoch (sto_document s)) (doc_authority_generation (sto_document s)) 0 []]) as (H1 & H2 & _);
    [apply Forall_cons; split; [exact Hrec|apply Forall_nil_2]|].
  unfold records_bytes in H1, H2. cbn [map concat] in H1, H2. rewrite app_nil_r in H1, H2. rewrite H1, H2.
  split; [reflexivity|]. cbn [replay_records foldl]. unfold replay_record.
  cbn [set rs_document rs_report rs_pending new_record jr_header record_header rh_sequence rh_transaction rh_type].
  cbn [set doc_last_sequence]. rewrite (proj2 (N.leb_gt _ _) Hseq).
  change (record_type_of (record_type_val RtRebase)) with RtRebase. reflexivity.
Qed.

(** ** Opening a directory *)

(** The operating system opens, flushes and truncates files when asked to. *)
Record working_io (io : StoreIo) : Prop := {
  wio_directory : sio_directory io = true;
  wio_stat : sio_stat io = true;
  wio_open : io_open (sio_journal io) = true;
  wio_flush : forall f, io_flush (sio_journal io) f = true;
  wio_truncate : forall f n, io_truncate (sio_journal io) f n = true
}.

(** [open] up to the replay of the journal. *)
Lemma open_store_replay (io : StoreIo) (path : string) (o : StoreOptions) (files : SnapshotFiles) (data : list byte)
    (d : DurableDocument) (report : StoreReplay) :
  working_io io -> path <> ""%string -> size64 data <= kMaxJournalBytes ->
  load_snapshot o (fs_snapshot files) = Ok (d, report) ->
  let replay := replay_bytes kMaxJournalRecordBytes data in
  let report := report <| sr_journal_present := true |> <| sr_journal_status := rp_status replay |> in
  open_store io path o (mkDirectory files (Some data))
  = if bool_decide (rp_status replay = RsCorrupt)
    then fail_detail Corrupt "durable journal failed its integrity check" (rp_detail replay)
    else
      let st := report_unfinished (replay_records (mkReplayState d report []) (rp_records replay)) in
      let journal := resume_sequence (w64 (doc_last_sequence (rs_document st) + 1))
                       (mkJournal (journal_options_of o) true data (size64 data) 1) in
      let? s := cut_torn_tail io o replay (mkStore o journal files (rs_document st) (rs_report st) 0 false) in
      Ok (s <| sto_report ::= fun r => r <| sr_last_epoch := doc_epoch (sto_document s) |>
                                         <| sr_last_sequence := doc_last_sequence (sto_document s) |> |>
            <| sto_open := true |>).
Proof.
  intros [Hd Hst Ho _ _] Hp Hs Hload. cbv zeta. unfold open_store.
  rewrite Hd, Hst, (proj2 (String.eqb_neq path "") Hp). unfold guard. cbn [negb dir_files dir_journal]. rewrite Hload.
  cbn [res_bind]. unfold journal_open. rewrite Ho. cbn [res_bind]. unfold journal_replay, read_file.
  cbn [j_options j_file journal_options_of jo_max_journal_bytes jo_max_record_bytes].
  by rewrite (proj2 (N.ltb_ge _ _) Hs).
Qed.

(** C32. A journal in which any one byte was changed is refused: the store does not
    open on it, whatever its options tolerate of the snapshot. *)
Theorem open_refuses_damage (io : StoreIo) (path : string) (o : StoreOptions) (files : SnapshotFiles)
    (before after : list JournalRecord) (r : JournalRecord) (i : nat) (old new : byte)
    (d : DurableDocument) (report : StoreReplay)
    (Hio : working_io io) (Hp : path <> ""%string) (Hload : load_snapshot o (fs_snapshot files) = Ok (d, report))
    (Hl : Forall (record_ok kMaxJournalRecordBytes) (before ++ r :: after))
    (Hsize : size64 (records_bytes (before ++ r :: after)) <= kMaxJournalBytes)
    (Hold : record_bytes r !! i = Some old) (Hne : new <> old) :
  let damaged := <[(length (records_bytes before) + i)%nat := new]> (records_bytes (before ++ r :: after)) in
  err_code (open_store io path o (mkDirectory files (Some damaged))) = Some Corrupt.
Proof.
  cbv zeta. destruct (replay_damaged kMaxJournalRecordBytes before after r i old new Hl Hold Hne) as (_ & Hc & _).
  rewrite (open_store_replay io path o files _ d report Hio Hp); [| |exact Hload].
  - rewrite Hc. by rewrite bool_decide_eq_true_2.
  - unfold size64. rewrite length_insert. exact Hsize.
Qed.

Lemma resume_after (last : N) (j : Journal) :
  last + 1 < 2 ^ 64 -> last < j_next_sequence (resume_sequence (w64 (last + 1)) j) /\
  (u64_ok (j_next_sequence j) -> u64_ok (j_next_sequence (resume_sequence (w64 (last + 1)) j))).
Proof.
  intros Hb. assert (w64 (last + 1) = last + 1) as -> by (by apply N.mod_small). unfold resume_sequence.
  destruct (N.ltb_spec (j_next_sequence j) (last + 1)); cbn [set j_next_sequence]; [split; [lia|done]|split; [lia|done]].
Qed.

Lemma resume_same (next : N) (j : Journal) :
  j_options (resume_sequence next j) = j_options j /\ j_file (resume_sequence next j) = j_file j /\
  j_size (resume_sequence next j) = j_size j /\ j_open (resume_sequence next j) = j_open j.
Proof. unfold resume_sequence. by destruct (_ <? _). Qed.

(** What the end of [open] does to the journal. *)
Lemma truncate_to_spec (io : StoreIo) (valid_bytes : N) (j : Journal) :
  working_io io -> jo_read_only (j_options j) = false -> j_open j = true -> valid_bytes <= j_size j ->
  truncate_to (sio_journal io) valid_bytes j
  = (Ok tt, mkJournal (j_options j) true (take (N.to_nat valid_bytes) (j_file j)) valid_bytes (j_next_sequence j)).
Proof.
  intros Hio Ro Rop Hle. unfold truncate_to. rewrite Ro, Rop, (proj2 (N.ltb_ge _ _) Hle), (wio_flush _ Hio),
    (wio_truncate _ Hio). cbn [negb]. destruct j as [jo op file size next]. cbn in Rop. subst op. unfold sync.
  cbn [set j_open j_file j_options j_size j_next_sequence]. by rewrite (wio_flush _ Hio).
Qed.

Lemma cut_torn_tail_spec (io : StoreIo) (o : StoreOptions) (replay : JournalReplay) (s : Store) :
  working_io io -> sto_read_only o = false -> j_options (sto_journal s) = journal_options_of o ->
  j_open (sto_journal s) = true -> rp_valid_bytes replay <= j_size (sto_journal s) ->
  exists s', cut_torn_tail io o replay s = Ok s' /\ sto_document s' = sto_document s /\
    sto_options s' = sto_options s /\
    sto_journal s' = if bool_decide (rp_status replay = RsTruncatedTail)
                     then mkJournal (journal_options_of o) true
                            (take (N.to_nat (rp_valid_bytes replay)) (j_file (sto_journal s)))
                            (rp_valid_bytes replay) (j_next_sequence (sto_journal s))
                     else sto_journal s.
Proof.
  intros Hio Hrw Ro Rop Hle. unfold cut_torn_tail. cbv zeta. destruct (bool_decide _); cbn [negb]; [|by exists s].
  rewrite Hrw, (truncate_to_spec io _ (sto_journal s) Hio) by first [exact Rop|exact Hle|by rewrite Ro].
  rewrite Ro. destruct s as [so sj sf sd sr sp sop]. cbn [sto_journal sto_document sto_options res_bind].
  generalize (mkJournal (journal_options_of o) true (take (N.to_nat (rp_valid_bytes replay)) (j_file sj))
    (rp_valid_bytes replay) (j_next_sequence sj)). intros kept.
  eexists. split; [reflexivity|]. split; [reflexivity|]. split; reflexivity.
Qed.

(** What the end of [open] keeps of the journal: the whole records. *)
Lemma cut_keeps_whole (io : StoreIo) (o : StoreOptions) (l : list JournalRecord) (n : nat) (s : Store) :
  working_io io -> sto_read_only o = false -> Forall (record_ok kMaxJournalRecordBytes) l ->
  (n <= length (records_bytes l))%nat -> n = 0%nat \/ whole_records n l <> [] ->
  j_options (sto_journal s) = journal_options_of o -> j_open (sto_journal s) = true ->
  j_file (sto_journal s) = take n (records_bytes l) -> j_size (sto_journal s) = N.of_nat n ->
  exists s', cut_torn_tail io o (replay_bytes kMaxJournalRecordBytes (take n (records_bytes l))) s = Ok s' /\
    sto_document s' = sto_document s /\ sto_options s' = sto_options s /\
    j_file (sto_journal s') = records_bytes (whole_records n l) /\
    j_size (sto_journal s') = size64 (records_bytes (whole_records n l)) /\
    j_options (sto_journal s') = journal_options_of o /\
    j_next_sequence (sto_journal s') = j_next_sequence (sto_journal s).
Proof.
  intros Hio Hrw Hl Hn Hwhole Ro Rop Rf Rs.
  destruct (replay_cut kMaxJournalRecordBytes l n Hl Hn) as (_ & _ & H3 & H4 & H5).
  revert H3 H4 H5. generalize (replay_bytes kMaxJournalRecordBytes (take n (records_bytes l))).
  intros replay H3 H4 H5. pose proof (whole_records_take n l Hn) as Hkept. rewrite <- H3 in Hkept.
  pose proof (f_equal (@length byte) Hkept) as Hlen. rewrite !length_take in Hlen.
  assert (rp_valid_bytes replay <= N.of_nat n) as Hle by (rewrite H3; unfold size64; lia).
  destruct (cut_torn_tail_spec io o replay s Hio Hrw Ro Rop ltac:(by rewrite Rs)) as (s' & Hs & Hd & Ho & Hj).
  exists s'. split; [exact Hs|]. split; [exact Hd|]. split; [exact Ho|]. rewrite Hj. clear Hs Hd Ho Hj.
  destruct (bool_decide (rp_status replay = RsTruncatedTail)) eqn:Ht.
  - cbn [j_file j_size j_options j_next_sequence]. rewrite Rf. split; [by rewrite Hkept|]. split; [exact H3|]. by split.
  - assert (records_bytes (whole_records n l) = take n (records_bytes l)) as Hkd.
    { apply bool_decide_eq_false in Ht. rewrite H5 in Ht. rewrite Hkept. apply take_ge. rewrite length_take.
      destruct Hwhole as [->|Hne]; [lia|]. rewrite bool_decide_eq_false_2 in Ht by done.
      destruct (N.eqb_spec (rp_dropped_bytes replay) 0) as [E|]; [|done]. lia. }
    rewrite Rf, Rs, Ro, Hkd. repeat split. unfold size64. rewrite length_take. f_equal. lia.
Qed.

(** C33. Restart after a crash: on a journal of which any part survived that keeps a
    whole record (or none of it), the store opens; its document is the snapshot's
    with the whole records replayed and the unfinished attempts reported, its
    journal is exactly those records, and the sequence numbers go on beyond what
    was replayed. *)
Theorem open_recovers (io : StoreIo) (path : string) (o : StoreOptions) (files : SnapshotFiles)
    (l : list JournalRecord) (n : nat) (d : DurableDocument) (report : StoreReplay)
    (Hio : working_io io) (Hp : path <> ""%string) (Hload : load_snapshot o (fs_snapshot files) = Ok (d, report))
    (Hrw : sto_read_only o = false) (Hl : Forall (record_ok kMaxJournalRecordBytes) l)
    (Hn : (n <= length (records_bytes l))%nat) (Hsize : N.of_nat n <= kMaxJournalBytes)
    (Hwhole : n = 0%nat \/ whole_records n l <> []) :
  let whole := whole_records n l in
  exists s report', open_store io path o (mkDirectory files (Some (take n (records_bytes l)))) = Ok s /\
    let st := report_unfinished (replay_records (mkReplayState d report' []) whole) in
    sto_document s = rs_document st /\ sto_open s = true /\
    (doc_last_sequence (rs_document st) + 1 < 2 ^ 64 ->
       store_log s whole /\ doc_last_sequence (sto_document s) < j_next_sequence (sto_journal s)).
Proof.
  cbv zeta. destruct (replay_cut kMaxJournalRecordBytes l n Hl Hn) as (H1 & _ & _ & _ & H5).
  set (data := take n (records_bytes l)) in *. set (replay := replay_bytes kMaxJournalRecordBytes data) in *.
  assert (size64 data = N.of_nat n) as Hdata by (unfold data, size64; rewrite length_take; f_equal; lia).
  rewrite (open_store_replay io path o files data d report Hio Hp ltac:(by rewrite Hdata) Hload). fold replay.
  assert (rp_status replay <> RsCorrupt) as Hnc by (rewrite H5; destruct (bool_decide _); [done|by destruct (_ =? 0)]).
  rewrite bool_decide_eq_false_2 by done. cbv zeta. rewrite H1.
  set (report' := report <| sr_journal_present := true |> <| sr_journal_status := rp_status replay |>).
  set (st := report_unfinished _). set (fresh := mkJournal (journal_options_of o) true data (size64 data) 1).
  set (journal := resume_sequence (w64 (doc_last_sequence (rs_document st) + 1)) fresh).
  destruct (resume_same (w64 (doc_last_sequence (rs_document st) + 1)) fresh) as (Ro & Rf & Rs & Rop).
  destruct (cut_keeps_whole io o l n (mkStore o journal files (rs_document st) (rs_report st) 0 false)
    Hio Hrw Hl Hn Hwhole Ro Rop Rf ltac:(cbn [sto_journal]; unfold journal; by rewrite Rs))
    as (s & Hcut & Sd & So & Sf & Ss & Sj & Sn).
  exists (s <| sto_report ::= fun r => r <| sr_last_epoch := doc_epoch (sto_document s) |>
      <| sr_last_sequence := doc_last_sequence (sto_document s) |> |> <| sto_open := true |>), report'.
  split; [unfold replay, data; rewrite Hcut; reflexivity|]. cbn [set sto_document sto_open sto_journal sto_options].
  split; [exact Sd|]. split; [reflexivity|]. intros Hlast.
  destruct (resume_after (doc_last_sequence (rs_document st)) fresh Hlast) as [Rlt Rok].
  cbn [sto_journal sto_options] in Sn, So. split; [|rewrite Sd, Sn; exact Rlt].
  split; cbn [set sto_document sto_open sto_journal sto_options].
  - split; rewrite ?Sj; [exact Sf|by rewrite Ss, Sf|by apply whole_records_Forall|rewrite Sn; by apply Rok|reflexivity].
  - by rewrite Sj, So.
  - rewrite Ss. apply (N.le_trans _ (N.of_nat n)); [|exact Hsize]. pose proof (whole_records_take n l Hn) as Hk.
    apply (f_equal (@length byte)) in Hk. rewrite !length_take in Hk. unfold size64 in *. lia.
Qed.

(** ** Concrete stores *)

Definition steady_store_io : StoreIo := mkStoreIo steady_io steady_files true true.
Definition empty_directory : Directory := mkDirectory (mkSnapshotFiles None None) None.
Definition demo_stamp : MutationStamp := mkMutationStamp 1 5 1 1 9.
Definition demo_store : Store :=
  mkStore store_options_default new_journal (mkSnapshotFiles None None) durable_document store_replay_default 0 true.
Definition demo_entry : HistoryEntry := mkHistoryEntry 1 StClear StWatch 9 1 1 "".
Definition demo_history : list byte := match encode_history demo_entry with Ok b => b | Err _ => [] end.
Definition demo_base : ReplayState := mkReplayState durable_document store_replay_default [].

(** What the process that used a store leaves on disk. *)
Definition directory_of (s : Store) : Directory := mkDirectory (sto_files s) (Some (j_file (sto_journal s))).
Definition open_demo (o : StoreOptions) (dir : Directory) : Result Store := open_store steady_store_io "store" o dir.

(** Run an operation on a store that was opened. *)
Definition then_run (s : Result Store) (operation : Store -> Result unit * Store) : Result Store :=
  let? s := s in
  match operation s with
  | (Ok _, s') => Ok s'
  | (Err e, _) => Err e
  end.

Lemma demo_store_log : store_log demo_store [].
Proof. split; [by split|done|done]. Qed.

Lemma steady_working : working_io steady_store_io.
Proof. by split. Qed.

Lemma demo_records_ok : Forall (record_ok kMaxJournalRecordBytes) [demo_record 1; demo_record 2].
Proof.
  exact (Forall_cons_2 _ _ _ (demo_record_ok 1 eq_refl)
    (Forall_cons_2 _ _ _ (demo_record_ok 2 eq_refl) (Forall_nil_2 _))).
Qed.

Lemma commit_crash_atomic_witness :
  let '(result, s') := commit steady_store_io MuHistoryAppend demo_history demo_stamp demo_store in
  result = Ok tt /\
  rp_status (replay_bytes kMaxJournalRecordBytes (take 150 (j_file (sto_journal s')))) <> RsCorrupt.
Proof.
  pose proof (commit_crash_atomic steady_store_io MuHistoryAppend demo_history demo_stamp demo_store [] demo_base 150
    demo_store_log ltac:(by split) ltac:(vm_compute; reflexivity) ltac:(vm_compute; reflexivity)
    ltac:(apply Nat.leb_le; vm_compute; reflexivity)) as H.
  destruct (commit steady_store_io MuHistoryAppend demo_history demo_stamp demo_store) as [result s'] eqn:E.
  split; [|exact (proj1 H)]. change result with (result, s').1. rewrite <- E. vm_compute. reflexivity.
Defined.

Lemma commits_refine_log_witness :
  let ms := [mkMutation MuHistoryAppend demo_history demo_stamp; mkMutation MuHistoryAppend demo_history demo_stamp] in
  (commit_all steady_store_io ms demo_store).1 = Ok tt /\
  exists durable, apply_all ms durable_document = Ok durable /\
    match commit_all steady_store_io ms demo_store with (Ok _, _) => True | (Err _, _) => False end.
Proof.
  set (ms := [_; _]).
  pose proof (commits_refine_log steady_store_io ms demo_store [] demo_base demo_store_log
    ltac:(by repeat constructor) ltac:(vm_compute; reflexivity) ltac:(vm_compute; reflexivity)) as H.
  destruct (commit_all steady_store_io ms demo_store) as [result s'] eqn:E.
  assert (result = Ok tt) as ->.
  { change result with (result, s').1. rewrite <- E. vm_compute. reflexivity. }
  split; [reflexivity|]. destruct H as (_ & durable & _ & _ & Ha & _). exists durable. split; [exact Ha|exact I].
Defined.

Lemma reachable_document_ok_witness :
  exists s, open_demo store_options_default empty_directory = Ok s /\ document_ok (sto_document s).
Proof.
  destruct (open_demo store_options_default empty_directory) as [e|s] eqn:E.
  { exfalso. apply (f_equal ok) in E. vm_compute in E. discriminate. }
  exists s. split; [reflexivity|]. exact (reachable_document_ok s (reach_open _ _ _ _ s E)).
Defined.

Lemma open_refuses_damage_witness :
  err_code (open_demo store_options_default (mkDirectory (mkSnapshotFiles None None)
    (Some (<[(length (records_bytes [demo_record 1]) + 64)%nat := xff]> (records_bytes ([demo_record 1] ++ [demo_record 2]))))))
  = Some Corrupt.
Proof.
  assert (xff <> x01) as Hne by discriminate. assert ("store"%string <> ""%string) as Hp by discriminate.
  exact (open_refuses_damage steady_store_io "store" store_options_default (mkSnapshotFiles None None)
    [demo_record 1] [] (demo_record 2) 64 x01 xff _ _ steady_working Hp eq_refl demo_records_ok
    ltac:(vm_compute; discriminate) ltac:(vm_compute; reflexivity) Hne).
Defined.

Lemma open_recovers_witness :
  exists s, open_demo store_options_default (mkDirectory (mkSnapshotFiles None None)
    (Some (take 100 (records_bytes [demo_record 1; demo_record 2])))) = Ok s /\ sto_open s = true.
Proof.
  assert ("store"%string <> ""%string) as Hp by discriminate.
  assert (whole_records 100 [demo_record 1; demo_record 2] <> []) as Hne.
  { intros H. apply (f_equal (@length JournalRecord)) in H. vm_compute in H. discriminate. }
  destruct (open_recovers steady_store_io "store" store_options_default (mkSnapshotFiles None None)
    [demo_record 1; demo_record 2] 100 _ _ steady_working Hp eq_refl eq_refl demo_records_ok
    ltac:(apply Nat.leb_le; vm_compute; reflexivity) ltac:(vm_compute; discriminate) (or_intror Hne))
    as (s & report' & Hs & _ & Ho & _).
  exists s. split; [exact Hs|exact Ho].
Defined.

Lemma zero_word : u64_ok 0.
Proof. reflexivity. Qed.

Lemma checkpoint_preserves_document_witness :
  exists s' d report, checkpoint steady_store_io demo_store = (Ok tt, s') /\
    load_snapshot store_options_default (fs_snapshot (sto_files s')) = Ok (d, report) /\
    content d = content (sto_document demo_store).
Proof.
  destruct (checkpoint steady_store_io demo_store) as [result s'] eqn:E.
  assert (result = Ok tt) as ->.
  { change result with (result, s').1. rewrite <- E. vm_compute. reflexivity. }
  assert (document_words durable_document) as Hw.
  { refine (Build_document_words durable_document _ _ _ _ (Forall_nil_2 _) (Forall_nil_2 _) (Forall_nil_2 _)
      (Forall_nil_2 _) (Forall_nil_2 _) (Forall_nil_2 _) (Forall_nil_2 _)); [|intros ? H; discriminate H..].
    repeat (apply Forall_cons_2; [exact zero_word|]). exact (Forall_nil_2 _). }
  destruct (checkpoint_preserves_document steady_store_io demo_store s' [] store_options_default E demo_store_log
    durable_document_ok Hw eq_refl ltac:(vm_compute; reflexivity)
    ltac:(intros bodies Hb; apply Ok_inj in Hb as <-; vm_compute; discriminate)) as (d & report & Hl & _ & Hc & _).
  exists s', d, report. split; [reflexivity|]. split; [exact Hl|exact Hc].
Defined.

(** ** What the model shows of the code *)

(** A journal whose very first record is torn is reported empty and not cut; what
    is committed after it is written behind the torn bytes, and the next start
    refuses the whole journal. *)
Theorem torn_first_record_poisons :
  let torn := mkDirectory (mkSnapshotFiles None None) (Some (take 10 (record_bytes (demo_record 1)))) in
  let used := then_run (open_demo store_options_default torn) (append_history steady_store_io demo_entry demo_stamp) in
  match used with
  | Ok s => sr_integrity_failure (sto_report s) = false /\
            err_code (open_demo store_options_default (directory_of s)) = Some Corrupt
  | Err _ => False
  end.
Proof. vm_compute. split; reflexivity. Qed.

(** A retention bound of zero keeps everything, but [open] counts it as zero
    records: a checkpoint that was verified is refused at the next start, and the
    document starts empty. *)
Theorem unbounded_retention_loses_snapshot :
  let unbounded := mkStoreOptions 0 0 0 0 0 0 true false true in
  let used := Nat.iter 9 (fun s => then_run s (append_history steady_store_io demo_entry demo_stamp))
                (open_demo unbounded empty_directory) in
  match then_run used (checkpoint steady_store_io) with
  | Ok s => length (doc_history (sto_document s)) = 9%nat /\
            match open_demo unbounded (directory_of s) with
            | Ok s' => sr_snapshot_corrupt (sto_report s') = true /\ doc_history (sto_document s') = []
            | Err _ => False
            end
  | Err _ => False
  end.
Proof. vm_compute. repeat split. Qed.

(** At the bound on domains, the state of a domain that is already in the document
    can no longer be updated, although [put_domain_state] admits it. *)
Theorem full_store_refuses_update :
  let one_domain := mkStoreOptions 8 8 8 8 8 1 true false true in
  let state := domain_state_default <| ds_domain := 1 |> in
  match then_run (open_demo one_domain empty_directory) (put_domain_state steady_store_io state demo_stamp) with
  | Ok s => err_code (put_domain_state steady_store_io state demo_stamp s).1 = Some LimitExceeded
  | Err _ => False
  end.
Proof. vm_compute. reflexivity. Qed.

(** An unfinished attempt found at a start is not known to the boot after the
    next commit: the new transaction reuses its identity. *)
Theorem ambiguous_attempt_forgotten :
  let interrupted := mkDirectory (mkSnapshotFiles None None)
    (Some (records_bytes (take 2 (commit_records MuHistoryAppend demo_history demo_stamp 1)))) in
  match open_demo store_options_default interrupted with
  | Ok s =>
      length (doc_attempts (sto_document s)) = 1%nat /\
      match (append_history steady_store_io demo_entry demo_stamp s) with
      | (Ok _, s') =>
          match open_demo store_options_default (directory_of s') with
          | Ok again => doc_attempts (sto_document again) = []
          | Err _ => False
          end
      | (Err _, _) => False
      end
  | Err _ => False
  end.
Proof. vm_compute. split; reflexivity. Qed.

(** The authority generation of the last commit is not recovered. *)
Theorem generation_not_recovered :
  match then_run (open_demo store_options_default empty_directory)
          (append_history steady_store_io demo_entry demo_stamp) with
  | Ok s => doc_authority_generation (sto_document s) = 5 /\
            match open_demo store_options_default (directory_of s) with
            | Ok s' => doc_authority_generation (sto_document s') = 0 /\ doc_mutation_count (sto_document s') = 0
            | Err _ => False
            end
  | Err _ => False
  end.
Proof. vm_compute. repeat split. Qed.
