(* ===== verification/Fabric.v ===== *)
(** * Fabric: include/ncf/fabric/fabric.hpp and src/fabric/fabric.cpp

    The coordinator's state and every operation on it: configuration, publisher
    registration and fencing, the current-evidence window, evaluation, planning,
    epochs, and opening on durable state.

    Every public operation runs under one mutex, so the operations are the atomic
    steps of a state machine; [plan] and [explain] take the mutex more than once
    and are compositions of steps.  The clock is the interface [IClock]: its
    successive readings are the parameter [clock], and the state counts them.  A
    cancellation token is what its successive readings answer; a null token
    answers [false].  [durable_] is the presence of a store.  The statistics are
    counters of operations and are written without a wrap. *)

From stdpp Require Import gmap.
From Stdlib Require Import Strings.Byte.
From S2P Require Import Prelude Core Enums OMap Evidence Authority Policy Topology State Intervention.
From S2P Require Import Explanation Evaluator Planner.
From S2P Require Import Journal StoreCodec Snapshot Store.

Open Scope N_scope.

(** ** State *)

Record FabricStats := mkFabricStats {
  fbs_batches_ingested : N;
  fbs_samples_ingested : N;
  fbs_samples_rejected : N;
  fbs_samples_duplicate : N;
  fbs_samples_fenced : N;
  fbs_samples_epoch_mismatch : N;
  fbs_evaluations : N;
  fbs_transitions : N;
  fbs_interventions_authorized : N;
  fbs_interventions_suppressed : N;
  fbs_fences_issued : N;
  fbs_epoch_advances : N;
  fbs_cancellations : N;
  fbs_durability_commits : N;
  fbs_durability_failures : N
}.

#[export] Instance FabricStats_settable : Settable FabricStats :=
  fields! mkFabricStats < fbs_batches_ingested; fbs_samples_ingested; fbs_samples_rejected; fbs_samples_duplicate;
    fbs_samples_fenced; fbs_samples_epoch_mismatch; fbs_evaluations; fbs_transitions; fbs_interventions_authorized;
    fbs_interventions_suppressed; fbs_fences_issued; fbs_epoch_advances; fbs_cancellations; fbs_durability_commits;
    fbs_durability_failures >.

Definition fabric_stats_default : FabricStats := mkFabricStats 0 0 0 0 0 0 0 0 0 0 0 0 0 0 0.

Record IngestReport := mkIngestReport {
  ig_accepted : N;
  ig_rejected : N;
  ig_duplicate : N;
  ig_fenced : N;
  ig_epoch_mismatch : N;
  ig_regressed : N;
  ig_capacity_rejected : N
}.

#[export] Instance IngestReport_settable : Settable IngestReport :=
  fields! mkIngestReport < ig_accepted; ig_rejected; ig_duplicate; ig_fenced; ig_epoch_mismatch; ig_regressed;
    ig_capacity_rejected >.

Definition ingest_report_default : IngestReport := mkIngestReport 0 0 0 0 0 0 0.

Record FabricOpenReport := mkFabricOpenReport {
  fbr_store : StoreReplay;
  fbr_epoch : N;
  fbr_boot : N;
  fbr_boot_counter : N;
  fbr_domains_restored : N;
  fbr_domains_demoted : N;
  fbr_fences_restored : N;
  fbr_policy_restored : bool;
  fbr_topology_restored : bool;
  fbr_capacity_restored : bool;
  fbr_history_entries : N;
  fbr_interventions_restored : N;
  fbr_durable : bool
}.

#[export] Instance FabricOpenReport_settable : Settable FabricOpenReport :=
  fields! mkFabricOpenReport < fbr_store; fbr_epoch; fbr_boot; fbr_boot_counter; fbr_domains_restored;
    fbr_domains_demoted; fbr_fences_restored; fbr_policy_restored; fbr_topology_restored; fbr_capacity_restored;
    fbr_history_entries; fbr_interventions_restored; fbr_durable >.

Definition fabric_open_report_default : FabricOpenReport :=
  mkFabricOpenReport store_replay_default 0 0 0 0 0 0 false false false 0 0 false.

(** [record_wall_time] is never read and is left out. *)
Record FabricOptions := mkFabricOptions {
  fo_state_directory : string;
  fo_store : StoreOptions;
  fo_persist : bool;
  fo_max_publishers : N;
  fo_max_evidence_entries : N;
  fo_max_active_interventions : N;
  fo_max_explanations : N;
  fo_local_authority : N;
  fo_local_denied : N
}.

#[export] Instance FabricOptions_settable : Settable FabricOptions :=
  fields! mkFabricOptions < fo_state_directory; fo_store; fo_persist; fo_max_publishers; fo_max_evidence_entries;
    fo_max_active_interventions; fo_max_explanations; fo_local_authority; fo_local_denied >.

Definition fabric_options_default : FabricOptions :=
  mkFabricOptions "" store_options_default true kMaxPublishers kMaxEvidencePerBatch kMaxInterventionHistory 1024
    auth_all auth_none.

(** [std::tuple] of resource, queue and publisher. *)
Definition EvidenceKey : Type := (N * N * N)%type.
Definition evidence_key (sample : EvidenceSample) : EvidenceKey :=
  (es_resource sample, es_queue sample, es_publisher sample).

Record Fabric := mkFabric {
  fb_options : FabricOptions;
  fb_clock_reads : N;
  fb_store : option Store;
  fb_topology : option TopologyIndex;
  fb_capacity : option CapacitySnapshot;
  fb_policy : CongestionPolicy;
  fb_has_policy : bool;
  fb_epoch : N;
  fb_boot : N;
  fb_authority_generation : N;
  fb_domains : list (N * DomainState);
  fb_intents : list (N * list InterventionIntent);
  fb_publishers : gmap N PublisherRegistration;
  fb_fences : list (N * list (N * FenceRecord));
  fb_evidence : list (EvidenceKey * EvidenceSample);
  fb_explanations : list (N * Explanation);
  fb_last_outcomes : list (N * EvaluationOutcome);
  fb_stats : FabricStats;
  fb_open_report : FabricOpenReport;
  fb_closed : bool
}.

#[export] Instance Fabric_settable : Settable Fabric :=
  fields! mkFabric < fb_options; fb_clock_reads; fb_store; fb_topology; fb_capacity; fb_policy; fb_has_policy;
    fb_epoch; fb_boot; fb_authority_generation; fb_domains; fb_intents; fb_publishers; fb_fences; fb_evidence;
    fb_explanations; fb_last_outcomes; fb_stats; fb_open_report; fb_closed >.

(** ** Operations as state transformers *)

(** An operation answers a result and leaves a state, also when it fails. *)
Definition Op (A : Type) : Type := Fabric -> Result A * Fabric.

Definition op_ret {A : Type} (a : A) : Op A := fun f => (Ok a, f).
Definition op_lift {A : Type} (r : Result A) : Op A := fun f => (r, f).
Definition op_bind {A B : Type} (m : Op A) (k : A -> Op B) : Op B :=
  fun f => match m f with (Ok a, f') => k a f' | (Err e, f') => (Err e, f') end.
Definition op_get {A : Type} (read : Fabric -> A) : Op A := fun f => (Ok (read f), f).
Definition op_modify (change : Fabric -> Fabric) : Op unit := fun f => (Ok tt, change f).

Notation "'let!' x := m 'in' k" := (op_bind m (fun x => k))
  (at level 10, x pattern, m at level 200, k at level 200) : ncf_scope.
Notation "'do!' m 'then' k" := (op_bind m (fun _ => k)) (at level 10, m at level 200, k at level 200) : ncf_scope.

(** A loop over a vector whose body may return early. *)
Fixpoint op_each {A : Type} (body : A -> Op unit) (l : list A) : Op unit :=
  match l with
  | [] => op_ret tt
  | x :: rest => do! body x then op_each body rest
  end.

(** [++stats_.field]. *)
Definition count (change : FabricStats -> FabricStats) : Op unit := op_modify (fun f => f <| fb_stats ::= change |>).

Definition cancelled_status : Status := mkStatus Cancelled "operation cancelled before its commit boundary" "".

Definition derive_boot (epoch tick counter : N) : N :=
  finish (update_u64 (update_u64 (update_u64 hasher epoch) tick) counter).

(** ** Containers *)

Definition fence_find (publisher boot : N) (fences : list (N * list (N * FenceRecord))) : option FenceRecord :=
  match om_find publisher fences with Some boots => om_find boot boots | None => None end.
(** [fences_[publisher][boot] = record]. *)
Definition fence_insert (record : FenceRecord) (fences : list (N * list (N * FenceRecord))) :
    list (N * list (N * FenceRecord)) :=
  om_insert (fr_publisher record)
    (om_insert (fr_boot record) record (default [] (om_find (fr_publisher record) fences))) fences.

(** [if (m.size() >= bound && !m.contains(k)) m.erase(m.begin()); m[k] = v].  With
    an empty map and a bound of zero the source erases the end iterator, which is
    undefined; here nothing is erased. *)
Definition bounded_insert {V : Type} (bound k : N) (v : V) (m : list (N * V)) : list (N * V) :=
  om_insert k v (if (bound <=? size64 m) && bool_decide (om_find k m = None) then tail m else m).

(** [TopologyIndex::build]; [Topology.build_total] excludes the exception. *)
Definition build_index (s : TopologySnapshot) : Result TopologyIndex :=
  default (fail Internal "std::out_of_range") (build s).

Section Operations.
Context (clock : N -> N) (io : StoreIo).

(** [clock_->now()]. *)
Definition now : Op N := fun f => (Ok (clock (fb_clock_reads f)), f <| fb_clock_reads ::= N.succ |>).

(** [ensure_open_locked]. *)
Definition ensure_open : Op unit :=
  fun f => (if fb_closed f then fail Closed "fabric is closed" else Ok tt, f).

(** [make_stamp_locked]. *)
Definition make_stamp (kind : ProvenanceKind) : Op MutationStamp :=
  let! tick := now in
  op_get (fun f =>
    let provenance := compute_provenance_id kind 0 (fb_boot f) (fb_epoch f) tick in
    mkMutationStamp (fb_epoch f) (fb_authority_generation f) provenance provenance tick).

(** [authority_locked]: the vector, and its issue at the next reading of the clock. *)
Definition live_authority (tick : N) (f : Fabric) : AuthorityVector :=
  mkAuthorityVector (fb_epoch f) (fb_authority_generation f) (cpol_id (fb_policy f)) (cpol_fingerprint (fb_policy f))
    (fb_boot f) (fo_local_authority (fb_options f)) (fo_local_denied (fb_options f)) tick 0
    (compute_provenance_id PkLocalEvaluation 0 (fb_boot f) (fb_epoch f) tick).
Definition authority_locked : Op AuthorityVector :=
  let! tick := now in op_get (live_authority tick).

(** A call of the store; without a store nothing is called. *)
Definition on_store (call : Store -> Result unit * Store) : Op unit :=
  fun f =>
    match fb_store f with
    | None => (Ok tt, f)
    | Some s => let '(r, s') := call s in (r, f <| fb_store := Some s' |>)
    end.

(** A durable write of an operation: the store is called and the outcome counted. *)
Definition durable_write (call : Store -> Result unit * Store) : Op unit :=
  fun f =>
    match on_store call f with
    | (Ok _, f') => (Ok tt, f' <| fb_stats ::= fun s => s <| fbs_durability_commits ::= N.succ |> |>)
    | (Err e, f') => (Err e, f' <| fb_stats ::= fun s => s <| fbs_durability_failures ::= N.succ |> |>)
    end.

(** [if (durable_) ...]. *)
Definition if_durable (body : Op unit) : Op unit :=
  fun f => match fb_store f with Some _ => body f | None => (Ok tt, f) end.

(** [if (durable_)], one stamp, one write. *)
Definition persist (kind : ProvenanceKind) (call : MutationStamp -> Store -> Result unit * Store) : Op unit :=
  if_durable (let! stamp := make_stamp kind in durable_write (call stamp)).

(** ** Configuration *)

(** [invalidate_generations_locked]. *)
Definition invalidate_generations (f : Fabric) : Fabric :=
  f <| fb_authority_generation ::= fun g => w64 (g + 1) |>
    <| fb_intents := [] |>
    <| fb_domains ::= map (fun entry : N * DomainState =>
         if is_authoritative (ds_state entry.2)
         then (entry.1, entry.2 <| ds_requires_revalidation := true |>) else entry) |>.

Definition fabric_set_policy (policy : CongestionPolicy) : Op unit :=
  let! policy := op_lift (validate_policy policy) in
  do! ensure_open then
  let! current := op_get fb_policy in
  do! op_lift (guard (cpol_version policy <? cpol_version current) PolicyRejected
    "policy version would move backwards" (Ok tt)) then
  do! op_modify (fun f => invalidate_generations (f <| fb_policy := policy |> <| fb_has_policy := true |>)) then
  persist PkLocalPolicy (set_policy io policy).

Definition fabric_set_topology (topology : TopologySnapshot) : Op unit :=
  let! index := op_lift (build_index topology) in
  do! ensure_open then
  do! op_modify (fun f => invalidate_generations (f <| fb_topology := Some index |>)) then
  persist PkLocalPolicy (set_topology io (ti_snapshot index)).

Definition fabric_set_capacity (capacity : CapacitySnapshot) : Op unit :=
  do! op_lift (validate_capacity capacity) then
  do! ensure_open then
  do! op_modify (fun f => f <| fb_capacity := Some capacity |>) then
  persist PkLocalPolicy (set_capacity io capacity).

(** ** Publishers *)

Definition fabric_register_publisher (publisher boot requested : N) : Op PublisherRegistration :=
  do! op_lift (guard (negb (valid publisher) || negb (valid boot)) InvalidArgument
    "publisher registration needs both identities" (Ok tt)) then
  do! ensure_open then
  let! f := op_get id in
  do! op_lift (guard (bool_decide (is_Some (fence_find publisher boot (fb_fences f)))) Fenced
    "publisher incarnation is fenced and cannot re-register" (Ok tt)) then
  do! op_lift (guard ((fo_max_publishers (fb_options f) <=? N.of_nat (size (fb_publishers f)))
                      && bool_decide (fb_publishers f !! publisher = None)) LimitExceeded
    "publisher count is at its bound" (Ok tt)) then
  let! tick := now in
  let granted := N.land (N.land requested kAuthorityAllBits) (w32 (N.lnot (fo_local_denied (fb_options f)) 32)) in
  let registration := mkPublisherRegistration publisher boot (fb_epoch f) 0 tick tick 0 0 granted true false FrNone
    (compute_provenance_id PkRemotePublisher publisher boot (fb_epoch f) tick) in
  do! op_modify (fun f => f <| fb_publishers ::= <[publisher := registration]> |>) then
  op_ret registration.

(** The registration of this very incarnation. *)
Definition registered (publisher boot : N) (f : Fabric) : option PublisherRegistration :=
  match fb_publishers f !! publisher with
  | Some r => if pr_boot r =? boot then Some r else None
  | None => None
  end.

(** The identity of a fence record. *)
Definition fence_identity (record : FenceRecord) : N :=
  let h := update_u64 hasher (fr_epoch record) in
  let h := update_u64 h (fr_publisher record) in
  let h := update_u64 h (fr_boot record) in
  let h := update_u8 h (fence_reason_val (fr_reason record)) in
  finish (update_u64 h (fr_issued_tick record)).

Definition from_incarnation (publisher boot : N) (sample : EvidenceSample) : bool :=
  (es_publisher sample =? publisher) && (es_publisher_boot sample =? boot).

(** [fence_publisher_locked]. *)
Definition fence_publisher_locked (publisher boot : N) (reason : FenceReason) (detail : string) : Op FenceRecord :=
  do! op_lift (guard (negb (valid publisher) || negb (valid boot)) InvalidArgument
    "fencing needs both publisher and boot identities" (Ok tt)) then
  let! found := op_get (registered publisher boot) in
  do! op_modify (fun f =>
    match found with Some _ => f <| fb_publishers ::= delete publisher |> | None => f end) then
  let! tick := now in
  let! f := op_get id in
  let record := mkFenceRecord 0 (fb_epoch f) publisher boot
    (match found with Some r => pr_last_generation r | None => 0 end) reason tick
    (compute_provenance_id PkFence publisher boot (fb_epoch f) tick) detail in
  let record := record <| fr_id := fence_identity record |> in
  do! op_modify (fun f => f <| fb_fences ::= fence_insert record |>
    <| fb_stats ::= fun s => s <| fbs_fences_issued ::= N.succ |> |>
    <| fb_evidence ::= filter (fun entry => from_incarnation publisher boot entry.2 = false) |>) then
  do! persist PkFence (append_fence io record) then
  op_ret record.

Definition fabric_fence_publisher (publisher boot : N) (reason : FenceReason) (detail : string) : Op FenceRecord :=
  do! ensure_open then fence_publisher_locked publisher boot reason detail.

Definition fabric_unregister_publisher (publisher boot : N) (reason : FenceReason) (detail : string) : Op unit :=
  do! ensure_open then
  if bool_decide (reason = FrCoordinatorRestart)
  then op_lift (fail InvalidArgument "coordinator restart is not a publisher unregister reason")
  else if bool_decide (reason = FrNone)
  then op_modify (fun f =>
    match registered publisher boot f with Some _ => f <| fb_publishers ::= delete publisher |> | None => f end)
  else do! fence_publisher_locked publisher boot reason detail then op_ret tt.

Definition fabric_is_fenced (publisher boot : N) (f : Fabric) : bool :=
  bool_decide (is_Some (fence_find publisher boot (fb_fences f))).

Definition fabric_lookup_publisher (publisher boot : N) (f : Fabric) : Result PublisherRegistration :=
  match registered publisher boot f with
  | Some r => Ok r
  | None => fail NotFound "publisher incarnation is not registered"
  end.

Definition fabric_heartbeat (publisher boot : N) : Op unit :=
  do! ensure_open then
  let! f := op_get id in
  let! registration := op_lift (fabric_lookup_publisher publisher boot f) in
  let! tick := now in
  op_modify (fun f => f <| fb_publishers ::=
    <[publisher := registration <| pr_last_seen_tick := tick |> <| pr_alive := true |>]> |>).

(** ** Evidence *)

(** What the loop of [ingest] does with one sample. *)
Definition reject_sample (report : IngestReport -> IngestReport) (stats : FabricStats -> FabricStats)
    (st : Fabric * IngestReport) : Fabric * IngestReport :=
  (st.1 <| fb_stats ::= stats |>, report (st.2 <| ig_rejected ::= N.succ |>)).

(** The later reading of the two: a higher generation, or the same generation and
    a higher sequence, both numbered. *)
Definition supersedes (sample previous : EvidenceSample) : bool :=
  (es_generation previous <? es_generation sample)
  || ((es_generation sample =? es_generation previous)
      && (negb (es_sequence sample =? 0) && negb (es_sequence previous =? 0)
          && (es_sequence previous <? es_sequence sample))).

(** The registration after an accepted sample. *)
Definition refresh_registration (tick : N) (sample : EvidenceSample) (r : PublisherRegistration) :
    PublisherRegistration :=
  r <| pr_last_seen_tick := tick |> <| pr_alive := true |>
    <| pr_last_generation := if pr_last_generation r <? es_generation sample
                             then es_generation sample else pr_last_generation r |>
    <| pr_last_sequence := if pr_last_sequence r <? es_sequence sample
                           then es_sequence sample else pr_last_sequence r |>.

Definition accept_sample (tick : N) (sample : EvidenceSample) (r : PublisherRegistration)
    (st : Fabric * IngestReport) : Fabric * IngestReport :=
  (st.1 <| fb_publishers ::= <[es_publisher sample := refresh_registration tick sample r]> |>
        <| fb_stats ::= fun s => s <| fbs_samples_ingested ::= N.succ |> |>,
   st.2 <| ig_accepted ::= N.succ |>).

(** [evidence_[key] = sample]. *)
Definition record_sample (sample : EvidenceSample) (st : Fabric * IngestReport) : Fabric * IngestReport :=
  (st.1 <| fb_evidence ::= om_insert (evidence_key sample) sample |>, st.2).

Definition ingest_sample (tick : N) (st : Fabric * IngestReport) (sample : EvidenceSample) :
    Fabric * IngestReport :=
  let f := st.1 in
  let fenced := reject_sample (fun r => r <| ig_fenced ::= N.succ |>)
                  (fun s => s <| fbs_samples_fenced ::= N.succ |>) st in
  let rejected := fun s => s <| fbs_samples_rejected ::= N.succ |> in
  if negb (valid (es_resource sample)) then reject_sample id rejected st
  else if negb (es_epoch sample =? fb_epoch f) then
    reject_sample (fun r => r <| ig_epoch_mismatch ::= N.succ |>)
      (fun s => s <| fbs_samples_epoch_mismatch ::= N.succ |>) st
  else
    match registered (es_publisher sample) (es_publisher_boot sample) f with
    | None => fenced
    | Some registration =>
        if fabric_is_fenced (es_publisher sample) (es_publisher_boot sample) f then fenced
        else if es_generation sample <? pr_last_generation registration then
          reject_sample (fun r => r <| ig_regressed ::= N.succ |>) rejected st
        else
          let heartbeat := is_heartbeat sample in
          let sample := sample <| es_received_tick := tick |> in
          let sample := sample <| es_snapshot := compute_snapshot_id sample |> in
          if heartbeat then accept_sample tick sample registration st
          else
            match om_find (evidence_key sample) (fb_evidence f) with
            | None =>
                if fo_max_evidence_entries (fb_options f) <=? size64 (fb_evidence f) then
                  reject_sample (fun r => r <| ig_capacity_rejected ::= N.succ |>) rejected st
                else accept_sample tick sample registration (record_sample sample st)
            | Some previous =>
                if negb (supersedes sample previous) then
                  (f <| fb_stats ::= fun s => s <| fbs_samples_duplicate ::= N.succ |> |>,
                   st.2 <| ig_duplicate ::= N.succ |>)
                else accept_sample tick sample registration (record_sample sample st)
            end
    end.

Definition fabric_ingest (batch : EvidenceBatch) : Op IngestReport :=
  do! op_lift (guard (kMaxEvidencePerBatch <? size64 (eb_samples batch)) LimitExceeded
    "evidence batch exceeds the permitted sample count" (Ok tt)) then
  do! ensure_open then
  let! tick := now in
  do! count (fun s => s <| fbs_batches_ingested ::= N.succ |>) then
  fun f =>
    let '(f, report) := foldl (ingest_sample tick) (f, ingest_report_default) (eb_samples batch) in
    (Ok report, f).

(** [collect_evidence_locked]: the window, restricted to the domain's resources
    when the topology knows any, up to the bound of a batch. *)
Definition collect_evidence (domain : N) : Op EvidenceBatch :=
  let! tick := now in
  op_get (fun f =>
    let scope := match fb_topology f with Some t => domain_resources t domain | None => [] end in
    let in_scope (s : EvidenceSample) := bool_decide (scope = []) || bool_decide (es_resource s ∈ scope) in
    let samples := take (N.to_nat kMaxEvidencePerBatch)
      (filter (fun s => in_scope s = true) (map snd (fb_evidence f))) in
    let batch := mkEvidenceBatch 0 (fb_epoch f)
      (compute_provenance_id PkLocalIngest 0 (fb_boot f) (fb_epoch f) tick) tick samples in
    batch <| eb_id := compute_batch_id batch |>).

(** ** Evaluation *)

(** A cancellation point: [token != nullptr && token->cancelled()]. *)
Definition cancellation_point (cancelled : bool) : Op unit :=
  if cancelled
  then do! count (fun s => s <| fbs_cancellations ::= N.succ |>) then op_lift (Err cancelled_status)
  else op_ret tt.

(** The explanation of an outcome. *)
Definition explain_outcome (domain tick : N) (granted : N) (out : EvaluationOutcome) (f : Fabric) : Explanation :=
  {| ex_domain := domain;
     ex_state := eo_state out;
     ex_previous_state := eo_previous_state out;
     ex_severity := eo_severity out;
     ex_transitioned := eo_transitioned out;
     ex_authoritative := eo_authoritative out;
     ex_requires_revalidation := eo_requires_revalidation out;
     ex_evaluation := eo_id out;
     ex_epoch := fb_epoch f;
     ex_policy := cpol_id (fb_policy f);
     ex_policy_fingerprint := cpol_fingerprint (fb_policy f);
     ex_authority := granted;
     ex_authority_generation := fb_authority_generation f;
     ex_topology_generation := eo_topology_generation out;
     ex_capacity_generation := eo_capacity_generation out;
     ex_evaluated_tick := tick;
     ex_reason_code := eo_reason_code out;
     ex_reason_detail := eo_reason_detail out;
     ex_samples_seen := ev_samples_seen (eo_evidence out);
     ex_samples_accepted := ev_samples_accepted (eo_evidence out);
     ex_samples_rejected := ev_samples_rejected (eo_evidence out);
     ex_samples_duplicate := ev_samples_duplicate (eo_evidence out);
     ex_resources := ev_resources (eo_evidence out);
     ex_bindings := ev_bindings (eo_evidence out);
     ex_conflicts := ev_conflicts (eo_evidence out);
     ex_stale := ev_stale (eo_evidence out);
     ex_propagation := ev_propagation (eo_evidence out);
     ex_authorized := [];
     ex_suppressed := [];
     ex_truncated_sections := ev_truncated_sections (eo_evidence out) |}.

(** The commit of an outcome to the state in memory. *)
Definition install_outcome (domain : N) (out : EvaluationOutcome) (f : Fabric) : Fabric :=
  f <| fb_domains ::= om_insert domain (eo_updated out) |>
    <| fb_stats ::= fun s => s <| fbs_evaluations ::= N.succ |>
         <| fbs_transitions ::= if eo_transitioned out then N.succ else id |> |>
    <| fb_intents ::= if eo_authoritative out then id else om_erase domain |>.

(** The durable writes of an evaluation: the state, and the transition if any. *)
Definition persist_outcome (domain tick : N) (out : EvaluationOutcome) : Op unit :=
  if_durable (
    let! stamp := make_stamp PkLocalEvaluation in
    do! durable_write (put_domain_state io (eo_updated out) stamp) then
    if eo_transitioned out then
      let! epoch := op_get fb_epoch in
      durable_write (append_history io
        (mkHistoryEntry domain (eo_previous_state out) (eo_state out) tick (eo_id out) epoch (eo_reason_code out)) stamp)
    else op_ret tt).

(** The publication of an outcome and its explanation. *)
Definition publish_outcome (domain tick granted : N) (out : EvaluationOutcome) (f : Fabric) : Fabric :=
  let bound := fo_max_explanations (fb_options f) in
  f <| fb_explanations ::= bounded_insert bound domain (explain_outcome domain tick granted out f) |>
    <| fb_last_outcomes ::= bounded_insert bound domain out |>.

Definition evaluation_context (tick : N) (authority : AuthorityVector) (f : Fabric) : EvaluationContext :=
  mkEvaluationContext (Some (fb_policy f)) (fb_topology f) (fb_capacity f) (fb_epoch f) authority tick
    kMaxEvidencePerBatch.

(** [evaluate_locked]; the token is asked before the work and before the commit. *)
Definition evaluate_locked (domain : N) (batch : EvidenceBatch) (at_start at_commit : bool) : Op EvaluationOutcome :=
  do! cancellation_point at_start then
  let! has_policy := op_get fb_has_policy in
  do! op_lift (guard (negb has_policy) NotReady "no congestion policy is installed" (Ok tt)) then
  let! tick := now in
  let! authority := authority_locked in
  let! f := op_get id in
  let context := evaluation_context tick authority f in
  let prior := default domain_state_default (om_find domain (fb_domains f)) in
  let request := mkEvaluationRequest domain batch (fb_epoch f) authority tick 0 in
  let! out := op_lift (evaluate request prior context) in
  do! cancellation_point at_commit then
  do! op_modify (install_outcome domain out) then
  do! persist_outcome domain tick out then
  do! op_modify (publish_outcome domain tick (av_granted authority) out) then
  op_ret out.

Definition fabric_evaluate_request (request : EvaluationRequest) : Op EvaluationOutcome :=
  do! ensure_open then evaluate_locked (eq_domain request) (eq_evidence request) false false.

Definition fabric_evaluate_cancellable (domain : N) (at_start at_commit : bool) : Op EvaluationOutcome :=
  do! ensure_open then
  let! batch := collect_evidence domain in
  evaluate_locked domain batch at_start at_commit.

Definition fabric_evaluate (domain : N) : Op EvaluationOutcome := fabric_evaluate_cancellable domain false false.

(** ** Planning *)

(** The durable record of an intent. *)
Definition intervention_record (i : InterventionIntent) : InterventionRecord :=
  mkInterventionRecord (ii_id i) (ii_kind i) (ii_domain i) (ii_resource i) (ii_basis_severity i) (ii_evidence i)
    (ii_evaluation i) (ii_epoch i) (ii_authority_generation i) (ii_policy i) (ii_provenance i) (ii_issued_tick i)
    (ii_parameter i).

(** One authorized intent: bound once more to the live authority, counted, written. *)
Definition retain_intent (authority : AuthorityVector) (i : InterventionIntent) : Op unit :=
  if negb (bound_to i authority) then op_ret tt
  else
    do! count (fun s => s <| fbs_interventions_authorized ::= N.succ |>) then
    persist PkLocalEvaluation (append_intervention io (intervention_record i)).

(** The last [bound] elements. *)
Definition keep_last {A : Type} (bound : N) (l : list A) : list A :=
  if bound <? size64 l then drop (N.to_nat (size64 l - bound)) l else l.

Definition planning_context (tick : N) (authority : AuthorityVector) (f : Fabric) : PlanningContext :=
  mkPlanningContext (Some (fb_policy f)) (fb_topology f) tick (fb_epoch f) authority.

(** [plan_outcome_locked]. *)
Definition plan_outcome_locked (domain : N) (out : EvaluationOutcome) : Op InterventionPlan :=
  let! tick := now in
  let! authority := authority_locked in
  let! f := op_get id in
  let context := planning_context tick authority f in
  let active := default [] (om_find domain (fb_intents f)) in
  let! plan := op_lift (make_plan out context active) in
  let live := keep_last (fo_max_active_interventions (fb_options f))
                (filter (fun i => intent_expired_at i tick = false) active) in
  let retained := live ++ filter (fun i => bound_to i authority = true) (ip_authorized plan) in
  do! op_each (retain_intent authority) (ip_authorized plan) then
  do! op_modify (fun f => f
    <| fb_stats ::= fun s => s <| fbs_interventions_suppressed ::= fun n => n + size64 (ip_suppressed plan) |> |>
    <| fb_intents ::= om_insert domain retained |>
    <| fb_explanations ::= fun m =>
         match om_find domain m with
         | Some e => om_insert domain (e <| ex_authorized := ip_authorized plan |>
                                         <| ex_suppressed := ip_suppressed plan |>) m
         | None => m
         end |>) then
  op_ret plan.

(** The second half of [plan_cancellable]: the mutex was released in between, so it
    is a step of its own on an outcome that may be outdated. *)
Definition plan_evaluated (domain : N) (out : EvaluationOutcome) : Op InterventionPlan :=
  do! ensure_open then plan_outcome_locked domain out.

Definition fabric_plan_cancellable (domain : N) (before at_start at_commit : bool) : Op InterventionPlan :=
  do! cancellation_point before then
  let! out := fabric_evaluate_cancellable domain at_start at_commit in
  plan_evaluated domain out.

Definition fabric_plan (domain : N) : Op InterventionPlan := fabric_plan_cancellable domain false false false.

Definition not_found {A : Type} (message : string) (domain : N) : Result A :=
  fail_detail NotFound message (id_to_string "domain" domain).

Definition fabric_plan_last (domain : N) : Op InterventionPlan :=
  do! ensure_open then
  let! found := op_get (fun f => om_find domain (fb_last_outcomes f)) in
  match found with
  | None => op_lift (not_found "no evaluation has been committed for this domain" domain)
  | Some out => plan_outcome_locked domain out
  end.

Definition fabric_explain_last (domain : N) (f : Fabric) : Result Explanation :=
  match om_find domain (fb_explanations f) with
  | None => not_found "no explanation is available for this domain" domain
  | Some e => Ok e
  end.

Definition fabric_explain (domain : N) : Op Explanation :=
  let! found := op_get (fun f => om_find domain (fb_explanations f)) in
  match found with
  | Some e => op_ret e
  | None =>
      do! fabric_evaluate domain then
      let! last := op_get (fun f => om_find domain (fb_last_outcomes f)) in
      match last with
      | None => op_lift (not_found "no explanation is available for this domain" domain)
      | Some _ =>
          do! fabric_plan_last domain then
          let! f := op_get id in
          op_lift (fabric_explain_last domain f)
      end
  end.

(** ** Queries *)

Definition fabric_domain_state (domain : N) (f : Fabric) : Result DomainState :=
  match om_find domain (fb_domains f) with
  | None => not_found "domain has no recorded state" domain
  | Some s => Ok s
  end.

Definition fabric_domains (f : Fabric) : list N := map fst (fb_domains f).
Definition evidence_entry_count (f : Fabric) : N := size64 (fb_evidence f).
Definition active_intents (domain : N) (f : Fabric) : list InterventionIntent :=
  default [] (om_find domain (fb_intents f)).

(** ** Epoch and lifecycle *)

(** The fence of a registered incarnation at the end of an epoch. *)
Definition epoch_fence (previous tick : N) (reason : FenceReason) (publisher : N) (r : PublisherRegistration) :
    FenceRecord :=
  let record := mkFenceRecord 0 previous publisher (pr_boot r) (pr_last_generation r) reason tick
    (compute_provenance_id PkEpochAdvance publisher (pr_boot r) previous tick)
    "epoch advanced; the incarnation must re-register" in
  record <| fr_id := fence_identity record |>.

(** The fences of all registered incarnations, by publisher. *)
Definition epoch_fences (previous tick : N) (reason : FenceReason) (publishers : gmap N PublisherRegistration) :
    list FenceRecord :=
  omap (fun publisher => epoch_fence previous tick reason publisher <$> publishers !! publisher)
    (sort_unique (map fst (map_to_list publishers))).

(** A domain at the start of a new epoch. *)
Definition demote_domain (epoch generation : N) (s : DomainState) : DomainState :=
  (if is_authoritative (ds_state s) then s <| ds_state := StStale |> else s)
    <| ds_requires_revalidation := true |> <| ds_candidate := StUnknown |> <| ds_candidate_streak := 0 |>
    <| ds_epoch := epoch |> <| ds_authority_generation := generation |>.

(** The state in memory once the epoch has advanced. *)
Definition next_epoch (tick : N) (reason : FenceReason) (f : Fabric) : Fabric * list FenceRecord :=
  let previous := fb_epoch f in
  let f := f <| fb_epoch := w64 (previous + 1) |> <| fb_authority_generation ::= fun g => w64 (g + 1) |>
             <| fb_stats ::= fun s => s <| fbs_epoch_advances ::= N.succ |> |> in
  let records := epoch_fences previous tick reason (fb_publishers f) in
  (f <| fb_publishers := ∅ |> <| fb_evidence := [] |> <| fb_intents := [] |>
     <| fb_domains ::= map (fun e : N * DomainState =>
          (e.1, demote_domain (fb_epoch f) (fb_authority_generation f) e.2)) |>
     <| fb_fences ::= fun m => foldl (fun m record => fence_insert record m) m records |>
     <| fb_stats ::= fun s => s <| fbs_fences_issued ::= N.add (size64 records) |> |>,
   records).

Definition persist_epoch (records : list FenceRecord) : Op unit :=
  if_durable (
    let! stamp := make_stamp PkEpochAdvance in
    let! f := op_get id in
    do! durable_write (advance_epoch io (fb_epoch f) (fb_boot f) (fbr_boot_counter (fb_open_report f)) stamp) then
    do! op_each (fun record => durable_write (append_fence io record stamp)) records then
    op_each (fun entry : N * DomainState => durable_write (put_domain_state io entry.2 stamp)) (fb_domains f)).

Definition fabric_advance_epoch (reason : FenceReason) : Op N :=
  do! ensure_open then
  let! tick := now in
  let! f := op_get id in
  let '(f', records) := next_epoch tick reason f in
  do! op_modify (fun _ => f') then
  do! persist_epoch records then
  op_get fb_epoch.

Definition fabric_flush : Op unit :=
  fun f => (match fb_store f with None => Ok tt | Some s => store_sync io s end, f).

Definition fabric_close : Op unit :=
  fun f =>
    if fb_closed f then (Ok tt, f)
    else (match fb_store f with None => Ok tt | Some s => store_sync io s end, f <| fb_closed := true |>).

(** ** Opening *)

(** The fences of the document: a later record of an incarnation replaces an earlier one. *)
Definition restore_fences (fences : list FenceRecord) : list (N * list (N * FenceRecord)) :=
  foldl (fun m record => fence_insert record m) [] fences.

(** A fabric that has not read anything yet; [policy_] is not read before it is set. *)
Definition fresh_fabric (options : FabricOptions) : Fabric :=
  mkFabric options 0 None None None make_default_policy false 0 0 0 [] [] ∅ [] [] [] [] fabric_stats_default
    fabric_open_report_default false.

(** What is taken over from the durable document. *)
Definition load_document (s : Store) (f : Fabric) : Fabric :=
  let d := sto_document s in
  let index := match doc_topology d with
               | Some t => match build_index t with Ok index => Some index | Err _ => None end
               | None => None
               end in
  f <| fb_store := Some s |>
    <| fb_fences := restore_fences (doc_fences d) |>
    <| fb_policy ::= fun p => default p (doc_policy d) |>
    <| fb_has_policy := bool_decide (is_Some (doc_policy d)) |>
    <| fb_topology := index |>
    <| fb_capacity := doc_capacity d |>
    <| fb_open_report ::= fun r => r
         <| fbr_store := sto_report s |>
         <| fbr_history_entries := size64 (doc_history d) |>
         <| fbr_interventions_restored := size64 (doc_interventions d) |>
         <| fbr_fences_restored := size64 (doc_fences d) |>
         <| fbr_policy_restored := bool_decide (is_Some (doc_policy d)) |>
         <| fbr_topology_restored := bool_decide (is_Some index) |>
         <| fbr_capacity_restored := bool_decide (is_Some (doc_capacity d)) |> |>.

(** The epoch and boot counter of this boot. *)
Definition boot_epoch (d : option DurableDocument) : N * N :=
  match d with
  | Some d => if valid (doc_epoch d) then (w64 (doc_epoch d + 1), w64 (doc_coordinator_boot_counter d + 1)) else (1, 1)
  | None => (1, 1)
  end.

Definition start_epoch (tick epoch counter : N) (f : Fabric) : Fabric :=
  f <| fb_epoch := epoch |> <| fb_boot := derive_boot epoch tick counter |> <| fb_authority_generation := epoch |>
    <| fb_open_report ::= fun r => r <| fbr_epoch := epoch |> <| fbr_boot := derive_boot epoch tick counter |>
         <| fbr_boot_counter := counter |> <| fbr_durable := bool_decide (is_Some (fb_store f)) |> |>.

(** A restored domain, demoted. *)
Definition restored_domain (f : Fabric) (s : DomainState) : DomainState :=
  s <| ds_state := (demote_after_recovery (ds_state s) (ds_last_authoritative_tick s)).1 |>
    <| ds_candidate := StUnknown |> <| ds_candidate_streak := 0 |> <| ds_requires_revalidation := true |>
    <| ds_epoch := fb_epoch f |> <| ds_authority_generation := fb_authority_generation f |>
    <| ds_policy := cpol_id (fb_policy f) |> <| ds_policy_fingerprint := cpol_fingerprint (fb_policy f) |>.

(** What [open] does with one restored domain. *)
Definition restore_domain (tick : N) (stamp : MutationStamp) (s : DomainState) : Op unit :=
  let! f := op_get id in
  let updated := restored_domain f s in
  do! op_modify (fun f => f <| fb_domains ::= om_insert (ds_domain updated) updated |>
    <| fb_open_report ::= fun r => r <| fbr_domains_restored ::= N.succ |>
         <| fbr_domains_demoted ::= if bool_decide (ds_state updated = ds_state s) then id else N.succ |> |>) then
  do! on_store (put_domain_state io updated stamp) then
  on_store (write_revalidation io
    (mkRevalidationRecord (ds_domain updated) (ds_epoch s) (fb_epoch f) (ds_state s) (ds_state updated) true false false
       tick (ms_provenance stamp) "restart demotion: telemetry freshness is never restored as current") stamp).

(** The durable part of the start, after the epoch was chosen. *)
Definition commit_boot (tick : N) : Op unit :=
  if_durable (
    let! stamp := make_stamp PkCoordinatorBoot in
    let! f := op_get id in
    do! (if fbr_policy_restored (fb_open_report f) then op_ret tt
         else on_store (set_policy io (fb_policy f) stamp)) then
    do! on_store (advance_epoch io (fb_epoch f) (fb_boot f) (fbr_boot_counter (fb_open_report f)) stamp) then
    let! restored := op_get (fun f => match fb_store f with Some s => doc_domains (sto_document s) | None => [] end) in
    op_each (restore_domain tick stamp) restored).

(** The default policy, when the document had none. *)
Definition default_policy : Op unit :=
  let! has_policy := op_get fb_has_policy in
  if has_policy then op_ret tt
  else
    match validate_policy make_default_policy with
    | Err _ => op_lift (fail Internal "the built-in default policy failed validation")
    | Ok policy => op_modify (fun f => f <| fb_policy := policy |> <| fb_has_policy := true |>)
    end.

(** [Fabric::open], on what the state directory holds. *)
Definition open_durable (dir : Directory) : Op unit :=
  fun f =>
    if fo_persist (fb_options f) && negb (String.eqb (fo_state_directory (fb_options f)) "") then
      match open_store io (fo_state_directory (fb_options f)) (fo_store (fb_options f)) dir with
      | Err e => (Err e, f)
      | Ok s => (Ok tt, load_document s f)
      end
    else (Ok tt, f).

Definition boot_steps (tick : N) : Op unit :=
  do! op_modify (fun f =>
    let '(epoch, counter) := boot_epoch (sto_document <$> fb_store f) in start_epoch tick epoch counter f) then
  do! default_policy then
  commit_boot tick.

Definition open_steps (dir : Directory) : Op unit :=
  let! tick := now in
  do! open_durable dir then
  boot_steps tick.

Definition fabric_open (options : FabricOptions) (dir : Directory) : Result Fabric :=
  match open_steps dir (fresh_fabric options) with
  | (Ok _, f) => Ok f
  | (Err e, _) => Err e
  end.
End Operations.

(** * Properties *)

(** ** What the clock, the statistics and the store do not touch *)

(** The decision state: everything but the clock, the statistics, the durable store
    and what was published. *)
Definition core (f : Fabric) :=
  (fb_options f, fb_closed f, fb_topology f, fb_capacity f, fb_policy f, fb_has_policy f,
   (fb_epoch f, fb_boot f, fb_authority_generation f),
   (fb_domains f, fb_intents f, fb_publishers f, fb_fences f, fb_evidence f)).

Definition same_core (f f' : Fabric) : Prop := core f = core f'.

#[export] Instance same_core_equivalence : Equivalence same_core.
Proof. split; unfold same_core; repeat intro; congruence. Qed.

Lemma same_core_fields (f f' : Fabric) : same_core f f' ->
  (fb_options f = fb_options f' /\ fb_closed f = fb_closed f') /\
  (fb_topology f = fb_topology f' /\ fb_policy f = fb_policy f' /\ fb_has_policy f = fb_has_policy f') /\
  (fb_epoch f = fb_epoch f' /\ fb_authority_generation f = fb_authority_generation f') /\
  (fb_domains f = fb_domains f' /\ fb_intents f = fb_intents f' /\ fb_publishers f = fb_publishers f' /\
   fb_fences f = fb_fences f' /\ fb_evidence f = fb_evidence f').
Proof. unfold same_core, core. intros H. injection H as; repeat split; assumption. Qed.

(** An operation that leaves the decision state alone. *)
Definition neutral {A : Type} (m : Op A) : Prop := forall f, same_core (m f).2 f.

Create HintDb neutral.

Lemma neutral_ret {A : Type} (a : A) : neutral (op_ret a).
Proof. by intros f. Qed.
Lemma neutral_lift {A : Type} (r : Result A) : neutral (op_lift r).
Proof. by intros f. Qed.
Lemma neutral_get {A : Type} (read : Fabric -> A) : neutral (op_get read).
Proof. by intros f. Qed.
Lemma neutral_count (change : FabricStats -> FabricStats) : neutral (count change).
Proof. by intros f. Qed.

Lemma neutral_bind {A B : Type} (m : Op A) (k : A -> Op B) :
  neutral m -> (forall a, neutral (k a)) -> neutral (op_bind m k).
Proof.
  intros Hm Hk f. unfold op_bind. pose proof (Hm f) as H. destruct (m f) as [[e|a] f']; cbn [snd] in *; [done|].
  etransitivity; [apply Hk|done].
Qed.

Lemma neutral_each {A : Type} (body : A -> Op unit) (l : list A) :
  (forall x, neutral (body x)) -> neutral (op_each body l).
Proof. intros H. induction l as [|x l IH]; [apply neutral_ret|]. by apply neutral_bind. Qed.

Lemma neutral_if (b : bool) {A : Type} (m k : Op A) : neutral m -> neutral k -> neutral (if b then m else k).
Proof. by destruct b. Qed.

#[export] Hint Resolve @neutral_ret @neutral_lift @neutral_get neutral_count @neutral_bind @neutral_each @neutral_if : neutral.

Section Neutral.
Context (clock : N -> N) (io : StoreIo).

Lemma neutral_now : neutral (now clock).
Proof. by intros f. Qed.
Lemma neutral_ensure_open : neutral ensure_open.
Proof. by intros f. Qed.
#[local] Hint Resolve neutral_now neutral_ensure_open : neutral.
Lemma neutral_make_stamp (kind : ProvenanceKind) : neutral (make_stamp clock kind).
Proof. unfold make_stamp. auto with neutral. Qed.
Lemma neutral_authority : neutral (authority_locked clock).
Proof. unfold authority_locked. auto with neutral. Qed.

Lemma neutral_on_store (call : Store -> Result unit * Store) : neutral (on_store call).
Proof. intros f. unfold on_store. destruct (fb_store f) as [s|]; [|done]. by destruct (call s). Qed.

Lemma neutral_durable_write (call : Store -> Result unit * Store) : neutral (durable_write call).
Proof.
  intros f. unfold durable_write. pose proof (neutral_on_store call f) as H.
  by destruct (on_store call f) as [[e|[]] f'].
Qed.

Lemma neutral_if_durable (body : Op unit) : neutral body -> neutral (if_durable body).
Proof. intros H f. unfold if_durable. by destruct (fb_store f). Qed.

#[local] Hint Resolve neutral_make_stamp neutral_authority neutral_on_store neutral_durable_write neutral_if_durable
  : neutral.

Lemma neutral_persist (kind : ProvenanceKind) (call : MutationStamp -> Store -> Result unit * Store) :
  neutral (persist clock kind call).
Proof. unfold persist. auto with neutral. Qed.

Lemma neutral_cancellation_point (cancelled : bool) : neutral (cancellation_point cancelled).
Proof. unfold cancellation_point. auto with neutral. Qed.

Lemma neutral_collect_evidence (domain : N) : neutral (collect_evidence clock domain).
Proof. unfold collect_evidence. auto with neutral. Qed.

Lemma neutral_persist_outcome (domain tick : N) (out : EvaluationOutcome) :
  neutral (persist_outcome clock io domain tick out).
Proof. unfold persist_outcome. auto 10 with neutral. Qed.

#[local] Hint Resolve neutral_persist : neutral.

Lemma neutral_retain_intent (authority : AuthorityVector) (i : InterventionIntent) :
  neutral (retain_intent clock io authority i).
Proof. unfold retain_intent. auto 10 with neutral. Qed.

Lemma neutral_persist_epoch (records : list FenceRecord) : neutral (persist_epoch clock io records).
Proof. unfold persist_epoch. auto 15 with neutral. Qed.

Lemma publish_outcome_core (domain tick granted : N) (out : EvaluationOutcome) (f : Fabric) :
  same_core (publish_outcome domain tick granted out f) f.
Proof. done. Qed.
End Neutral.

#[export] Hint Resolve neutral_now neutral_ensure_open neutral_make_stamp neutral_authority neutral_on_store
  neutral_durable_write neutral_if_durable neutral_persist neutral_cancellation_point neutral_collect_evidence
  neutral_persist_outcome neutral_retain_intent neutral_persist_epoch : neutral.
