(* ===== verification/FabricInvariant.v ===== *)
(** * FabricInvariant: the invariant of the coordinator's state

    [fabric_ok] holds of a fabric that was opened on any directory and stays under
    every operation, with any clock and whatever the operating system answers.  The
    operations are analysed once here: what each does to the decision state is
    stated as an effect ([fence_effect], [ingest_sample_cases], [evaluate_effect],
    [plan_effect]) that the properties in FabricSafety.v reuse. *)

From stdpp Require Import gmap.
From Stdlib Require Import Strings.Byte.
From S2P Require Import Prelude Core Enums OMap Evidence Authority Policy Topology State Intervention.
From S2P Require Import Explanation Evaluator Planner.
From S2P Require Import Journal StoreCodec Snapshot Store Fabric.

Open Scope N_scope.

(** ** The invariant *)

Lemma fence_find_insert (record : FenceRecord) (m : list (N * list (N * FenceRecord))) (publisher boot : N) :
  fence_find publisher boot (fence_insert record m)
  = if bool_decide (fr_publisher record = publisher /\ fr_boot record = boot) then Some record
    else fence_find publisher boot m.
Proof.
  unfold fence_find, fence_insert. destruct (decide (fr_publisher record = publisher)) as [<-|Hp].
  - rewrite om_find_insert_eq. destruct (decide (fr_boot record = boot)) as [<-|Hb].
    + by rewrite om_find_insert_eq, bool_decide_eq_true_2.
    + rewrite om_find_insert_ne by done. rewrite bool_decide_eq_false_2 by (by intros [_ ?]).
      by destruct (om_find _ m).
  - rewrite om_find_insert_ne by done. by rewrite bool_decide_eq_false_2 by (by intros [? _]).
Qed.

Lemma fence_insert_keeps (record : FenceRecord) (m : list (N * list (N * FenceRecord))) (publisher boot : N) :
  fence_find publisher boot (fence_insert record m) = None -> fence_find publisher boot m = None.
Proof. rewrite fence_find_insert. by case_bool_decide. Qed.

(** An intent that is bound to the authority of the moment. *)
Definition current_intent (f : Fabric) (i : InterventionIntent) : Prop :=
  ii_epoch i = fb_epoch f /\ ii_authority_generation i = fb_authority_generation f /\
  ii_policy i = cpol_id (fb_policy f) /\ ii_policy_fingerprint i = cpol_fingerprint (fb_policy f).

(** An entry of the evidence window. *)
Definition current_sample (f : Fabric) (e : EvidenceKey * EvidenceSample) : Prop :=
  e.1 = evidence_key e.2 /\ valid (es_resource e.2) = true /\ es_epoch e.2 = fb_epoch f /\
  fence_find (es_publisher e.2) (es_publisher_boot e.2) (fb_fences f) = None.

(** A registration of the moment. *)
Definition current_registration (f : Fabric) (publisher : N) (r : PublisherRegistration) : Prop :=
  pr_publisher r = publisher /\ valid publisher = true /\ valid (pr_boot r) = true /\ pr_epoch r = fb_epoch f /\
  fence_find publisher (pr_boot r) (fb_fences f) = None /\
  N.land (pr_granted r) (fo_local_denied (fb_options f)) = 0.

Record fabric_ok (f : Fabric) : Prop := {
  fok_policy : fb_has_policy f = true /\ policy_ok (fb_policy f);
  fok_topology : forall t, fb_topology f = Some t -> exists s, index_of s t;
  fok_domains : om_sorted (fb_domains f) /\
    Forall (fun e : N * DomainState => ds_domain e.2 = e.1 /\ ds_epoch e.2 = fb_epoch f) (fb_domains f);
  fok_intents : om_sorted (fb_intents f) /\
    Forall (fun e : N * list InterventionIntent => Forall (current_intent f) e.2) (fb_intents f);
  fok_publishers : map_Forall (current_registration f) (fb_publishers f);
  fok_publisher_count : N.of_nat (size (fb_publishers f)) <= fo_max_publishers (fb_options f);
  fok_evidence : om_sorted (fb_evidence f) /\ Forall (current_sample f) (fb_evidence f);
  fok_evidence_count : size64 (fb_evidence f) <= fo_max_evidence_entries (fb_options f)
}.

(** The invariant is about the decision state. *)
#[export] Instance fabric_ok_proper : Proper (same_core ==> iff) fabric_ok.
Proof.
  assert (forall f f', same_core f f' -> fabric_ok f -> fabric_ok f') as H.
  { intros f f' ((Eo & _) & (Et & Ep & Eh) & (Ee & Eg) & (Ed & Ei & Eu & Ef & Ev))%same_core_fields.
    intros [Hp Ht Hd Hi Hu Hn He Hc].
    split; unfold current_intent, current_sample, current_registration in *;
      rewrite <- ?Eo, <- ?Et, <- ?Ep, <- ?Eh, <- ?Ee, <- ?Eg, <- ?Ed, <- ?Ei, <- ?Eu, <- ?Ef, <- ?Ev; assumption. }
  intros f f' E. split; apply H; [done|by symmetry].
Qed.

Lemma ok_same (f f' : Fabric) : same_core f' f -> fabric_ok f -> fabric_ok f'.
Proof. by intros ->. Qed.

Lemma neutral_ok {A : Type} (m : Op A) (f : Fabric) : neutral m -> fabric_ok f -> fabric_ok (m f).2.
Proof. intros Hm H. by rewrite (Hm f). Qed.

(** An operation that keeps the invariant, whatever it answers. *)
Definition keeps {A : Type} (m : Op A) : Prop := forall f, fabric_ok f -> fabric_ok (m f).2.

Lemma keeps_neutral {A : Type} (m : Op A) : neutral m -> keeps m.
Proof. intros Hm f H. by apply neutral_ok. Qed.

Lemma keeps_bind {A B : Type} (m : Op A) (k : A -> Op B) : keeps m -> (forall a, keeps (k a)) -> keeps (op_bind m k).
Proof.
  intros Hm Hk f Hf. unfold op_bind. pose proof (Hm f Hf) as H. destruct (m f) as [[e|a] f']; cbn [snd] in *; [done|].
  by apply Hk.
Qed.

(** One step of an operation, as an equation. *)
Lemma bind_case {A B : Type} (m : Op A) (k : A -> Op B) (f : Fabric) :
  op_bind m k f = match m f with (Ok a, f') => k a f' | (Err e, f') => (Err e, f') end.
Proof. done. Qed.

Lemma bind_lift {A B : Type} (r : Result A) (k : A -> Op B) (f : Fabric) :
  op_bind (op_lift r) k f = match r with Ok a => k a f | Err e => (Err e, f) end.
Proof. by destruct r. Qed.

Lemma bind_open {B : Type} (k : unit -> Op B) (f : Fabric) :
  op_bind ensure_open k f = if fb_closed f then (fail Closed "fabric is closed", f) else k tt f.
Proof. unfold op_bind, ensure_open. by destruct (fb_closed f). Qed.

Lemma bind_get {A B : Type} (read : Fabric -> A) (k : A -> Op B) (f : Fabric) : op_bind (op_get read) k f = k (read f) f.
Proof. done. Qed.

Lemma bind_state {B : Type} (k : Fabric -> Op B) (f : Fabric) : op_bind (op_get id) k f = k f f.
Proof. done. Qed.

Lemma bind_modify {B : Type} (change : Fabric -> Fabric) (k : unit -> Op B) (f : Fabric) :
  op_bind (op_modify change) k f = k tt (change f).
Proof. done. Qed.

Lemma bind_guard {B : Type} (b : bool) (c : ErrCode) (message : string) (k : unit -> Op B) (f : Fabric) :
  op_bind (op_lift (guard b c message (Ok tt))) k f = if b then (fail c message, f) else k tt f.
Proof. by destruct b. Qed.

Lemma om_map_sorted {V W : Type} (g : N * V -> N * W) (m : list (N * V)) :
  (forall e, (g e).1 = e.1) -> om_sorted m -> om_sorted (map g m).
Proof.
  intros Hg. unfold om_sorted. induction 1 as [|e m Hm IH Hall]; cbn [map]; constructor; [done|].
  apply Forall_map. eapply Forall_impl; [exact Hall|]. intros e' He. cbn. by rewrite !Hg.
Qed.

Lemma om_empty_sorted {V : Type} : @om_sorted N V _ [].
Proof. constructor. Qed.

(** What may change the authority: afterwards no intent is outstanding. *)
Lemma invalidate_ok (f g : Fabric) :
  fabric_ok f -> (fb_has_policy g = true /\ policy_ok (fb_policy g)) ->
  (forall t, fb_topology g = Some t -> exists s, index_of s t) ->
  (fb_options g, fb_epoch g, fb_domains g, fb_publishers g, fb_fences g, fb_evidence g)
  = (fb_options f, fb_epoch f, fb_domains f, fb_publishers f, fb_fences f, fb_evidence f) ->
  fabric_ok (invalidate_generations g).
Proof.
  intros [_ _ [Hd Hdf] _ Hu Hn He Hc] Hp Ht [= Eo Ee Ed Eu Ef Ev].
  split; unfold current_sample, current_registration in *; cbn; rewrite ?Eo, ?Ee, ?Ed, ?Eu, ?Ef, ?Ev; try assumption.
  - split; [apply om_map_sorted; [by intros e; destruct (is_authoritative _)|done]|].
    apply Forall_map. eapply Forall_impl; [exact Hdf|]. intros e He'. cbn. by destruct (is_authoritative _).
  - split; [constructor|constructor].
Qed.

Section Preservation.
Context (clock : N -> N) (io : StoreIo).

Lemma bind_now {B : Type} (k : N -> Op B) (f : Fabric) :
  op_bind (now clock) k f = k (clock (fb_clock_reads f)) (f <| fb_clock_reads ::= N.succ |>).
Proof. done. Qed.

Lemma set_policy_keeps (p : CongestionPolicy) : keeps (fabric_set_policy clock io p).
Proof.
  intros f Hf. unfold fabric_set_policy. rewrite bind_lift. destruct (validate_policy p) as [|p'] eqn:Hp; [done|].
  rewrite bind_open. destruct (fb_closed f); [done|]. rewrite bind_get, bind_guard. destruct (_ <? _); [done|].
  rewrite bind_modify. apply neutral_ok; [auto with neutral|].
  apply (invalidate_ok f); [done| |apply (fok_topology _ Hf)|done].
  split; [done|]. by apply (validated_policy_ok p).
Qed.

Lemma build_index_Ok (s : TopologySnapshot) (t : TopologyIndex) : build_index s = Ok t -> index_of s t.
Proof.
  unfold build_index. destruct (build s) as [[e|t']|] eqn:E; cbn; [done| |done].
  intros ->%Ok_inj. by apply build_index_of.
Qed.

Lemma set_topology_keeps (t : TopologySnapshot) : keeps (fabric_set_topology clock io t).
Proof.
  intros f Hf. unfold fabric_set_topology. rewrite bind_lift. destruct (build_index t) as [|index] eqn:Hi; [done|].
  rewrite bind_open. destruct (fb_closed f); [done|]. rewrite bind_modify. apply neutral_ok; [auto with neutral|].
  apply (invalidate_ok f); [done|apply (fok_policy _ Hf)| |done].
  intros t' [= <-]. exists t. by apply build_index_Ok.
Qed.

Lemma set_capacity_keeps (c : CapacitySnapshot) : keeps (fabric_set_capacity clock io c).
Proof.
  intros f Hf. unfold fabric_set_capacity. rewrite bind_lift. destruct (validate_capacity c); [done|].
  rewrite bind_open. destruct (fb_closed f); [done|]. rewrite bind_modify. apply neutral_ok; [auto with neutral|].
  by destruct Hf.
Qed.

Lemma insert_registration_ok (f : Fabric) (publisher : N) (r : PublisherRegistration) :
  fabric_ok f -> current_registration f publisher r ->
  (N.of_nat (size (fb_publishers f)) < fo_max_publishers (fb_options f) \/ is_Some (fb_publishers f !! publisher)) ->
  fabric_ok (f <| fb_publishers ::= <[publisher := r]> |>).
Proof.
  intros [Hp Ht Hd Hi Hu Hn He Hc] Hr Hroom. split; cbn; try assumption.
  - by apply map_Forall_insert_2.
  - rewrite map_size_insert. destruct (fb_publishers f !! publisher); [done|].
    destruct Hroom as [Hroom|[? ?]]; [lia|done].
Qed.

Lemma delete_registration_ok (f : Fabric) (publisher : N) :
  fabric_ok f -> fabric_ok (f <| fb_publishers ::= delete publisher |>).
Proof.
  intros [Hp Ht Hd Hi Hu Hn He Hc]. split; cbn; try assumption.
  - by apply map_Forall_delete.
  - eapply N.le_trans; [|exact Hn]. rewrite map_size_delete. destruct (fb_publishers f !! publisher); [|done].
    generalize (size (fb_publishers f)). intros n. lia.
Qed.

Lemma register_keeps (publisher boot requested : N) : keeps (fabric_register_publisher clock publisher boot requested).
Proof.
  intros f Hf. unfold fabric_register_publisher. rewrite bind_guard.
  destruct (negb (valid publisher) || negb (valid boot)) eqn:Hv; [done|]. reflect_bools.
  rewrite bind_open. destruct (fb_closed f); [done|]. rewrite bind_state, bind_guard.
  case_bool_decide as Hfence; [done|]. rewrite bind_guard.
  destruct ((fo_max_publishers _ <=? _) && _) eqn:Hroom; [done|]. rewrite bind_now, bind_modify.
  apply (insert_registration_ok (f <| fb_clock_reads ::= N.succ |>)); [by apply (neutral_ok (now clock))| |].
  - unfold current_registration. cbn. repeat split; try done.
    + by apply eq_None_not_Some.
    + apply N.bits_inj_0. intros i. rewrite !N.land_spec. unfold w32. destruct (N.lt_ge_cases i 32) as [Hi|Hi].
      * rewrite N.mod_pow2_bits_low, N.lnot_spec_low by done. destruct (N.testbit (fo_local_denied (fb_options f)) i); [by rewrite andb_false_r|by rewrite andb_false_r].
      * rewrite N.mod_pow2_bits_high by done. by rewrite andb_false_r.
  - cbn. apply andb_false_iff in Hroom as [Hroom|Hroom]; reflect_bools; [by left|right].
    by apply not_eq_None_Some.
Qed.

(** The registration a fence removes. *)
Definition drop_registration (publisher boot : N) (f : Fabric) : Fabric :=
  match registered publisher boot f with Some _ => f <| fb_publishers ::= delete publisher |> | None => f end.

Lemma drop_registration_ok (publisher boot : N) (f : Fabric) :
  fabric_ok f -> fabric_ok (drop_registration publisher boot f).
Proof. intros Hf. unfold drop_registration. destruct (registered _ _ f); [by apply delete_registration_ok|done]. Qed.

Lemma drop_registration_gone (publisher boot : N) (f : Fabric) :
  registered publisher boot (drop_registration publisher boot f) = None.
Proof.
  unfold drop_registration. destruct (registered publisher boot f) eqn:E; [|done].
  unfold registered. cbn. by rewrite lookup_delete_eq.
Qed.

(** The effect of a fence on the decision state. *)
Definition install_fence (record : FenceRecord) (f : Fabric) : Fabric :=
  f <| fb_fences ::= fence_insert record |>
    <| fb_evidence ::= filter (fun entry : EvidenceKey * EvidenceSample =>
         from_incarnation (fr_publisher record) (fr_boot record) entry.2 = false) |>.

Lemma install_fence_ok (record : FenceRecord) (f : Fabric) :
  fabric_ok f -> registered (fr_publisher record) (fr_boot record) f = None -> fabric_ok (install_fence record f).
Proof.
  intros [Hp Ht Hd Hi Hu Hn He Hc] Hgone. split; cbn; try assumption.
  - intros p r Hr. destruct (Hu p r Hr) as (H1 & H2 & H3 & H4 & H5 & H6). repeat split; try assumption. cbn.
    rewrite fence_find_insert. case_bool_decide as Hc'; [|done]. destruct Hc' as [E1 E2].
    unfold registered in Hgone. by rewrite E1, Hr, E2, N.eqb_refl in Hgone.
  - destruct He as [Hs Hall]. split; [by apply om_sorted_filter|]. apply Forall_forall. intros e Hin.
    apply list_elem_of_filter in Hin as [Hne Hin]. rewrite Forall_forall in Hall.
    destruct (Hall e Hin) as (H1 & H2 & H3 & H4). repeat split; try assumption. cbn.
    rewrite fence_find_insert. case_bool_decide as Hc'; [|done]. destruct Hc' as [E1 E2].
    unfold from_incarnation in Hne. by rewrite E1, E2, !N.eqb_refl in Hne.
  - unfold size64 in *. pose proof (length_filter
      (fun entry : EvidenceKey * EvidenceSample => from_incarnation (fr_publisher record) (fr_boot record) entry.2 = false)
      (fb_evidence f)). lia.
Qed.

(** Fencing is a refusal, or the record of this incarnation is installed and its
    registration dropped, whatever becomes of the durable write. *)
Lemma fence_effect (publisher boot : N) (reason : FenceReason) (detail : string) (f : Fabric) :
  let r := fence_publisher_locked clock io publisher boot reason detail f in
  (negb (valid publisher) || negb (valid boot) = true /\ r = (fail InvalidArgument
     "fencing needs both publisher and boot identities", f)) \/
  (negb (valid publisher) || negb (valid boot) = false /\ exists record,
     fr_publisher record = publisher /\ fr_boot record = boot /\ fr_epoch record = fb_epoch f /\
     fr_reason record = reason /\ same_core r.2 (install_fence record (drop_registration publisher boot f)) /\
     (forall record', r.1 = Ok record' -> record' = record)).
Proof.
  cbv zeta. unfold fence_publisher_locked. rewrite bind_guard.
  destruct (negb (valid publisher) || negb (valid boot)) eqn:Hv; [by left|right]. split; [done|].
  rewrite bind_get, bind_modify, bind_now, bind_state, bind_modify.
  match goal with |- context [op_bind (persist clock PkFence (append_fence io ?x))] => set (record := x) end.
  exists record. assert (forall g, same_core (op_bind (persist clock PkFence (append_fence io record))
    (fun _ => op_ret record) g).2 g) as Hn by (intros g; apply neutral_bind; auto with neutral).
  split; [done|]. split; [done|]. split; [unfold record; cbn; by destruct (registered publisher boot f)|].
  split; [done|]. split.
  - rewrite Hn. unfold install_fence, drop_registration. by destruct (registered publisher boot f).
  - intros record'. unfold op_bind. destruct (persist _ _ _ _) as [[e|a] f']; cbn; [done|]. by intros <-%Ok_inj.
Qed.

Lemma fence_locked_keeps (publisher boot : N) (reason : FenceReason) (detail : string) :
  keeps (fence_publisher_locked clock io publisher boot reason detail).
Proof.
  intros f Hf. destruct (fence_effect publisher boot reason detail f) as [[_ ->]|(_ & record & <- & <- & _ & _ & E & _)];
    [done|]. rewrite E. apply install_fence_ok; [by apply drop_registration_ok|apply drop_registration_gone].
Qed.

Lemma keeps_open : keeps ensure_open.
Proof. apply keeps_neutral. auto with neutral. Qed.

Lemma fence_keeps (publisher boot : N) (reason : FenceReason) (detail : string) :
  keeps (fabric_fence_publisher clock io publisher boot reason detail).
Proof. apply keeps_bind; [apply keeps_open|]. intros _. apply fence_locked_keeps. Qed.

Lemma unregister_keeps (publisher boot : N) (reason : FenceReason) (detail : string) :
  keeps (fabric_unregister_publisher clock io publisher boot reason detail).
Proof.
  apply keeps_bind; [apply keeps_open|]. intros _. case_bool_decide; [by intros f|]. case_bool_decide.
  - intros f Hf. cbn. by apply (drop_registration_ok publisher boot).
  - apply keeps_bind; [apply fence_locked_keeps|by intros _ f].
Qed.

Lemma registered_Some (publisher boot : N) (f : Fabric) (r : PublisherRegistration) :
  registered publisher boot f = Some r <-> fb_publishers f !! publisher = Some r /\ pr_boot r = boot.
Proof.
  unfold registered. destruct (fb_publishers f !! publisher) as [r'|]; [|split; [discriminate|intros [H _]; discriminate H]].
  destruct (N.eqb_spec (pr_boot r') boot) as [E|E]; split.
  - intros H. injection H as <-. by split.
  - by intros [H _].
  - discriminate.
  - intros [H Hb]. injection H as <-. done.
Qed.

Lemma heartbeat_keeps (publisher boot : N) : keeps (fabric_heartbeat clock publisher boot).
Proof.
  intros f Hf. unfold fabric_heartbeat. rewrite bind_open. destruct (fb_closed f); [done|].
  rewrite bind_state, bind_lift. unfold fabric_lookup_publisher.
  destruct (registered publisher boot f) as [r|] eqn:Hr; [|exact Hf]. apply registered_Some in Hr as [Hr _].
  rewrite bind_now. apply (insert_registration_ok (f <| fb_clock_reads ::= N.succ |>)).
  - by apply (neutral_ok (now clock)).
  - apply (fok_publishers _ Hf) in Hr. exact Hr.
  - right. cbn. by rewrite Hr.
Qed.

(** *** Ingest *)

(** The sample as the window keeps it. *)
Definition received (tick : N) (sample : EvidenceSample) : EvidenceSample :=
  let sample := sample <| es_received_tick := tick |> in sample <| es_snapshot := compute_snapshot_id sample |>.

Definition processed (report : IngestReport) : N := ig_accepted report + ig_rejected report + ig_duplicate report.

(** What a sample needs to be taken. *)
Record admissible (f : Fabric) (sample : EvidenceSample) (r : PublisherRegistration) : Prop := {
  adm_resource : valid (es_resource sample) = true;
  adm_epoch : es_epoch sample = fb_epoch f;
  adm_registered : registered (es_publisher sample) (es_publisher_boot sample) f = Some r;
  adm_unfenced : fence_find (es_publisher sample) (es_publisher_boot sample) (fb_fences f) = None;
  adm_generation : pr_last_generation r <= es_generation sample
}.

(** A refused sample is counted once and changes nothing else. *)
Definition refused (st st' : Fabric * IngestReport) : Prop :=
  processed st'.2 = processed st.2 + 1 /\ same_core st'.1 st.1 /\ ig_accepted st'.2 = ig_accepted st.2.

Lemma reject_refused (change : IngestReport -> IngestReport) (stats : FabricStats -> FabricStats)
    (st : Fabric * IngestReport) :
  (forall g, processed (change g) = processed g /\ ig_accepted (change g) = ig_accepted g) ->
  refused st (reject_sample change stats st).
Proof.
  intros Hc. destruct (Hc (st.2 <| ig_rejected ::= N.succ |>)) as [H1 H2].
  unfold refused, reject_sample. cbn [fst snd]. rewrite H1, H2. split; [unfold processed; cbn; lia|done].
Qed.

(** An accepted sample is counted once, refreshes its registration and, unless it is
    a heartbeat, enters the window in the place of an older reading or in a free one. *)
Definition taken (tick : N) (sample : EvidenceSample) (st st' : Fabric * IngestReport) : Prop :=
  exists r, admissible st.1 sample r /\
    (is_heartbeat sample = true /\ st' = accept_sample tick (received tick sample) r st \/
     is_heartbeat sample = false /\
     st' = accept_sample tick (received tick sample) r (record_sample (received tick sample) st) /\
     match om_find (evidence_key sample) (fb_evidence st.1) with
     | None => size64 (fb_evidence st.1) < fo_max_evidence_entries (fb_options st.1)
     | Some previous => supersedes (received tick sample) previous = true
     end).

Lemma ingest_sample_cases (tick : N) (st : Fabric * IngestReport) (sample : EvidenceSample) :
  refused st (ingest_sample tick st sample) \/ taken tick sample st (ingest_sample tick st sample).
Proof.
  unfold ingest_sample. destruct (valid (es_resource sample)) eqn:Hres; cbn [negb]; [|left; by apply reject_refused].
  destruct (N.eqb_spec (es_epoch sample) (fb_epoch st.1)) as [Hepoch|]; cbn [negb]; [|left; by apply reject_refused].
  destruct (registered _ _ st.1) as [r|] eqn:Hr; [|left; by apply reject_refused].
  unfold fabric_is_fenced. case_bool_decide as Hfence; [left; by apply reject_refused|].
  apply eq_None_not_Some in Hfence.
  destruct (N.ltb_spec (es_generation sample) (pr_last_generation r)) as [|Hgen]; [left; by apply reject_refused|].
  fold (received tick sample). assert (admissible st.1 sample r) as Hadm by (by split).
  destruct (is_heartbeat sample) eqn:Hbeat; [right; exists r; by auto|].
  change (evidence_key (received tick sample)) with (evidence_key sample).
  destruct (om_find (evidence_key sample) (fb_evidence st.1)) as [previous|] eqn:Hfind.
  - destruct (supersedes (received tick sample) previous) eqn:Hsup; cbn [negb].
    + right. exists r. split; [done|]. right. by rewrite Hfind.
    + left. split; [unfold processed; cbn; lia|done].
  - destruct (N.leb_spec (fo_max_evidence_entries (fb_options st.1)) (size64 (fb_evidence st.1))) as [Hfull|Hroom].
    + left. by apply reject_refused.
    + right. exists r. split; [done|]. right. by rewrite Hfind.
Qed.

Lemma refresh_registration_current (f : Fabric) (tick : N) (sample : EvidenceSample) (r : PublisherRegistration) (p : N) :
  current_registration f p r -> current_registration f p (refresh_registration tick sample r).
Proof. done. Qed.

Lemma record_sample_ok (f : Fabric) (tick : N) (sample : EvidenceSample) (r : PublisherRegistration) :
  fabric_ok f -> admissible f sample r ->
  match om_find (evidence_key sample) (fb_evidence f) with
  | None => size64 (fb_evidence f) < fo_max_evidence_entries (fb_options f)
  | Some previous => supersedes (received tick sample) previous = true
  end ->
  fabric_ok (f <| fb_evidence ::= om_insert (evidence_key sample) (received tick sample) |>).
Proof.
  intros [Hp Ht Hd Hi Hu Hn [Hs Hall] Hc] [A1 A2 A3 A4 A5] Hroom. split; cbn; try assumption.
  - split; [by apply om_sorted_insert|]. apply om_insert_Forall; [done|exact Hall].
  - unfold size64 in *. rewrite om_insert_length by done. destruct (om_find _ _); [done|]. lia.
Qed.

Lemma taken_ok (tick : N) (sample : EvidenceSample) (st st' : Fabric * IngestReport) :
  fabric_ok st.1 -> taken tick sample st st' -> fabric_ok st'.1.
Proof.
  intros Hf (r & Hadm & Hcase). pose proof (adm_registered _ _ _ Hadm) as [Hr _]%registered_Some.
  assert (forall f, fabric_ok f -> fb_publishers f = fb_publishers st.1 ->
    fabric_ok (f <| fb_publishers ::= <[es_publisher sample := refresh_registration tick (received tick sample) r]> |>)) as Hacc.
  { intros f Hok E. apply insert_registration_ok; [done| |right; by rewrite E, Hr].
    apply refresh_registration_current, (fok_publishers _ Hok). by rewrite E. }
  destruct Hcase as [[_ ->]|(_ & -> & Hroom)]; cbn [fst accept_sample].
  - refine (ok_same _ _ _ (Hacc st.1 Hf eq_refl)). done.
  - pose proof (record_sample_ok st.1 tick sample r Hf Hadm Hroom) as Hok.
    refine (ok_same _ _ _ (Hacc _ Hok eq_refl)). done.
Qed.

Lemma ingest_samples_ok (tick : N) (samples : list EvidenceSample) (st : Fabric * IngestReport) :
  fabric_ok st.1 -> fabric_ok (foldl (ingest_sample tick) st samples).1.
Proof.
  intros Hf. apply foldl_inv; [done|]. intros acc sample _ Hacc.
  destruct (ingest_sample_cases tick acc sample) as [(_ & E & _)|H]; [by rewrite E|by apply (taken_ok tick sample acc)].
Qed.

Lemma ingest_keeps (batch : EvidenceBatch) : keeps (fabric_ingest clock batch).
Proof.
  intros f Hf. unfold fabric_ingest. rewrite bind_guard. destruct (_ <? _); [done|].
  rewrite bind_open. destruct (fb_closed f); [done|]. rewrite bind_now. unfold count. rewrite bind_modify.
  match goal with |- context [foldl ?step (?g, ?report) ?l] =>
    pose proof (ingest_samples_ok (clock (fb_clock_reads f)) l (g, report)) as H;
    destruct (foldl step (g, report) l) as [f' report'] end.
  apply H. by apply (ok_same f).
Qed.

(** *** Evaluation *)

(** The outcome is what the evaluator answers on this state, for this evidence, at
    some readings of the clock. *)
Definition evaluated (f : Fabric) (domain : N) (batch : EvidenceBatch) (out : EvaluationOutcome) : Prop :=
  exists tick issued,
    evaluate (mkEvaluationRequest domain batch (fb_epoch f) (live_authority issued f) tick 0)
      (default domain_state_default (om_find domain (fb_domains f)))
      (evaluation_context tick (live_authority issued f) f) = Ok out.

Lemma fabric_context_ok (f : Fabric) (tick : N) (authority : AuthorityVector) :
  fabric_ok f -> context_ok (evaluation_context tick authority f).
Proof.
  intros Hf. split; cbn.
  - intros p [= <-]. apply (fok_policy _ Hf).
  - apply (fok_topology _ Hf).
Qed.

Lemma bind_authority {B : Type} (k : AuthorityVector -> Op B) (f : Fabric) :
  op_bind (authority_locked clock) k f
  = k (live_authority (clock (fb_clock_reads f)) f) (f <| fb_clock_reads ::= N.succ |>).
Proof. done. Qed.

Lemma bind_cancellation {B : Type} (cancelled : bool) (k : unit -> Op B) (f : Fabric) :
  op_bind (cancellation_point cancelled) k f
  = if cancelled then (Err cancelled_status, f <| fb_stats ::= fun s => s <| fbs_cancellations ::= N.succ |> |>)
    else k tt f.
Proof. by destruct cancelled. Qed.

(** What follows an evaluation changes the decision state by the outcome only. *)
Lemma commit_outcome_core (domain tick granted : N) (out : EvaluationOutcome) (f : Fabric) :
  let r := (do! op_modify (install_outcome domain out) then
            do! persist_outcome clock io domain tick out then
            do! op_modify (publish_outcome domain tick granted out) then op_ret out) f in
  same_core r.2 (install_outcome domain out f) /\ (forall out', r.1 = Ok out' -> out' = out).
Proof.
  cbv zeta. rewrite bind_modify. pose proof (neutral_persist_outcome clock io domain tick out (install_outcome domain out f)) as H.
  rewrite bind_case. destruct (persist_outcome clock io domain tick out (install_outcome domain out f)) as [[e|[]] f'];
    cbn [snd fst] in *; (split; [|]).
  - exact H.
  - done.
  - rewrite <- H. done.
  - by intros out' <-%Ok_inj.
Qed.

(** An evaluation commits its outcome to the state, or leaves the state alone. *)
Lemma evaluate_effect (domain : N) (batch : EvidenceBatch) (at_start at_commit : bool) (f : Fabric) :
  let r := evaluate_locked clock io domain batch at_start at_commit f in
  (same_core r.2 f /\ ok r.1 = false) \/
  (at_start = false /\ at_commit = false /\ exists out, evaluated f domain batch out /\
     same_core r.2 (install_outcome domain out f) /\ (forall out', r.1 = Ok out' -> out' = out)).
Proof.
  cbv zeta. unfold evaluate_locked. rewrite bind_cancellation. destruct at_start; [by left|].
  rewrite bind_get, bind_guard. destruct (negb _); [by left|]. rewrite bind_now, bind_authority, bind_state, bind_lift.
  match goal with |- context [evaluate ?q ?p ?c] => destruct (evaluate q p c) as [e|out] eqn:E end; [by left|].
  rewrite bind_cancellation. destruct at_commit; [by left|]. right. split; [done|]. split; [done|]. exists out.
  split; [exists (clock (fb_clock_reads f)), (clock (N.succ (fb_clock_reads f))); exact E|].
  match goal with |- context [op_bind (op_modify (install_outcome domain out)) ?k ?g] =>
    destruct (commit_outcome_core domain (clock (fb_clock_reads f))
      (av_granted (live_authority (clock (N.succ (fb_clock_reads f))) (f <| fb_clock_reads ::= N.succ |>))) out g) as [H1 H2]
  end.
  split; [|exact H2]. etransitivity; [exact H1|]. done.
Qed.

(** An evaluation that answers its outcome wrote it first. *)
Lemma evaluate_cancellable_Ok (domain : N) (f g : Fabric) (out : EvaluationOutcome) :
  fabric_evaluate clock io domain f = (Ok out, g) ->
  exists batch collected, collect_evidence clock domain f = (Ok batch, collected) /\ evaluated f domain batch out /\
  exists tick start h,
    persist_outcome clock io domain tick out start = (Ok tt, h) /\
    fb_store start = fb_store f /\ fb_store g = fb_store h /\ same_core g (install_outcome domain out f).
Proof.
  unfold fabric_evaluate, fabric_evaluate_cancellable. rewrite bind_open. destruct (fb_closed f) eqn:Hclosed; [discriminate|].
  assert (exists batch, collect_evidence clock domain f = (Ok batch, f <| fb_clock_reads ::= N.succ |>)) as [batch E]
    by by eexists.
  rewrite bind_case, E. intros H. exists batch, (f <| fb_clock_reads ::= N.succ |>). split; [reflexivity|]. clear E. unfold evaluate_locked in H. rewrite bind_cancellation, bind_get, bind_guard in H.
  destruct (negb _); [discriminate H|]. rewrite bind_now, bind_authority, bind_state, bind_lift in H.
  match type of H with context [evaluate ?q ?p ?c] => destruct (evaluate q p c) as [e|out'] eqn:E end; [discriminate H|].
  rewrite bind_cancellation, bind_modify, bind_case in H.
  match type of H with context [persist_outcome clock io domain ?t out' ?h0] =>
    pose proof (neutral_persist_outcome clock io domain t out' h0) as Hn; set (tick := t) in *; set (start := h0) in *;
    destruct (persist_outcome clock io domain tick out' start) as [[e|[]] h] eqn:Ep end; [discriminate H|].
  rewrite bind_modify in H. unfold op_ret in H. injection H as <- <-.
  split; [exists (clock (N.succ (fb_clock_reads f))), (clock (N.succ (N.succ (fb_clock_reads f)))); exact E|].
  exists tick, start, h.
  split; [exact Ep|]. split; [reflexivity|]. split; [reflexivity|].
  etransitivity; [apply publish_outcome_core|]. etransitivity; [exact Hn|]. reflexivity.
Qed.


Lemma install_outcome_ok (domain : N) (batch : EvidenceBatch) (out : EvaluationOutcome) (f : Fabric) :
  fabric_ok f -> evaluated f domain batch out -> fabric_ok (install_outcome domain out f).
Proof.
  intros [Hp Ht [Hs Hd] [His Hi] Hu Hn He Hc] (tick & issued & Hev).
  destruct (evaluate_identity _ _ _ _ Hev) as (_ & _ & E1 & E2 & _). split; cbn; try assumption.
  - split; [by apply om_sorted_insert|]. by apply om_insert_Forall.
  - destruct (eo_authoritative out); [done|]. cbn. split; [by apply om_sorted_erase|].
    apply Forall_forall. intros e [_ Hin]%om_erase_elem. rewrite Forall_forall in Hi. by apply Hi.
Qed.

Lemma evaluate_locked_keeps (domain : N) (batch : EvidenceBatch) (at_start at_commit : bool) :
  keeps (evaluate_locked clock io domain batch at_start at_commit).
Proof.
  intros f Hf. destruct (evaluate_effect domain batch at_start at_commit f)
    as [[E _]|(_ & _ & out & Hev & E & _)]; rewrite E; [done|]. by apply (install_outcome_ok domain batch).
Qed.

Lemma evaluate_cancellable_keeps (domain : N) (at_start at_commit : bool) :
  keeps (fabric_evaluate_cancellable clock io domain at_start at_commit).
Proof.
  apply keeps_bind; [apply keeps_open|]. intros _. apply keeps_bind; [apply keeps_neutral; auto with neutral|].
  intros batch. apply evaluate_locked_keeps.
Qed.

Lemma evaluate_request_keeps (request : EvaluationRequest) : keeps (fabric_evaluate_request clock io request).
Proof. apply keeps_bind; [apply keeps_open|]. intros _. apply evaluate_locked_keeps. Qed.

(** *** Planning *)

(** The intents that outlive a plan. *)
Definition retain_intents (domain : N) (tick : N) (authority : AuthorityVector) (plan : InterventionPlan) (f : Fabric) :
    list InterventionIntent :=
  keep_last (fo_max_active_interventions (fb_options f))
    (filter (fun i => intent_expired_at i tick = false) (active_intents domain f))
  ++ filter (fun i => bound_to i authority = true) (ip_authorized plan).

#[export] Instance set_intents_proper (g : list (N * list InterventionIntent) -> list (N * list InterventionIntent)) :
  Proper (same_core ==> same_core) (fun f => f <| fb_intents ::= g |>).
Proof.
  intros f f' E. destruct f, f'. unfold same_core, core in *. cbn in *. injection E. intros. subst. reflexivity.
Qed.

Lemma plan_effect (domain : N) (out : EvaluationOutcome) (f : Fabric) :
  let r := plan_outcome_locked clock io domain out f in
  let tick := clock (fb_clock_reads f) in
  let issued := clock (N.succ (fb_clock_reads f)) in
  (same_core r.2 f /\ ok r.1 = false) \/
  exists plan, make_plan out (planning_context tick (live_authority issued f) f) (active_intents domain f) = Ok plan /\
    same_core r.2 (f <| fb_intents ::= om_insert domain (retain_intents domain tick (live_authority issued f) plan f) |>) /\
    r.1 = Ok plan.
Proof.
  cbv zeta. unfold plan_outcome_locked. rewrite bind_now, bind_authority, bind_state, bind_lift.
  match goal with |- context [make_plan ?o ?c ?a] => destruct (make_plan o c a) as [e|plan] eqn:E end; [by left|].
  match goal with |- context [op_bind (op_each ?body ?l) ?k ?g] =>
    assert (neutral (op_each body l)) as Hn by (apply neutral_each; auto with neutral);
    unfold op_bind; specialize (Hn g); destruct (op_each body l g) as [[e|[]] f'] end; cbn [fst snd] in *; [by left|].
  right. exists plan. split; [exact E|]. split; [|done].
  etransitivity; [|exact (set_intents_proper _ _ _ Hn)]. done.
Qed.

Lemma keep_last_Forall {A : Type} (P : A -> Prop) (bound : N) (l : list A) : Forall P l -> Forall P (keep_last bound l).
Proof. intros H. unfold keep_last. destruct (_ <? _); [by apply Forall_drop|done]. Qed.

Lemma bound_to_current (f : Fabric) (issued : N) (i : InterventionIntent) :
  bound_to i (live_authority issued f) = true <-> current_intent f i.
Proof.
  clear clock io. unfold bound_to, current_intent. cbn. rewrite !andb_true_iff, !N.eqb_eq. tauto.
Qed.

Lemma active_intents_current (f : Fabric) (domain : N) : fabric_ok f -> Forall (current_intent f) (active_intents domain f).
Proof.
  intros Hf. unfold active_intents. destruct (om_find domain (fb_intents f)) as [l|] eqn:E; [|constructor].
  apply om_find_elem in E. pose proof (fok_intents _ Hf) as [_ H]. rewrite Forall_forall in H. exact (H _ E).
Qed.

Lemma plan_locked_keeps (domain : N) (out : EvaluationOutcome) : keeps (plan_outcome_locked clock io domain out).
Proof.
  intros f Hf. destruct (plan_effect domain out f) as [[E _]|(plan & _ & E & _)]; rewrite E; [done|].
  pose proof (active_intents_current f domain Hf) as Hactive.
  destruct Hf as [Hp Ht Hd [His Hi] Hu Hn He Hc]. split; cbn; try assumption.
  split; [by apply om_sorted_insert|]. apply om_insert_Forall; [|done]. cbn. apply Forall_app. split.
  - apply keep_last_Forall, Forall_forall. intros i [_ Hin]%list_elem_of_filter. rewrite Forall_forall in Hactive. by apply Hactive.
  - apply Forall_forall. intros i [Hb _]%list_elem_of_filter. by apply bound_to_current in Hb.
Qed.

Lemma plan_evaluated_keeps (domain : N) (out : EvaluationOutcome) : keeps (plan_evaluated clock io domain out).
Proof. apply keeps_bind; [apply keeps_open|]. intros _. apply plan_locked_keeps. Qed.

Lemma plan_last_keeps (domain : N) : keeps (fabric_plan_last clock io domain).
Proof.
  intros f Hf. unfold fabric_plan_last. rewrite bind_open. destruct (fb_closed f); [done|]. rewrite bind_get.
  destruct (om_find domain (fb_last_outcomes f)) as [out|]; [by apply plan_locked_keeps|done].
Qed.

Lemma plan_cancellable_keeps (domain : N) (before at_start at_commit : bool) :
  keeps (fabric_plan_cancellable clock io domain before at_start at_commit).
Proof.
  apply keeps_bind; [apply keeps_neutral; auto with neutral|]. intros _.
  apply keeps_bind; [apply evaluate_cancellable_keeps|]. intros out. apply plan_evaluated_keeps.
Qed.

Lemma explain_keeps (domain : N) : keeps (fabric_explain clock io domain).
Proof.
  intros f Hf. unfold fabric_explain. rewrite bind_get. destruct (om_find domain (fb_explanations f)); [done|].
  refine (keeps_bind _ _ _ _ f Hf); [apply evaluate_cancellable_keeps|]. intros out g Hg. rewrite bind_get.
  destruct (om_find domain (fb_last_outcomes g)); [|done].
  refine (keeps_bind _ _ _ _ g Hg); [apply plan_last_keeps|]. by intros plan h Hh.
Qed.

(** *** Epochs and the end *)

Lemma demote_domain_spec (epoch generation : N) (s : DomainState) :
  is_authoritative (ds_state (demote_domain epoch generation s)) = false /\
  ds_requires_revalidation (demote_domain epoch generation s) = true /\
  ds_domain (demote_domain epoch generation s) = ds_domain s /\ ds_epoch (demote_domain epoch generation s) = epoch.
Proof. unfold demote_domain. by destruct (is_authoritative (ds_state s)) eqn:E. Qed.

Lemma next_epoch_ok (tick : N) (reason : FenceReason) (f : Fabric) :
  fabric_ok f -> fabric_ok (next_epoch tick reason f).1.
Proof.
  intros [Hp Ht [Hs Hd] Hi Hu Hn He Hc]. split; cbn; try done.
  - split; [by apply om_map_sorted|]. apply Forall_map. eapply Forall_impl; [exact Hd|]. intros e [He' _].
    destruct (demote_domain_spec (w64 (fb_epoch f + 1)) (w64 (fb_authority_generation f + 1)) e.2) as (_ & _ & E1 & E2).
    split; [exact (eq_trans E1 He')|exact E2].
  - split; [constructor|constructor].
  - apply N.le_0_l.
  - split; [constructor|constructor].
  - apply N.le_0_l.
Qed.

(** Whatever the durable writes answer, the epoch has advanced in memory. *)
Lemma advance_effect (reason : FenceReason) (f : Fabric) :
  let r := fabric_advance_epoch clock io reason f in
  (fb_closed f = true /\ r = (fail Closed "fabric is closed", f)) \/
  (fb_closed f = false /\ exists tick reads,
     same_core r.2 (next_epoch tick reason (f <| fb_clock_reads := reads |>)).1 /\
     (forall e, r.1 = Ok e -> e = w64 (fb_epoch f + 1))).
Proof.
  cbv zeta. unfold fabric_advance_epoch. rewrite bind_open. destruct (fb_closed f) eqn:Hclosed; [by left|right].
  split; [done|]. rewrite bind_now, bind_state.
  exists (clock (fb_clock_reads f)), (N.succ (fb_clock_reads f)).
  change (f <| fb_clock_reads ::= N.succ |>) with (f <| fb_clock_reads := N.succ (fb_clock_reads f) |>).
  destruct (next_epoch (clock (fb_clock_reads f)) reason (f <| fb_clock_reads := N.succ (fb_clock_reads f) |>))
    as [f' records] eqn:E. rewrite bind_modify, bind_case.
  assert (fb_epoch f' = w64 (fb_epoch f + 1)) as Hepoch by (apply (f_equal (fun x => fb_epoch x.1)) in E; symmetry; exact E).
  pose proof (neutral_persist_epoch clock io records f') as Hn.
  destruct (persist_epoch clock io records f') as [[e|[]] g]; cbn [fst snd] in *; (split; [exact Hn|]); [done|].
  intros e He. apply Ok_inj in He. subst e. apply same_core_fields in Hn as (_ & _ & (Hn & _) & _).
  change (fb_epoch g = w64 (fb_epoch f + 1)). congruence.
Qed.

Lemma advance_keeps (reason : FenceReason) : keeps (fabric_advance_epoch clock io reason).
Proof.
  intros f Hf. destruct (advance_effect reason f) as [[_ ->]|(_ & tick & reads & E & _)]; [done|]. rewrite E.
  apply next_epoch_ok. by apply (ok_same f).
Qed.

Lemma close_keeps : keeps (fabric_close io).
Proof. intros f Hf. unfold fabric_close. destruct (fb_closed f); [done|]. by destruct Hf. Qed.

(** ** Opening *)

(** What has no domain, no publisher, no evidence and no intent yet. *)
Record unused (f : Fabric) : Prop := {
  un_domains : fb_domains f = [];
  un_intents : fb_intents f = [];
  un_publishers : fb_publishers f = ∅;
  un_evidence : fb_evidence f = [];
  un_topology : forall t, fb_topology f = Some t -> exists s, index_of s t;
  un_policy : fb_has_policy f = true -> policy_ok (fb_policy f)
}.

Lemma default_policy_effect (f : Fabric) :
  exists p, default_policy f = (Ok tt, f <| fb_policy := p |> <| fb_has_policy := true |>) /\
    (unused f -> policy_ok p) /\ (fb_has_policy f = true -> p = fb_policy f).
Proof.
  unfold default_policy. rewrite bind_get. destruct (fb_has_policy f) eqn:E.
  - exists (fb_policy f). split; [|split; [intros H; by apply (un_policy f H)|done]].
    destruct f. cbn in *. by subst.
  - destruct (validate_policy make_default_policy) as [e|p] eqn:Hp.
    + exfalso. assert (ok (validate_policy make_default_policy) = true) as H by (vm_compute; reflexivity).
      by rewrite Hp in H.
    + exists p. split; [done|]. split; [|done]. intros _. by apply (validated_policy_ok make_default_policy p).
Qed.

Lemma unused_ok (f : Fabric) : unused f -> fb_has_policy f = true -> fabric_ok f.
Proof.
  intros [Hd Hi Hu He Ht Hp] H. split; rewrite ?Hd, ?Hi, ?Hu, ?He; try (split; constructor); try done.
  - split; [done|by apply Hp].
  - rewrite map_size_empty. apply N.le_0_l.
  - apply N.le_0_l.
Qed.

Lemma load_document_unused (s : Store) (f : Fabric) :
  document_ok (sto_document s) -> unused f -> unused (load_document s f).
Proof.
  intros Hs [Hd Hi Hu He Ht Hp]. split; cbn; try assumption.
  - intros t. destruct (doc_topology (sto_document s)) as [u|]; [|done].
    destruct (build_index u) as [e|index] eqn:E; [done|]. intros [= <-]. exists u. by apply build_index_Ok.
  - intros H. apply bool_decide_eq_true in H as [p Hdoc]. rewrite Hdoc. cbn. by apply (dok_policy _ Hs).
Qed.

Lemma restored_domain_spec (f : Fabric) (s : DomainState) :
  ds_domain (restored_domain f s) = ds_domain s /\ ds_epoch (restored_domain f s) = fb_epoch f /\
  is_authoritative (ds_state (restored_domain f s)) = false /\ ds_requires_revalidation (restored_domain f s) = true.
Proof.
  split; [done|]. split; [done|]. split; [|done]. cbn. unfold demote_after_recovery.
  destruct (is_authoritative (ds_state s)) eqn:E; [|exact E]. by destruct (_ =? _).
Qed.

Lemma restore_domain_keeps (tick : N) (stamp : MutationStamp) (s : DomainState) :
  keeps (restore_domain io tick stamp s).
Proof.
  intros f Hf. unfold restore_domain. rewrite bind_state, bind_modify. apply neutral_ok; [auto with neutral|].
  destruct Hf as [Hp Ht [Hs Hd] Hi Hu Hn He Hc]. split; cbn; try assumption.
  split; [by apply om_sorted_insert|]. by apply om_insert_Forall.
Qed.

Lemma keeps_each {A : Type} (body : A -> Op unit) (l : list A) : (forall x, keeps (body x)) -> keeps (op_each body l).
Proof. intros H. induction l as [|x l IH]; [by intros f|]. by apply keeps_bind. Qed.

Lemma commit_boot_keeps (tick : N) : keeps (commit_boot clock io tick).
Proof.
  intros f Hf. unfold commit_boot, if_durable. destruct (fb_store f); [|done].
  refine (keeps_bind _ _ _ _ f Hf); [apply keeps_neutral; auto with neutral|]. intros stamp g Hg. rewrite bind_state.
  refine (keeps_bind _ _ _ _ g Hg); [apply keeps_neutral; destruct (fbr_policy_restored _); auto with neutral|]. intros _.
  apply keeps_bind; [apply keeps_neutral; auto with neutral|]. intros _.
  apply keeps_bind; [apply keeps_neutral; auto with neutral|]. intros restored.
  apply keeps_each. intros x. apply restore_domain_keeps.
Qed.

Lemma open_durable_unused (dir : Directory) (f : Fabric) :
  unused f -> unused (open_durable io dir f).2.
Proof.
  intros Hf. unfold open_durable. destruct (_ && _); [|done]. destruct (open_store _ _ _ _) as [e|s] eqn:E; [done|].
  apply load_document_unused; [by eapply open_store_ok|done].
Qed.

Lemma boot_steps_ok (tick : N) (f : Fabric) : unused f -> fabric_ok (boot_steps clock io tick f).2.
Proof.
  intros Hf. unfold boot_steps. rewrite bind_modify. destruct (boot_epoch _) as [epoch counter].
  set (g := start_epoch _ _ _ f). assert (unused g) as Hg by (by destruct Hf). clearbody g.
  rewrite bind_case. destruct (default_policy_effect g) as (p & -> & Hp & _). apply commit_boot_keeps, unused_ok; [|done].
  destruct Hg. split; try assumption. cbn. intros _. by apply Hp.
Qed.

Lemma fabric_open_ok (options : FabricOptions) (dir : Directory) (f : Fabric) :
  fabric_open clock io options dir = Ok f -> fabric_ok f.
Proof.
  unfold fabric_open, open_steps. rewrite bind_now, bind_case. cbv beta.
  set (start := (fresh_fabric options) <| fb_clock_reads ::= N.succ |>).
  assert (unused start) as Hs by by split. clearbody start. pose proof (open_durable_unused dir start Hs) as Ho.
  destruct (open_durable io dir start) as [[e|[]] g]; [done|]. cbn [snd] in Ho.
  pose proof (boot_steps_ok (clock (fb_clock_reads (fresh_fabric options))) g Ho) as Hk.
  destruct (boot_steps _ _ _ g) as [[e|[]] h]; [done|]. by intros <-%Ok_inj.
Qed.
End Preservation.
