(* ===== verification/FabricSafety.v ===== *)
(** * FabricSafety: what the coordinator guarantees

    The calls of a fabric as data, the states that sequences of calls reach, and
    the properties of the decision state: the invariant, fencing, epochs, closing,
    cancellation, ingest, and what an authoritative outcome and an intent rest on. *)

From stdpp Require Import gmap.
From Stdlib Require Import Strings.Byte.
From S2P Require Import Prelude Core Enums OMap Evidence Authority Policy Topology State Intervention.
From S2P Require Import Explanation Evaluator Planner.
From S2P Require Import Journal StoreCodec Snapshot Store Fabric FabricInvariant.

Open Scope N_scope.

(** ** Calls and reachability *)

(** The steps of a fabric, each under one hold of the mutex.  [CaCancelled] is the
    first cancellation point of [plan_cancellable], [CaPlanEvaluated] its last
    part; the outcome is any, since other calls may have come in between. *)
Inductive FabricCall :=
| CaSetPolicy (policy : CongestionPolicy)
| CaSetTopology (topology : TopologySnapshot)
| CaSetCapacity (capacity : CapacitySnapshot)
| CaRegister (publisher boot requested : N)
| CaFence (publisher boot : N) (reason : FenceReason) (detail : string)
| CaUnregister (publisher boot : N) (reason : FenceReason) (detail : string)
| CaHeartbeat (publisher boot : N)
| CaIngest (batch : EvidenceBatch)
| CaEvaluateRequest (request : EvaluationRequest)
| CaEvaluate (domain : N) (at_start at_commit : bool)
| CaCancelled
| CaPlanEvaluated (domain : N) (out : EvaluationOutcome)
| CaPlanLast (domain : N)
| CaAdvanceEpoch (reason : FenceReason)
| CaFlush
| CaNow
| CaClose.

Definition after {A : Type} (m : Op A) (f : Fabric) : Fabric := (m f).2.

Definition perform (clock : N -> N) (io : StoreIo) (call : FabricCall) : Fabric -> Fabric :=
  match call with
  | CaSetPolicy policy => after (fabric_set_policy clock io policy)
  | CaSetTopology topology => after (fabric_set_topology clock io topology)
  | CaSetCapacity capacity => after (fabric_set_capacity clock io capacity)
  | CaRegister publisher boot requested => after (fabric_register_publisher clock publisher boot requested)
  | CaFence publisher boot reason detail => after (fabric_fence_publisher clock io publisher boot reason detail)
  | CaUnregister publisher boot reason detail =>
      after (fabric_unregister_publisher clock io publisher boot reason detail)
  | CaHeartbeat publisher boot => after (fabric_heartbeat clock publisher boot)
  | CaIngest batch => after (fabric_ingest clock batch)
  | CaEvaluateRequest request => after (fabric_evaluate_request clock io request)
  | CaEvaluate domain at_start at_commit => after (fabric_evaluate_cancellable clock io domain at_start at_commit)
  | CaCancelled => after (cancellation_point true)
  | CaPlanEvaluated domain out => after (plan_evaluated clock io domain out)
  | CaPlanLast domain => after (fabric_plan_last clock io domain)
  | CaAdvanceEpoch reason => after (fabric_advance_epoch clock io reason)
  | CaFlush => after (fabric_flush io)
  | CaNow => after (now clock)
  | CaClose => after (fabric_close io)
  end.

(** A fabric that was opened on some directory and then used, whatever the clock
    and the operating system did at each call. *)
Inductive reachable_fabric : Fabric -> Prop :=
| reach_opened clock io options dir f : fabric_open clock io options dir = Ok f -> reachable_fabric f
| reach_call clock io call f : reachable_fabric f -> reachable_fabric (perform clock io call f).

(** Calls in sequence. *)
Inductive follows : Fabric -> Fabric -> Prop :=
| follows_refl f : follows f f
| follows_call clock io call f g : follows f g -> follows f (perform clock io call g).

#[export] Instance follows_preorder : PreOrder follows.
Proof. split; [exact follows_refl|]. intros f g h Hfg Hgh. induction Hgh; [done|]. apply follows_call. auto. Qed.

Lemma reachable_follows (f g : Fabric) : reachable_fabric f -> follows f g -> reachable_fabric g.
Proof. intros Hf Hg. induction Hg; [done|]. apply reach_call. auto. Qed.

Lemma perform_keeps (clock : N -> N) (io : StoreIo) (call : FabricCall) (f : Fabric) :
  fabric_ok f -> fabric_ok (perform clock io call f).
Proof.
  intros Hf. unfold perform, after. destruct call;
    first [by apply set_policy_keeps | by apply set_topology_keeps | by apply set_capacity_keeps
          | by apply register_keeps | by apply fence_keeps | by apply unregister_keeps | by apply heartbeat_keeps
          | by apply ingest_keeps | by apply evaluate_request_keeps | by apply evaluate_cancellable_keeps
          | by apply plan_evaluated_keeps | by apply plan_last_keeps | by apply advance_keeps | by apply close_keeps
          | by apply neutral_ok; [auto with neutral|] | exact Hf].
Qed.

Lemma reachable_ok (f : Fabric) : reachable_fabric f -> fabric_ok f.
Proof. induction 1 as [clock io options dir f H|]; [by eapply fabric_open_ok|by apply perform_keeps]. Qed.

(** A plan is a sequence of calls, between which others may come. *)
Lemma plan_follows (clock : N -> N) (io : StoreIo) (domain : N) (before at_start at_commit : bool) (f : Fabric) :
  follows f (after (fabric_plan_cancellable clock io domain before at_start at_commit) f).
Proof.
  unfold after, fabric_plan_cancellable. rewrite bind_cancellation. destruct before.
  - exact (follows_call clock io CaCancelled f f (follows_refl f)).
  - rewrite bind_case.
    pose proof (follows_call clock io (CaEvaluate domain at_start at_commit) f f (follows_refl f)) as H.
    cbn [perform] in H. unfold after in H.
    destruct (fabric_evaluate_cancellable clock io domain at_start at_commit f) as [[e|out] g]; [exact H|].
    exact (follows_call clock io (CaPlanEvaluated domain out) f g H).
Qed.

Lemma explain_follows (clock : N -> N) (io : StoreIo) (domain : N) (f : Fabric) :
  follows f (after (fabric_explain clock io domain) f).
Proof.
  unfold after, fabric_explain. rewrite bind_get. destruct (om_find domain (fb_explanations f)); [reflexivity|].
  rewrite bind_case. pose proof (follows_call clock io (CaEvaluate domain false false) f f (follows_refl f)) as H.
  cbn [perform] in H. unfold after in H. unfold fabric_evaluate.
  destruct (fabric_evaluate_cancellable clock io domain false false f) as [[e|out] g]; [exact H|]. cbn [snd] in H.
  rewrite bind_get. destruct (om_find domain (fb_last_outcomes g)); [|exact H]. rewrite bind_case.
  pose proof (follows_call clock io (CaPlanLast domain) f g H) as H'. cbn [perform] in H'. unfold after in H'.
  by destruct (fabric_plan_last clock io domain g) as [[?|plan] h].
Qed.

(** ** Fences *)

(** No fence is taken back. *)
Definition fences_kept (f g : Fabric) : Prop :=
  forall publisher boot, fence_find publisher boot (fb_fences g) = None -> fence_find publisher boot (fb_fences f) = None.

#[export] Instance fences_kept_preorder : PreOrder fences_kept.
Proof. split; [by intros f p b|]. intros f g h H1 H2 p b H. by apply H1, H2. Qed.

Lemma same_fences (f g : Fabric) : fb_fences g = fb_fences f -> fences_kept f g.
Proof. intros E p b. by rewrite E. Qed.

Lemma same_core_fences (f g : Fabric) : same_core g f -> fences_kept f g.
Proof. intros (_ & _ & _ & (_ & _ & _ & E & _))%same_core_fields. by apply same_fences. Qed.

Definition keeps_fences {A : Type} (m : Op A) : Prop := forall f, fences_kept f (after m f).

Create HintDb fences.

Lemma fences_neutral {A : Type} (m : Op A) : neutral m -> keeps_fences m.
Proof. intros H f. apply same_core_fences, H. Qed.

Lemma fences_bind {A B : Type} (m : Op A) (k : A -> Op B) :
  keeps_fences m -> (forall a, keeps_fences (k a)) -> keeps_fences (op_bind m k).
Proof.
  intros Hm Hk f. unfold after. rewrite bind_case. pose proof (Hm f) as H. unfold after in H.
  destruct (m f) as [[?|a] g]; [exact H|]. etransitivity; [exact H|apply Hk].
Qed.

Lemma fences_modify (change : Fabric -> Fabric) :
  (forall f, fb_fences (change f) = fb_fences f) -> keeps_fences (op_modify change).
Proof. intros H f. apply same_fences, H. Qed.

Lemma fences_ret {A : Type} (a : A) : keeps_fences (op_ret a).
Proof. by intros f p b. Qed.
Lemma fences_lift {A : Type} (r : Result A) : keeps_fences (op_lift r).
Proof. by intros f p b. Qed.
Lemma fences_get {A : Type} (read : Fabric -> A) : keeps_fences (op_get read).
Proof. by intros f p b. Qed.

#[export] Hint Resolve fences_bind fences_ret fences_lift fences_get : fences.
#[export] Hint Extern 4 (keeps_fences _) => apply fences_neutral; solve [auto with neutral] : fences.
#[export] Hint Extern 2 (keeps_fences (op_modify _)) =>
  apply fences_modify; intros ?; repeat case_match; reflexivity : fences.

(** A fold of steps that keep the fences. *)
Lemma fences_fold {A : Type} (step : Fabric * IngestReport -> A -> Fabric * IngestReport) (l : list A)
    (st : Fabric * IngestReport) :
  (forall acc x, fences_kept acc.1 (step acc x).1) -> fences_kept st.1 (foldl step st l).1.
Proof.
  intros H. apply (foldl_inv (fun acc => fences_kept st.1 acc.1)); [reflexivity|].
  intros acc x _ Hacc. etransitivity; [exact Hacc|apply H].
Qed.

Section Fences.
Context (clock : N -> N) (io : StoreIo).

Lemma fence_locked_kept (publisher boot : N) (reason : FenceReason) (detail : string) :
  keeps_fences (fence_publisher_locked clock io publisher boot reason detail).
Proof.
  intros f. unfold after. destruct (fence_effect clock io publisher boot reason detail f)
    as [[_ ->]|(_ & record & <- & <- & _ & _ & E & _)]; [reflexivity|].
  etransitivity; [|apply same_core_fences, E]. intros p b. cbn. intros H%fence_insert_keeps.
  unfold drop_registration in H. by destruct (registered _ _ f).
Qed.

Lemma ingest_kept (batch : EvidenceBatch) : keeps_fences (fabric_ingest clock batch).
Proof.
  unfold fabric_ingest. apply fences_bind; [auto with fences|]. intros _. apply fences_bind; [auto with fences|]. intros _.
  apply fences_bind; [auto with fences|]. intros tick. apply fences_bind; [apply fences_neutral, neutral_count|].
  intros _ f. unfold after.
  pose proof (fences_fold (ingest_sample tick) (eb_samples batch) (f, ingest_report_default)) as H.
  destruct (foldl _ _ _) as [g report]. apply H. clear H. intros acc sample.
  destruct (ingest_sample_cases tick acc sample) as [(_ & E & _)|(r & _ & [[_ ->]|(_ & -> & _)])];
    [by apply same_core_fences|by apply same_fences|by apply same_fences].
Qed.

Lemma evaluate_locked_kept (domain : N) (batch : EvidenceBatch) (at_start at_commit : bool) :
  keeps_fences (evaluate_locked clock io domain batch at_start at_commit).
Proof.
  intros f. destruct (evaluate_effect clock io domain batch at_start at_commit f) as [[E _]|(_ & _ & out & _ & E & _)];
    [by apply same_core_fences|]. etransitivity; [|apply same_core_fences, E]. by apply same_fences.
Qed.

Lemma plan_locked_kept (domain : N) (out : EvaluationOutcome) : keeps_fences (plan_outcome_locked clock io domain out).
Proof.
  intros f. destruct (plan_effect clock io domain out f) as [[E _]|(plan & _ & E & _)];
    [by apply same_core_fences|]. etransitivity; [|apply same_core_fences, E]. by apply same_fences.
Qed.

Lemma fence_fold_keeps (records : list FenceRecord) (m : list (N * list (N * FenceRecord))) (publisher boot : N) :
  fence_find publisher boot (foldl (fun m record => fence_insert record m) m records) = None ->
  fence_find publisher boot m = None.
Proof.
  revert m. induction records as [|record records IH]; intros m H; [done|]. by apply IH, fence_insert_keeps in H.
Qed.

Lemma advance_kept (reason : FenceReason) : keeps_fences (fabric_advance_epoch clock io reason).
Proof.
  intros f. unfold after. destruct (advance_effect clock io reason f) as [[_ ->]|(_ & tick & reads & E & _)]; [reflexivity|].
  etransitivity; [|apply same_core_fences, E]. intros p b. cbn. apply fence_fold_keeps.
Qed.

#[local] Hint Resolve fence_locked_kept ingest_kept evaluate_locked_kept plan_locked_kept advance_kept : fences.

Lemma perform_fences (call : FabricCall) (f : Fabric) : fences_kept f (perform clock io call f).
Proof.
  destruct call; match goal with |- fences_kept ?f (perform _ _ ?c ?f) =>
    let m := eval cbn [perform] in (perform clock io c) in
    match m with after ?op => change (fences_kept f (after op f)); generalize f; change (keeps_fences op) end end.
  - unfold fabric_set_policy. auto 10 with fences.
  - unfold fabric_set_topology. auto 10 with fences.
  - unfold fabric_set_capacity. auto 10 with fences.
  - unfold fabric_register_publisher. auto 10 with fences.
  - unfold fabric_fence_publisher. auto 10 with fences.
  - unfold fabric_unregister_publisher. apply fences_bind; [auto with fences|]. intros _.
    repeat case_bool_decide; auto 10 with fences.
  - unfold fabric_heartbeat. auto 10 with fences.
  - auto with fences.
  - unfold fabric_evaluate_request. auto with fences.
  - unfold fabric_evaluate_cancellable. auto with fences.
  - auto with fences.
  - unfold plan_evaluated. auto with fences.
  - unfold fabric_plan_last. apply fences_bind; [auto with fences|]. intros _.
    apply fences_bind; [auto with fences|]. intros [out|]; auto with fences.
  - auto with fences.
  - by intros f' p b.
  - auto with fences.
  - intros f'. apply same_fences. unfold after, fabric_close. by destruct (fb_closed f').
Qed.
End Fences.

Lemma follows_fences (f g : Fabric) : follows f g -> fences_kept f g.
Proof. induction 1; [reflexivity|]. etransitivity; [eassumption|apply perform_fences]. Qed.

Lemma fenced_stays (f g : Fabric) (publisher boot : N) :
  follows f g -> fabric_is_fenced publisher boot f = true -> fabric_is_fenced publisher boot g = true.
Proof.
  intros Hg H. unfold fabric_is_fenced in *. apply bool_decide_eq_true in H. apply bool_decide_eq_true_2.
  apply not_eq_None_Some. intros Hn%(follows_fences f g Hg). rewrite Hn in H. by apply is_Some_None in H.
Qed.

(** An incarnation that dies is fenced, whatever becomes of the durable write. *)
Lemma unregister_fences (clock : N -> N) (io : StoreIo) (publisher boot : N) (reason : FenceReason) (detail : string)
    (f : Fabric) :
  fb_closed f = false -> reason <> FrNone -> reason <> FrCoordinatorRestart ->
  valid publisher = true -> valid boot = true ->
  fabric_is_fenced publisher boot (after (fabric_unregister_publisher clock io publisher boot reason detail) f) = true.
Proof.
  intros Hopen Hnone Hrestart Hp Hb. unfold after, fabric_unregister_publisher. rewrite bind_open, Hopen.
  rewrite !bool_decide_eq_false_2 by done. rewrite bind_case.
  destruct (fence_effect clock io publisher boot reason detail f)
    as [[Hbad _]|(_ & record & E1 & E2 & _ & _ & E & _)]; [by rewrite Hp, Hb in Hbad|].
  assert (fabric_is_fenced publisher boot (fence_publisher_locked clock io publisher boot reason detail f).2 = true) as H.
  { apply same_core_fields in E as (_ & _ & _ & (_ & _ & _ & E & _)). unfold fabric_is_fenced. rewrite E.
    apply bool_decide_eq_true_2. cbn. by rewrite fence_find_insert, bool_decide_eq_true_2 by done. }
  by destruct (fence_publisher_locked _ _ _ _ _ _ f) as [[e|a] g].
Qed.

Lemma fenced_gone (f : Fabric) (publisher boot : N) :
  fabric_ok f -> fabric_is_fenced publisher boot f = true ->
  registered publisher boot f = None /\
  Forall (fun e : EvidenceKey * EvidenceSample => from_incarnation publisher boot e.2 = false) (fb_evidence f).
Proof.
  intros Hf H. apply bool_decide_eq_true in H. split.
  - destruct (registered publisher boot f) as [r|] eqn:E; [|done]. apply registered_Some in E as [E <-].
    destruct (fok_publishers _ Hf _ _ E) as (_ & _ & _ & _ & Hn & _). rewrite Hn in H. by apply is_Some_None in H.
  - destruct (fok_evidence _ Hf) as [_ Hall]. eapply Forall_impl; [exact Hall|]. intros e (_ & _ & _ & Hn).
    destruct (from_incarnation publisher boot e.2) eqn:E; [|done]. unfold from_incarnation in E. reflect_bools.
    subst. rewrite Hn in H. by apply is_Some_None in H.
Qed.

(** ** Options *)

(** The options are those of the start, for the life of the fabric. *)
Definition keeps_options {A : Type} (m : Op A) : Prop := forall f, fb_options (after m f) = fb_options f.

Create HintDb options.

Lemma same_core_options (f g : Fabric) : same_core g f -> fb_options g = fb_options f.
Proof. by intros ([E _] & _)%same_core_fields. Qed.

Lemma options_neutral {A : Type} (m : Op A) : neutral m -> keeps_options m.
Proof. intros H f. apply same_core_options, H. Qed.

Lemma options_bind {A B : Type} (m : Op A) (k : A -> Op B) :
  keeps_options m -> (forall a, keeps_options (k a)) -> keeps_options (op_bind m k).
Proof.
  intros Hm Hk f. unfold after. rewrite bind_case. pose proof (Hm f) as H. unfold after in H.
  destruct (m f) as [[?|a] g]; [exact H|]. etransitivity; [apply Hk|exact H].
Qed.

Lemma options_modify (change : Fabric -> Fabric) :
  (forall f, fb_options (change f) = fb_options f) -> keeps_options (op_modify change).
Proof. by intros H f. Qed.

Lemma options_ret {A : Type} (a : A) : keeps_options (op_ret a).
Proof. by intros f. Qed.
Lemma options_lift {A : Type} (r : Result A) : keeps_options (op_lift r).
Proof. by intros f. Qed.
Lemma options_get {A : Type} (read : Fabric -> A) : keeps_options (op_get read).
Proof. by intros f. Qed.

Lemma options_each {A : Type} (body : A -> Op unit) (l : list A) :
  (forall x, keeps_options (body x)) -> keeps_options (op_each body l).
Proof.
  intros H. induction l as [|x l IH]; [apply options_ret|]. by apply options_bind.
Qed.

Lemma options_if_durable (body : Op unit) : keeps_options body -> keeps_options (if_durable body).
Proof. intros H f. unfold after, if_durable. destruct (fb_store f); [apply H|done]. Qed.

Lemma options_if {A : Type} (b : bool) (m k : Op A) : keeps_options m -> keeps_options k -> keeps_options (if b then m else k).
Proof. by destruct b. Qed.

#[export] Hint Resolve options_bind options_ret options_lift options_get options_each options_if_durable options_if : options.
#[export] Hint Extern 4 (keeps_options _) => apply options_neutral; solve [auto with neutral] : options.
#[export] Hint Extern 2 (keeps_options (op_modify _)) =>
  apply options_modify; intros ?; repeat case_match; reflexivity : options.

Section Options.
Context (clock : N -> N) (io : StoreIo).

Lemma fence_locked_options (publisher boot : N) (reason : FenceReason) (detail : string) :
  keeps_options (fence_publisher_locked clock io publisher boot reason detail).
Proof.
  intros f. unfold after. destruct (fence_effect clock io publisher boot reason detail f)
    as [[_ ->]|(_ & record & _ & _ & _ & _ & E & _)]; [reflexivity|].
  rewrite (same_core_options _ _ E). cbn. unfold drop_registration. by destruct (registered _ _ f).
Qed.

Lemma ingest_options (batch : EvidenceBatch) : keeps_options (fabric_ingest clock batch).
Proof.
  unfold fabric_ingest. apply options_bind; [auto with options|]. intros _. apply options_bind; [auto with options|]. intros _.
  apply options_bind; [auto with options|]. intros tick. apply options_bind; [apply options_neutral, neutral_count|].
  intros _ f. unfold after.
  assert (fb_options (foldl (ingest_sample tick) (f, ingest_report_default) (eb_samples batch)).1 = fb_options f) as H.
  { apply (foldl_inv (fun acc : Fabric * IngestReport => fb_options acc.1 = fb_options f)); [reflexivity|].
    intros acc sample _ <-. destruct (ingest_sample_cases tick acc sample) as [(_ & E & _)|(r & _ & [[_ ->]|(_ & -> & _)])];
      [by apply same_core_options|done|done]. }
  destruct (foldl _ _ _) as [g report]. exact H.
Qed.

Lemma evaluate_locked_options (domain : N) (batch : EvidenceBatch) (at_start at_commit : bool) :
  keeps_options (evaluate_locked clock io domain batch at_start at_commit).
Proof.
  intros f. unfold after. destruct (evaluate_effect clock io domain batch at_start at_commit f) as [[E _]|(_ & _ & out & _ & E & _)];
    by rewrite (same_core_options _ _ E).
Qed.

Lemma plan_locked_options (domain : N) (out : EvaluationOutcome) : keeps_options (plan_outcome_locked clock io domain out).
Proof.
  intros f. unfold after. destruct (plan_effect clock io domain out f) as [[E _]|(plan & _ & E & _)];
    by rewrite (same_core_options _ _ E).
Qed.

Lemma advance_options (reason : FenceReason) : keeps_options (fabric_advance_epoch clock io reason).
Proof.
  intros f. unfold after. destruct (advance_effect clock io reason f) as [[_ ->]|(_ & tick & reads & E & _)]; [reflexivity|].
  by rewrite (same_core_options _ _ E).
Qed.

#[local] Hint Resolve fence_locked_options ingest_options evaluate_locked_options plan_locked_options advance_options : options.

Lemma perform_options (call : FabricCall) (f : Fabric) : fb_options (perform clock io call f) = fb_options f.
Proof.
  destruct call; match goal with |- fb_options (perform _ _ ?c ?f) = _ =>
    let m := eval cbn [perform] in (perform clock io c) in
    match m with after ?op => change (fb_options (after op f) = fb_options f); generalize f; change (keeps_options op) end end.
  - unfold fabric_set_policy. auto 10 with options.
  - unfold fabric_set_topology. auto 10 with options.
  - unfold fabric_set_capacity. auto 10 with options.
  - unfold fabric_register_publisher. auto 10 with options.
  - unfold fabric_fence_publisher. auto 10 with options.
  - unfold fabric_unregister_publisher. apply options_bind; [auto with options|]. intros _.
    repeat case_bool_decide; auto 10 with options.
  - unfold fabric_heartbeat. auto 10 with options.
  - auto with options.
  - unfold fabric_evaluate_request. auto with options.
  - unfold fabric_evaluate_cancellable. auto with options.
  - auto with options.
  - unfold plan_evaluated. auto with options.
  - unfold fabric_plan_last. apply options_bind; [auto with options|]. intros _.
    apply options_bind; [auto with options|]. intros [out|]; auto with options.
  - auto with options.
  - by intros f'.
  - auto with options.
  - intros f'. unfold after, fabric_close. by destruct (fb_closed f').
Qed.

Lemma open_options (options : FabricOptions) (dir : Directory) (f : Fabric) :
  fabric_open clock io options dir = Ok f -> fb_options f = options.
Proof.
  unfold fabric_open. intros H. assert (fb_options (after (open_steps clock io dir) (fresh_fabric options)) = options) as E.
  { assert (keeps_options (open_steps clock io dir)) as Hk; [|apply (Hk (fresh_fabric options))].
    unfold open_steps. apply options_bind; [auto with options|]. intros tick. apply options_bind.
    - intros g. unfold after, open_durable. repeat case_match; reflexivity.
    - intros _. unfold boot_steps. apply options_bind.
      + apply options_modify. intros g. by destruct (boot_epoch _).
      + intros _. apply options_bind; [intros g; unfold after; by destruct (default_policy_effect g) as (p & -> & _)|]. intros _.
        unfold commit_boot, restore_domain. auto 25 with options. }
  unfold after in E. destruct (open_steps _ _ _ _) as [[e|u] g]; [discriminate H|]. by apply Ok_inj in H as <-.
Qed.
End Options.

Lemma follows_options (f g : Fabric) : follows f g -> fb_options g = fb_options f.
Proof. induction 1; [reflexivity|]. by rewrite perform_options. Qed.

(** ** Epochs *)

Lemma om_find_map {V W : Type} (g : V -> W) (k : N) (m : list (N * V)) :
  om_find k (map (fun e : N * V => (e.1, g e.2)) m) = g <$> om_find k m.
Proof. induction m as [|[k' v] m IH]; [done|]. cbn. by case_match. Qed.

Lemma fence_fold_installs (records : list FenceRecord) (m : list (N * list (N * FenceRecord))) (record : FenceRecord) :
  record ∈ records ->
  is_Some (fence_find (fr_publisher record) (fr_boot record) (foldl (fun m record => fence_insert record m) m records)).
Proof.
  intros Hin. apply list_elem_of_split in Hin as (l1 & l2 & ->). rewrite foldl_app. cbn [foldl].
  apply not_eq_None_Some. intros H%fence_fold_keeps. rewrite fence_find_insert, bool_decide_eq_true_2 in H by done.
  discriminate H.
Qed.

Lemma epoch_fences_elem (previous tick : N) (reason : FenceReason) (publishers : gmap N PublisherRegistration)
    (publisher : N) (r : PublisherRegistration) :
  publishers !! publisher = Some r ->
  epoch_fence previous tick reason publisher r ∈ epoch_fences previous tick reason publishers.
Proof.
  intros Hr. unfold epoch_fences. apply list_elem_of_omap. exists publisher. split; [|by rewrite Hr].
  apply sort_unique_elem. apply list_elem_of_fmap. exists (publisher, r). split; [done|]. by apply elem_of_map_to_list.
Qed.

(** What a fabric looks like before anybody has registered: no publisher, no evidence,
    no outstanding intent and no authoritative domain. *)
Record powerless (f : Fabric) : Prop := {
  pl_publishers : fb_publishers f = ∅;
  pl_evidence : fb_evidence f = [];
  pl_intents : fb_intents f = [];
  pl_domains : Forall (fun e : N * DomainState =>
    is_authoritative (ds_state e.2) = false /\ ds_requires_revalidation e.2 = true /\ ds_epoch e.2 = fb_epoch f)
    (fb_domains f)
}.

#[export] Instance powerless_proper : Proper (same_core ==> iff) powerless.
Proof.
  assert (forall f g, same_core f g -> powerless f -> powerless g) as H.
  { intros f g (_ & _ & (Ee & _) & (Ed & Ei & Eu & _ & Ev))%same_core_fields [H1 H2 H3 H4].
    split; congruence || by rewrite <- Ed, <- Ee. }
  intros f g E. split; apply H; [done|by symmetry].
Qed.

Lemma next_epoch_powerless (tick : N) (reason : FenceReason) (f : Fabric) : powerless (next_epoch tick reason f).1.
Proof.
  split; [done..|]. cbn. apply Forall_map, Forall_forall. intros e _.
  destruct (demote_domain_spec (w64 (fb_epoch f + 1)) (w64 (fb_authority_generation f + 1)) e.2) as (H1 & H2 & _ & H4).
  split; [exact H1|]. split; [exact H2|exact H4].
Qed.

(** ** Closing *)

(** On a closed fabric no call changes anything, except that its clock can still be
    read and a plan that is cancelled before it takes the mutex is still counted. *)
Theorem closed_refuses (clock : N -> N) (io : StoreIo) (call : FabricCall) (f : Fabric)
    (Hclosed : fb_closed f = true) :
  perform clock io call f = f \/
  call = CaNow /\ perform clock io call f = f <| fb_clock_reads ::= N.succ |> \/
  call = CaCancelled /\ perform clock io call f = f <| fb_stats ::= fun s => s <| fbs_cancellations ::= N.succ |> |>.
Proof.
  destruct call; cbn [perform]; unfold after; try (by left); try (by right; left); try (by right; right); left;
    unfold fabric_set_policy, fabric_set_topology, fabric_set_capacity, fabric_register_publisher,
      fabric_fence_publisher, fabric_unregister_publisher, fabric_heartbeat, fabric_ingest, fabric_evaluate_request,
      fabric_evaluate_cancellable, plan_evaluated, fabric_plan_last, fabric_advance_epoch, fabric_close;
    rewrite ?bind_lift; repeat case_match; rewrite ?bind_guard; repeat case_match; rewrite ?bind_open, ?Hclosed; 
    congruence || reflexivity.
Qed.

(** ** Cancellation *)

(** Only the clock was read and statistics were counted. *)
Definition only_counted (f g : Fabric) : Prop :=
  exists reads stats, g = f <| fb_clock_reads := reads |> <| fb_stats := stats |>.

#[export] Instance only_counted_preorder : PreOrder only_counted.
Proof.
  split.
  - intros f. exists (fb_clock_reads f), (fb_stats f). by destruct f.
  - intros f g h (r1 & s1 & ->) (r2 & s2 & ->). by exists r2, s2.
Qed.

Ltac counted := match goal with |- only_counted _ ?g => exists (fb_clock_reads g), (fb_stats g); reflexivity end.

(** C27. A cancelled evaluation answers an error and applies nothing: neither the state
    nor the durable store nor what was published changes, whichever of the two
    cancellation points saw the token. *)
Theorem cancelled_evaluation_applies_nothing (clock : N -> N) (io : StoreIo) (domain : N) (at_start at_commit : bool)
    (f : Fabric) (Hcancelled : at_start || at_commit = true) :
  let r := fabric_evaluate_cancellable clock io domain at_start at_commit f in
  ok r.1 = false /\ only_counted f r.2.
Proof.
  cbv zeta.
  unfold fabric_evaluate_cancellable. rewrite bind_open. destruct (fb_closed f); [split; [done|reflexivity]|].
  assert (exists batch, collect_evidence clock domain f = (Ok batch, f <| fb_clock_reads ::= N.succ |>)) as [batch E]
    by by eexists.
  rewrite bind_case, E. clear E. unfold evaluate_locked. rewrite bind_cancellation. destruct at_start; [split; [done|counted]|].
  destruct at_commit; [|discriminate Hcancelled]. rewrite bind_get, bind_guard. destruct (negb _); [split; [done|counted]|].
  rewrite bind_now, bind_authority, bind_state, bind_lift.
  match goal with |- context [evaluate ?q ?p ?c] => destruct (evaluate q p c) as [e|out] end; (split; [done|counted]).
Qed.

(** ** Ingest *)

(** The order of readings: by generation, and within one by sequence. *)
Definition not_older (previous sample : EvidenceSample) : Prop :=
  es_generation previous < es_generation sample \/
  es_generation previous = es_generation sample /\ es_sequence previous <= es_sequence sample.

#[export] Instance not_older_preorder : PreOrder not_older.
Proof. unfold not_older. split; [intros s; lia|intros s t u; lia]. Qed.

Lemma supersedes_not_older (sample previous : EvidenceSample) :
  supersedes sample previous = true -> not_older previous sample.
Proof.
  unfold supersedes, not_older. intros H. apply orb_true_iff in H as [H|H]; reflect_bools; [by left|right]. lia.
Qed.

(** What a batch may do to the window. *)
Record window_step (tick : N) (samples : list EvidenceSample) (f g : Fabric) : Prop := {
  win_epoch : fb_epoch g = fb_epoch f;
  win_fences : fb_fences g = fb_fences f;
  win_new : forall key sample, om_find key (fb_evidence g) = Some sample ->
    om_find key (fb_evidence f) = Some sample \/
    exists original, original ∈ samples /\ sample = received tick original /\ key = evidence_key original /\
      es_epoch original = fb_epoch f /\ is_heartbeat original = false /\
      is_Some (registered (es_publisher original) (es_publisher_boot original) f);
  win_forward : forall key previous, om_find key (fb_evidence f) = Some previous ->
    exists sample, om_find key (fb_evidence g) = Some sample /\ not_older previous sample;
  win_registered : forall publisher boot,
    is_Some (registered publisher boot g) <-> is_Some (registered publisher boot f)
}.

Lemma window_core (tick : N) (samples : list EvidenceSample) (f g : Fabric) : same_core g f -> window_step tick samples f g.
Proof.
  intros (_ & _ & (E1 & _) & (_ & _ & E2 & E3 & E4))%same_core_fields.
  split; [done..| | |].
  - rewrite E4. intros; by left.
  - rewrite E4. intros key s Hs. by exists s.
  - intros p b. unfold registered. by rewrite E2.
Qed.

Lemma window_trans (tick : N) (samples more : list EvidenceSample) (f g h : Fabric) :
  window_step tick samples f g -> window_step tick more g h -> window_step tick (samples ++ more) f h.
Proof.
  intros [A1 A2 A3 A4 A5] [B1 B2 B3 B4 B5]. split; [congruence..| | |].
  - intros key s Hs. destruct (B3 key s Hs) as [Hg|(o & Hin & E1 & E2 & E3 & E4 & E5)].
    + destruct (A3 key s Hg) as [Hf|(o & Hin & Ho)]; [by left|right]. exists o. split; [apply elem_of_app; by left|exact Ho].
    + right. exists o. split; [apply elem_of_app; by right|]. repeat split; try assumption; [congruence|by apply A5].
  - intros key s Hs. destruct (A4 key s Hs) as (s' & Hs' & H1). destruct (B4 key s' Hs') as (s'' & Hs'' & H2).
    exists s''. split; [exact Hs''|]. by etransitivity.
  - intros p b. by rewrite B5, A5.
Qed.

Lemma refresh_registered (f : Fabric) (tick : N) (sample : EvidenceSample) (r : PublisherRegistration) (m : gmap N PublisherRegistration)
    (publisher boot : N) :
  registered (es_publisher sample) (es_publisher_boot sample) f = Some r ->
  (is_Some (registered publisher boot (f <| fb_publishers ::= <[es_publisher sample := refresh_registration tick sample r]> |>))
   <-> is_Some (registered publisher boot f)).
Proof.
  intros [Hr Hb]%registered_Some. unfold registered. cbn. destruct (decide (publisher = es_publisher sample)) as [->|Hp].
  - rewrite lookup_insert_eq, Hr. cbn. destruct (pr_boot r =? boot); [|done]. split; intros _; by eexists.
  - by rewrite lookup_insert_ne by done.
Qed.

Lemma taken_window (tick : N) (sample : EvidenceSample) (st st' : Fabric * IngestReport) :
  taken tick sample st st' -> window_step tick [sample] st.1 st'.1 /\ processed st'.2 = processed st.2 + 1.
Proof.
  intros (r & [_ Hepoch Hr _ _] & Hcase). pose proof (refresh_registered st.1 tick (received tick sample) r ∅) as Href.
  destruct Hcase as [[_ ->]|(Hbeat & -> & Hroom)].
  - split; [|unfold processed; cbn; lia]. split; try done; [intros; by left| |].
    + intros key s Hs. by exists s.
    + intros p b. by apply Href.
  - split; [|unfold processed; cbn; lia]. split; try done.
    + intros key s. cbn. destruct (decide (key = evidence_key sample)) as [->|Hk].
      * change (evidence_key (received tick sample)) with (evidence_key sample). rewrite om_find_insert_eq.
        intros [= <-]. right. exists sample. split; [by apply list_elem_of_singleton|]. by repeat split.
      * rewrite om_find_insert_ne by done. by left.
    + intros key s Hs. cbn. destruct (decide (key = evidence_key sample)) as [->|Hk].
      * change (evidence_key (received tick sample)) with (evidence_key sample). rewrite om_find_insert_eq.
        exists (received tick sample). split; [done|]. rewrite Hs in Hroom. by apply supersedes_not_older.
      * rewrite om_find_insert_ne by done. by exists s.
    + intros p b. by apply Href.
Qed.

Lemma ingest_window (tick : N) (samples : list EvidenceSample) (st : Fabric * IngestReport) :
  window_step tick samples st.1 (foldl (ingest_sample tick) st samples).1 /\
  processed (foldl (ingest_sample tick) st samples).2 = processed st.2 + size64 samples.
Proof.
  revert st. induction samples as [|sample samples IH]; intros st; cbn [foldl].
  - split; [by apply window_core|]. unfold size64. cbn. lia.
  - destruct (IH (ingest_sample tick st sample)) as [H1 H2].
    assert (window_step tick [sample] st.1 (ingest_sample tick st sample).1 /\
            processed (ingest_sample tick st sample).2 = processed st.2 + 1) as [H3 H4].
    { destruct (ingest_sample_cases tick st sample) as [(E & Hc & _)|H]; [|by apply taken_window].
      split; [by apply window_core|exact E]. }
    split; [exact (window_trans _ [sample] _ _ _ _ H3 H1)|]. rewrite H2, H4. unfold size64. cbn [length]. lia.
Qed.

(** An ingest that answers is the fold over its samples. *)
Lemma ingest_folds (clock : N -> N) (batch : EvidenceBatch) (f g : Fabric) (report : IngestReport) :
  fabric_ingest clock batch f = (Ok report, g) ->
  exists f0, same_core f0 f /\
    foldl (ingest_sample (clock (fb_clock_reads f))) (f0, ingest_report_default) (eb_samples batch) = (g, report).
Proof.
  intros Hr. unfold fabric_ingest in Hr. rewrite bind_guard in Hr. destruct (_ <? _); [done|]. rewrite bind_open in Hr.
  destruct (fb_closed f); [done|]. rewrite bind_now in Hr. unfold count in Hr. rewrite bind_modify in Hr.
  match type of Hr with context [foldl ?step (?f0, ?report) ?l] =>
    exists f0; destruct (foldl step (f0, report) l) as [g' report'] end.
  injection Hr as <- <-. by split.
Qed.

(** C26. An ingest accounts for every sample of its batch exactly once.  In the window each
    entry is the earlier one or a sample of the batch from a registered incarnation
    of this epoch, and for each key the reading never becomes older. *)
Theorem ingest_accounts (clock : N -> N) (batch : EvidenceBatch) (f g : Fabric) (report : IngestReport)
    (Hr : fabric_ingest clock batch f = (Ok report, g)) :
  ig_accepted report + ig_rejected report + ig_duplicate report = size64 (eb_samples batch) /\
  window_step (clock (fb_clock_reads f)) (eb_samples batch) f g.
Proof.
  apply ingest_folds in Hr as (f0 & Hcore & E).
  destruct (ingest_window (clock (fb_clock_reads f)) (eb_samples batch) (f0, ingest_report_default)) as [Hw Hp].
  rewrite E in Hw, Hp. split; [exact Hp|].
  exact (window_trans _ [] _ _ _ _ (window_core _ [] _ _ Hcore) Hw).
Qed.

(** ** The whole *)

(** C25. Every fabric that was opened, on any directory, and used, with any clock and
    whatever the operating system does at each call, satisfies the invariant, and
    what it hands to the evaluator is a context the evaluator's contract asks for. *)
Theorem reachable_fabric_ok (f : Fabric) (Hf : reachable_fabric f) :
  fabric_ok f /\ forall tick authority, context_ok (evaluation_context tick authority f).
Proof. apply reachable_ok in Hf. split; [exact Hf|]. intros tick authority. by apply fabric_context_ok. Qed.

(** C4. A fence is for ever: after any further calls the incarnation is still fenced, is
    not registered and has no evidence in the window. *)
Theorem fenced_forever (f g : Fabric) (publisher boot : N) (Hf : reachable_fabric f)
    (Hfenced : fabric_is_fenced publisher boot f = true) (Hg : follows f g) :
  fabric_is_fenced publisher boot g = true /\ registered publisher boot g = None /\
  Forall (fun e : EvidenceKey * EvidenceSample => from_incarnation publisher boot e.2 = false) (fb_evidence g).
Proof.
  pose proof (fenced_stays f g publisher boot Hg Hfenced) as H.
  split; [exact H|]. apply fenced_gone; [|exact H]. apply reachable_ok. by apply (reachable_follows f).
Qed.

(** ** What an authoritative outcome rests on *)

(** Evidence that counts now. *)
Definition current_evidence (f : Fabric) (sample : EvidenceSample) : Prop :=
  valid (es_resource sample) = true /\ es_epoch sample = fb_epoch f /\
  fabric_is_fenced (es_publisher sample) (es_publisher_boot sample) f = false.

Lemma collect_current (clock : N -> N) (domain : N) (f g : Fabric) (batch : EvidenceBatch) :
  fabric_ok f -> collect_evidence clock domain f = (Ok batch, g) ->
  eb_epoch batch = fb_epoch f /\ size64 (eb_samples batch) <= kMaxEvidencePerBatch /\
  Forall (current_evidence f) (eb_samples batch).
Proof.
  intros Hf H. unfold collect_evidence in H. rewrite bind_now in H. unfold op_get in H. apply (f_equal fst) in H.
  remember (N.to_nat kMaxEvidencePerBatch) as n eqn:Hn. apply Ok_inj in H as <-. cbn [eb_epoch eb_samples set].
  split; [reflexivity|]. split.
  - unfold size64. rewrite length_take. subst n. lia.
  - apply Forall_take, Forall_forall. intros s [_ Hin]%list_elem_of_filter.
    apply list_elem_of_fmap in Hin as (e & -> & Hin). pose proof (fok_evidence _ Hf) as [_ Hall].
    rewrite Forall_forall in Hall. destruct (Hall e Hin) as (_ & Hv & He & Hun). split; [done|]. split; [done|].
    unfold fabric_is_fenced. rewrite Hun. apply bool_decide_eq_false_2. apply is_Some_None.
Qed.

Lemma evaluation_batch (clock : N -> N) (io : StoreIo) (domain : N) (f g : Fabric) (out : EvaluationOutcome) :
  fabric_ok f -> fabric_evaluate clock io domain f = (Ok out, g) ->
  exists batch collected, collect_evidence clock domain f = (Ok batch, collected) /\ evaluated f domain batch out /\
    Forall (current_evidence f) (eb_samples batch) /\
    size64 (eb_samples batch) <= kMaxEvidencePerBatch /\
    (eo_authoritative out = true -> 0 < ev_samples_accepted (eo_evidence out) <= size64 (eb_samples batch)).
Proof.
  intros Hf Hr. destruct (evaluate_cancellable_Ok clock io domain f g out Hr) as (batch & h & Hc & Hev & _).
  destruct (collect_current clock domain f h batch Hf Hc) as (_ & Hsize & Hall).
  exists batch, h. split; [done|]. split; [done|]. split; [done|]. split; [done|]. intros Ha.
  destruct Hev as (tick & issued & Hev).
  pose proof (fabric_context_ok f tick (live_authority issued f) Hf) as Hctx.
  split; [by apply (authoritative_accepts _ _ _ out Hctx Hev)|].
  destruct (evaluate_counts _ _ _ out Hctx Hev) as [H _]. unfold counted_samples in H. cbn [eq_evidence] in H. lia.
Qed.

(** C6. An evaluation works on current evidence only: of this epoch, from incarnations that
    are not fenced.  When its outcome is authoritative, some of it was accepted. *)
Theorem evaluation_on_current_evidence (clock : N -> N) (io : StoreIo) (domain : N) (f g : Fabric)
    (out : EvaluationOutcome) (Hf : reachable_fabric f) (Hr : fabric_evaluate clock io domain f = (Ok out, g)) :
  exists batch, evaluated f domain batch out /\ Forall (current_evidence f) (eb_samples batch) /\
    size64 (eb_samples batch) <= kMaxEvidencePerBatch /\
    (eo_authoritative out = true -> 0 < ev_samples_accepted (eo_evidence out) <= size64 (eb_samples batch)).
Proof.
  apply reachable_ok in Hf. destruct (evaluation_batch clock io domain f g out Hf Hr) as (batch & h & _ & H).
  by exists batch.
Qed.

Lemma collect_empty (clock : N -> N) (domain : N) (f g : Fabric) (batch : EvidenceBatch) :
  fb_evidence f = [] -> collect_evidence clock domain f = (Ok batch, g) -> eb_samples batch = [].
Proof.
  intros Hev H. unfold collect_evidence in H. rewrite bind_now in H. unfold op_get in H. apply (f_equal fst) in H.
  remember (N.to_nat kMaxEvidencePerBatch) as n eqn:Hn. apply Ok_inj in H as <-. cbn [eb_samples set].
  change (fb_evidence (f <| fb_clock_reads ::= N.succ |>)) with (fb_evidence f). rewrite Hev. apply take_nil.
Qed.

(** Without evidence nothing authoritative comes of an evaluation. *)
Lemma no_evidence_no_authority (clock : N -> N) (io : StoreIo) (domain : N) (f g : Fabric) (out : EvaluationOutcome) :
  fabric_ok f -> fb_evidence f = [] -> fabric_evaluate clock io domain f = (Ok out, g) -> eo_authoritative out = false.
Proof.
  intros Hf Hev Hr. destruct (evaluation_batch clock io domain f g out Hf Hr) as (batch & h & Hc & _ & _ & _ & Ha).
  rewrite (collect_empty _ _ _ _ _ Hev Hc) in Ha. destruct (eo_authoritative out); [|done].
  destruct (Ha eq_refl) as [H1 H2]. exfalso. unfold size64 in H2. cbn [length] in H2. lia.
Qed.

(** An operation that leaves the outcomes [plan_last] plans from. *)
Definition keeps_outcomes {A : Type} (m : Op A) : Prop := forall f, fb_last_outcomes (m f).2 = fb_last_outcomes f.

Lemma outcomes_bind {A B : Type} (m : Op A) (k : A -> Op B) :
  keeps_outcomes m -> (forall a, keeps_outcomes (k a)) -> keeps_outcomes (op_bind m k).
Proof.
  intros Hm Hk f. rewrite bind_case. specialize (Hm f). destruct (m f) as [[e|a] g]; [exact Hm|].
  by rewrite Hk.
Qed.

Lemma outcomes_write (call : Store -> Result unit * Store) : keeps_outcomes (durable_write call).
Proof. intros f. unfold durable_write, on_store. destruct (fb_store f); [|done]. by destruct (call _) as [[] ?]. Qed.

Lemma outcomes_each {A : Type} (body : A -> Op unit) (l : list A) :
  (forall x, keeps_outcomes (body x)) -> keeps_outcomes (op_each body l).
Proof. intros H. induction l as [|x l IH]; [by intros f|]. by apply outcomes_bind. Qed.

Lemma persist_epoch_outcomes (clock : N -> N) (io : StoreIo) (records : list FenceRecord) :
  keeps_outcomes (persist_epoch clock io records).
Proof.
  intros f. unfold persist_epoch, if_durable. destruct (fb_store f); [|done]. revert f.
  change (keeps_outcomes (let! stamp := make_stamp clock PkEpochAdvance in
    let! f := op_get id in
    do! durable_write (advance_epoch io (fb_epoch f) (fb_boot f) (fbr_boot_counter (fb_open_report f)) stamp) then
    do! op_each (fun record => durable_write (append_fence io record stamp)) records then
    op_each (fun entry : N * DomainState => durable_write (put_domain_state io entry.2 stamp)) (fb_domains f))).
  apply outcomes_bind; [by intros f|]. intros stamp. apply outcomes_bind; [by intros f|]. intros f.
  apply outcomes_bind; [apply outcomes_write|]. intros _.
  apply outcomes_bind; [|intros _]; apply outcomes_each; intros x; apply outcomes_write.
Qed.

Lemma advance_outcomes (clock : N -> N) (io : StoreIo) (reason : FenceReason) :
  keeps_outcomes (fabric_advance_epoch clock io reason).
Proof.
  intros f. unfold fabric_advance_epoch. rewrite bind_open. destruct (fb_closed f); [done|].
  rewrite bind_now, bind_state. set (h := f <| fb_clock_reads ::= N.succ |>).
  assert (fb_last_outcomes (next_epoch (clock (fb_clock_reads f)) reason h).1 = fb_last_outcomes f) as E by done.
  destruct (next_epoch _ reason h) as [f' records]. cbn [fst] in E. rewrite bind_modify, bind_case.
  pose proof (persist_epoch_outcomes clock io records f') as Hp.
  destruct (persist_epoch clock io records f') as [[e|u] g]; cbn [snd] in *; by rewrite <- E, <- Hp.
Qed.

(** C9. An epoch advance, whatever becomes of its durable writes, withdraws everything that
    was in force: the epoch and the authority generation have moved on, publishers,
    evidence and outstanding intents are gone, no domain is authoritative, every
    incarnation that was registered is fenced, and no evaluation is authoritative until
    evidence of the new epoch has come in.  It does not withdraw the last outcomes:
    they are as before, and [plan_last] still plans from them. *)
Theorem advance_epoch_fences (clock : N -> N) (io : StoreIo) (reason : FenceReason) (f : Fabric)
    (Hf : reachable_fabric f) (Hopen : fb_closed f = false) :
  let r := fabric_advance_epoch clock io reason f in
  fb_epoch r.2 = w64 (fb_epoch f + 1) /\ fb_authority_generation r.2 = w64 (fb_authority_generation f + 1) /\
  powerless r.2 /\ fabric_domains r.2 = fabric_domains f /\
  (forall publisher boot registration, registered publisher boot f = Some registration ->
     fabric_is_fenced publisher boot r.2 = true) /\
  (forall domain out g, fabric_evaluate clock io domain r.2 = (Ok out, g) -> eo_authoritative out = false) /\
  fb_last_outcomes r.2 = fb_last_outcomes f /\
  (forall epoch, r.1 = Ok epoch -> epoch = w64 (fb_epoch f + 1)).
Proof.
  cbv zeta. apply reachable_ok in Hf. pose proof (advance_keeps clock io reason f Hf) as Hkeep.
  destruct (advance_effect clock io reason f) as [[H _]|(_ & tick & reads & E & Hr)]; [congruence|].
  pose proof (same_core_fields _ _ E) as (_ & _ & (Ee & Eg) & (Ed & _ & _ & Ef & Ev)).
  unfold fabric_domains. rewrite Ee, Eg, Ed. split; [done|]. split; [done|].
  split; [rewrite E; apply next_epoch_powerless|]. split; [|split; [|split; [|split; [|exact Hr]]]].
  - cbn. by rewrite map_map.
  - intros publisher boot r [Hp <-]%registered_Some. unfold fabric_is_fenced. rewrite Ef. apply bool_decide_eq_true_2.
    cbn. apply (epoch_fences_elem (fb_epoch f) tick reason) in Hp.
    exact (fence_fold_installs _ (fb_fences f) _ Hp).
  - intros domain out g. apply no_evidence_no_authority; [exact Hkeep|exact Ev].
  - by apply advance_outcomes.
Qed.

Lemma filter_all {A : Type} (P : A -> Prop) `{!forall x, Decision (P x)} (l : list A) : Forall P l -> filter P l = l.
Proof. induction 1 as [|x l Hx _ IH]; [done|]. rewrite filter_cons_True by done. by rewrite IH. Qed.

(** C5. Every intent a plan authorizes is justified by the policy, the topology and the
    authority the fabric has when the plan is made, at the tick its clock reads for that
    call; it uses no capability that is withheld locally, and it is retained.  What is
    outstanding afterwards is the authorized intents, after those of the earlier ones
    that have not expired at that tick, and of these no more than the newest
    [max_active_interventions]: the older ones are dropped.  All of it is bound to the
    live authority. *)
Theorem plan_under_live_authority (clock : N -> N) (io : StoreIo) (domain : N) (out : EvaluationOutcome) (f g : Fabric)
    (plan : InterventionPlan) (Hf : reachable_fabric f) (Hr : plan_evaluated clock io domain out f = (Ok plan, g)) :
  let tick := clock (fb_clock_reads f) in
  let issued := clock (N.succ (fb_clock_reads f)) in
  Forall (fun i =>
    authorized_ok (fb_policy f) (planning_context tick (live_authority issued f) f) out (active_intents domain f) i /\
    auth_grants (fo_local_authority (fb_options f)) (required_authority (ii_kind i)) = true /\
    auth_grants (fo_local_denied (fb_options f)) (required_authority (ii_kind i)) = false) (ip_authorized plan) /\
  active_intents domain g
  = keep_last (fo_max_active_interventions (fb_options f))
      (filter (fun i => intent_expired_at i tick = false) (active_intents domain f)) ++ ip_authorized plan /\
  Forall (current_intent f) (active_intents domain g).
Proof.
  cbv zeta. apply reachable_ok in Hf. unfold plan_evaluated in Hr. rewrite bind_open in Hr.
  destruct (fb_closed f); [discriminate Hr|].
  pose proof (plan_effect clock io domain out f) as He. cbv zeta in He. rewrite Hr in He.
  set (tick := clock (fb_clock_reads f)) in *. set (issued := clock (N.succ (fb_clock_reads f))) in *.
  destruct He as [[_ He]|(plan' & Hm & Hc & Hok)]; [discriminate He|]. cbn [fst snd] in *.
  apply Ok_inj in Hok as <-.
  destruct (make_plan_authorized _ _ _ _ Hm) as (p & Hp & Hall). injection Hp as <-.
  assert (filter (fun i => bound_to i (live_authority issued f) = true) (ip_authorized plan) = ip_authorized plan) as Hkept.
  { apply filter_all. eapply Forall_impl; [exact Hall|]. intros i [_ _ (_ & H1 & H2 & H3 & H4 & _) _ _ _].
    apply (proj2 (bound_to_current f issued i)). unfold current_intent. by rewrite H1, H2, H3, H4. }
  apply same_core_fields in Hc as (_ & _ & _ & (_ & Hi & _)).
  assert (active_intents domain g = keep_last (fo_max_active_interventions (fb_options f))
    (filter (fun i => intent_expired_at i tick = false) (active_intents domain f)) ++ ip_authorized plan) as Hact.
  { unfold active_intents at 1. rewrite Hi. cbn. rewrite om_find_insert_eq. cbn. unfold retain_intents. by rewrite Hkept. }
  split; [|split; [exact Hact|]].
  - eapply Forall_impl; [exact Hall|]. intros i Hi'. split; [exact Hi'|]. destruct Hi' as [_ _ _ _ Hauth _].
    rewrite check_authority_allowed in Hauth. unfold av_allows in Hauth. reflect_bools. by split.
  - rewrite Hact. apply Forall_app. split.
    + apply keep_last_Forall, Forall_forall. intros i [_ Hin]%list_elem_of_filter.
      pose proof (active_intents_current f domain Hf) as H. rewrite Forall_forall in H. by apply H.
    + rewrite <- Hkept. apply Forall_forall. intros i [Hb _]%list_elem_of_filter. by apply bound_to_current in Hb.
Qed.
