(* ===== verification/FabricDurability.v ===== *)
(** * FabricDurability: the coordinator and its durable store

    The store of a fabric is only ever changed by the operations of the store, so
    what those keep holds of every fabric ([StoreInvariant] is the interface).  An
    evaluation that answers is durable, and a restart takes from the document what
    it may and demotes the rest. *)

From stdpp Require Import gmap.
From Stdlib Require Import Strings.Byte.
From S2P Require Import Prelude Core Enums OMap Evidence Authority Policy Topology State Intervention.
From S2P Require Import Explanation Evaluator Planner.
From S2P Require Import Journal StoreCodec Snapshot Store Fabric FabricInvariant FabricSafety.

Open Scope N_scope.

(** ** The durable store of a fabric *)

(** Whatever the fabric has as a store satisfies [P]. *)
Definition store_has (P : Store -> Prop) (f : Fabric) : Prop := forall s, fb_store f = Some s -> P s.

(** A property that the operations of a store keep. *)
Class StoreInvariant (io : StoreIo) (P : Store -> Prop) : Prop :=
  store_invariant operation s : store_operation operation io -> P s -> P (operation s).2.

#[export] Instance document_invariant (io : StoreIo) : StoreInvariant io (fun s => document_ok (sto_document s)).
Proof. intros operation s. apply store_operation_ok. Qed.

#[export] Instance reachable_invariant (io : StoreIo) : StoreInvariant io reachable_store.
Proof. intros operation s. apply reach_step. Qed.

Create HintDb stores.

#[export] Hint Constructors store_operation : stores.

Section StoreInvariants.
Context (clock : N -> N) (io : StoreIo) (P : Store -> Prop) `{!StoreInvariant io P}.

Definition keeps_store {A : Type} (m : Op A) : Prop := forall f, store_has P f -> store_has P (after m f).

Lemma store_modify (change : Fabric -> Fabric) : (forall f, fb_store (change f) = fb_store f) -> keeps_store (op_modify change).
Proof. intros H f Hf s. cbn. rewrite H. apply Hf. Qed.

Lemma store_bind {A B : Type} (m : Op A) (k : A -> Op B) :
  keeps_store m -> (forall a, keeps_store (k a)) -> keeps_store (op_bind m k).
Proof.
  intros Hm Hk f Hf. unfold after. rewrite bind_case. pose proof (Hm f Hf) as H. unfold after in H.
  destruct (m f) as [[?|a] g]; [exact H|]. by apply Hk.
Qed.

Lemma store_ret {A : Type} (a : A) : keeps_store (op_ret a).
Proof. by intros f. Qed.
Lemma store_lift {A : Type} (r : Result A) : keeps_store (op_lift r).
Proof. by intros f. Qed.
Lemma store_get {A : Type} (read : Fabric -> A) : keeps_store (op_get read).
Proof. by intros f. Qed.
Lemma store_count (change : FabricStats -> FabricStats) : keeps_store (count change).
Proof. by intros f. Qed.
Lemma store_now : keeps_store (now clock).
Proof. by intros f. Qed.
Lemma store_open : keeps_store ensure_open.
Proof. by intros f. Qed.

Lemma store_each {A : Type} (body : A -> Op unit) (l : list A) :
  (forall x, keeps_store (body x)) -> keeps_store (op_each body l).
Proof. intros H. induction l as [|x l IH]; [apply store_ret|]. by apply store_bind. Qed.

Lemma store_if (b : bool) {A : Type} (m k : Op A) : keeps_store m -> keeps_store k -> keeps_store (if b then m else k).
Proof. by destruct b. Qed.

Lemma store_on_store (call : Store -> Result unit * Store) : store_operation call io -> keeps_store (on_store call).
Proof.
  intros Hc f Hf s. unfold after, on_store. destruct (fb_store f) as [s0|] eqn:E; [|cbn; by rewrite E].
  pose proof (store_invariant call s0 Hc (Hf s0 E)) as H. destruct (call s0) as [r s1]. cbn. by intros [= <-].
Qed.

Lemma store_durable_write (call : Store -> Result unit * Store) :
  store_operation call io -> keeps_store (durable_write call).
Proof.
  intros Hc f Hf. pose proof (store_on_store call Hc f Hf) as H. unfold after, durable_write in *.
  by destruct (on_store call f) as [[?|[]] g].
Qed.

Lemma store_if_durable (body : Op unit) : keeps_store body -> keeps_store (if_durable body).
Proof. intros H f Hf. unfold after, if_durable. destruct (fb_store f); [by apply H|done]. Qed.

#[local] Hint Resolve store_bind store_ret store_lift store_get store_count store_now store_open store_each store_if
  store_on_store store_durable_write store_if_durable : stores.
#[local] Hint Extern 2 (keeps_store (op_modify _)) =>
  apply store_modify; intros ?; repeat case_match; reflexivity : stores.

Lemma store_stamp (kind : ProvenanceKind) : keeps_store (make_stamp clock kind).
Proof. unfold make_stamp. auto with stores. Qed.
Lemma store_authority : keeps_store (authority_locked clock).
Proof. unfold authority_locked. auto with stores. Qed.
Lemma store_collect (domain : N) : keeps_store (collect_evidence clock domain).
Proof. unfold collect_evidence. auto with stores. Qed.
Lemma store_cancellation (cancelled : bool) : keeps_store (cancellation_point cancelled).
Proof. unfold cancellation_point. auto with stores. Qed.

#[local] Hint Resolve store_stamp store_authority store_collect store_cancellation : stores.

Lemma store_persist (kind : ProvenanceKind) (call : MutationStamp -> Store -> Result unit * Store) :
  (forall stamp, store_operation (call stamp) io) -> keeps_store (persist clock kind call).
Proof. intros H. unfold persist. auto with stores. Qed.

Lemma store_persist_outcome (domain tick : N) (out : EvaluationOutcome) :
  keeps_store (persist_outcome clock io domain tick out).
Proof. unfold persist_outcome. auto 10 with stores. Qed.

Lemma store_persist_epoch (records : list FenceRecord) : keeps_store (persist_epoch clock io records).
Proof. unfold persist_epoch. auto 20 with stores. Qed.

#[local] Hint Extern 1 (keeps_store (persist _ _ _)) => apply store_persist; intros ?; solve [auto with stores] : stores.
#[local] Hint Resolve store_persist_outcome store_persist_epoch : stores.

Lemma store_fence_locked (publisher boot : N) (reason : FenceReason) (detail : string) :
  keeps_store (fence_publisher_locked clock io publisher boot reason detail).
Proof. unfold fence_publisher_locked. auto 20 with stores. Qed.

Lemma store_evaluate_locked (domain : N) (batch : EvidenceBatch) (at_start at_commit : bool) :
  keeps_store (evaluate_locked clock io domain batch at_start at_commit).
Proof. unfold evaluate_locked. auto 25 with stores. Qed.

Lemma store_retain_intent (authority : AuthorityVector) (i : InterventionIntent) :
  keeps_store (retain_intent clock io authority i).
Proof. unfold retain_intent. auto 10 with stores. Qed.

#[local] Hint Resolve store_fence_locked store_evaluate_locked store_retain_intent : stores.

Lemma store_plan_locked (domain : N) (out : EvaluationOutcome) : keeps_store (plan_outcome_locked clock io domain out).
Proof. unfold plan_outcome_locked. auto 20 with stores. Qed.

#[local] Hint Resolve store_plan_locked : stores.

Lemma store_ingest (batch : EvidenceBatch) : keeps_store (fabric_ingest clock batch).
Proof.
  intros f Hf. unfold after, fabric_ingest. rewrite bind_guard. destruct (_ <? _); [done|].
  rewrite bind_open. destruct (fb_closed f); [done|]. rewrite bind_now. unfold count. rewrite bind_modify.
  match goal with |- context [foldl ?step (?g, ?report) ?l] =>
    assert (fb_store (foldl step (g, report) l).1 = fb_store f) as E;
    [|destruct (foldl step (g, report) l); intros s; cbn in *; rewrite E; apply Hf] end.
  apply (foldl_inv (fun acc : Fabric * IngestReport => fb_store acc.1 = fb_store f)); [done|].
  intros acc sample _ E. rewrite <- E. unfold ingest_sample. by repeat case_match.
Qed.

Lemma perform_store (call : FabricCall) (f : Fabric) : store_has P f -> store_has P (perform clock io call f).
Proof.
  destruct call; cbn [perform].
  - revert f. change (keeps_store (fabric_set_policy clock io policy)). unfold fabric_set_policy. auto 12 with stores.
  - revert f. change (keeps_store (fabric_set_topology clock io topology)). unfold fabric_set_topology. auto 12 with stores.
  - revert f. change (keeps_store (fabric_set_capacity clock io capacity)). unfold fabric_set_capacity. auto 12 with stores.
  - revert f. change (keeps_store (fabric_register_publisher clock publisher boot requested)).
    unfold fabric_register_publisher. auto 12 with stores.
  - revert f. change (keeps_store (fabric_fence_publisher clock io publisher boot reason detail)).
    unfold fabric_fence_publisher. auto with stores.
  - revert f. change (keeps_store (fabric_unregister_publisher clock io publisher boot reason detail)).
    unfold fabric_unregister_publisher. apply store_bind; [auto with stores|]. intros _.
    repeat case_bool_decide; auto with stores.
  - revert f. change (keeps_store (fabric_heartbeat clock publisher boot)). unfold fabric_heartbeat. auto 12 with stores.
  - revert f. apply store_ingest.
  - revert f. change (keeps_store (fabric_evaluate_request clock io request)). unfold fabric_evaluate_request.
    auto with stores.
  - revert f. change (keeps_store (fabric_evaluate_cancellable clock io domain at_start at_commit)).
    unfold fabric_evaluate_cancellable. auto with stores.
  - revert f. apply store_cancellation.
  - revert f. change (keeps_store (plan_evaluated clock io domain out)). unfold plan_evaluated. auto with stores.
  - revert f. change (keeps_store (fabric_plan_last clock io domain)). unfold fabric_plan_last.
    apply store_bind; [auto with stores|]. intros _. apply store_bind; [auto with stores|]. intros [out|]; auto with stores.
  - revert f. change (keeps_store (fabric_advance_epoch clock io reason)). unfold fabric_advance_epoch.
    apply store_bind; [auto with stores|]. intros _. apply store_bind; [auto with stores|]. intros tick f Hf.
    unfold after. rewrite bind_state. pose proof (eq_refl (fb_store (next_epoch tick reason f).1)) as E.
    destruct (next_epoch tick reason f) as [g records] eqn:En. rewrite bind_modify.
    refine (store_bind _ _ (store_persist_epoch records) _ g _); [auto with stores|].
    intros s Hs. apply Hf. rewrite <- Hs. unfold next_epoch in En. by injection En as <- _.
  - done.
  - revert f. apply store_now.
  - intros Hf s. unfold after, fabric_close. destruct (fb_closed f); apply Hf.
Qed.

Lemma store_commit_boot (tick : N) : keeps_store (commit_boot clock io tick).
Proof. unfold commit_boot, restore_domain. auto 25 with stores. Qed.

Lemma store_boot_steps (tick : N) : keeps_store (boot_steps clock io tick).
Proof.
  unfold boot_steps. apply store_bind; [apply store_modify; intros h; by destruct (boot_epoch _)|]. intros _.
  apply store_bind; [|intros _; apply store_commit_boot]. unfold default_policy.
  apply store_bind; [auto with stores|]. intros []; [auto with stores|].
  destruct (validate_policy _); auto with stores.
Qed.

Lemma open_store_has (options : FabricOptions) (dir : Directory) (f : Fabric) :
  (forall s, open_store io (fo_state_directory options) (fo_store options) dir = Ok s -> P s) ->
  fabric_open clock io options dir = Ok f -> store_has P f.
Proof.
  intros Ho. unfold fabric_open, open_steps. rewrite bind_now, bind_case. cbv beta.
  set (start := (fresh_fabric options) <| fb_clock_reads ::= N.succ |>).
  assert (store_has P (open_durable io dir start).2) as Hs.
  { unfold open_durable. change (fb_options start) with options. destruct (_ && _); [|done].
    destruct (open_store _ _ _ _) as [e|s]; [done|]. intros s' [= <-]. by apply Ho. }
  destruct (open_durable io dir start) as [[e|[]] g]; [done|]. cbn [snd] in Hs.
  pose proof (store_boot_steps (clock (fb_clock_reads (fresh_fabric options))) g Hs) as Hk. unfold after in Hk.
  destruct (boot_steps _ _ _ g) as [[?|[]] h]; [done|]. by intros <-%Ok_inj.
Qed.
End StoreInvariants.

Lemma reachable_store_has (P : Store -> Prop) (Hinv : forall io, StoreInvariant io P) (f : Fabric) :
  (forall io path o dir s, open_store io path o dir = Ok s -> P s) -> reachable_fabric f -> store_has P f.
Proof.
  intros Ho. induction 1 as [clock io options dir f H|clock io call f _ IH]; [|by apply perform_store].
  refine (open_store_has clock io P options dir f _ H). apply Ho.
Qed.

Lemma reachable_store_reachable (f : Fabric) : reachable_fabric f -> store_has reachable_store f.
Proof. apply reachable_store_has; [apply _|apply reach_open]. Qed.

Lemma reachable_store_document (f : Fabric) : reachable_fabric f -> store_has (fun s => document_ok (sto_document s)) f.
Proof. apply reachable_store_has; [apply _|apply open_store_ok]. Qed.

(** ** Durability of an evaluation *)

(** What a commit does to the domains of the document. *)
Lemma commit_domains (io : StoreIo) (kind : MutationKind) (payload : list byte) (stamp : MutationStamp) (s s' : Store) :
  commit io kind payload stamp s = (Ok tt, s') ->
  exists d, apply kind payload (sto_document s) = Ok d /\ doc_domains (sto_document s') = doc_domains d.
Proof.
  intros E. pose proof (commit_document io kind payload stamp s) as H. rewrite E in H. destruct H as (d & Ha & Hp).
  exists d. split; [done|]. unfold document_parts in Hp. injection Hp as _ _ _ -> _ _ _. by rewrite prune_document_eq.
Qed.

(** Every mutation but one leaves the domains alone. *)
Lemma apply_domains (kind : MutationKind) (payload : list byte) (d d' : DurableDocument) :
  apply kind payload d = Ok d' -> kind <> MuDomainState -> doc_domains d' = doc_domains d.
Proof.
  destruct kind; cbn [apply]; intros H Hk; try discriminate; try (by destruct Hk);
    apply res_bind_Ok in H as (x & _ & H); try (destruct x as [[epoch boot] counter]); by apply Ok_inj in H as <-.
Qed.

Lemma commit_encoded_domains (io : StoreIo) (kind : MutationKind) (encoded : Result (list byte)) (stamp : MutationStamp)
    (s s' : Store) :
  commit_encoded io kind encoded stamp s = (Ok tt, s') -> kind <> MuDomainState ->
  doc_domains (sto_document s') = doc_domains (sto_document s).
Proof.
  intros H Hk. destruct encoded as [e|payload]; [discriminate H|].
  apply commit_domains in H as (d & Ha & ->). by apply (apply_domains kind payload).
Qed.

(** A domain's state that was committed is the document's state of the domain. *)
Lemma put_domain_state_durable (io : StoreIo) (x : DomainState) (stamp : MutationStamp) (s s' : Store) :
  put_domain_state io x stamp s = (Ok tt, s') -> domain_state_words x -> valid (ds_domain x) = true ->
  doc_domains (sto_document s') = put_domain x (doc_domains (sto_document s)).
Proof.
  intros H Hw Hv. unfold put_domain_state in H. destruct (domain_state_rt x Hw Hv) as (bytes & E & D).
  rewrite E in H. destruct (_ && _); [discriminate H|]. apply commit_domains in H as (d & Ha & ->).
  cbn [apply] in Ha. rewrite D in Ha. cbn [res_bind] in Ha. by apply Ok_inj in Ha as <-.
Qed.

Lemma durable_write_Ok (call : Store -> Result unit * Store) (f g : Fabric) (s : Store) :
  durable_write call f = (Ok tt, g) -> fb_store f = Some s -> exists s', call s = (Ok tt, s') /\ fb_store g = Some s'.
Proof.
  unfold durable_write, on_store. intros H Hs. rewrite Hs in H. destruct (call s) as [[e|[]] s'] eqn:E; [discriminate H|].
  injection H as <-. by exists s'.
Qed.

Lemma persist_outcome_durable (clock : N -> N) (io : StoreIo) (domain tick : N) (out : EvaluationOutcome) (f g : Fabric)
    (s : Store) :
  persist_outcome clock io domain tick out f = (Ok tt, g) -> fb_store f = Some s ->
  domain_state_words (eo_updated out) -> valid (ds_domain (eo_updated out)) = true ->
  exists s', fb_store g = Some s' /\
    doc_domains (sto_document s') = put_domain (eo_updated out) (doc_domains (sto_document s)).
Proof.
  intros H Hs Hw Hv. unfold persist_outcome, if_durable in H. rewrite Hs in H. unfold make_stamp in H.
  rewrite bind_case, bind_now in H. cbn beta iota in H. unfold op_get at 1 in H. rewrite bind_case in H.
  match type of H with context [durable_write ?c ?h] => destruct (durable_write c h) as [[e|[]] f1] eqn:E1 end; [discriminate H|].
  apply (durable_write_Ok _ _ _ s) in E1 as (s1 & E1 & Hs1); [|exact Hs].
  apply put_domain_state_durable in E1; [|assumption..].
  destruct (eo_transitioned out); [|by injection H as <-; exists s1].
  rewrite bind_get in H. apply (durable_write_Ok _ _ _ s1) in H as (s2 & E2 & Hs2); [|exact Hs1].
  exists s2. split; [done|]. rewrite <- E1. by apply commit_encoded_domains in E2.
Qed.

(** C11. An evaluation that answered its outcome has committed the domain's new state to
    memory and, on a durable fabric, to the document of the store, and the state of
    no other domain changed in either. *)
Theorem evaluation_durable (clock : N -> N) (io : StoreIo) (domain : N) (f g : Fabric) (out : EvaluationOutcome)
    (Hf : reachable_fabric f) (Hr : fabric_evaluate clock io domain f = (Ok out, g))
    (Hwords : domain_state_words (eo_updated out)) :
  (forall k, om_find k (fb_domains g) = if k =? domain then Some (eo_updated out) else om_find k (fb_domains f)) /\
  (forall s, fb_store f = Some s -> exists s', fb_store g = Some s' /\
     forall k, find_domain k (sto_document s')
               = if k =? domain then Some (eo_updated out) else find_domain k (sto_document s)).
Proof.
  pose proof (evaluate_cancellable_Ok clock io domain f g out Hr) as (batch & _ & _ & Hev & tick & start & h & Hp & Hstart & Hstore & Hg).
  destruct Hev as (tick' & issued & Hev). destruct (evaluate_identity _ _ _ _ Hev) as (Hv & _ & Hd & _).
  cbn [eq_domain] in Hv, Hd. split.
  - intros k. apply same_core_fields in Hg as (_ & _ & _ & (-> & _)).
    change (fb_domains (install_outcome domain out f)) with (om_insert domain (eo_updated out) (fb_domains f)).
    destruct (N.eqb_spec k domain) as [->|Hk]; [apply om_find_insert_eq|by apply om_find_insert_ne].
  - intros s Hs. apply (persist_outcome_durable clock io domain tick out _ h s) in Hp as (s' & Hs' & Hdoc);
      [|by rewrite Hstart|done|by rewrite Hd].
    exists s'. split; [by rewrite Hstore|]. intros k. change (find_domain k) with (fun d => find_in k (doc_domains d)). cbv beta.
    rewrite Hdoc, find_put_domain by apply (reachable_store_document f Hf s Hs).
    rewrite Hd. rewrite (N.eqb_sym domain k). done.
Qed.


(** ** Restart *)

(** A key beyond the last is added at the end. *)
Lemma om_insert_last {V : Type} (k : N) (v : V) (m : list (N * V)) :
  Forall (fun e : N * V => e.1 < k) m -> om_insert k v m = m ++ [(k, v)].
Proof.
  induction 1 as [|[k' v'] m Hk _ IH]; [done|]. cbn [om_insert app fst] in *. rewrite decide_False by lia.
  cbn [key_ltb N_key_order]. destruct (N.ltb_spec k k'); [lia|]. by rewrite IH.
Qed.

(** What decides the form of a restored domain. *)
Definition binding (f : Fabric) : N * N * CongestionPolicy := (fb_epoch f, fb_authority_generation f, fb_policy f).

Lemma restored_domain_binding (f g : Fabric) (x : DomainState) :
  binding f = binding g -> restored_domain f x = restored_domain g x.
Proof. unfold binding, restored_domain. intros H. by injection H as -> -> ->. Qed.

(** The parts of the state that opening leaves empty or sets before the domains. *)
Definition frame (f : Fabric) :=
  (binding f, fb_has_policy f, fb_topology f, (fb_publishers f, fb_evidence f, fb_intents f, fb_fences f)).

Lemma frame_fields (f g : Fabric) : frame f = frame g ->
  binding f = binding g /\ fb_epoch f = fb_epoch g /\ fb_policy f = fb_policy g /\ fb_topology f = fb_topology g /\
  fb_publishers f = fb_publishers g /\ fb_evidence f = fb_evidence g /\ fb_intents f = fb_intents g /\
  fb_fences f = fb_fences g.
Proof. unfold frame, binding. intros H. injection H. intros. repeat split; congruence. Qed.

Lemma on_store_Ok (call : Store -> Result unit * Store) (f g : Fabric) (u : unit) :
  on_store call f = (Ok u, g) ->
  frame g = frame f /\ fb_domains g = fb_domains f /\
  (forall s, fb_store f = Some s -> exists s', call s = (Ok tt, s') /\ fb_store g = Some s').
Proof.
  unfold on_store. destruct (fb_store f) as [s|] eqn:E.
  - destruct (call s) as [[e|[]] s'] eqn:Ec; intros H; [discriminate H|]. injection H as _ <-.
    split; [done|]. split; [done|]. intros s0 [= <-]. by exists s'.
  - intros H. injection H as _ <-. done.
Qed.

(** The loop of [open] restores the domains of the document in their order. *)
Lemma restore_domains (io : StoreIo) (tick : N) (stamp : MutationStamp) (l : list DomainState) (f g : Fabric) (u : unit) :
  op_each (restore_domain io tick stamp) l f = (Ok u, g) -> StronglySorted domain_before l ->
  Forall (fun e : N * DomainState => Forall (fun x => e.1 < ds_domain x) l) (fb_domains f) ->
  frame g = frame f /\ fb_domains g = fb_domains f ++ map (fun x => (ds_domain x, restored_domain f x)) l.
Proof.
  revert f. induction l as [|x l IH]; intros f H Hs Hb; cbn [op_each map] in *.
  - injection H as _ <-. by rewrite app_nil_r.
  - apply StronglySorted_inv in Hs as [Hl Hx]. rewrite bind_case in H. unfold restore_domain at 1 in H.
    rewrite bind_state, bind_modify, bind_case in H.
    match type of H with context [on_store ?c ?h] => set (start := h) in *; destruct (on_store c start) as [[?|?] f1] eqn:E1 end;
      [discriminate H|]. apply on_store_Ok in E1 as (F1 & D1 & _).
    match type of H with context [on_store ?c f1] => destruct (on_store c f1) as [[?|?] f2] eqn:E2 end;
      [discriminate H|]. apply on_store_Ok in E2 as (F2 & D2 & _).
    assert (fb_domains f2 = fb_domains f ++ [(ds_domain x, restored_domain f x)]) as D.
    { rewrite D2, D1. apply om_insert_last. eapply Forall_impl; [exact Hb|]. intros e He. by apply Forall_inv in He. }
    assert (frame f2 = frame f) as F by (rewrite F2, F1; reflexivity).
    apply IH in H as [F3 D3]; [|done|].
    + split; [by rewrite F3|]. rewrite D3, D, <- app_assoc. cbn [app]. do 2 f_equal. apply map_ext. intros y. f_equal.
      apply restored_domain_binding. by apply frame_fields in F as [? _].
    + rewrite D. apply Forall_app. split.
      * eapply Forall_impl; [exact Hb|]. intros e He. by apply Forall_inv_tail in He.
      * apply Forall_singleton. exact Hx.
Qed.

Lemma commit_boot_Ok (clock : N -> N) (io : StoreIo) (tick : N) (f g : Fabric) (u : unit) (s : Store) :
  commit_boot clock io tick f = (Ok u, g) -> fb_store f = Some s -> fb_domains f = [] -> document_ok (sto_document s) ->
  frame g = frame f /\
  fb_domains g = map (fun x => (ds_domain x, restored_domain g x)) (doc_domains (sto_document s)).
Proof.
  intros H Hs Hd Hdoc. unfold commit_boot, if_durable in H. rewrite Hs in H. unfold make_stamp in H.
  rewrite bind_case, bind_now in H. cbn beta iota in H. unfold op_get at 1 in H. rewrite bind_state, bind_case in H.
  match type of H with context [if fbr_policy_restored ?r then _ else ?m] =>
    match type of H with context [(if fbr_policy_restored r then ?n else m) ?h] => set (start := h) in * end end.
  assert (frame start = frame f /\ fb_domains start = [] /\ fb_store start = Some s) as (Fs & Ds & Ss) by done.
  clearbody start.
  match type of H with context [match ?m start with _ => _ end] => destruct (m start) as [[?|?] f1] eqn:E1 end; [discriminate H|].
  assert (frame f1 = frame f /\ fb_domains f1 = [] /\ exists s1, fb_store f1 = Some s1 /\
    doc_domains (sto_document s1) = doc_domains (sto_document s)) as (F1 & D1 & s1 & S1 & Q1).
  { destruct (fbr_policy_restored _).
    - injection E1 as _ <-. split; [done|]. split; [done|]. by exists s.
    - apply on_store_Ok in E1 as (F1 & D1 & K1). destruct (K1 s Ss) as (s1 & C1 & S1).
      split; [congruence|]. split; [congruence|]. exists s1. split; [done|]. by apply commit_encoded_domains in C1. }
  clear E1. rewrite bind_case in H.
  match type of H with context [on_store ?c f1] => destruct (on_store c f1) as [[?|?] f2] eqn:E2 end; [discriminate H|].
  apply on_store_Ok in E2 as (F2 & D2 & K2). destruct (K2 s1 S1) as (s2 & C2 & S2).
  apply commit_encoded_domains in C2; [|done]. rewrite bind_get, S2, C2, Q1 in H.
  apply restore_domains in H as [F3 D3]; [|apply Hdoc|by rewrite D2, D1; constructor].
  split; [congruence|]. rewrite D3, D2, D1. cbn [app]. apply map_ext. intros x. f_equal. apply restored_domain_binding.
  by apply frame_fields in F3 as [-> _].
Qed.

Lemma boot_steps_Ok (clock : N -> N) (io : StoreIo) (tick : N) (f g : Fabric) (u : unit) (s : Store) :
  boot_steps clock io tick f = (Ok u, g) -> fb_store f = Some s -> fb_domains f = [] -> document_ok (sto_document s) ->
  fb_epoch g = (boot_epoch (Some (sto_document s))).1 /\ (fb_has_policy f = true -> fb_policy g = fb_policy f) /\
  fb_publishers g = fb_publishers f /\ fb_evidence g = fb_evidence f /\ fb_intents g = fb_intents f /\
  fb_fences g = fb_fences f /\
  fb_domains g = map (fun x => (ds_domain x, restored_domain g x)) (doc_domains (sto_document s)).
Proof.
  intros H Hs Hd Hdoc. unfold boot_steps in H. rewrite bind_modify, Hs in H. cbn [fmap option_fmap option_map] in H.
  destruct (boot_epoch (Some (sto_document s))) as [epoch counter]. cbn [fst]. rewrite bind_case in H.
  destruct (default_policy_effect (start_epoch tick epoch counter f)) as (p & Ep & _ & Hp). rewrite Ep in H.
  apply (commit_boot_Ok _ _ _ _ _ _ s) in H as [F D]; [|exact Hs|exact Hd|exact Hdoc].
  apply frame_fields in F as (_ & -> & -> & _ & -> & -> & -> & ->).
  split; [reflexivity|]. split; [exact Hp|]. repeat (split; [reflexivity|]). exact D.
Qed.

Lemma open_durable_Ok (io : StoreIo) (dir : Directory) (f : Fabric) (s : Store) :
  fo_persist (fb_options f) = true -> fo_state_directory (fb_options f) <> ""%string ->
  open_store io (fo_state_directory (fb_options f)) (fo_store (fb_options f)) dir = Ok s ->
  open_durable io dir f = (Ok tt, load_document s f).
Proof. intros H1 H2 H3. unfold open_durable. rewrite H1, H3. by apply String.eqb_neq in H2 as ->. Qed.

(** C10. A restart on durable state restores no authority: the epoch has advanced, no
    publisher, evidence or intent is there, the domains are exactly those of the
    document, each demoted and waiting for revalidation, and every incarnation the
    document has a fence for is fenced. *)
Theorem open_demotes (clock : N -> N) (io : StoreIo) (options : FabricOptions) (dir : Directory) (s : Store) (f : Fabric)
    (Hpersist : fo_persist options = true /\ fo_state_directory options <> ""%string)
    (Hstore : open_store io (fo_state_directory options) (fo_store options) dir = Ok s)
    (Hf : fabric_open clock io options dir = Ok f) :
  let d := sto_document s in
  fb_epoch f = (if valid (doc_epoch d) then w64 (doc_epoch d + 1) else 1) /\
  powerless f /\
  fb_domains f = map (fun x => (ds_domain x, restored_domain f x)) (doc_domains d) /\
  (forall p, doc_policy d = Some p -> fb_policy f = p) /\
  Forall (fun record => fabric_is_fenced (fr_publisher record) (fr_boot record) f = true) (doc_fences d).
Proof.
  cbv zeta. unfold fabric_open, open_steps in Hf. rewrite bind_now, bind_case in Hf. cbv beta in Hf.
  set (start := (fresh_fabric options) <| fb_clock_reads ::= N.succ |>) in *.
  rewrite (open_durable_Ok io dir start s) in Hf; [|by apply Hpersist..|exact Hstore].
  match type of Hf with context [boot_steps clock io ?t ?h] => destruct (boot_steps clock io t h) as [[?|?] g] eqn:Eb end;
    [discriminate Hf|]. apply Ok_inj in Hf as <-.
  apply (boot_steps_Ok _ _ _ _ _ _ s) in Eb as (Ee & Ep & Eu & Ev & Ei & Ef & Ed);
    [|reflexivity|reflexivity|by eapply open_store_ok].
  split; [rewrite Ee; unfold boot_epoch; by destruct (valid _)|]. split; [|split; [exact Ed|split]].
  - split; [exact Eu|exact Ev|exact Ei|]. rewrite Ed. apply Forall_map, Forall_forall. intros x _.
    destruct (restored_domain_spec g x) as (_ & H1 & H2 & H3). split; [exact H2|]. split; [exact H3|exact H1].
  - intros q Hq. rewrite Ep; cbn [load_document fb_policy fb_has_policy set]; rewrite Hq; reflexivity.
  - apply Forall_forall. intros record Hin. unfold fabric_is_fenced. rewrite Ef. apply bool_decide_eq_true_2.
    exact (fence_fold_installs _ [] _ Hin).
Qed.
