(* ===== verification/Coordinator.v ===== *)
(** * Coordinator: include/ncf/runtime/coordinator.hpp and src/runtime/coordinator.cpp

    The body of the coordinator process: one connection from its first byte to
    its end, the evaluation of the domains a batch touched, the periodic sweep,
    and the decisions of the accept loop.

    A connection is served by its own thread, and every call it makes takes the
    mutex of the fabric anew.  What the other threads do in between is the
    parameter [others]: before the n-th call of this connection the fabric is
    [others n] of what the last call left.  The channel is the list of chunks its
    reads return, which ends when a read fails, the peer is gone or the node is
    stopping, and the parameter [write_ok], which of its writes succeed.  The
    counters are those of the node, as far as this connection adds to them. *)

From stdpp Require Import gmap.
From Stdlib Require Import Strings.Byte.
From S2P Require Import Prelude Core Enums OMap Bytes Evidence Authority Topology State Intervention.
From S2P Require Import Explanation Evaluator Planner Frame Messages Journal Snapshot Store Fabric.

Open Scope N_scope.

(** ** State *)

Definition kMaxDomainsEvaluatedPerBatch : N := 256.
Definition kMaxReportLines : N := 2 ^ 20.

(** The locals of [connection_loop]. *)
Record Connection := mkConnection {
  cn_decoder : FrameDecoder;
  cn_publisher : N;
  cn_boot : N;
  cn_registered : bool;
  cn_healthy : bool;
  cn_frames : N
}.

#[export] Instance Connection_settable : Settable Connection :=
  fields! mkConnection < cn_decoder; cn_publisher; cn_boot; cn_registered; cn_healthy; cn_frames >.

Definition new_connection : Connection := mkConnection default_frame_decoder 0 0 false true 0.

(** The node while it serves a connection: the fabric with the calls made so far,
    what was written to the channel, the counters, and the report file's lines. *)
Record Serving := mkServing {
  sv_fabric : Fabric;
  sv_calls : N;
  sv_sent : list (list byte);
  sv_writes : N;
  sv_frames_processed : N;
  sv_frames_rejected : N;
  sv_malformed_streams : N;
  sv_report : option (list string);
  sv_conn : Connection
}.

#[export] Instance Serving_settable : Settable Serving :=
  fields! mkServing < sv_fabric; sv_calls; sv_sent; sv_writes; sv_frames_processed; sv_frames_rejected;
    sv_malformed_streams; sv_report; sv_conn >.

(** ** Replies *)

Definition make_reply (request : Frame) (type : FrameType) (payload : list byte) : Frame :=
  let h := fr_header request in
  mkFrame (mkFrameHeader kFrameMagic 0 (frame_type_val type) (N.lor kFrameFlagReply kFrameFlagFinal) 0 0 0 0
             (fh_epoch h) (fh_boot h) (fh_publisher h) (fh_connection h) (fh_sequence h) (fh_nonce h) 0 0)
    payload.

(** ** The report file *)

Definition json_bool (b : bool) : string := if b then "true"%string else "false"%string.

(** The quotation mark of a JSON text. *)
Definition quote : string := String (Ascii.ascii_of_nat 34) EmptyString.
Definition json_field (name value : string) : string := (quote ++ name ++ quote ++ ":" ++ value)%string.
Definition json_text (value : string) : string := (quote ++ value ++ quote)%string.

Definition report_line (e : Explanation) : string :=
  ("{" ++ json_field "event" (json_text "evaluation")
   ++ "," ++ json_field "domain" (json_text (id_to_string "domain" (ex_domain e)))
   ++ "," ++ json_field "state" (json_text (state_to_string (ex_state e)))
   ++ "," ++ json_field "previous" (json_text (state_to_string (ex_previous_state e)))
   ++ "," ++ json_field "severity" (json_text (severity_to_string (ex_severity e)))
   ++ "," ++ json_field "transitioned" (json_bool (ex_transitioned e))
   ++ "," ++ json_field "authoritative" (json_bool (ex_authoritative e))
   ++ "," ++ json_field "requires_revalidation" (json_bool (ex_requires_revalidation e))
   ++ "," ++ json_field "reason" (json_text (ex_reason_code e))
   ++ "," ++ json_field "tick" (number (ex_evaluated_tick e))
   ++ "," ++ json_field "epoch" (json_text (id_to_string "epoch" (ex_epoch e)))
   ++ "," ++ json_field "evaluation" (json_text (id_to_string "evaluation" (ex_evaluation e)))
   ++ "," ++ json_field "authorized" (number (size64 (ex_authorized e)))
   ++ "," ++ json_field "suppressed" (number (size64 (ex_suppressed e))) ++ "}" ++ newline)%string.

(** The counter of the lines is the length of the file; it belongs to the process. *)
Definition write_report_line (e : Explanation) (s : Serving) : Serving :=
  match sv_report s with
  | None => s
  | Some lines => if kMaxReportLines <=? size64 lines then s else s <| sv_report := Some (lines ++ [report_line e]) |>
  end.

Section Serve.
Context (clock : N -> N) (io : StoreIo) (others : N -> Fabric -> Fabric) (write_ok : N -> bool).

(** A call of the fabric. *)
Definition call {A : Type} (m : Op A) (s : Serving) : Result A * Serving :=
  let '(r, f) := m (others (sv_calls s) (sv_fabric s)) in
  (r, s <| sv_fabric := f |> <| sv_calls ::= N.succ |>).

(** A call that answers a part of the state. *)
Definition ask {A : Type} (read : Fabric -> A) (s : Serving) : A * Serving :=
  let f := others (sv_calls s) (sv_fabric s) in
  (read f, s <| sv_fabric := f |> <| sv_calls ::= N.succ |>).

(** [fabric_->now()]. *)
Definition ask_now (s : Serving) : N * Serving :=
  let f := others (sv_calls s) (sv_fabric s) in
  (clock (fb_clock_reads f), s <| sv_fabric := (now clock f).2 |> <| sv_calls ::= N.succ |>).

(** Encode and write a reply; a write that fails delivers nothing. *)
Definition send (reply : Frame) (s : Serving) : bool * Serving :=
  match encode_frame reply [] with
  | Err _ => (false, s)
  | Ok bytes =>
      if write_ok (sv_writes s)
      then (true, s <| sv_writes ::= N.succ |> <| sv_sent ::= fun l => l ++ [bytes] |>)
      else (false, s <| sv_writes ::= N.succ |>)
  end.

Definition reject_frame (s : Serving) : Serving := s <| sv_frames_rejected ::= N.succ |>.
Definition unhealthy (s : Serving) : Serving := s <| sv_conn ::= fun c => c <| cn_healthy := false |> |>.

(** The reply of a request whose payload may not encode. *)
Definition reply (request : Frame) (type : FrameType) (payload : Result (list byte)) (s : Serving) : Serving :=
  match payload with
  | Err _ => unhealthy s
  | Ok bytes => let '(sent, s) := send (make_reply request type bytes) s in if sent then s else unhealthy s
  end.

(** ** Evaluation of what a batch touched *)

(** The loop over the samples; the set is kept in order. *)
Fixpoint touched_domains (t : TopologyIndex) (samples : list EvidenceSample) (touched : list N) : list N :=
  match samples with
  | [] => touched
  | sample :: rest =>
      match topo_resource t (es_resource sample) with
      | None => touched_domains t rest touched
      | Some record =>
          let touched := sort_unique (rc_domain record :: touched) in
          if kMaxDomainsEvaluatedPerBatch <=? size64 touched then touched else touched_domains t rest touched
      end
  end.

(** Evaluate, plan, report. *)
Definition evaluate_touched (domain : N) (s : Serving) : Serving :=
  match call (fabric_evaluate clock io domain) s with
  | (Err _, s) => s
  | (Ok _, s) =>
      let '(_, s) := call (fabric_plan_last clock io domain) s in
      let '(explanation, s) := ask (fabric_explain_last domain) s in
      match explanation with Ok e => write_report_line e s | Err _ => s end
  end.

Definition evaluate_touched_domains (batch : EvidenceBatch) (s : Serving) : Serving :=
  let '(topology, s) := ask fb_topology s in
  match topology with
  | None => s
  | Some t => foldl (fun s domain => evaluate_touched domain s) s (touched_domains t (eb_samples batch) [])
  end.

(** ** Frames *)

(** [case FrameType::Hello]. *)
Definition handle_hello (request : Frame) (s : Serving) : Serving :=
  match decode_hello (fr_payload request) with
  | Err _ => unhealthy (reject_frame s)
  | Ok hello =>
      let s := s <| sv_conn ::= fun c => c <| cn_publisher := hm_publisher hello |> <| cn_boot := hm_boot hello |> |> in
      let '(registration, s) :=
        call (fabric_register_publisher clock (hm_publisher hello) (hm_boot hello) (hm_requested hello)) s in
      let '(boot, s) := ask fb_boot s in
      let '(tick, s) := ask_now s in
      match registration with
      | Ok r =>
          let s := s <| sv_conn ::= fun c => c <| cn_registered := true |> |> in
          let '(generation, s) := ask fb_authority_generation s in
          let ack := mkHelloAckMessage (pr_epoch r) generation boot (pr_granted r) tick true "" in
          reply request FtHelloAck (encode_hello_ack ack) s
      | Err status =>
          let ack := mkHelloAckMessage 0 0 boot 0 tick false (describe status) in
          unhealthy (reply request FtHelloAck (encode_hello_ack ack) s)
      end
  end.

(** The acknowledgement of an ingest. *)
Definition evidence_ack (epoch : N) (batch : EvidenceBatch) (report : Result IngestReport) : EvidenceAckMessage :=
  match report with
  | Ok r => mkEvidenceAckMessage epoch (ig_accepted r) (ig_rejected r) (ig_duplicate r) (ig_fenced r)
  | Err _ => mkEvidenceAckMessage epoch 0 (size64 (eb_samples batch)) 0 0
  end.

(** [case FrameType::Evidence]. *)
Definition handle_evidence (request : Frame) (s : Serving) : Serving :=
  if negb (cn_registered (sv_conn s)) then unhealthy (reject_frame s)
  else
    match decode_evidence (fr_payload request) with
    | Err _ => unhealthy (reject_frame s)
    | Ok batch =>
        let '(report, s) := call (fabric_ingest clock batch) s in
        let '(epoch, s) := ask fb_epoch s in
        let s := if ok report then s else reject_frame s in
        let s := reply request FtEvidenceAck (encode_evidence_ack (evidence_ack epoch batch report)) s in
        if ok report then evaluate_touched_domains batch s else s
    end.

(** [case FrameType::Heartbeat]. *)
Definition handle_heartbeat (request : Frame) (s : Serving) : Serving :=
  let s := if cn_registered (sv_conn s)
           then (call (fabric_heartbeat clock (cn_publisher (sv_conn s)) (cn_boot (sv_conn s))) s).2 else s in
  reply request FtHeartbeatAck (Ok []) s.

(** [case FrameType::Goodbye]: a voluntary departure is not fenced. *)
Definition handle_goodbye (s : Serving) : Serving :=
  let s := if cn_registered (sv_conn s)
           then let s := (call (fabric_unregister_publisher clock io (cn_publisher (sv_conn s)) (cn_boot (sv_conn s))
                                 FrNone "") s).2 in
                s <| sv_conn ::= fun c => c <| cn_registered := false |> |>
           else s in
  unhealthy s.

(** [default]; an error that does not encode is not sent. *)
Definition handle_other (request : Frame) (s : Serving) : Serving :=
  match encode_error (mkErrorMessage InvalidArgument "frame type is not accepted from a publisher") with
  | Err _ => s
  | Ok payload => reply request FtErrorNotice (Ok payload) s
  end.

Definition handle_frame (max_frames : N) (request : Frame) (s : Serving) : Serving :=
  let s := s <| sv_conn ::= fun c => c <| cn_frames ::= N.succ |> |> <| sv_frames_processed ::= N.succ |> in
  if max_frames <? cn_frames (sv_conn s) then unhealthy s
  else
    match frame_type request with
    | FtHello => handle_hello request s
    | FtEvidence => handle_evidence request s
    | FtHeartbeat => handle_heartbeat request s
    | FtGoodbye => handle_goodbye s
    | _ => handle_other request s
    end.

(** A stream that cannot be framed. *)
Definition malformed (s : Serving) : Serving := unhealthy (reject_frame (s <| sv_malformed_streams ::= N.succ |>)).

Definition with_decoder (d : FrameDecoder) (s : Serving) : Serving :=
  s <| sv_conn ::= fun c => c <| cn_decoder := d |> |>.

(** The inner loop: every frame that is complete, while the connection is healthy.
    Every turn but the last consumes at least a header, so a fuel above the bytes
    the decoder holds is never exhausted. *)
Fixpoint serve_frames (fuel : nat) (max_frames : N) (s : Serving) : Serving :=
  match fuel with
  | O => s
  | S fuel =>
      match fd_next (cn_decoder (sv_conn s)) with
      | (Err _, d) => malformed (with_decoder d s)
      | (Ok None, d) => with_decoder d s
      | (Ok (Some request), d) =>
          let s := handle_frame max_frames request (with_decoder d s) in
          if cn_healthy (sv_conn s) then serve_frames fuel max_frames s else s
      end
  end.

(** One chunk. *)
Definition serve_chunk (max_frames : N) (chunk : list byte) (s : Serving) : Serving :=
  match fd_push chunk (cn_decoder (sv_conn s)) with
  | (Err _, d) => malformed (with_decoder d s)
  | (Ok _, d) => serve_frames (S (length (fd_buffer d))) max_frames (with_decoder d s)
  end.

(** The outer loop; a read of nothing ends it like one that failed. *)
Fixpoint serve (max_frames : N) (chunks : list (list byte)) (s : Serving) : Serving :=
  match chunks with
  | [] => s
  | [] :: _ => s
  | chunk :: rest =>
      let s := serve_chunk max_frames chunk s in
      if cn_healthy (sv_conn s) then serve max_frames rest s else s
  end.

(** The end of a connection: without a goodbye the incarnation is dead. *)
Definition finish_connection (s : Serving) : Serving :=
  if cn_registered (sv_conn s)
  then (call (fabric_unregister_publisher clock io (cn_publisher (sv_conn s)) (cn_boot (sv_conn s)) FrPublisherDeath
          "connection ended without a goodbye") s).2
  else s.

(** [connection_loop]. *)
Definition connection_loop (max_frames : N) (chunks : list (list byte)) (s : Serving) : Serving :=
  finish_connection (serve max_frames chunks (s <| sv_conn := new_connection |>)).

(** ** The periodic sweep *)

(** One turn of [evaluation_loop] for a domain: evaluate and report. *)
Definition sweep_domain (domain : N) (s : Serving) : Serving :=
  match call (fabric_evaluate clock io domain) s with
  | (Err _, s) => s
  | (Ok _, s) =>
      let '(explanation, s) := ask (fabric_explain_last domain) s in
      match explanation with Ok e => write_report_line e s | Err _ => s end
  end.

(** One sweep; the stop flag is seen before the domain with index [stop_at], if at all. *)
Definition sweep (stop_at : nat) (s : Serving) : Serving :=
  let '(domains, s) := ask fabric_domains s in
  foldl (fun s domain => sweep_domain domain s) s (take stop_at domains).
End Serve.

(** ** The accept loop *)

Record Acceptor := mkAcceptor {
  ac_consecutive_failures : N;
  ac_abandoned : N;
  ac_failures : N;
  ac_last_error : string;
  ac_next_connection : N;
  ac_accepted : N;
  ac_started : list N;
  ac_running : bool
}.

#[export] Instance Acceptor_settable : Settable Acceptor :=
  fields! mkAcceptor < ac_consecutive_failures; ac_abandoned; ac_failures; ac_last_error; ac_next_connection;
    ac_accepted; ac_started; ac_running >.

Definition new_acceptor : Acceptor := mkAcceptor 0 0 0 "" 1 0 [] true.

(** One turn: what [accept] answered and, when it answered a channel, how many
    connection threads are alive after the reaping.  The counter of consecutive
    failures never passes 65 and does not wrap. *)
Definition accept_step (max_connections active : N) (accepted : Result unit) (a : Acceptor) : Acceptor :=
  match accepted with
  | Err status =>
      if bool_decide (st_code status = Cancelled) || bool_decide (st_code status = Closed)
      then a <| ac_running := false |>
      else if bool_decide (st_code status = Unavailable)
      then a <| ac_abandoned ::= N.succ |> <| ac_consecutive_failures := 0 |>
      else
        let a := a <| ac_failures ::= N.succ |> <| ac_last_error := describe status |>
                   <| ac_consecutive_failures ::= N.succ |> in
        if 64 <? ac_consecutive_failures a then a <| ac_running := false |> else a
  | Ok _ =>
      let id := ac_next_connection a in
      let a := a <| ac_consecutive_failures := 0 |> <| ac_next_connection ::= N.succ |> in
      if max_connections <=? active then a
      else a <| ac_accepted ::= N.succ |> <| ac_started ::= fun l => l ++ [id] |>
  end.

(** [accept_loop], on the answers of the listener. *)
Fixpoint accept_loop (max_connections : N) (answers : list (Result unit * N)) (a : Acceptor) : Acceptor :=
  match answers with
  | [] => a
  | (accepted, active) :: rest =>
      let a := accept_step max_connections active accepted a in
      if ac_running a then accept_loop max_connections rest a else a
  end.
