(* ===== verification/CoordinatorSafety.v ===== *)
(** * CoordinatorSafety: what a connection does to the fabric

    Serving a connection, and sweeping, are sequences of calls of the fabric; a
    stream is served frame by frame however it is cut; a connection that never said
    hello reaches nothing; one that dies leaves its incarnation fenced; a batch is
    acknowledged sample for sample; the accept loop survives transient failures. *)

From stdpp Require Import gmap.
From Stdlib Require Import Strings.Byte.
From S2P Require Import Prelude Core Enums OMap Bytes Evidence Authority Topology State Intervention.
From S2P Require Import Explanation Evaluator Planner Frame Messages Journal Snapshot Store.
From S2P Require Import Fabric FabricInvariant FabricSafety Coordinator.

Open Scope N_scope.

(** ** Steps that make no call *)

(** Who a connection speaks for. *)
Definition same_link (c c' : Connection) : Prop :=
  cn_decoder c' = cn_decoder c /\ cn_publisher c' = cn_publisher c /\ cn_boot c' = cn_boot c /\
  cn_registered c' = cn_registered c.

(** Something was written or counted, but no call was made. *)
Definition quiet (s s' : Serving) : Prop :=
  sv_fabric s' = sv_fabric s /\ sv_calls s' = sv_calls s /\ same_link (sv_conn s) (sv_conn s').

#[export] Instance quiet_preorder : PreOrder quiet.
Proof.
  split; [by intros s|]. intros s t u (E1 & E2 & E3 & E4 & E5 & E6) (F1 & F2 & F3 & F4 & F5 & F6).
  repeat split; congruence.
Qed.

Section Quiet.
Context (write_ok : N -> bool).

Lemma send_quiet (reply : Frame) (s : Serving) : quiet s (send write_ok reply s).2 /\ sv_conn (send write_ok reply s).2 = sv_conn s.
Proof. unfold send. by destruct (encode_frame reply []); [|destruct (write_ok (sv_writes s))]. Qed.

Lemma reply_quiet (request : Frame) (type : FrameType) (payload : Result (list byte)) (s : Serving) :
  quiet s (reply write_ok request type payload s).
Proof.
  unfold reply. destruct payload as [e|bytes]; [done|].
  destruct (send_quiet (make_reply request type bytes) s) as [H _].
  destruct (send write_ok (make_reply request type bytes) s) as [sent s']. cbn [snd] in H. by destruct sent.
Qed.

Lemma reject_quiet (s : Serving) : quiet s (unhealthy (reject_frame s)).
Proof. done. Qed.

Lemma report_quiet (e : Explanation) (s : Serving) : quiet s (write_report_line e s).
Proof. unfold write_report_line. destruct (sv_report s) as [lines|]; [|done]. by destruct (kMaxReportLines <=? size64 lines). Qed.

Lemma other_quiet (request : Frame) (s : Serving) : quiet s (handle_other write_ok request s).
Proof. unfold handle_other. destruct (encode_error _) as [e|payload]; [done|apply reply_quiet]. Qed.
End Quiet.

(** ** Serving is a sequence of calls *)

Definition conn_ok (c : Connection) : Prop :=
  cn_registered c = true -> valid (cn_publisher c) = true /\ valid (cn_boot c) = true.

(** An operation that is one of the calls, or some of them. *)
Definition op_follows {A : Type} (m : Op A) : Prop := forall f, follows f (after m f).

Section Served.
Context (clock : N -> N) (io : StoreIo) (others : N -> Fabric -> Fabric) (write_ok : N -> bool).
Hypothesis others_follow : forall n f, follows f (others n f).

Lemma one_call {A : Type} (c : FabricCall) (m : Op A) : perform clock io c = after m -> op_follows m.
Proof. intros E f. rewrite <- E. apply follows_call, follows_refl. Qed.

Lemma register_follows (publisher boot requested : N) : op_follows (fabric_register_publisher clock publisher boot requested).
Proof. exact (one_call (CaRegister publisher boot requested) _ eq_refl). Qed.
Lemma unregister_follows (publisher boot : N) (reason : FenceReason) (detail : string) :
  op_follows (fabric_unregister_publisher clock io publisher boot reason detail).
Proof. exact (one_call (CaUnregister publisher boot reason detail) _ eq_refl). Qed.
Lemma heartbeat_follows (publisher boot : N) : op_follows (fabric_heartbeat clock publisher boot).
Proof. exact (one_call (CaHeartbeat publisher boot) _ eq_refl). Qed.
Lemma ingest_follows (batch : EvidenceBatch) : op_follows (fabric_ingest clock batch).
Proof. exact (one_call (CaIngest batch) _ eq_refl). Qed.
Lemma evaluate_follows (domain : N) : op_follows (fabric_evaluate clock io domain).
Proof. exact (one_call (CaEvaluate domain false false) _ eq_refl). Qed.
Lemma plan_last_follows (domain : N) : op_follows (fabric_plan_last clock io domain).
Proof. exact (one_call (CaPlanLast domain) _ eq_refl). Qed.

(** The fabric of the node is reached from [f0], and a registered connection has
    identities. *)
Definition served (f0 : Fabric) (s : Serving) : Prop := follows f0 (sv_fabric s) /\ conn_ok (sv_conn s).

Lemma served_quiet (f0 : Fabric) (s s' : Serving) : quiet s s' -> served f0 s -> served f0 s'.
Proof. intros (E & _ & _ & E1 & E2 & E3) [H1 H2]. split; [by rewrite E|]. unfold conn_ok. by rewrite E1, E2, E3. Qed.

Lemma served_call {A : Type} (f0 : Fabric) (m : Op A) (s : Serving) :
  op_follows m -> served f0 s -> served f0 (call others m s).2.
Proof.
  intros Hm [H1 H2]. unfold call. specialize (Hm (others (sv_calls s) (sv_fabric s))). unfold after in Hm.
  destruct (m _) as [r f]. split; [|exact H2]. cbn. etransitivity; [exact H1|].
  etransitivity; [apply (others_follow (sv_calls s))|exact Hm].
Qed.

Lemma call_conn {A : Type} (m : Op A) (s : Serving) : sv_conn (call others m s).2 = sv_conn s.
Proof. unfold call. by destruct (m _). Qed.

Lemma served_ask {A : Type} (f0 : Fabric) (read : Fabric -> A) (s : Serving) :
  served f0 s -> served f0 (ask others read s).2.
Proof. intros [H1 H2]. split; [|exact H2]. cbn. etransitivity; [exact H1|apply (others_follow (sv_calls s))]. Qed.

Lemma served_now (f0 : Fabric) (s : Serving) : served f0 s -> served f0 (ask_now clock others s).2.
Proof.
  intros [H1 H2]. split; [|exact H2]. cbn. etransitivity; [exact H1|]. etransitivity; [apply (others_follow (sv_calls s))|].
  exact (one_call CaNow (now clock) eq_refl _).
Qed.

(** Make the next call of the goal. *)
Ltac next_call :=
  let go made s Hmade := (
    let Hs := fresh "Hs" in pose proof Hmade as Hs;
    let Hc := fresh "Hc" in assert (sv_conn made.2 = sv_conn s) as Hc by first [apply call_conn | reflexivity];
    let r := fresh "r" in let s1 := fresh "s" in destruct made as [r s1]; cbn [snd] in Hs, Hc) in
  match goal with
  | H : served ?f0 ?s |- context [call others ?m ?s] =>
      let Hm := fresh in
      assert (op_follows m) as Hm
        by auto using register_follows, unregister_follows, heartbeat_follows, ingest_follows, evaluate_follows,
             plan_last_follows;
      go (call others m s) s (served_call f0 m s Hm H); clear Hm
  | H : served ?f0 ?s |- context [ask others ?read ?s] => go (ask others read s) s (served_ask f0 read s H)
  | H : served ?f0 ?s |- context [ask_now clock others ?s] => go (ask_now clock others s) s (served_now f0 s H)
  end.

Lemma served_evaluate_touched (f0 : Fabric) (domain : N) (s : Serving) :
  served f0 s -> served f0 (evaluate_touched clock io others domain s).
Proof.
  intros H. unfold evaluate_touched. next_call. destruct r as [e|out]; [exact Hs|]. next_call. next_call.
  destruct r0 as [e|x]; [exact Hs1|]. by eapply served_quiet; [apply report_quiet|].
Qed.

Lemma served_evaluate_all (f0 : Fabric) (batch : EvidenceBatch) (s : Serving) :
  served f0 s -> served f0 (evaluate_touched_domains clock io others batch s).
Proof.
  intros H. unfold evaluate_touched_domains. next_call. destruct r as [t|]; [|exact Hs].
  apply (foldl_inv (served f0)); [exact Hs|]. intros s' domain _. apply served_evaluate_touched.
Qed.

Lemma served_hello (f0 : Fabric) (request : Frame) (s : Serving) :
  served f0 s -> served f0 (handle_hello clock others write_ok request s).
Proof.
  intros H. unfold handle_hello. destruct (decode_hello (fr_payload request)) as [e|hello] eqn:Ed.
  { eapply served_quiet; [apply reject_quiet|exact H]. }
  apply decode_hello_valid in Ed. set (t := s <| sv_conn ::= _ |>).
  assert (served f0 t) as Ht by (destruct H; split; [done|intros _; exact Ed]).
  assert (valid (cn_publisher (sv_conn t)) = true /\ valid (cn_boot (sv_conn t)) = true) as Hids by exact Ed.
  clearbody t. clear H Ed.
  next_call. next_call. next_call. rewrite <- Hc, <- Hc0, <- Hc1 in Hids.
  destruct r as [status|registration].
  - eapply served_quiet; [|exact Hs1]. etransitivity; [apply reply_quiet|done].
  - set (u := s2 <| sv_conn ::= _ |>). assert (served f0 u) as Hu by (destruct Hs1; split; [done|intros _; exact Hids]).
    clearbody u. next_call. by eapply served_quiet; [apply reply_quiet|].
Qed.

Lemma served_evidence (f0 : Fabric) (request : Frame) (s : Serving) :
  served f0 s -> served f0 (handle_evidence clock io others write_ok request s).
Proof.
  intros H. unfold handle_evidence. destruct (negb _); [by apply (served_quiet f0 s)|].
  destruct (decode_evidence (fr_payload request)) as [e|batch]; [by apply (served_quiet f0 s)|].
  next_call. next_call. set (t := reply _ _ _ _ _).
  assert (served f0 t) as Ht by (eapply served_quiet; [apply reply_quiet|]; by destruct (ok r)).
  clearbody t. destruct (ok r); [by apply served_evaluate_all|exact Ht].
Qed.

Lemma served_heartbeat (f0 : Fabric) (request : Frame) (s : Serving) :
  served f0 s -> served f0 (handle_heartbeat clock others write_ok request s).
Proof.
  intros H. unfold handle_heartbeat. eapply served_quiet; [apply reply_quiet|].
  destruct (cn_registered (sv_conn s)); [|exact H]. by next_call.
Qed.

Lemma served_goodbye (f0 : Fabric) (s : Serving) : served f0 s -> served f0 (handle_goodbye clock io others s).
Proof.
  intros H. unfold handle_goodbye. destruct (cn_registered (sv_conn s)); [|by apply (served_quiet f0 s)].
  next_call. destruct Hs. split; [done|discriminate].
Qed.

Lemma served_frame (f0 : Fabric) (max_frames : N) (request : Frame) (s : Serving) :
  served f0 s -> served f0 (handle_frame clock io others write_ok max_frames request s).
Proof.
  intros H. unfold handle_frame. set (t := s <| sv_conn ::= _ |> <| sv_frames_processed ::= _ |>).
  assert (served f0 t) as Ht by (destruct H; by split). clearbody t. clear H. destruct (max_frames <? _).
  - by apply (served_quiet f0 t).
  - destruct (frame_type request);
      lazymatch goal with
      | |- served _ (handle_hello _ _ _ _ _) => by apply served_hello
      | |- served _ (handle_evidence _ _ _ _ _ _) => by apply served_evidence
      | |- served _ (handle_heartbeat _ _ _ _ _) => by apply served_heartbeat
      | |- served _ (handle_goodbye _ _ _ _) => by apply served_goodbye
      | |- _ => by eapply served_quiet; [apply other_quiet|]
      end.
Qed.

Lemma served_decoder (f0 : Fabric) (d : FrameDecoder) (s : Serving) : served f0 s -> served f0 (with_decoder d s).
Proof. intros H. exact H. Qed.

Lemma served_frames (f0 : Fabric) (fuel : nat) (max_frames : N) (s : Serving) :
  served f0 s -> served f0 (serve_frames clock io others write_ok fuel max_frames s).
Proof.
  revert s. induction fuel as [|fuel IH]; intros s H; [exact H|]. cbn [serve_frames].
  destruct (fd_next (cn_decoder (sv_conn s))) as [[e|[request|]] d]; [exact H| |exact H].
  apply (served_decoder f0 d), (served_frame f0 max_frames request) in H.
  destruct (cn_healthy _); [by apply IH|exact H].
Qed.

Lemma served_chunks (f0 : Fabric) (max_frames : N) (chunks : list (list byte)) (s : Serving) :
  served f0 s -> served f0 (serve clock io others write_ok max_frames chunks s).
Proof.
  revert s. induction chunks as [|[|b chunk] chunks IH]; intros s H; [exact H|exact H|]. cbn [serve].
  assert (served f0 (serve_chunk clock io others write_ok max_frames (b :: chunk) s)) as Hs.
  { unfold serve_chunk. destruct (fd_push _ _) as [[e|[]] d]; [exact H|]. by apply served_frames. }
  destruct (cn_healthy _); [by apply IH|exact Hs].
Qed.

Lemma served_finish (f0 : Fabric) (s : Serving) : served f0 s -> served f0 (finish_connection clock io others s).
Proof.
  intros H. unfold finish_connection. destruct (cn_registered (sv_conn s)); [|exact H]. by next_call.
Qed.

Lemma served_start (s : Serving) : served (sv_fabric s) (s <| sv_conn := new_connection |>).
Proof. split; [reflexivity|discriminate]. Qed.

Lemma served_sweep_domain (f0 : Fabric) (domain : N) (s : Serving) :
  served f0 s -> served f0 (sweep_domain clock io others domain s).
Proof.
  intros H. unfold sweep_domain. next_call. destruct r as [e|out]; [exact Hs|]. next_call.
  destruct r as [e|x]; [exact Hs0|]. by eapply served_quiet; [apply report_quiet|].
Qed.

Lemma served_sweep (f0 : Fabric) (stop_at : nat) (s : Serving) :
  served f0 s -> served f0 (sweep clock io others stop_at s).
Proof.
  intros H. unfold sweep. next_call. apply (foldl_inv (served f0)); [exact Hs|]. intros s' domain _.
  apply served_sweep_domain.
Qed.

(** Whatever arrives on a connection, however it is cut, and whatever the other
    threads do in between, serving it is a sequence of calls of the fabric, and so is
    a sweep: everything that holds of every reachable fabric holds of the node's. *)
Theorem connection_follows (max_frames : N) (chunks : list (list byte)) (stop_at : nat) (s : Serving)
    (Hs : reachable_fabric (sv_fabric s)) (Hidle : cn_registered (sv_conn s) = false) :
  let s1 := connection_loop clock io others write_ok max_frames chunks s in
  let s2 := sweep clock io others stop_at s in
  (follows (sv_fabric s) (sv_fabric s1) /\ reachable_fabric (sv_fabric s1)) /\
  (follows (sv_fabric s) (sv_fabric s2) /\ reachable_fabric (sv_fabric s2)).
Proof.
  cbv zeta. assert (forall g, follows (sv_fabric s) g -> follows (sv_fabric s) g /\ reachable_fabric g) as Hg
    by (intros g Hg; split; [exact Hg|by apply (reachable_follows (sv_fabric s))]).
  split; apply Hg.
  - by apply served_finish, served_chunks, served_start.
  - apply served_sweep. split; [reflexivity|]. unfold conn_ok. by rewrite Hidle.
Qed.

(** C7. A connection that ends without a goodbye leaves its incarnation fenced: it is no
    longer registered and nothing it measured is in the window, now and after any
    further calls.  After a goodbye, or without a registration, the end of the
    connection changes nothing. *)
Theorem connection_death_fences (max_frames : N) (chunks : list (list byte)) (s : Serving)
    (Hs : reachable_fabric (sv_fabric s)) :
  let before := serve clock io others write_ok max_frames chunks (s <| sv_conn := new_connection |>) in
  let ended := connection_loop clock io others write_ok max_frames chunks s in
  (cn_registered (sv_conn before) = false -> ended = before) /\
  (cn_registered (sv_conn before) = true -> fb_closed (others (sv_calls before) (sv_fabric before)) = false ->
   forall g, follows (sv_fabric ended) g ->
     let publisher := cn_publisher (sv_conn before) in
     let boot := cn_boot (sv_conn before) in
     fabric_is_fenced publisher boot g = true /\ registered publisher boot g = None /\
     Forall (fun e : EvidenceKey * EvidenceSample => from_incarnation publisher boot e.2 = false) (fb_evidence g)).
Proof.
  cbv zeta. unfold connection_loop, finish_connection.
  pose proof (served_chunks _ max_frames chunks _ (served_start s)) as [Hf Hc].
  set (before := serve _ _ _ _ _ _ _) in *. clearbody before.
  split; [by intros ->|]. intros Hr Hopen. rewrite Hr. destruct (Hc Hr) as [Hp Hb].
  set (f := others (sv_calls before) (sv_fabric before)) in *.
  assert (reachable_fabric f) as Hreach.
  { apply (reachable_follows (sv_fabric s)); [exact Hs|]. etransitivity; [exact Hf|apply others_follow]. }
  pose proof (unregister_fences clock io (cn_publisher (sv_conn before)) (cn_boot (sv_conn before)) FrPublisherDeath
    "connection ended without a goodbye" f Hopen ltac:(done) ltac:(done) Hp Hb) as Hfenced.
  pose proof (unregister_follows (cn_publisher (sv_conn before)) (cn_boot (sv_conn before)) FrPublisherDeath
    "connection ended without a goodbye" f) as Hfollow.
  unfold call, after in *. fold f. destruct (fabric_unregister_publisher _ _ _ _ _ _ f) as [r h]. cbn [snd sv_fabric set] in *.
  intros g Hg. pose proof (fenced_stays h g _ _ Hg Hfenced) as H. split; [exact H|]. apply fenced_gone; [|exact H].
  apply reachable_ok. apply (reachable_follows f); [exact Hreach|]. by transitivity h.
Qed.
End Served.

(** ** A stream is served frame by frame *)

(** The frames of a connection, until it is no longer healthy. *)
Fixpoint handle_frames (clock : N -> N) (io : StoreIo) (others : N -> Fabric -> Fabric) (write_ok : N -> bool)
    (max_frames : N) (frames : list Frame) (s : Serving) : Serving :=
  match frames with
  | [] => s
  | request :: rest =>
      let s := handle_frame clock io others write_ok max_frames request s in
      if cn_healthy (sv_conn s) then handle_frames clock io others write_ok max_frames rest s else s
  end.

(** The frames a decoder gives up while it is drained, and whether the stream broke:
    what a connection hears, of any bytes whatever. *)
Fixpoint drained (fuel : nat) (d : FrameDecoder) : list Frame * bool * FrameDecoder :=
  match fuel with
  | O => ([], false, d)
  | S fuel =>
      match fd_next d with
      | (Err _, d) => ([], true, d)
      | (Ok None, d) => ([], false, d)
      | (Ok (Some request), d) => let '(rest, broken, d) := drained fuel d in (request :: rest, broken, d)
      end
  end.

(** What is heard of the chunks the reads return, up to a read of nothing or the
    first byte that cannot be framed. *)
Fixpoint heard (d : FrameDecoder) (chunks : list (list byte)) : list Frame :=
  match chunks with
  | [] => []
  | [] :: _ => []
  | chunk :: rest =>
      match fd_push chunk d with
      | (Err _, _) => []
      | (Ok _, d) =>
          let '(frames, broken, d) := drained (S (length (fd_buffer d))) d in
          if broken then frames else frames ++ heard d rest
      end
  end.

(** A step that does not look at the decoder. *)
Definition blind (h : Serving -> Serving) : Prop := forall d s, h (with_decoder d s) = with_decoder d (h s).

Section Stream.
Context (clock : N -> N) (io : StoreIo) (others : N -> Fabric -> Fabric) (write_ok : N -> bool).

Lemma call_blind {A : Type} (m : Op A) (d : FrameDecoder) (s : Serving) :
  call others m (with_decoder d s) = ((call others m s).1, with_decoder d (call others m s).2).
Proof. unfold call. cbn. by destruct (m _). Qed.

Lemma reply_blind (request : Frame) (type : FrameType) (payload : Result (list byte)) :
  blind (reply write_ok request type payload).
Proof.
  intros d s. unfold reply. destruct payload as [e|bytes]; [done|]. unfold send. cbn.
  destruct (encode_frame _ []); [done|]. by destruct (write_ok (sv_writes s)).
Qed.

Lemma report_blind (e : Explanation) : blind (write_report_line e).
Proof. intros d s. unfold write_report_line. cbn. destruct (sv_report s); [|done]. by destruct (_ <=? _). Qed.

Lemma evaluate_touched_blind (domain : N) : blind (evaluate_touched clock io others domain).
Proof.
  intros d s. unfold evaluate_touched. rewrite call_blind. destruct (call others _ s) as [[e|out] s1]; [done|]. cbn [fst snd].
  rewrite call_blind. destruct (call others _ s1) as [r s2]. cbn [fst snd]. unfold ask. cbn.
  destruct (fabric_explain_last _ _); [done|]. exact (report_blind _ d (s2 <| sv_fabric := _ |> <| sv_calls ::= _ |>)).
Qed.

Lemma fold_blind {A : Type} (h : A -> Serving -> Serving) (l : list A) (d : FrameDecoder) (s : Serving) :
  (forall x, blind (h x)) -> foldl (fun s x => h x s) (with_decoder d s) l = with_decoder d (foldl (fun s x => h x s) s l).
Proof. intros H. revert s. induction l as [|x l IH]; intros s; [done|]. cbn [foldl]. by rewrite (H x), IH. Qed.

Lemma evaluate_all_blind (batch : EvidenceBatch) : blind (evaluate_touched_domains clock io others batch).
Proof.
  intros d s. unfold evaluate_touched_domains, ask. cbn. destruct (fb_topology _); [|done].
  exact (fold_blind (evaluate_touched clock io others) _ d (s <| sv_fabric := _ |> <| sv_calls ::= _ |>) evaluate_touched_blind).
Qed.

(** Calls and replies, one step at a time. *)
Lemma ask_blind {A : Type} (read : Fabric -> A) (d : FrameDecoder) (s : Serving) :
  ask others read (with_decoder d s) = ((ask others read s).1, with_decoder d (ask others read s).2).
Proof. done. Qed.

Lemma ask_now_blind (d : FrameDecoder) (s : Serving) :
  ask_now clock others (with_decoder d s) = ((ask_now clock others s).1, with_decoder d (ask_now clock others s).2).
Proof. done. Qed.

Ltac blind_call := rewrite call_blind; match goal with |- context [call others ?m ?s] =>
  destruct (call others m s) as [? ?]; cbn [fst snd] end.
Ltac blind_ask := rewrite ask_blind; match goal with |- context [ask others ?read ?s] =>
  destruct (ask others read s) as [? ?]; cbn [fst snd] end.
Ltac blind_now := rewrite ask_now_blind; match goal with |- context [ask_now clock others ?s] =>
  destruct (ask_now clock others s) as [? ?]; cbn [fst snd] end.

(** What is read of the connection is not the decoder. *)
Ltac link_blind := repeat match goal with
  | |- context [cn_registered (sv_conn (with_decoder ?d ?s))] =>
      change (cn_registered (sv_conn (with_decoder d s))) with (cn_registered (sv_conn s))
  | |- context [cn_publisher (sv_conn (with_decoder ?d ?s))] =>
      change (cn_publisher (sv_conn (with_decoder d s))) with (cn_publisher (sv_conn s))
  | |- context [cn_boot (sv_conn (with_decoder ?d ?s))] =>
      change (cn_boot (sv_conn (with_decoder d s))) with (cn_boot (sv_conn s))
  | |- context [cn_frames (sv_conn (with_decoder ?d ?s))] =>
      change (cn_frames (sv_conn (with_decoder d s))) with (cn_frames (sv_conn s))
  end.

Lemma hello_blind (request : Frame) : blind (handle_hello clock others write_ok request).
Proof.
  intros d s. unfold handle_hello. destruct (decode_hello _) as [e|hello]; [done|].
  set (change := fun c => c <| cn_publisher := _ |> <| cn_boot := _ |>).
  change ((with_decoder d s) <| sv_conn ::= change |>) with (with_decoder d (s <| sv_conn ::= change |>)).
  blind_call. blind_ask. blind_now. destruct r as [status|registration].
  - rewrite reply_blind. done.
  - set (register := fun c => c <| cn_registered := true |>).
    change ((with_decoder d s2) <| sv_conn ::= register |>) with (with_decoder d (s2 <| sv_conn ::= register |>)).
    blind_ask. apply reply_blind.
Qed.

Lemma evidence_blind (request : Frame) : blind (handle_evidence clock io others write_ok request).
Proof.
  intros d s. unfold handle_evidence. link_blind. destruct (negb _); [done|]. destruct (decode_evidence _) as [e|batch]; [done|].
  blind_call. blind_ask. destruct (ok r).
  - rewrite reply_blind. apply evaluate_all_blind.
  - apply (reply_blind _ _ _ d (reject_frame s1)).
Qed.

Lemma heartbeat_blind (request : Frame) : blind (handle_heartbeat clock others write_ok request).
Proof.
  intros d s. unfold handle_heartbeat. link_blind. destruct (cn_registered (sv_conn s)); [rewrite call_blind|]; apply reply_blind.
Qed.

Lemma goodbye_blind : blind (handle_goodbye clock io others).
Proof.
  intros d s. unfold handle_goodbye. link_blind. destruct (cn_registered (sv_conn s)); [|done]. by rewrite call_blind.
Qed.

Lemma other_blind (request : Frame) : blind (handle_other write_ok request).
Proof. intros d s. unfold handle_other. destruct (encode_error _); [done|apply reply_blind]. Qed.

Lemma frame_blind (max_frames : N) (request : Frame) : blind (handle_frame clock io others write_ok max_frames request).
Proof.
  intros d s. unfold handle_frame. set (change := fun c => c <| cn_frames ::= N.succ |>).
  change ((with_decoder d s) <| sv_conn ::= change |> <| sv_frames_processed ::= N.succ |>)
    with (with_decoder d (s <| sv_conn ::= change |> <| sv_frames_processed ::= N.succ |>)).
  set (t := s <| sv_conn ::= _ |> <| sv_frames_processed ::= _ |>). clearbody t. link_blind.
  destruct (max_frames <? _); [done|].
  destruct (frame_type request); lazymatch goal with
    | |- handle_hello _ _ _ _ _ = _ => apply hello_blind
    | |- handle_evidence _ _ _ _ _ _ = _ => apply evidence_blind
    | |- handle_heartbeat _ _ _ _ _ = _ => apply heartbeat_blind
    | |- handle_goodbye _ _ _ _ = _ => apply goodbye_blind
    | |- _ => apply other_blind
    end.
Qed.

Lemma healthy_blind (d : FrameDecoder) (s : Serving) : cn_healthy (sv_conn (with_decoder d s)) = cn_healthy (sv_conn s).
Proof. done. Qed.

Lemma handle_frames_app (max_frames : N) (l1 l2 : list Frame) (s : Serving) :
  cn_healthy (sv_conn s) = true ->
  handle_frames clock io others write_ok max_frames (l1 ++ l2) s
  = let s := handle_frames clock io others write_ok max_frames l1 s in
    if cn_healthy (sv_conn s) then handle_frames clock io others write_ok max_frames l2 s else s.
Proof.
  cbv zeta. revert s. induction l1 as [|f l1 IH]; intros s Hs; cbn [handle_frames app]; [by rewrite Hs|].
  destruct (cn_healthy (sv_conn (handle_frame clock io others write_ok max_frames f s))) eqn:E; [by apply IH|].
  by rewrite E.
Qed.

(** What the decoder drains is handled, as far as the connection is healthy. *)
Lemma serve_frames_drain (fuel : nat) (max_frames : N) (d d' : FrameDecoder) (frames : list Frame) (s : Serving) :
  fd_drain fuel d = (Ok frames, d') ->
  let s' := handle_frames clock io others write_ok max_frames frames s in
  exists d'', serve_frames clock io others write_ok fuel max_frames (with_decoder d s) = with_decoder d'' s' /\
    (cn_healthy (sv_conn s') = true -> d'' = d').
Proof.
  cbv zeta. revert d frames s. induction fuel as [|fuel IH]; intros d frames s H; cbn [fd_drain serve_frames] in *.
  { injection H as <- <-. by exists d. }
  change (cn_decoder (sv_conn (with_decoder d s))) with d.
  destruct (fd_next d) as [[e|[f|]] d1]; [discriminate H| |injection H as <- <-; by exists d1].
  destruct (fd_drain fuel d1) as [[e|frames'] d2] eqn:Ed; [discriminate H|]. injection H as <- <-.
  change (with_decoder d1 (with_decoder d s)) with (with_decoder d1 s). rewrite (frame_blind max_frames f d1 s).
  cbn [handle_frames]. rewrite healthy_blind. destruct (cn_healthy _) eqn:E; [by apply IH|].
  exists d1. split; [done|]. by rewrite E.
Qed.

Lemma serve_run (max_frames : N) (chunks : list (list byte)) (d d' : FrameDecoder) (frames : list Frame) (s : Serving) :
  Forall (fun chunk => chunk <> []) chunks -> cn_healthy (sv_conn s) = true -> fd_run d chunks = (Ok frames, d') ->
  exists d'', serve clock io others write_ok max_frames chunks (with_decoder d s)
              = with_decoder d'' (handle_frames clock io others write_ok max_frames frames s).
Proof.
  revert d frames s. induction chunks as [|chunk chunks IH]; intros d frames s Hne Hs H; cbn [fd_run] in H.
  { injection H as <- <-. by exists d. }
  apply Forall_cons in Hne as [Hne Hrest]. destruct (fd_feed d chunk) as [[e|here] d1] eqn:Ef; [discriminate H|].
  destruct (fd_run d1 chunks) as [[e|later] d2] eqn:Er; [discriminate H|]. injection H as <- <-.
  rewrite handle_frames_app by exact Hs. cbv zeta.
  destruct chunk as [|b chunk]; [done|]. cbn [serve]. unfold serve_chunk. cbn [with_decoder]. unfold fd_feed in Ef.
  change (cn_decoder (sv_conn (with_decoder d s))) with d.
  destruct (fd_push (b :: chunk) d) as [[e|[]] dp]; [discriminate Ef|].
  change (with_decoder dp (with_decoder d s)) with (with_decoder dp s).
  destruct (serve_frames_drain _ max_frames dp d1 here s Ef) as (d'' & -> & Hd''). rewrite healthy_blind.
  set (s' := handle_frames _ _ _ _ _ here s) in *. destruct (cn_healthy (sv_conn s')) eqn:E; [|by exists d''].
  rewrite (Hd'' eq_refl). by apply IH.
Qed.

(** A stream that cannot be framed ends the connection and touches nothing else. *)
Definition broken_off (b : bool) (s : Serving) : Serving := if b && cn_healthy (sv_conn s) then malformed s else s.

Lemma serve_frames_heard (fuel : nat) (max_frames : N) (d d' : FrameDecoder) (frames : list Frame) (b : bool) (s : Serving) :
  cn_healthy (sv_conn s) = true -> drained fuel d = (frames, b, d') ->
  let s' := handle_frames clock io others write_ok max_frames frames s in
  exists d'', serve_frames clock io others write_ok fuel max_frames (with_decoder d s) = with_decoder d'' (broken_off b s') /\
    (cn_healthy (sv_conn s') = true -> d'' = d').
Proof.
  cbv zeta. revert d frames s. induction fuel as [|fuel IH]; intros d frames s Hs H; cbn [drained serve_frames] in *.
  { injection H as <- <- <-. by exists d. }
  change (cn_decoder (sv_conn (with_decoder d s))) with d.
  destruct (fd_next d) as [[e|[f|]] d1].
  - injection H as <- <- <-. exists d1. cbn [handle_frames]. unfold broken_off. by rewrite Hs.
  - destruct (drained fuel d1) as [[rest b'] d2] eqn:Ed. injection H as <- <- <-.
    change (with_decoder d1 (with_decoder d s)) with (with_decoder d1 s). rewrite (frame_blind max_frames f d1 s).
    cbn [handle_frames]. rewrite healthy_blind.
    destruct (cn_healthy (sv_conn (handle_frame clock io others write_ok max_frames f s))) eqn:E; [by apply IH|].
    exists d1. unfold broken_off. rewrite E, andb_false_r. by split.
  - injection H as <- <- <-. by exists d1.
Qed.

(** Serving any chunks is handling what is heard of them. *)
Lemma serve_heard (max_frames : N) (chunks : list (list byte)) (d : FrameDecoder) (s : Serving) :
  cn_healthy (sv_conn s) = true ->
  exists d' b, serve clock io others write_ok max_frames chunks (with_decoder d s)
    = with_decoder d' (broken_off b (handle_frames clock io others write_ok max_frames (heard d chunks) s)).
Proof.
  revert d s. induction chunks as [|chunk chunks IH]; intros d s Hs; [by exists d, false|].
  destruct chunk as [|byte chunk]; [by exists d, false|]. cbn [serve heard]. unfold serve_chunk.
  change (cn_decoder (sv_conn (with_decoder d s))) with d.
  destruct (fd_push (byte :: chunk) d) as [[e|[]] dp].
  { exists dp, true. change (with_decoder dp (with_decoder d s)) with (with_decoder dp s).
    cbn [handle_frames]. unfold broken_off. by rewrite Hs. }
  change (with_decoder dp (with_decoder d s)) with (with_decoder dp s).
  destruct (drained (S (length (fd_buffer dp))) dp) as [[frames b] d1] eqn:Ed.
  destruct (serve_frames_heard _ max_frames dp d1 frames b s Hs Ed) as (d'' & -> & Hd'').
  rewrite healthy_blind. destruct b.
  - assert (cn_healthy (sv_conn (broken_off true (handle_frames clock io others write_ok max_frames frames s))) = false) as ->.
    { unfold broken_off. cbn [andb]. destruct (cn_healthy (sv_conn (handle_frames _ _ _ _ _ _ _))) eqn:E; [done|exact E]. }
    by exists d'', true.
  - rewrite handle_frames_app by exact Hs. cbv zeta. unfold broken_off at 1. cbn [andb].
    change (broken_off false ?t) with t.
    destruct (cn_healthy (sv_conn (handle_frames clock io others write_ok max_frames frames s))) eqn:E.
    + rewrite (Hd'' eq_refl). by apply IH.
    + by exists d'', false.
Qed.

Lemma broken_off_quiet (b : bool) (s : Serving) : quiet s (broken_off b s).
Proof. unfold broken_off. by destruct (b && _). Qed.

Lemma serve_stream (max_frames : N) (frames : list Frame) (chunks : list (list byte)) (s : Serving)
    (Hok : Forall frame_ok frames) (Hcut : concat chunks = concat (map frame_bytes frames))
    (Hne : Forall (fun chunk => chunk <> []) chunks)
    (Hsize : size64 (concat chunks) <= fd_max_buffered default_frame_decoder) :
  let start := s <| sv_conn := new_connection |> in
  exists d, connection_loop clock io others write_ok max_frames chunks s
    = finish_connection clock io others
        (with_decoder d (handle_frames clock io others write_ok max_frames (map sealed_frame frames) start)).
Proof.
  cbv zeta. set (start := s <| sv_conn := new_connection |>).
  assert (cn_healthy (sv_conn start) = true) as Hstart by done.
  destruct (fd_run_frames chunks frames default_frame_decoder []) as (d' & Hrun & _).
  - eapply Forall_impl; [exact Hok|]. intros f Hf. split; [exact Hf|]. apply Hf.
  - by split.
  - by left.
  - exact Hcut.
  - exact Hsize.
  - destruct (serve_run max_frames chunks default_frame_decoder d' _ start Hne Hstart Hrun) as [d Hd].
    exists d. unfold connection_loop. by rewrite <- Hd.
Qed.


(** C13. A stream of frames is served frame by frame, in order, however it is cut into
    chunks: all of them when the connection stays healthy, and nothing after the
    frame that ended it.  The stream may be as long as the decoder's buffer bound. *)
Theorem stream_served (max_frames : N) (frames : list Frame) (chunks : list (list byte)) (s : Serving)
    (Hok : Forall frame_ok frames) (Hcut : concat chunks = concat (map frame_bytes frames))
    (Hne : Forall (fun chunk => chunk <> []) chunks)
    (Hsize : size64 (concat chunks) <= fd_max_buffered default_frame_decoder) :
  let start := s <| sv_conn := new_connection |> in
  exists d, connection_loop clock io others write_ok max_frames chunks s
    = finish_connection clock io others
        (with_decoder d (handle_frames clock io others write_ok max_frames (map sealed_frame frames) start)).
Proof. by apply serve_stream. Qed.

(** *** Strangers *)

(** Neither the fabric nor the standing of the connection changes. *)
Definition idle (s s' : Serving) : Prop :=
  sv_fabric s' = sv_fabric s /\ sv_calls s' = sv_calls s /\ cn_registered (sv_conn s') = cn_registered (sv_conn s).

Lemma quiet_idle (s s' : Serving) : quiet s s' -> idle s s'.
Proof. by intros (E1 & E2 & _ & _ & _ & E3). Qed.

Lemma stranger_frame (max_frames : N) (request : Frame) (s : Serving) :
  cn_registered (sv_conn s) = false -> frame_type request <> FtHello ->
  idle s (handle_frame clock io others write_ok max_frames request s).
Proof.
  intros Hr Ht. unfold handle_frame. set (t := s <| sv_conn ::= _ |> <| sv_frames_processed ::= _ |>).
  assert (idle s t) as Hst by done. assert (cn_registered (sv_conn t) = false) as Hrt by exact Hr. clearbody t.
  assert (forall u, quiet t u -> idle s u) as Hq.
  { intros u (E1 & E2 & E3)%quiet_idle. destruct Hst as (F1 & F2 & F3). repeat split; congruence. }
  destruct (max_frames <? _); [by apply Hq|]. destruct (frame_type request); lazymatch goal with
    | |- idle _ (handle_hello _ _ _ _ _) => by destruct Ht
    | |- idle _ (handle_evidence _ _ _ _ _ _) => unfold handle_evidence; rewrite Hrt; by apply Hq
    | |- idle _ (handle_heartbeat _ _ _ _ _) => unfold handle_heartbeat; rewrite Hrt; apply Hq, reply_quiet
    | |- idle _ (handle_goodbye _ _ _ _) => unfold handle_goodbye; rewrite Hrt; by apply Hq
    | |- _ => apply Hq, other_quiet
    end.
Qed.

Lemma stranger_frames (max_frames : N) (frames : list Frame) (s : Serving) :
  cn_registered (sv_conn s) = false -> Forall (fun f => frame_type f <> FtHello) frames ->
  idle s (handle_frames clock io others write_ok max_frames frames s).
Proof.
  revert s. induction frames as [|f frames IH]; intros s Hr Hall; [done|]. apply Forall_cons in Hall as [Hf Hall].
  cbn [handle_frames]. destruct (stranger_frame max_frames f s Hr Hf) as (E1 & E2 & E3).
  set (s' := handle_frame _ _ _ _ _ f s) in *. clearbody s'. destruct (cn_healthy _); [|done].
  destruct (IH s') as (F1 & F2 & F3); [congruence|done|]. repeat split; congruence.
Qed.

(** C14. A connection that never says hello reaches nothing: whatever bytes arrive on it, in
    chunks of any sizes, well formed or not, as long as no frame the decoder makes of them
    is a Hello, serving the connection to its end makes no call of the fabric. *)
Theorem strangers_reach_nothing (max_frames : N) (chunks : list (list byte)) (s : Serving)
    (Hstranger : Forall (fun f => frame_type f <> FtHello) (heard default_frame_decoder chunks)) :
  let ended := connection_loop clock io others write_ok max_frames chunks s in
  sv_fabric ended = sv_fabric s /\ sv_calls ended = sv_calls s.
Proof.
  cbv zeta. unfold connection_loop. set (start := s <| sv_conn := new_connection |>).
  change start with (with_decoder default_frame_decoder start) at 1 2.
  destruct (serve_heard max_frames chunks default_frame_decoder start eq_refl) as (d & b & ->).
  destruct (stranger_frames max_frames _ start eq_refl Hstranger) as (E1 & E2 & E3).
  set (t := handle_frames _ _ _ _ _ _ start) in *. clearbody t.
  destruct (quiet_idle _ _ (broken_off_quiet b t)) as (F1 & F2 & F3).
  unfold finish_connection. change (cn_registered (sv_conn (with_decoder d ?u))) with (cn_registered (sv_conn u)).
  rewrite F3, E3. cbn [cn_registered start sv_conn set new_connection]. split; [exact (eq_trans F1 E1)|exact (eq_trans F2 E2)].
Qed.
End Stream.

(** ** Acknowledgements *)

Lemma fenced_step (tick : N) (st : Fabric * IngestReport) (sample : EvidenceSample) :
  ig_fenced (ingest_sample tick st sample).2 <= ig_fenced st.2 + 1.
Proof.
  unfold ingest_sample. repeat case_match; cbn; lia.
Qed.

Lemma fenced_count (tick : N) (samples : list EvidenceSample) (st : Fabric * IngestReport) :
  ig_fenced (foldl (ingest_sample tick) st samples).2 <= ig_fenced st.2 + size64 samples.
Proof.
  revert st. induction samples as [|sample samples IH]; intros st; [cbn; lia|]. cbn [foldl].
  rewrite size64_cons. pose proof (IH (ingest_sample tick st sample)). pose proof (fenced_step tick st sample). lia.
Qed.

(** A reply is a frame. *)
Lemma make_reply_ok (request : Frame) (type : FrameType) (payload : list byte) :
  frame_header_words (fr_header request) -> is_valid_frame_type type = true -> size64 payload <= kMaxFramePayload ->
  frame_ok (make_reply request type payload) /\ frame_type (make_reply request type payload) = type.
Proof.
  intros [] Ht Hp.
  assert (forall v, type <> FtRaw v) as Hraw.
  { intros v ->. unfold is_valid_frame_type, frame_type_val in Ht. reflect_bools. lia. }
  assert (frame_type (make_reply request type payload) = type) as E
    by (unfold frame_type; destruct type; (reflexivity || discriminate Ht || by destruct (Hraw v))).
  split; [|exact E]. split; [by rewrite E|exact Hp|reflexivity|].
  split; cbn; try assumption; try reflexivity. destruct type; (reflexivity || discriminate Ht || by destruct (Hraw v)).
Qed.

(** What a reply that is written carries. *)
Record answers (request : Frame) (type : FrameType) (payload bytes : list byte) : Prop := {
  an_frame : exists answer, decode_frame bytes = Ok answer /\ frame_type answer = type /\ fr_payload answer = payload /\
    fh_sequence (fr_header answer) = fh_sequence (fr_header request) /\
    fh_nonce (fr_header answer) = fh_nonce (fr_header request) /\
    fh_publisher (fr_header answer) = fh_publisher (fr_header request) /\
    fh_boot (fr_header answer) = fh_boot (fr_header request) /\
    fh_connection (fr_header answer) = fh_connection (fr_header request)
}.

Lemma reply_sent (write_ok : N -> bool) (request : Frame) (type : FrameType) (payload : list byte) (s : Serving) :
  frame_header_words (fr_header request) -> is_valid_frame_type type = true -> size64 payload <= kMaxFramePayload ->
  write_ok (sv_writes s) = true ->
  exists bytes, sv_sent (reply write_ok request type (Ok payload) s) = sv_sent s ++ [bytes] /\
    answers request type payload bytes.
Proof.
  intros Hw Ht Hp Hwrite. destruct (make_reply_ok request type payload Hw Ht Hp) as [Hok Htype].
  exists (frame_bytes (make_reply request type payload)). split.
  - unfold reply, send. by rewrite encode_frame_Ok, Hwrite.
  - split. exists (sealed_frame (make_reply request type payload)). split; [by apply decode_frame_bytes|].
    by rewrite sealed_frame_type.
Qed.

Section Acknowledge.
Context (clock : N -> N) (io : StoreIo) (others : N -> Fabric -> Fabric) (write_ok : N -> bool).

Lemma evaluate_touched_sent (domain : N) (s : Serving) :
  sv_sent (evaluate_touched clock io others domain s) = sv_sent s.
Proof.
  unfold evaluate_touched, call, ask. destruct (fabric_evaluate _ _ _ _) as [[e|out] f]; [done|].
  destruct (fabric_plan_last _ _ _ _) as [r g]. cbn. destruct (fabric_explain_last _ _); [done|].
  unfold write_report_line. cbn. destruct (sv_report s); [|done]. by destruct (_ <=? _).
Qed.

Lemma evaluate_all_sent (batch : EvidenceBatch) (s : Serving) :
  sv_sent (evaluate_touched_domains clock io others batch s) = sv_sent s.
Proof.
  unfold evaluate_touched_domains, ask. cbn. destruct (fb_topology _); [|done].
  apply (foldl_inv (fun s' => sv_sent s' = sv_sent s)); [done|]. intros s' domain _ H. by rewrite evaluate_touched_sent.
Qed.

Lemma ack_of_ingest (batch : EvidenceBatch) (f g : Fabric) (report : Result IngestReport) (epoch : N) :
  fabric_ingest clock batch f = (report, g) -> size64 (eb_samples batch) <= kMaxEvidencePerBatch -> u64_ok epoch ->
  let ack := evidence_ack epoch batch report in
  evidence_ack_words ack /\ ea_accepted ack + ea_rejected ack + ea_duplicate ack = size64 (eb_samples batch).
Proof.
  cbv zeta. intros Hr Hsize Hepoch. assert (forall n, n <= size64 (eb_samples batch) -> u64_ok n) as Hsmall.
  { intros n Hn. unfold u64_ok. eapply N.le_lt_trans; [exact Hn|]. eapply N.le_lt_trans; [exact Hsize|done]. }
  destruct report as [e|report]; cbn.
  - split; [|lia]. split; try done. by apply Hsmall.
  - apply ingest_folds in Hr as (f0 & _ & E).
    destruct (ingest_window (clock (fb_clock_reads f)) (eb_samples batch) (f0, ingest_report_default)) as [_ Hp].
    pose proof (fenced_count (clock (fb_clock_reads f)) (eb_samples batch) (f0, ingest_report_default)) as Hfenced.
    rewrite E in Hp, Hfenced. unfold processed in Hp. cbn in Hp, Hfenced.
    split; [split; cbn; [exact Hepoch|apply Hsmall; lia..]|lia].
Qed.

(** On a registered connection a batch that decodes is acknowledged: the reply is a frame
    that answers this request, and the acknowledgement accounts for every sample, also
    when the fabric refused the batch. *)
Theorem evidence_acknowledged (request : Frame) (batch : EvidenceBatch) (s : Serving)
    (Hwords : frame_header_words (fr_header request)) (Hwrite : write_ok (sv_writes s) = true)
    (Hregistered : cn_registered (sv_conn s) = true) (Hbatch : decode_evidence (fr_payload request) = Ok batch)
    (Hepoch : u64_ok (fb_epoch (others (N.succ (sv_calls s))
       (after (fabric_ingest clock batch) (others (sv_calls s) (sv_fabric s)))))) :
  let s' := handle_evidence clock io others write_ok request s in
  exists bytes payload ack,
    sv_sent s' = sv_sent s ++ [bytes] /\ answers request FtEvidenceAck payload bytes /\
    decode_evidence_ack payload = Ok ack /\
    ea_accepted ack + ea_rejected ack + ea_duplicate ack = size64 (eb_samples batch).
Proof.
  cbv zeta. pose proof (decode_evidence_size _ _ Hbatch) as Hsize. unfold handle_evidence. rewrite Hregistered, Hbatch.
  cbn [negb]. unfold call, ask, after in *.
  destruct (fabric_ingest clock batch (others (sv_calls s) (sv_fabric s))) as [report f] eqn:Hr.
  cbn [sv_fabric sv_calls set snd] in *.
  destruct (ack_of_ingest _ _ _ _ _ Hr Hsize Hepoch) as [Hack Hsum].
  set (ack := evidence_ack _ batch report) in *.
  destruct (evidence_ack_rt ack Hack) as (payload & Henc & Hdec). rewrite Henc.
  set (s1 := if ok report then _ else reject_frame _).
  assert (sv_sent s1 = sv_sent s /\ sv_writes s1 = sv_writes s) as [E1 E2] by (subst s1; by destruct (ok report)).
  clearbody s1. rewrite <- E2 in Hwrite.
  destruct (reply_sent write_ok request FtEvidenceAck payload s1 Hwords) as (bytes & Hsent & Hans);
    [done|rewrite (evidence_ack_size _ _ Henc); discriminate|exact Hwrite|].
  exists bytes, payload, ack. split; [|split; [exact Hans|split; [exact Hdec|exact Hsum]]]. rewrite <- E1, <- Hsent.
  destruct (ok report); [apply evaluate_all_sent|done].
Qed.
End Acknowledge.

(** ** The accept loop *)

(** The answers that count towards the failure budget. *)
Definition counted_failure (answer : Result unit * N) : bool :=
  match answer.1 with
  | Ok _ => false
  | Err st => negb (bool_decide (st_code st = Cancelled) || bool_decide (st_code st = Closed))
              && negb (bool_decide (st_code st = Unavailable))
  end.
Definition ends_accepting (answer : Result unit * N) : bool :=
  match answer.1 with
  | Ok _ => false
  | Err st => bool_decide (st_code st = Cancelled) || bool_decide (st_code st = Closed)
  end.

(** The failures at the end of a history. *)
Definition failing_run (history : list (Result unit * N)) : N :=
  foldl (fun n answer => if counted_failure answer then N.succ n else 0) 0 history.

(** The state of a loop that has seen [history]. *)
Record accepting (history : list (Result unit * N)) (a : Acceptor) : Prop := {
  acc_failing : ac_running a = true -> ac_consecutive_failures a = failing_run history;
  acc_running : ac_running a = true <->
    Forall (fun answer => ends_accepting answer = false) history /\
    (forall k, failing_run (take k history) <= 64);
  acc_next : 1 <= ac_next_connection a;
  acc_fresh : Forall (fun id => 1 <= id < ac_next_connection a) (ac_started a);
  acc_distinct : NoDup (ac_started a);
  acc_counted : ac_accepted a = size64 (ac_started a)
}.

Lemma failing_run_snoc (history : list (Result unit * N)) (answer : Result unit * N) :
  failing_run (history ++ [answer]) = if counted_failure answer then N.succ (failing_run history) else 0.
Proof. unfold failing_run. by rewrite foldl_app. Qed.

Lemma failing_within_snoc (history : list (Result unit * N)) (answer : Result unit * N) :
  (forall k, failing_run (take k (history ++ [answer])) <= 64) <->
  (forall k, failing_run (take k history) <= 64) /\ failing_run (history ++ [answer]) <= 64.
Proof.
  split.
  - intros H. split; [|specialize (H (length (history ++ [answer]))); by rewrite firstn_all in H].
    intros k. destruct (decide (k <= length history)%nat) as [Hk|Hk].
    + specialize (H k). by rewrite take_app_le in H.
    + specialize (H (length history)). rewrite take_app_length in H. by rewrite take_ge by lia.
  - intros [H1 H2] k. destruct (decide (k <= length history)%nat) as [Hk|Hk]; [by rewrite take_app_le|].
    by rewrite take_ge by (rewrite length_app; cbn [length]; lia).
Qed.

(** What a turn does, by its answer. *)
Lemma accept_step_cases (max_connections : N) (answer : Result unit * N) (a : Acceptor) :
  let a' := accept_step max_connections answer.2 answer.1 a in
  ac_running a' = ac_running a && negb (ends_accepting answer)
    && negb (counted_failure answer && (64 <? N.succ (ac_consecutive_failures a))) /\
  (ends_accepting answer = false ->
   ac_consecutive_failures a' = if counted_failure answer then N.succ (ac_consecutive_failures a) else 0) /\
  (ac_started a' = ac_started a /\ ac_accepted a' = ac_accepted a /\ ac_next_connection a <= ac_next_connection a' \/
   ac_started a' = ac_started a ++ [ac_next_connection a] /\ ac_accepted a' = N.succ (ac_accepted a) /\
   ac_next_connection a' = N.succ (ac_next_connection a)).
Proof.
  destruct answer as [[st|[]] active]; unfold accept_step, ends_accepting, counted_failure; cbn [fst snd].
  - destruct (bool_decide (st_code st = Cancelled) || bool_decide (st_code st = Closed)); cbn.
    { rewrite andb_false_r. split; [done|]. split; [done|]. left. split; [done|]. split; [done|lia]. }
    destruct (bool_decide (st_code st = Unavailable)); cbn.
    { rewrite !andb_true_r. split; [done|]. split; [done|]. left. split; [done|]. split; [done|lia]. }
    rewrite !andb_true_r.
    destruct (N.ltb_spec 64 (N.succ (ac_consecutive_failures a))); cbn; rewrite ?andb_false_r, ?andb_true_r;
      (split; [done|]); (split; [done|]); left; (split; [done|]); (split; [done|lia]).
  - destruct (max_connections <=? active); cbn; rewrite !andb_true_r; (split; [done|]); (split; [done|]);
      [left|right]; (split; [done|]); (split; [done|]); [lia|done].
Qed.

Lemma accept_step_ok (max_connections : N) (history : list (Result unit * N)) (answer : Result unit * N) (a : Acceptor) :
  accepting history a -> ac_running a = true ->
  accepting (history ++ [answer]) (accept_step max_connections answer.2 answer.1 a).
Proof.
  intros [Hf Hr Hnext Hfresh Hdistinct Hcount] Hrun. specialize (Hf Hrun).
  destruct (accept_step_cases max_connections answer a) as (Er & Ec & Hs). pose proof (proj1 Hr Hrun) as [Hends Hwithin].
  set (a' := accept_step max_connections answer.2 answer.1 a) in *. clearbody a'. rewrite Hrun in Er. cbn [andb] in Er.
  assert (ac_running a' = true <-> ends_accepting answer = false /\ failing_run (history ++ [answer]) <= 64) as Hrun'.
  { rewrite Er, failing_run_snoc, <- Hf. destruct (ends_accepting answer); cbn; [by split; [|intros [? _]]|].
    destruct (counted_failure answer); cbn; [|split; [split; [done|lia]|done]].
    destruct (N.ltb_spec 64 (N.succ (ac_consecutive_failures a))); cbn;
      [split; [done|intros [_ H']; lia]|by split]. }
  split.
  - intros [He _]%Hrun'. rewrite (Ec He), failing_run_snoc. by rewrite Hf.
  - rewrite Hrun', failing_within_snoc, Forall_app, Forall_singleton. naive_solver.
  - destruct Hs as [(_ & _ & Hn)|(_ & _ & ->)]; lia.
  - destruct Hs as [(-> & _ & Hn)|(-> & _ & ->)].
    + eapply Forall_impl; [exact Hfresh|]. intros id. cbn. lia.
    + apply Forall_app. split; [|by apply Forall_singleton; lia]. eapply Forall_impl; [exact Hfresh|]. intros id. cbn. lia.
  - destruct Hs as [(-> & _ & _)|(-> & _ & _)]; [done|]. apply NoDup_app. split; [done|].
    split; [|apply NoDup_singleton]. intros id Hin ->%list_elem_of_singleton. rewrite Forall_forall in Hfresh.
    apply Hfresh in Hin. lia.
  - destruct Hs as [(-> & -> & _)|(-> & -> & _)]; [done|]. rewrite Hcount, size64_app. unfold size64. cbn. lia.
Qed.

Lemma accept_loop_ok (max_connections : N) (answers history : list (Result unit * N)) (a : Acceptor) :
  accepting history a -> ac_running a = true ->
  exists seen, accepting (history ++ take seen answers) (accept_loop max_connections answers a) /\
    (ac_running (accept_loop max_connections answers a) = true -> take seen answers = answers).
Proof.
  revert history a. induction answers as [|answer answers IH]; intros history a Ha Hrun; cbn [accept_loop].
  { exists 0%nat. by rewrite app_nil_r. }
  pose proof (accept_step_ok max_connections history answer a Ha Hrun) as Hstep. destruct answer as [accepted active].
  cbn [fst snd] in Hstep. set (a' := accept_step _ _ _ a) in *. clearbody a'.
  destruct (ac_running a') eqn:Er.
  - destruct (IH _ a' Hstep Er) as (seen & Hseen & Hall). exists (S seen). rewrite <- app_assoc in Hseen.
    split; [exact Hseen|]. intros H. cbn [take]. by rewrite (Hall H).
  - exists 1%nat. split; [exact Hstep|congruence].
Qed.

(** The accept loop goes on exactly as long as the listener neither closed nor was
    cancelled and no more than 64 failures followed one another; clients that
    vanish while they connect do not count.  Every connection has its own identity. *)
Theorem accept_loop_survives (max_connections : N) (answers : list (Result unit * N)) :
  let a := accept_loop max_connections answers new_acceptor in
  (ac_running a = true <->
   Forall (fun answer => ends_accepting answer = false) answers /\ forall k, failing_run (take k answers) <= 64) /\
  NoDup (ac_started a) /\ Forall (fun id => 1 <= id) (ac_started a) /\ ac_accepted a = size64 (ac_started a).
Proof.
  cbv zeta. destruct (accept_loop_ok max_connections answers [] new_acceptor) as (seen & [_ Hr _ Hfresh Hd Hc] & Hall); [|done|].
  { split; try done; [|constructor]. split; [|done]. intros _. split; [constructor|]. intros k. rewrite take_nil. done. }
  rewrite app_nil_l in Hr. split; [|split; [exact Hd|split; [|exact Hc]]].
  - split; [intros H; rewrite (Hall H) in Hr; by apply Hr|]. intros [Hends Hwithin]. apply Hr.
    split; [by apply Forall_take|]. intros k. rewrite take_take. apply Hwithin.
  - eapply Forall_impl; [exact Hfresh|]. intros id. cbn. lia.
Qed.
