(* ===== verification/Conversation.v ===== *)
(** * Conversation: the protocol between a publisher and the coordinator

    What a connection may do to the fabric, as a step relation of its own: the
    incarnation it stands for, and which calls each request makes in which
    standing.  The connection loop of Coordinator.v, with its decoder, its
    replies and its counters, implements it. *)

From stdpp Require Import gmap.
From Stdlib Require Import Strings.Byte.
From S2P Require Import Prelude Core Enums OMap Bytes Evidence Authority Topology State Intervention.
From S2P Require Import Explanation Evaluator Planner Frame Messages Journal Snapshot Store.
From S2P Require Import Fabric FabricInvariant FabricSafety Coordinator CoordinatorSafety.

Open Scope N_scope.

(** ** The protocol *)

(** Whom a connection stands for, the calls it has made, and the fabric they left. *)
Record Standing := mkStanding {
  st_who : option (N * N);
  st_calls : N;
  st_fabric : Fabric
}.

#[export] Instance Standing_settable : Settable Standing :=
  fields! mkStanding < st_who; st_calls; st_fabric >.

Section Protocol.
Context (clock : N -> N) (io : StoreIo) (others : N -> Fabric -> Fabric) (write_ok : N -> bool).

(** The fabric as the next call of this connection finds it. *)
Definition found (st : Standing) : Fabric := others (st_calls st) (st_fabric st).

(** One call, and one that only reads. *)
Definition calls_on (c : FabricCall) (st : Standing) : Standing :=
  st <| st_fabric := perform clock io c (found st) |> <| st_calls ::= N.succ |>.
Definition looks (st : Standing) : Standing := st <| st_fabric := found st |> <| st_calls ::= N.succ |>.

(** Registration: the reply tells the boot of the node, its tick and, of an
    accepted publisher, the authority generation. *)
Definition registers (publisher boot requested : N) (st : Standing) : Standing :=
  calls_on CaNow (looks (calls_on (CaRegister publisher boot requested) st)).
Definition admits (publisher boot requested : N) (st : Standing) : bool :=
  ok (fabric_register_publisher clock publisher boot requested (found st)).1.

(** Assessment: every domain a batch touches is evaluated, planned when that
    succeeded, and explained. *)
Definition assesses (domain : N) (st : Standing) : Standing :=
  let st' := calls_on (CaEvaluate domain false false) st in
  if ok (fabric_evaluate clock io domain (found st)).1 then looks (calls_on (CaPlanLast domain) st') else st'.
Definition assesses_batch (batch : EvidenceBatch) (st : Standing) : Standing :=
  match fb_topology (found st) with
  | None => looks st
  | Some t => foldl (fun st domain => assesses domain st) (looks st) (touched_domains t (eb_samples batch) [])
  end.

(** What one request does, and whether the coordinator keeps listening. *)
Inductive request_step (request : Frame) (st : Standing) : Standing -> bool -> Prop :=
| rq_hello_unreadable :
    frame_type request = FtHello -> ok (decode_hello (fr_payload request)) = false ->
    request_step request st st false
| rq_hello_admitted hello :
    frame_type request = FtHello -> decode_hello (fr_payload request) = Ok hello ->
    admits (hm_publisher hello) (hm_boot hello) (hm_requested hello) st = true ->
    request_step request st
      (looks ((registers (hm_publisher hello) (hm_boot hello) (hm_requested hello) st)
                <| st_who := Some (hm_publisher hello, hm_boot hello) |>)) true
| rq_hello_refused hello :
    frame_type request = FtHello -> decode_hello (fr_payload request) = Ok hello ->
    admits (hm_publisher hello) (hm_boot hello) (hm_requested hello) st = false ->
    (** A connection that was registered before now stands for the refused incarnation. *)
    request_step request st
      ((registers (hm_publisher hello) (hm_boot hello) (hm_requested hello) st)
         <| st_who := (fun _ => (hm_publisher hello, hm_boot hello)) <$> st_who st |>) false
| rq_evidence_stranger :
    frame_type request = FtEvidence -> st_who st = None -> request_step request st st false
| rq_evidence_unreadable :
    frame_type request = FtEvidence -> st_who st <> None -> ok (decode_evidence (fr_payload request)) = false ->
    request_step request st st false
| rq_evidence_ingested batch :
    frame_type request = FtEvidence -> st_who st <> None -> decode_evidence (fr_payload request) = Ok batch ->
    ok (fabric_ingest clock batch (found st)).1 = true ->
    request_step request st (assesses_batch batch (looks (calls_on (CaIngest batch) st))) true
| rq_evidence_refused batch :
    frame_type request = FtEvidence -> st_who st <> None -> decode_evidence (fr_payload request) = Ok batch ->
    ok (fabric_ingest clock batch (found st)).1 = false ->
    request_step request st (looks (calls_on (CaIngest batch) st)) true
| rq_heartbeat publisher boot :
    frame_type request = FtHeartbeat -> st_who st = Some (publisher, boot) ->
    request_step request st (calls_on (CaHeartbeat publisher boot) st) true
| rq_heartbeat_stranger :
    frame_type request = FtHeartbeat -> st_who st = None -> request_step request st st true
| rq_goodbye publisher boot :
    frame_type request = FtGoodbye -> st_who st = Some (publisher, boot) ->
    request_step request st
      ((calls_on (CaUnregister publisher boot FrNone "") st) <| st_who := None |>) false
| rq_goodbye_stranger :
    frame_type request = FtGoodbye -> st_who st = None -> request_step request st st false
| rq_other :
    frame_type request <> FtHello -> frame_type request <> FtEvidence ->
    frame_type request <> FtHeartbeat -> frame_type request <> FtGoodbye ->
    request_step request st st true.

(** A conversation over the frames heard, of which [n] have been counted: each is
    answered in turn, until one closes the connection, a reply cannot be written,
    the frame bound is crossed, or nothing more is heard. *)
Inductive conversation (max_frames : N) : N -> list Frame -> Standing -> Standing -> Prop :=
| cv_silence n st : conversation max_frames n [] st st
| cv_bound n request rest st : max_frames < N.succ n -> conversation max_frames n (request :: rest) st st
| cv_closed n request rest st st' :
    N.succ n <= max_frames -> request_step request st st' false ->
    conversation max_frames n (request :: rest) st st'
| cv_unwritten n request rest st st' :
    N.succ n <= max_frames -> request_step request st st' true -> (exists k, write_ok k = false) ->
    conversation max_frames n (request :: rest) st st'
| cv_continues n request rest st st' st'' :
    N.succ n <= max_frames -> request_step request st st' true ->
    conversation max_frames (N.succ n) rest st' st'' ->
    conversation max_frames n (request :: rest) st st''.

(** The end: an incarnation still stood for is dead. *)
Definition departs (st : Standing) : Standing :=
  match st_who st with
  | Some (publisher, boot) =>
      calls_on (CaUnregister publisher boot FrPublisherDeath "connection ended without a goodbye") st
  | None => st
  end.

(** ** The protocol is deterministic *)

Lemma request_step_fun (request : Frame) (st st1 st2 : Standing) (b1 b2 : bool) :
  request_step request st st1 b1 -> request_step request st st2 b2 -> st1 = st2 /\ b1 = b2.
Proof.
  intros H1 H2; destruct H1, H2; try congruence;
    repeat match goal with
    | H : decode_hello _ = Ok _, H' : context [decode_hello _] |- _ => rewrite H in H'
    | H : decode_evidence _ = Ok _, H' : context [decode_evidence _] |- _ => rewrite H in H'
    end; simplify_eq/=; try done; congruence.
Qed.

(** With a channel that writes, one stream has one conversation. *)
Lemma conversation_fun (max_frames n : N) (frames : list Frame) (st st1 st2 : Standing) :
  (forall k, write_ok k = true) ->
  conversation max_frames n frames st st1 -> conversation max_frames n frames st st2 -> st1 = st2.
Proof.
  intros Hw H1. revert st2.
  induction H1 as [n st|n request rest st Hn|n request rest st st' Hn Hs|n request rest st st' Hn Hs [k Hk]
    |n request rest st st' st'' Hn Hs Hc IH]; intros st2 H2; [by inversion H2|..|congruence|];
    inversion H2 as [|? ? ? ? Hn'|? ? ? ? ? Hn' Hs'|? ? ? ? ? Hn' Hs' [k' Hk']|? ? ? ? ? ? Hn' Hs' Hc']; subst;
    try lia; try congruence;
    match goal with Hs : request_step _ _ _ _, Hs' : request_step _ _ _ _ |- _ =>
      destruct (request_step_fun _ _ _ _ _ _ Hs Hs') as [? ?] end; subst; try done.
  by apply IH.
Qed.

(** ** The connection loop implements it *)

(** The standing of a connection. *)
Definition standing_of (s : Serving) : Standing :=
  mkStanding (if cn_registered (sv_conn s) then Some (cn_publisher (sv_conn s), cn_boot (sv_conn s)) else None)
    (sv_calls s) (sv_fabric s).

Lemma quiet_standing (s s' : Serving) : quiet s s' -> standing_of s' = standing_of s.
Proof. intros (E1 & E2 & _ & E3 & E4 & E5). unfold standing_of. by rewrite E1, E2, E3, E4, E5. Qed.

(** A handler did what the protocol asks, and listens on exactly when the protocol
    does, unless a reply could not be written. *)
Definition handles (request : Frame) (st : Standing) (s' : Serving) : Prop :=
  exists open, request_step request st (standing_of s') open /\
    (cn_healthy (sv_conn s') = open \/
     open = true /\ cn_healthy (sv_conn s') = false /\ exists k, write_ok k = false).

Lemma handles_now (request : Frame) (st : Standing) (s' : Serving) :
  request_step request st (standing_of s') (cn_healthy (sv_conn s')) -> handles request st s'.
Proof. intros H. eexists. split; [exact H|by left]. Qed.

(** A reply changes nothing but the health of the connection, and that only when it
    cannot be written. *)
Lemma reply_standing (request : Frame) (type : FrameType) (payload : list byte) (s : Serving) :
  is_valid_frame_type type = true -> frame_type (make_reply request type payload) = type ->
  size64 payload <= kMaxFramePayload ->
  standing_of (reply write_ok request type (Ok payload) s) = standing_of s /\
  (cn_healthy (sv_conn (reply write_ok request type (Ok payload) s)) = cn_healthy (sv_conn s) \/
   cn_healthy (sv_conn (reply write_ok request type (Ok payload) s)) = false /\ exists k, write_ok k = false).
Proof.
  intros Hv Ht Hp. split; [apply quiet_standing, reply_quiet|]. unfold reply, send, encode_frame, guard.
  rewrite Ht, Hv. cbn [negb make_reply fr_payload fr_header fh_flags].
  destruct (N.ltb_spec kMaxFramePayload (size64 payload)); [lia|].
  change (reserved_flag (N.lor kFrameFlagReply kFrameFlagFinal)) with false. cbn [negb app].
  destruct (write_ok (sv_writes s)) eqn:Hw; [by left|]. right. split; [done|]. by eexists.
Qed.

Lemma handles_reply (request : Frame) (st : Standing) (type : FrameType) (payload : list byte) (s : Serving) :
  is_valid_frame_type type = true -> frame_type (make_reply request type payload) = type ->
  size64 payload <= kMaxFramePayload ->
  request_step request st (standing_of s) true -> cn_healthy (sv_conn s) = true ->
  handles request st (reply write_ok request type (Ok payload) s).
Proof.
  intros Hv Ht Hp Hstep Hs. destruct (reply_standing request type payload s Hv Ht Hp) as [E [H|[H Hk]]].
  - exists true. rewrite E. split; [done|]. left. congruence.
  - exists true. rewrite E. split; [done|]. by right.
Qed.

Lemma standing_call {A : Type} (c : FabricCall) (m : Op A) (s : Serving) :
  perform clock io c = after m ->
  standing_of (call others m s).2 = calls_on c (standing_of s) /\ (call others m s).1 = (m (found (standing_of s))).1.
Proof.
  intros E. unfold call, calls_on, found. rewrite E. cbn [standing_of st_calls st_fabric]. unfold after.
  by destruct (m (others (sv_calls s) (sv_fabric s))).
Qed.

Lemma standing_ask {A : Type} (read : Fabric -> A) (s : Serving) :
  standing_of (ask others read s).2 = looks (standing_of s).
Proof. done. Qed.

Lemma hello_handles (request : Frame) (s : Serving) :
  frame_type request = FtHello -> cn_healthy (sv_conn s) = true ->
  handles request (standing_of s) (handle_hello clock others write_ok request s).
Proof.
  intros Ht Hs. unfold handle_hello. destruct (decode_hello (fr_payload request)) as [e|hello] eqn:Ed.
  { apply handles_now. apply rq_hello_unreadable; [done|by rewrite Ed]. }
  set (named := s <| sv_conn ::= _ |>).
  assert (ok (call others (fabric_register_publisher clock (hm_publisher hello) (hm_boot hello) (hm_requested hello)) named).1
          = admits (hm_publisher hello) (hm_boot hello) (hm_requested hello) (standing_of s)) as Hadm.
  { unfold call, admits. change (others (sv_calls named) (sv_fabric named)) with (found (standing_of s)).
    by destruct (fabric_register_publisher _ _ _ _ _). }
  destruct (standing_call (CaRegister (hm_publisher hello) (hm_boot hello) (hm_requested hello)) _ named eq_refl) as [Hst _].
  pose proof (call_conn others (fabric_register_publisher clock (hm_publisher hello) (hm_boot hello) (hm_requested hello)) named) as Hconn.
  destruct (call others _ named) as [registration s1]. cbn [fst snd] in *. unfold ask, ask_now.
  set (s2 := s1 <| sv_fabric := others _ _ |> <| sv_calls ::= _ |>).
  set (s3 := s2 <| sv_fabric := _ |> <| sv_calls ::= _ |>).
  assert (standing_of s3 = calls_on CaNow (looks (standing_of s1))) as H3 by done.
  assert (sv_conn s3 = sv_conn named) as Hc3 by exact Hconn. rewrite Hst in H3. clearbody s3. clear Hst Hconn.
  destruct registration as [status|r]; cbn [ok] in Hadm.
  - apply handles_now. match goal with |- context [reply write_ok request FtHelloAck ?p s3] =>
      pose proof (quiet_standing _ _ (reply_quiet write_ok request FtHelloAck p s3)) as Hq; set (s4 := reply _ _ _ _ s3) in * end.
    change (cn_healthy (sv_conn (unhealthy s4))) with false. change (standing_of (unhealthy s4)) with (standing_of s4).
    rewrite Hq, H3.
    replace (calls_on CaNow _) with ((registers (hm_publisher hello) (hm_boot hello) (hm_requested hello) (standing_of s))
      <| st_who := (fun _ => (hm_publisher hello, hm_boot hello)) <$> st_who (standing_of s) |>).
    + apply rq_hello_refused; [done..|]. by rewrite <- Hadm.
    + unfold standing_of. cbn. by destruct (cn_registered (sv_conn s)).
  - set (s4 := s3 <| sv_conn ::= _ |>).
    set (s5 := s4 <| sv_fabric := others _ _ |> <| sv_calls ::= _ |>).
    match goal with |- context [encode_hello_ack (mkHelloAckMessage ?e ?g ?b ?gr ?t true "")] =>
      destruct (hello_ack_encodes e g b gr t) as (payload & -> & Hsize) end.
    apply handles_reply; [done..|exact Hsize| |].
    + replace (standing_of s5) with (looks ((registers (hm_publisher hello) (hm_boot hello) (hm_requested hello) (standing_of s))
        <| st_who := Some (hm_publisher hello, hm_boot hello) |>)).
      * apply rq_hello_admitted; [done..|]. by rewrite <- Hadm.
      * change (standing_of s5) with (looks (standing_of s4)). f_equal.
        transitivity ((standing_of s3) <| st_who := Some (cn_publisher (sv_conn s3), cn_boot (sv_conn s3)) |>); [|done].
        by rewrite H3, Hc3.
    + change (cn_healthy (sv_conn s5)) with (cn_healthy (sv_conn s3)). by rewrite Hc3.
Qed.

Lemma standing_assess (domain : N) (s : Serving) :
  standing_of (evaluate_touched clock io others domain s) = assesses domain (standing_of s) /\
  cn_healthy (sv_conn (evaluate_touched clock io others domain s)) = cn_healthy (sv_conn s).
Proof.
  unfold evaluate_touched, assesses.
  destruct (standing_call (CaEvaluate domain false false) (fabric_evaluate clock io domain) s eq_refl) as [Hst Hr].
  pose proof (call_conn others (fabric_evaluate clock io domain) s) as Hc.
  destruct (call others (fabric_evaluate clock io domain) s) as [[e|out] s1]; cbn [fst snd] in *; rewrite <- Hr; cbn [ok].
  - by rewrite Hst, Hc.
  - destruct (standing_call (CaPlanLast domain) (fabric_plan_last clock io domain) s1 eq_refl) as [Hst1 _].
    pose proof (call_conn others (fabric_plan_last clock io domain) s1) as Hc1.
    destruct (call others (fabric_plan_last clock io domain) s1) as [r s2]; cbn [fst snd] in *. unfold ask.
    rewrite <- Hst, <- Hst1, <- Hc, <- Hc1. set (s3 := s2 <| sv_fabric := _ |> <| sv_calls ::= _ |>).
    change (looks (standing_of s2)) with (standing_of s3). change (cn_healthy (sv_conn s2)) with (cn_healthy (sv_conn s3)).
    destruct (fabric_explain_last domain _) as [e|x]; [done|]. split; [apply quiet_standing, report_quiet|].
    unfold write_report_line. destruct (sv_report s3); [|done]. by destruct (_ <=? _).
Qed.

Lemma standing_assess_batch (batch : EvidenceBatch) (s : Serving) :
  standing_of (evaluate_touched_domains clock io others batch s) = assesses_batch batch (standing_of s) /\
  cn_healthy (sv_conn (evaluate_touched_domains clock io others batch s)) = cn_healthy (sv_conn s).
Proof.
  unfold evaluate_touched_domains, assesses_batch, ask. change (found (standing_of s)) with (others (sv_calls s) (sv_fabric s)).
  destruct (fb_topology _) as [t|]; [|done]. set (s1 := s <| sv_fabric := _ |> <| sv_calls ::= _ |>).
  change (looks (standing_of s)) with (standing_of s1). change (cn_healthy (sv_conn s)) with (cn_healthy (sv_conn s1)).
  generalize (touched_domains t (eb_samples batch) []). intros l. clearbody s1. clear s. revert s1.
  induction l as [|domain l IH]; intros s1; [done|]. cbn [foldl]. destruct (standing_assess domain s1) as [<- <-]. apply IH.
Qed.

Lemma evidence_handles (request : Frame) (s : Serving) :
  frame_type request = FtEvidence -> cn_healthy (sv_conn s) = true ->
  handles request (standing_of s) (handle_evidence clock io others write_ok request s).
Proof.
  intros Ht Hs. unfold handle_evidence. destruct (cn_registered (sv_conn s)) eqn:Hr; cbn [negb].
  2: { apply handles_now, rq_evidence_stranger; [done|]. cbn. by rewrite Hr. }
  assert (st_who (standing_of s) <> None) as Hwho by (cbn; by rewrite Hr).
  destruct (decode_evidence (fr_payload request)) as [e|batch] eqn:Ed.
  { apply handles_now, rq_evidence_unreadable; [done|done|by rewrite Ed]. }
  destruct (standing_call (CaIngest batch) (fabric_ingest clock batch) s eq_refl) as [Hst Hok].
  pose proof (call_conn others (fabric_ingest clock batch) s) as Hc.
  destruct (call others (fabric_ingest clock batch) s) as [report s1]; cbn [fst snd] in *. unfold ask.
  set (s2 := s1 <| sv_fabric := _ |> <| sv_calls ::= _ |>).
  assert (standing_of s2 = looks (calls_on (CaIngest batch) (standing_of s))) as H2 by (by rewrite <- Hst).
  assert (cn_healthy (sv_conn s2) = true) as Hs2 by (change (sv_conn s2) with (sv_conn s1); by rewrite Hc).
  match goal with |- context [evidence_ack ?e batch report] =>
    destruct (evidence_ack_encodes (evidence_ack e batch report)) as (payload & -> & Hsize) end.
  clearbody s2. destruct report as [status|report]; cbn [ok] in *.
  - apply (handles_reply request _ FtEvidenceAck payload (reject_frame s2)); [done..|exact Hsize| |exact Hs2].
    change (standing_of (reject_frame s2)) with (standing_of s2). rewrite H2.
    apply rq_evidence_refused; [done..|]. by rewrite <- Hok.
  - destruct (reply_standing request FtEvidenceAck payload s2 eq_refl eq_refl Hsize) as [E H].
    set (s3 := reply _ _ _ _ s2) in *. destruct (standing_assess_batch batch s3) as [E' Hh].
    exists true. rewrite E', E, H2. split; [apply rq_evidence_ingested; [done..|]; by rewrite <- Hok|].
    rewrite Hh. destruct H as [H|[H Hk]]; [left; congruence|by right].
Qed.

Lemma heartbeat_handles (request : Frame) (s : Serving) :
  frame_type request = FtHeartbeat -> cn_healthy (sv_conn s) = true ->
  handles request (standing_of s) (handle_heartbeat clock others write_ok request s).
Proof.
  intros Ht Hs. unfold handle_heartbeat. destruct (cn_registered (sv_conn s)) eqn:Hr.
  - destruct (standing_call (CaHeartbeat (cn_publisher (sv_conn s)) (cn_boot (sv_conn s))) _ s eq_refl) as [Hst _].
    apply handles_reply; [done..| |by rewrite call_conn]. rewrite Hst. apply rq_heartbeat; [done|]. cbn. by rewrite Hr.
  - apply handles_reply; [done..| |done]. apply rq_heartbeat_stranger; [done|]. cbn. by rewrite Hr.
Qed.

Lemma goodbye_handles (request : Frame) (s : Serving) :
  frame_type request = FtGoodbye -> handles request (standing_of s) (handle_goodbye clock io others s).
Proof.
  intros Ht. apply handles_now. unfold handle_goodbye. destruct (cn_registered (sv_conn s)) eqn:Hr.
  - destruct (standing_call (CaUnregister (cn_publisher (sv_conn s)) (cn_boot (sv_conn s)) FrNone "") _ s eq_refl) as [Hst _].
    set (s1 := (call _ _ s).2) in *.
    match goal with |- request_step _ _ ?st ?b => change b with false; replace st with ((calls_on (CaUnregister (cn_publisher (sv_conn s)) (cn_boot (sv_conn s)) FrNone "")
      (standing_of s)) <| st_who := None |>) by (by rewrite <- Hst) end.
    apply rq_goodbye; [done|]. cbn. by rewrite Hr.
  - change (standing_of (unhealthy s)) with (standing_of s). apply rq_goodbye_stranger; [done|]. cbn. by rewrite Hr.
Qed.

Lemma other_handles (request : Frame) (s : Serving) :
  frame_type request <> FtHello -> frame_type request <> FtEvidence ->
  frame_type request <> FtHeartbeat -> frame_type request <> FtGoodbye -> cn_healthy (sv_conn s) = true ->
  handles request (standing_of s) (handle_other write_ok request s).
Proof.
  intros H1 H2 H3 H4 Hs. unfold handle_other. set (notice := encode_error _).
  assert (match notice with Ok p => size64 p <=? kMaxFramePayload | Err _ => false end = true) as Hsize by reflexivity.
  clearbody notice. destruct notice as [e|payload].
  - apply handles_now. rewrite Hs. by apply rq_other.
  - apply N.leb_le in Hsize. apply handles_reply; [done..|exact Hsize|by apply rq_other|done].
Qed.
(** Every request, under the frame bound. *)
Lemma frame_handles (max_frames : N) (request : Frame) (s : Serving) :
  cn_healthy (sv_conn s) = true -> N.succ (cn_frames (sv_conn s)) <= max_frames ->
  handles request (standing_of s) (handle_frame clock io others write_ok max_frames request s).
Proof.
  intros Hs Hn. unfold handle_frame. set (s1 := s <| sv_conn ::= _ |> <| sv_frames_processed ::= _ |>).
  change (cn_frames (sv_conn s1)) with (N.succ (cn_frames (sv_conn s))).
  change (standing_of s) with (standing_of s1). assert (cn_healthy (sv_conn s1) = true) as Hs1 by exact Hs. clearbody s1.
  destruct (N.ltb_spec max_frames (N.succ (cn_frames (sv_conn s)))); [lia|].
  destruct (frame_type request) eqn:Ht; lazymatch goal with
    | |- handles _ _ (handle_hello _ _ _ _ _) => by apply hello_handles
    | |- handles _ _ (handle_evidence _ _ _ _ _ _) => by apply evidence_handles
    | |- handles _ _ (handle_heartbeat _ _ _ _ _) => by apply heartbeat_handles
    | |- handles _ _ (handle_goodbye _ _ _ _) => by apply goodbye_handles
    | |- _ => apply other_handles; [congruence..|done]
    end.
Qed.

(** A request is counted once. *)
Lemma reply_counts (request : Frame) (type : FrameType) (payload : Result (list byte)) (s : Serving) :
  cn_frames (sv_conn (reply write_ok request type payload s)) = cn_frames (sv_conn s).
Proof. unfold reply, send. destruct payload; [done|]. destruct (encode_frame _ []); [done|]. by destruct (write_ok _). Qed.

Lemma assess_counts (domain : N) (s : Serving) : sv_conn (evaluate_touched clock io others domain s) = sv_conn s.
Proof.
  unfold evaluate_touched. pose proof (call_conn others (fabric_evaluate clock io domain) s) as H1.
  destruct (call others _ s) as [[e|out] s1]; cbn [snd] in H1; [done|].
  pose proof (call_conn others (fabric_plan_last clock io domain) s1) as H2.
  destruct (call others _ s1) as [r s2]; cbn [snd] in H2. unfold ask. rewrite <- H1, <- H2.
  destruct (fabric_explain_last _ _); [done|]. unfold write_report_line. cbn.
  destruct (sv_report s2); [|done]. by destruct (_ <=? _).
Qed.

Lemma assess_batch_counts (batch : EvidenceBatch) (s : Serving) :
  sv_conn (evaluate_touched_domains clock io others batch s) = sv_conn s.
Proof.
  unfold evaluate_touched_domains, ask. destruct (fb_topology _); [|done].
  apply (foldl_inv (fun s' => sv_conn s' = sv_conn s)); [done|]. intros s' domain _ <-. apply assess_counts.
Qed.

Lemma handle_frame_counts (max_frames : N) (request : Frame) (s : Serving) :
  cn_frames (sv_conn (handle_frame clock io others write_ok max_frames request s)) = N.succ (cn_frames (sv_conn s)).
Proof.
  unfold handle_frame. set (s1 := s <| sv_conn ::= _ |> <| sv_frames_processed ::= _ |>).
  change (N.succ (cn_frames (sv_conn s))) with (cn_frames (sv_conn s1)). clearbody s1. destruct (max_frames <? _); [done|].
  assert (cn_frames (sv_conn (handle_other write_ok request s1)) = cn_frames (sv_conn s1)) as Hother.
  { unfold handle_other. destruct (encode_error _); [done|apply reply_counts]. }
  destruct (frame_type request); try exact Hother; clear Hother.
  - unfold handle_hello. destruct (decode_hello _) as [e|hello]; [done|]. set (s2 := s1 <| sv_conn ::= _ |>).
    change (cn_frames (sv_conn s1)) with (cn_frames (sv_conn s2)). clearbody s2.
    match goal with |- context [call others ?m s2] => pose proof (call_conn others m s2) as Hc;
      destruct (call others m s2) as [[e|r] s3] end; cbn [snd] in Hc; rewrite <- Hc; unfold ask, ask_now.
    + cbn [unhealthy sv_conn set cn_frames]. by rewrite reply_counts.
    + by rewrite reply_counts.
  - unfold handle_evidence. destruct (negb _); [done|]. destruct (decode_evidence _) as [e|batch]; [done|].
    pose proof (call_conn others (fabric_ingest clock batch) s1) as Hc.
    destruct (call others _ s1) as [report s2]; cbn [snd] in Hc. rewrite <- Hc. unfold ask.
    destruct (ok report); rewrite ?assess_batch_counts, reply_counts; done.
  - unfold handle_heartbeat. rewrite reply_counts. destruct (cn_registered _); [|done]. by rewrite call_conn.
  - unfold handle_goodbye. destruct (cn_registered _); [|done]. cbn [unhealthy sv_conn set cn_frames]. by rewrite call_conn.
Qed.

Lemma frames_converse (max_frames : N) (frames : list Frame) (s : Serving) :
  cn_healthy (sv_conn s) = true ->
  conversation max_frames (cn_frames (sv_conn s)) frames (standing_of s)
    (standing_of (handle_frames clock io others write_ok max_frames frames s)).
Proof.
  revert s. induction frames as [|request rest IH]; intros s Hs; cbn [handle_frames]; [apply cv_silence|].
  destruct (N.ltb_spec max_frames (N.succ (cn_frames (sv_conn s)))) as [Hover|Hn].
  - unfold handle_frame. set (s1 := s <| sv_conn ::= _ |> <| sv_frames_processed ::= _ |>).
    change (cn_frames (sv_conn s1)) with (N.succ (cn_frames (sv_conn s))).
    rewrite (proj2 (N.ltb_lt _ _) Hover). cbn [unhealthy cn_healthy sv_conn set].
    change (standing_of _) with (standing_of s) at 2. by apply cv_bound.
  - destruct (frame_handles max_frames request s Hs Hn) as (listens & Hstep & Hh).
    set (s1 := handle_frame _ _ _ _ _ request s) in *.
    assert (cn_frames (sv_conn s1) = N.succ (cn_frames (sv_conn s))) as Hc by apply handle_frame_counts.
    destruct (cn_healthy (sv_conn s1)) eqn:E.
    + destruct Hh as [<-|(_ & [=] & _)]. eapply cv_continues; [done|exact Hstep|]. rewrite <- Hc. by apply IH.
    + destruct Hh as [<-|(-> & _ & Hk)]; [by apply cv_closed|by apply cv_unwritten].
Qed.

End Protocol.
