(* ===== verification/Args.v ===== *)
(** * Args: include/ncf/cli/args.hpp and src/cli/args.cpp

    The command line parser of the programs: options, the role and the positional
    arguments, and the numeric readings over the standard strtoull and strtoll, which
    are written out here for the bases the program uses. *)

From Stdlib Require Import Strings.Ascii Numbers.DecimalString Numbers.DecimalFacts Numbers.DecimalN.
From stdpp Require Import base list strings.
From S2P Require Import Prelude Core Explanation.

Open Scope N_scope.

(** ** strtoull and strtoll *)

(** [isspace] in the C locale. *)
Definition is_space (c : ascii) : bool :=
  let code := N_of_ascii c in (code =? 32) || ((9 <=? code) && (code <=? 13)).

Fixpoint skip_space (s : string) : string :=
  match s with
  | String c rest => if is_space c then skip_space rest else s
  | EmptyString => s
  end.

Definition digit_value (base : N) (c : ascii) : option N :=
  let code := N_of_ascii c in
  let digit :=
    if (48 <=? code) && (code <=? 57) then code - 48
    else if (97 <=? code) && (code <=? 122) then code - 87
    else if (65 <=? code) && (code <=? 90) then code - 55
    else base in
  if digit <? base then Some digit else None.

(** The longest run of digits, and what follows it. *)
Fixpoint read_digits (base acc : N) (s : string) : N * string :=
  match s with
  | EmptyString => (acc, s)
  | String c rest =>
      match digit_value base c with
      | Some digit => read_digits base (acc * base + digit) rest
      | None => (acc, s)
      end
  end.

Definition starts_digit (base : N) (s : string) : bool :=
  match s with
  | String c _ => match digit_value base c with Some _ => true | None => false end
  | EmptyString => false
  end.

Definition read_sign (s : string) : bool * string :=
  match s with
  | String c rest => if Ascii.eqb c "-" then (true, rest) else if Ascii.eqb c "+" then (false, rest) else (false, s)
  | EmptyString => (false, s)
  end.

(** Base 0 reads the prefix: 0x with a digit behind it is hexadecimal, a leading 0 is
    octal. *)
Definition select_base (base : N) (s : string) : N * string :=
  if negb (base =? 0) then (base, s)
  else
    match s with
    | String "0" (String c rest) =>
        if (Ascii.eqb c "x" || Ascii.eqb c "X") && starts_digit 16 rest then (16, rest) else (8, s)
    | String "0" EmptyString => (8, s)
    | _ => (10, s)
    end.

(** The sign, the magnitude and the rest of a conversion, if there is one. *)
Definition read_number (base : N) (s : string) : option (bool * N * string) :=
  let '(negative, s) := read_sign (skip_space s) in
  let '(base, s) := select_base base s in
  if starts_digit base s then let '(value, rest) := read_digits base 0 s in Some (negative, value, rest) else None.

(** [std::strtoull]: the value, and where [end] points. *)
Definition strtoull (base : N) (s : string) : N * string :=
  match read_number base s with
  | None => (0, s)
  | Some (negative, value, rest) =>
      (if 2 ^ 64 - 1 <? value then 2 ^ 64 - 1 else if negative then w64 (2 ^ 64 - value) else value, rest)
  end.

(** [std::strtoll]. *)
Definition strtoll (base : N) (s : string) : Z * string :=
  match read_number base s with
  | None => (0%Z, s)
  | Some (negative, value, rest) =>
      ((if negative then Z.max i64_min (- Z.of_N value) else Z.min i64_max (Z.of_N value))%Z, rest)
  end.

(** ** The arguments *)

Record Args := mkArgs {
  ar_role : string;
  ar_positionals : list string;
  ar_options : list (string * string);
  ar_error : string
}.

#[export] Instance Args_settable : Settable Args :=
  fields! mkArgs < ar_role; ar_positionals; ar_options; ar_error >.

Definition no_args : Args := mkArgs "" [] [] "".

(** [token.size() > 2] and two dashes. *)
Definition is_option (token : string) : bool :=
  match token with
  | String a (String b (String _ _)) => Ascii.eqb a "-" && Ascii.eqb b "-"
  | _ => false
  end.
Definition option_name (token : string) : string :=
  match token with String _ (String _ rest) => rest | _ => token end.

(** The name and the value of [name=value]. *)
Fixpoint split_equals (s : string) : option (string * string) :=
  match s with
  | EmptyString => None
  | String c rest =>
      if Ascii.eqb c "=" then Some (EmptyString, rest)
      else match split_equals rest with Some (name, value) => Some (String c name, value) | None => None end
  end.

(** The next token is taken as a value: it is no option, or a negative number. *)
Definition takes_value (next : string) : bool :=
  match next with
  | String a (String b _) =>
      negb (Ascii.eqb a "-") || ((48 <=? N_of_ascii b) && (N_of_ascii b <=? 57))
  | _ => true
  end.

Definition add_option (name value : string) (a : Args) : Args := a <| ar_options ::= fun l => l ++ [(name, value)] |>.

(** The constructor, on [argv] without the name of the program. *)
Fixpoint parse_args (tokens : list string) (a : Args) : Args :=
  match tokens with
  | [] => a
  | token :: rest =>
      if is_option token then
        match split_equals (option_name token) with
        | Some (name, value) => parse_args rest (add_option name value a)
        | None =>
            match rest with
            | next :: later =>
                if takes_value next then parse_args later (add_option (option_name token) next a)
                else parse_args rest (add_option (option_name token) "" a)
            | [] => parse_args rest (add_option (option_name token) "" a)
            end
        end
      else if String.eqb (ar_role a) "" then parse_args rest (a <| ar_role := token |>)
      else parse_args rest (a <| ar_positionals ::= fun l => l ++ [token] |>)
  end.

Fixpoint option_value (name : string) (options : list (string * string)) : option string :=
  match options with
  | [] => None
  | (key, value) :: rest => if String.eqb key name then Some value else option_value name rest
  end.

Definition args_value (a : Args) (name : string) : option string := option_value name (ar_options a).
Definition args_has (a : Args) (name : string) : bool := match args_value a name with Some _ => true | None => false end.
Definition value_or_else (a : Args) (name fallback : string) : string :=
  match args_value a name with Some value => value | None => fallback end.

(** [u64_or] with its reference parameter [ok]: the value and the new [ok]. *)
Definition u64_or (a : Args) (name : string) (fallback : N) (ok : bool) : N * bool :=
  match args_value a name with
  | None | Some EmptyString => (fallback, ok)
  | Some text => let '(parsed, rest) := strtoull 10 text in if String.eqb rest "" then (parsed, ok) else (fallback, false)
  end.
Definition i64_or (a : Args) (name : string) (fallback : Z) (ok : bool) : Z * bool :=
  match args_value a name with
  | None | Some EmptyString => (fallback, ok)
  | Some text => let '(parsed, rest) := strtoll 10 text in if String.eqb rest "" then (parsed, ok) else (fallback, false)
  end.

(** The end of an entry of a list: an empty one is skipped. *)
Definition take_id (current : string) (out : list N) : option (list N) :=
  if String.eqb current "" then Some out
  else let '(parsed, rest) := strtoull 0 current in if String.eqb rest "" then Some (out ++ [parsed]) else None.

Fixpoint scan_ids (text current : string) (out : list N) : option (list N) :=
  match text with
  | EmptyString => take_id current out
  | String c rest =>
      if Ascii.eqb c "," then match take_id current out with Some out => scan_ids rest "" out | None => None end
      else scan_ids rest (current ++ String c EmptyString) out
  end.

Definition id_list (a : Args) (name : string) (ok : bool) : list N * bool :=
  match args_value a name with
  | None | Some EmptyString => ([], ok)
  | Some text => match scan_ids text "" [] with Some out => (out, ok) | None => ([], false) end
  end.

(** * Properties *)

(** ** Numbers *)

(** The value of the decimal digits behind [acc]. *)
Fixpoint uint_value (acc : N) (u : Decimal.uint) : N :=
  match u with
  | Decimal.Nil => acc
  | Decimal.D0 u => uint_value (acc * 10) u
  | Decimal.D1 u => uint_value (acc * 10 + 1) u
  | Decimal.D2 u => uint_value (acc * 10 + 2) u
  | Decimal.D3 u => uint_value (acc * 10 + 3) u
  | Decimal.D4 u => uint_value (acc * 10 + 4) u
  | Decimal.D5 u => uint_value (acc * 10 + 5) u
  | Decimal.D6 u => uint_value (acc * 10 + 6) u
  | Decimal.D7 u => uint_value (acc * 10 + 7) u
  | Decimal.D8 u => uint_value (acc * 10 + 8) u
  | Decimal.D9 u => uint_value (acc * 10 + 9) u
  end.

Lemma uint_value_acc (u : Decimal.uint) (p : positive) : Npos (Pos.of_uint_acc u p) = uint_value (Npos p) u.
Proof.
  revert p. induction u as [|u IH|u IH|u IH|u IH|u IH|u IH|u IH|u IH|u IH|u IH]; intros p;
    cbn [Pos.of_uint_acc uint_value]; try reflexivity; rewrite IH; f_equal; lia.
Qed.

Lemma uint_value_of (u : Decimal.uint) : N.of_uint u = uint_value 0 u.
Proof.
  induction u as [|u IH|u|u|u|u|u|u|u|u|u]; try exact IH; try reflexivity; apply uint_value_acc.
Qed.

Lemma str_app_nil (s : string) : (EmptyString ++ s)%string = s.
Proof. reflexivity. Qed.
Lemma str_app_cons (c : ascii) (s t : string) : (String c s ++ t)%string = String c (s ++ t)%string.
Proof. reflexivity. Qed.

Lemma read_digits_uint (u : Decimal.uint) (acc : N) (tail : string) :
  starts_digit 10 tail = false ->
  read_digits 10 acc (NilEmpty.string_of_uint u ++ tail) = (uint_value acc u, tail).
Proof.
  intros Ht. revert acc. induction u as [|u IH|u IH|u IH|u IH|u IH|u IH|u IH|u IH|u IH|u IH]; intros acc.
  { cbn [NilEmpty.string_of_uint uint_value]. rewrite str_app_nil. destruct tail as [|c tail]; [done|].
    cbn [starts_digit read_digits] in *. by destruct (digit_value 10 c). }
  all: cbn [NilEmpty.string_of_uint uint_value]; rewrite str_app_cons; cbn [read_digits];
    match goal with |- context [digit_value 10 ?c] =>
      let v := eval vm_compute in (digit_value 10 c) in change (digit_value 10 c) with v end;
    cbn iota; rewrite ?N.add_0_r; apply IH.
Qed.

(** The digits of a number: one of them at least, and no leading zero but for 0 itself. *)
Lemma to_uint_head (n : N) : n = 0 /\ N.to_uint n = Decimal.D0 Decimal.Nil \/
  n <> 0 /\ N.to_uint n <> Decimal.Nil /\ forall u, N.to_uint n <> Decimal.D0 u.
Proof.
  destruct (decide (n = 0)) as [->|Hn]; [by left|right]. split; [done|].
  pose proof (DecimalN.Unsigned.of_to n) as Hv. pose proof (DecimalN.Unsigned.to_of (N.to_uint n)) as Hu.
  rewrite Hv in Hu. split.
  - intros E. rewrite E in Hv. by subst n.
  - intros u E. rewrite E in Hu. unfold Decimal.unorm in Hu.
    destruct (Decimal.nzhead (Decimal.D0 u)) as [|d|d|d|d|d|d|d|d|d|d] eqn:Ez; try discriminate Hu.
    + injection Hu as ->. rewrite E in Hv. by subst n.
    + by apply DecimalFacts.nzhead_nonzero in Ez.
Qed.

Lemma number_value (n : N) : uint_value 0 (N.to_uint n) = n.
Proof. rewrite <- uint_value_of. apply DecimalN.Unsigned.of_to. Qed.

(** What a number looks like to the reader: a digit first, neither space nor sign. *)
Lemma number_head (n : N) (tail : string) :
  exists c s, (number n ++ tail)%string = String c s /\ is_space c = false /\ is_Some (digit_value 10 c) /\
    read_sign (String c s) = (false, String c s) /\ (c = "0"%char -> n = 0 /\ s = tail).
Proof.
  unfold number. destruct (to_uint_head n) as [[-> E]|(Hn & Hnil & Hzero)].
  - rewrite E. exists "0"%char, tail. repeat split. by eexists.
  - destruct (N.to_uint n) as [|u|u|u|u|u|u|u|u|u|u]; [done|by destruct (Hzero u)|..];
      cbn [NilEmpty.string_of_uint]; rewrite str_app_cons; do 2 eexists; (split; [reflexivity|]);
      (split; [reflexivity|]); (split; [by eexists|]); (split; [reflexivity|discriminate]).
Qed.

Lemma read_number_decimal (n : N) (tail : string) :
  starts_digit 10 tail = false -> read_number 10 (number n ++ tail) = Some (false, n, tail).
Proof.
  intros Ht. destruct (number_head n tail) as (c & s & E & Hs & [d Hd] & Hsign & _).
  unfold read_number. rewrite E. cbn [skip_space]. rewrite Hs, Hsign. cbn [select_base N.eqb negb starts_digit].
  rewrite Hd, <- E. unfold number. rewrite (read_digits_uint (N.to_uint n) 0 tail Ht). by rewrite number_value.
Qed.

Lemma read_number_any (n : N) : read_number 0 (number n) = Some (false, n, EmptyString).
Proof.
  destruct (decide (n = 0)) as [->|Hn]; [reflexivity|].
  destruct (number_head n "") as (c & s & E & Hs & Hd & Hsign & Hzero). rewrite append_nil_r in E.
  pose proof (read_number_decimal n "" eq_refl) as H. rewrite append_nil_r, E in H.
  unfold read_number in *. rewrite E. cbn [skip_space] in *. rewrite Hs, Hsign in *.
  assert (select_base 0 (String c s) = (10, String c s)) as ->; [|exact H].
  destruct (decide (c = "0"%char)) as [Hc|Hc]; [by destruct Hn, (Hzero Hc)|].
  unfold select_base. cbn [N.eqb negb]. destruct c as [[] [] [] [] [] [] [] []]; try done; by destruct s.
Qed.

(** Numbers are read back as they were written, in decimal and where any base may come. *)
Lemma strtoull_number (base n : N) :
  base = 0 \/ base = 10 -> u64_ok n -> strtoull base (number n) = (n, EmptyString).
Proof.
  intros Hb Hn. unfold strtoull. assert (read_number base (number n) = Some (false, n, EmptyString)) as ->.
  { destruct Hb as [->| ->]; [apply read_number_any|].
    pose proof (read_number_decimal n "" eq_refl) as H. by rewrite append_nil_r in H. }
  unfold u64_ok in Hn. destruct (N.ltb_spec (2 ^ 64 - 1) n); [lia|done].
Qed.

Lemma number_neq_empty (n : N) : number n <> EmptyString.
Proof. destruct (number_head n "") as (c & s & E & _). rewrite append_nil_r in E. by rewrite E. Qed.

(** *** Lists of identities *)

(** A text without a comma. *)
Fixpoint no_comma (s : string) : bool :=
  match s with EmptyString => true | String c rest => negb (Ascii.eqb c ",") && no_comma rest end.

Lemma number_no_comma (n : N) : no_comma (number n) = true.
Proof. unfold number. induction (N.to_uint n); cbn; done. Qed.

(** The entries, separated by commas. *)
Fixpoint join_ids (ids : list N) : string :=
  match ids with
  | [] => EmptyString
  | [id] => number id
  | id :: rest => (number id ++ String "," (join_ids rest))%string
  end.

Lemma scan_ids_entry (s rest current : string) (out : list N) :
  no_comma s = true -> scan_ids (s ++ rest) current out = scan_ids rest (current ++ s) out.
Proof.
  revert current. induction s as [|c s IH]; intros current Hs.
  - by rewrite str_app_nil, append_nil_r.
  - cbn [no_comma] in Hs. apply andb_true_iff in Hs as [Hc Hs]. apply negb_true_iff in Hc.
    rewrite str_app_cons. cbn [scan_ids]. rewrite Hc, IH by done. f_equal. by rewrite append_assoc.
Qed.

Lemma take_number (n : N) (out : list N) : u64_ok n -> take_id (number n) out = Some (out ++ [n]).
Proof.
  intros Hn. unfold take_id. rewrite (proj2 (String.eqb_neq _ _) (number_neq_empty n)).
  rewrite strtoull_number by auto. done.
Qed.

Lemma scan_joined (ids out : list N) : Forall u64_ok ids -> scan_ids (join_ids ids) "" out = Some (out ++ ids).
Proof.
  revert out. induction ids as [|id ids IH]; intros out Hids; [cbn; by rewrite app_nil_r|].
  apply Forall_cons in Hids as [Hid Hids]. destruct ids as [|id' ids].
  - cbn [join_ids]. rewrite <- (append_nil_r (number id)), scan_ids_entry by apply number_no_comma.
    rewrite str_app_nil. cbn [scan_ids]. by apply take_number.
  - change (join_ids (id :: id' :: ids)) with (number id ++ String "," (join_ids (id' :: ids)))%string.
    rewrite scan_ids_entry by apply number_no_comma. rewrite str_app_nil. cbn [scan_ids Ascii.eqb]. 
    rewrite take_number by done. rewrite IH by done. by rewrite <- app_assoc.
Qed.

(** ** Options *)

(** An option as it may be written: in one token, in two, or without a value. *)
Inductive Written :=
| WrEquals (name value : string)
| WrSpaced (name value : string)
| WrFlag (name : string).

Definition dashed (name : string) : string := String "-" (String "-" name).

Definition written_tokens (w : Written) : list string :=
  match w with
  | WrEquals name value => [dashed (name ++ String "=" value)]
  | WrSpaced name value => [dashed name; value]
  | WrFlag name => [dashed name]
  end.
Definition written_option (w : Written) : string * string :=
  match w with WrEquals name value | WrSpaced name value => (name, value) | WrFlag name => (name, EmptyString) end.

(** A name without an equals sign; a value apart is no option. *)
Fixpoint no_equals (s : string) : bool :=
  match s with EmptyString => true | String c rest => negb (Ascii.eqb c "=") && no_equals rest end.

Definition written_ok (w : Written) : Prop :=
  match w with
  | WrEquals name value => name <> EmptyString /\ no_equals name = true
  | WrSpaced name value => name <> EmptyString /\ no_equals name = true /\ takes_value value = true
  | WrFlag name => name <> EmptyString /\ no_equals name = true
  end.

Lemma split_equals_name (name value : string) :
  no_equals name = true -> split_equals (name ++ String "=" value) = Some (name, value).
Proof.
  induction name as [|c name IH]; intros H; [done|]. cbn [no_equals] in H. apply andb_true_iff in H as [Hc H].
  apply negb_true_iff in Hc. rewrite str_app_cons. cbn [split_equals]. by rewrite Hc, IH.
Qed.

Lemma split_no_equals (name : string) : no_equals name = true -> split_equals name = None.
Proof.
  induction name as [|c name IH]; intros H; [done|]. cbn [no_equals] in H. apply andb_true_iff in H as [Hc H].
  apply negb_true_iff in Hc. cbn [split_equals]. by rewrite Hc, IH.
Qed.

Lemma dashed_option (name : string) : name <> EmptyString -> is_option (dashed name) = true.
Proof. by destruct name. Qed.

Lemma dashed_no_value (name : string) : takes_value (dashed name) = false.
Proof. reflexivity. Qed.

Lemma parse_written (ws : list Written) (a : Args) :
  Forall written_ok ws ->
  parse_args (concat (map written_tokens ws)) a = a <| ar_options ::= fun l => l ++ map written_option ws |>.
Proof.
  revert a. induction ws as [|w ws IH]; intros a Hws; [destruct a; cbn; by rewrite app_nil_r|].
  apply Forall_cons in Hws as [Hw Hws].
  assert (forall name value, (add_option name value a) <| ar_options ::= fun l => l ++ map written_option ws |>
    = a <| ar_options ::= fun l => l ++ (name, value) :: map written_option ws |>) as Hadd.
  { intros name value. destruct a. cbn. by rewrite <- app_assoc. }
  destruct w as [name value|name value|name]; cbn [map concat written_tokens written_option app].
  - destruct Hw as [Hne He]. cbn [parse_args]. rewrite dashed_option by (by destruct name).
    change (option_name (dashed ?s)) with s. rewrite split_equals_name by done. by rewrite IH, Hadd.
  - destruct Hw as (Hne & He & Hv). cbn [parse_args]. rewrite dashed_option by done.
    change (option_name (dashed name)) with name. rewrite split_no_equals, Hv by done. by rewrite IH, Hadd.
  - destruct Hw as [Hne He]. cbn [parse_args]. rewrite dashed_option by done.
    change (option_name (dashed name)) with name. rewrite split_no_equals by done. rewrite <- Hadd, <- IH by done.
    destruct ws as [|w' ws]; [done|]. 
    assert (exists s rest, concat (map written_tokens (w' :: ws)) = dashed s :: rest) as (s & rest & ->)
      by (destruct w'; cbn; by do 2 eexists).
    by rewrite dashed_no_value.
Qed.

(** A command line is read as it was written: the role, no stray argument, and the
    options in their order, however each of them is spelled. *)
Theorem args_roundtrip (role : string) (ws : list Written)
    (Hrole : is_option role = false) (Hne : role <> EmptyString) (Hws : Forall written_ok ws) :
  parse_args (role :: concat (map written_tokens ws)) no_args = mkArgs role [] (map written_option ws) "".
Proof.
  cbn [parse_args]. rewrite Hrole. change (String.eqb (ar_role no_args) "") with true. cbn iota.
  by rewrite parse_written.
Qed.

Lemma args_roundtrip_witness :
  is_option "coordinator" = false /\
  parse_args ["coordinator"; "--domain=7"; "--resources"; "12"; "--no-durability"]%string no_args
  = mkArgs "coordinator" [] [("domain", "7"); ("resources", "12"); ("no-durability", "")]%string "".
Proof.
  split; [reflexivity|].
  refine (args_roundtrip "coordinator" [WrEquals "domain" "7"; WrSpaced "resources" "12"; WrFlag "no-durability"]
    eq_refl _ _); [discriminate|]. repeat constructor; discriminate.
Defined.

(** A number or a list of identities on the command line is read back exactly, and an
    option that is absent or empty is its fallback. *)
Theorem numbers_read_back (a : Args) (name text : string) (n fallback : N) (ids : list N) (ok : bool)
    (Htext : args_value a name = Some text) (Hn : u64_ok n) (Hids : Forall u64_ok ids) :
  (text = number n -> u64_or a name fallback ok = (n, ok)) /\
  (text = join_ids ids -> id_list a name ok = (ids, ok)) /\
  (text = EmptyString -> u64_or a name fallback ok = (fallback, ok)).
Proof.
  unfold u64_or, id_list. rewrite Htext. split; [|split]; intros ->; [| |done].
  - pose proof (number_neq_empty n). rewrite strtoull_number by auto.
    destruct (number n); done.
  - pose proof (scan_joined ids [] Hids) as H. destruct ids as [|id ids]; [done|]. rewrite H.
    destruct (join_ids (id :: ids)) eqn:E; [|done]. cbn in H. discriminate H.
Qed.

Lemma numbers_read_back_witness :
  let a := mkArgs "publisher" [] [("resources", "1,20,300")]%string "" in
  args_value a "resources" = Some (join_ids [1; 20; 300]) /\ id_list a "resources" true = ([1; 20; 300], true).
Proof.
  intros a. assert (args_value a "resources" = Some (join_ids [1; 20; 300])) as Ha by reflexivity. split; [exact Ha|].
  refine (proj1 (proj2 (numbers_read_back a "resources" (join_ids [1; 20; 300]) 0 0 [1; 20; 300] true Ha _ _)) eq_refl);
    repeat constructor.
Defined.

(** ** What the model shows *)

(** A negative number and one that does not fit are taken for large ones, and a
    hexadecimal one is refused where the usage asks for it. *)
Example numbers_at_the_edge :
  let a := mkArgs "coordinator" [] [("domain", "0x10"); ("run-ms", "-1"); ("paths", "99999999999999999999")]%string "" in
  u64_or a "run-ms" 0 true = (2 ^ 64 - 1, true) /\ u64_or a "paths" 0 true = (2 ^ 64 - 1, true) /\
  u64_or a "domain" 1 true = (1, false).
Proof. vm_compute. repeat split. Qed.

(** A mistyped option is kept like any other, and nothing reports it. *)
Example unknown_option_accepted :
  let a := parse_args ["coordinator"; "--no-durabilty"]%string no_args in
  args_has a "no-durability" = false /\ ar_error a = EmptyString.
Proof. split; reflexivity. Qed.
