(* ===== verification/Node.v ===== *)
(** * Node: src/cli/ncf_node_main.cpp

    The coordinator role of the node program: the synthetic topology, the policy and
    the local denials it builds from its arguments, and the steps up to the moment it
    serves.  The listener and the report file are answers of the operating system. *)

From stdpp Require Import gmap.
From Stdlib Require Import Strings.Ascii.
From S2P Require Import Prelude Core Enums Authority Policy Topology Explanation Args.
From S2P Require Import Journal Snapshot Store Fabric FabricInvariant FabricSafety.

Open Scope N_scope.

(** ** The synthetic topology *)

Definition kSyntheticCapacity : N := 100000000000.

(** [for (index = 1; index <= n; ++index)]. *)
Definition indices (n : N) : list N := map N.of_nat (seq 1 (N.to_nat n)).

Definition synthetic_resource (domain index : N) : ResourceRecord :=
  mkResourceRecord index domain 0 0 RkPort 0 kSyntheticCapacity 0.
Definition synthetic_link (index : N) : LinkRecord := mkLinkRecord index index (index + 1) kSyntheticCapacity 10 1.
Definition synthetic_path (resources index : N) : PathRecord :=
  let first := (index - 1) mod resources + 1 in
  let second := index mod resources + 1 in
  mkPathRecord index (first :: (if second =? first then [] else [second])) kSyntheticCapacity
    (path_flag_val PfAlternate).

Definition build_topology (resources paths domain : N) : Result TopologySnapshot :=
  guard (resources =? 0) InvalidArgument "--resources must be positive" (
  guard (kMaxResourcesPerDomain <? resources) LimitExceeded "--resources exceeds the hard bound" (
  let t := mkTopologySnapshot 1 1 1 0 (map (synthetic_resource domain) (indices resources))
             (map synthetic_link (indices (resources - 1))) (map (synthetic_path resources) (indices paths)) 0 in
  Ok (t <| ts_fingerprint := fingerprint_topology t |>))).

(** ** The policy *)

#[export] Instance HysteresisPolicy_settable : Settable HysteresisPolicy :=
  fields! mkHysteresisPolicy < hp_escalate_samples; hp_deescalate_samples; hp_min_dwell_ticks;
    hp_downgrade_margin_ppm; hp_require_all_rules_agree_on_downgrade; hp_apply_dwell_on_escalation >.
#[export] Instance RecoveryPolicy_settable : Settable RecoveryPolicy :=
  fields! mkRecoveryPolicy < rp_enabled; rp_min_improved_samples; rp_allow_single_sample; rp_clear_samples;
    rp_recovering_hold_ticks >.
#[export] Instance PropagationPolicy_settable : Settable PropagationPolicy :=
  fields! mkPropagationPolicy < pp_enabled; pp_max_depth; pp_decay_ppm; pp_max_induced_severity; pp_follow_links;
    pp_follow_paths; pp_min_pressure_ppm >.
#[export] Instance FreshnessPolicy_settable : Settable FreshnessPolicy :=
  fields! mkFreshnessPolicy < fp_default_max_age_ticks; fp_max_future_skew_ticks; fp_heartbeat_refreshes_freshness >.
#[export] Instance ContradictionPolicy_settable : Settable ContradictionPolicy :=
  fields! mkContradictionPolicy < cp_mode; cp_absolute_tolerance; cp_relative_tolerance_ppm;
    cp_min_distinct_publishers; cp_priority_order >.

(** [static_cast<std::uint32_t>(args.u64_or(...))]. *)
Definition u32_or (a : Args) (name : string) (fallback : N) (ok : bool) : N * bool :=
  let '(value, ok) := u64_or a name fallback ok in (w32 value, ok).

Definition contradiction_mode (mode : string) : option ContradictionMode :=
  if String.eqb mode "reject" then Some CmReject
  else if String.eqb mode "newest" then Some CmPreferNewest
  else if String.eqb mode "priority" then Some CmPreferHighestPriority
  else None.

(** The policy before it is validated: each option is read with the [ok] the ones
    before it left. *)
Definition requested_policy (a : Args) (ok : bool) : CongestionPolicy * bool :=
  let p := make_default_policy in
  let p := if args_has a "no-propagation" then p <| cpol_propagation ::= fun x => x <| pp_enabled := false |> |> else p in
  let '(gate, ok) := u32_or a "severity-gate-congested" (cpol_min_agreeing_rules_for_congested p) ok in
  let p := p <| cpol_min_agreeing_rules_for_congested := gate |> <| cpol_min_agreeing_rules_for_severe := gate |> in
  let h := cpol_hysteresis p in
  let '(escalate, ok) := u32_or a "escalate-samples" (hp_escalate_samples h) ok in
  let '(deescalate, ok) := u32_or a "deescalate-samples" (hp_deescalate_samples h) ok in
  let '(margin, ok) := u32_or a "downgrade-margin-ppm" (hp_downgrade_margin_ppm h) ok in
  let '(recovery, ok) := u32_or a "recovery-samples" (rp_min_improved_samples (cpol_recovery p)) ok in
  let '(max_age, ok) := u64_or a "freshness-us" (fp_default_max_age_ticks (cpol_freshness p)) ok in
  let f := (cpol_freshness p) <| fp_default_max_age_ticks := max_age |> in
  let f := if max_age <? fp_max_future_skew_ticks f then f <| fp_max_future_skew_ticks := max_age |> else f in
  let '(dwell, ok) := if args_has a "min-dwell-ms"
                      then let '(ms, ok) := u64_or a "min-dwell-ms" 0 ok in (w64 (ms * 1000), ok)
                      else (hp_min_dwell_ticks h, ok) in
  let c := cpol_contradiction p in
  let '(c, ok) := match contradiction_mode (value_or_else a "contradiction-mode" "reject") with
                  | Some mode => (c <| cp_mode := mode |>, ok)
                  | None => (c, false)
                  end in
  let '(tolerance, ok) := if args_has a "tolerance-ppm" then u32_or a "tolerance-ppm" 0 ok
                          else (cp_relative_tolerance_ppm c, ok) in
  let '(version, ok) := if args_has a "policy-version" then u32_or a "policy-version" (cpol_version p) ok
                        else (cpol_version p, ok) in
  (p <| cpol_hysteresis := h <| hp_escalate_samples := escalate |> <| hp_deescalate_samples := deescalate |>
                             <| hp_downgrade_margin_ppm := margin |> <| hp_min_dwell_ticks := dwell |> |>
     <| cpol_recovery ::= fun r => r <| rp_min_improved_samples := recovery |>
                                     <| rp_allow_single_sample := args_has a "allow-single-sample-recovery" |> |>
     <| cpol_freshness := f |> <| cpol_contradiction := c <| cp_relative_tolerance_ppm := tolerance |> |>
     <| cpol_version := version |>, ok).

(** [build_policy]: the identity is the fingerprint, and a policy that is not valid is
    an error of the command line. *)
Definition build_policy (a : Args) (ok : bool) : CongestionPolicy * bool :=
  let '(p, ok) := requested_policy a ok in
  let p := p <| cpol_id := fingerprint_policy p |> in
  match validate_policy p with Ok p => (p, ok) | Err _ => (p, false) end.

(** ** The local denials *)

Definition capability_of (name : string) : option Authority :=
  if String.eqb name "reduce-admissible-budget" then Some AuReduceAdmissibleBudget
  else if String.eqb name "request-reroute" then Some AuRequestReroute
  else if String.eqb name "request-pacing" then Some AuRequestPacing
  else if String.eqb name "request-backpressure" then Some AuRequestBackpressure
  else if String.eqb name "enter-degraded-mode" then Some AuEnterDegradedMode
  else if String.eqb name "protect-critical-classes" then Some AuProtectCriticalClasses
  else if String.eqb name "make-recovery-plan-eligible" then Some AuMakeRecoveryPlanEligible
  else if String.eqb name "evaluate" then Some AuEvaluate
  else None.

Definition deny (name : string) (denied : N) (ok : bool) : N * bool :=
  match capability_of name with Some c => (auth_grant denied c, ok) | None => (denied, false) end.

Fixpoint scan_denials (text current : string) (denied : N) (ok : bool) : N * bool :=
  match text with
  | EmptyString => deny current denied ok
  | String c rest =>
      if Ascii.eqb c "," then let '(denied, ok) := deny current denied ok in scan_denials rest "" denied ok
      else scan_denials rest (current ++ String c EmptyString) denied ok
  end.

Definition parse_denials (a : Args) (ok : bool) : N * bool :=
  match args_value a "deny" with
  | None | Some EmptyString => (auth_none, ok)
  | Some text => scan_denials text "" auth_none ok
  end.

(** ** The coordinator role *)

(** The options of the fabric. *)
Definition node_fabric_options (a : Args) (denied : N) : FabricOptions :=
  let state_directory := value_or_else a "state-dir" "" in
  fabric_options_default
    <| fo_persist := negb (args_has a "no-durability") && negb (String.eqb state_directory "") |>
    <| fo_state_directory := state_directory |> <| fo_local_denied := denied |>.

(** [run_coordinator] up to the line that says it is ready: the fabric it serves, or
    its exit code.  [listens] and [reports]: the endpoint and the report file open. *)
Definition prepare_coordinator (clock : N -> N) (io : StoreIo) (dir : Directory) (listens reports : bool) (a : Args) :
    N + Fabric :=
  let '(domain, ok) := u64_or a "domain" 1 true in
  let '(resources, ok) := u64_or a "resources" 4 ok in
  let '(paths, ok) := u64_or a "paths" 1 ok in
  let '(_, ok) := u64_or a "run-ms" 0 ok in
  let '(_, ok) := u64_or a "eval-interval-ms" 25 ok in
  if negb ok then inl 2 else
  let '(denied, ok) := parse_denials a ok in
  if negb ok then inl 2 else
  if negb listens then inl 1 else
  match fabric_open clock io (node_fabric_options a denied) dir with
  | Err _ => inl 1
  | Ok f =>
      if negb (String.eqb (value_or_else a "report" "") "") && negb reports then inl 1 else
      match build_topology resources paths domain with
      | Err _ => inl 1
      | Ok topology =>
          match fabric_set_topology clock io topology f with
          | (Err _, _) => inl 1
          | (Ok _, f) =>
              if args_has a "policy" then
                let '(policy, ok) := build_policy a ok in
                if negb ok then inl 2
                else match fabric_set_policy clock io policy f with (Err _, _) => inl 1 | (Ok _, f) => inr f end
              else inr f
          end
      end
  end.

(** * Properties *)

(** ** The topology *)

Lemma indices_elem (n x : N) : x ∈ indices n <-> 1 <= x <= n.
Proof.
  unfold indices. rewrite list_elem_of_fmap. split.
  - intros (k & -> & H%elem_of_seq). lia.
  - intros H. exists (N.to_nat x). split; [lia|]. apply elem_of_seq. lia.
Qed.

Lemma indices_NoDup (n : N) : NoDup (indices n).
Proof. apply NoDup_fmap; [|apply NoDup_seq]. intros x y H. lia. Qed.

Lemma indices_size (n : N) : size64 (indices n) = n.
Proof. unfold size64, indices. rewrite length_map, length_seq. lia. Qed.

Lemma validate_resources_pass (l : list ResourceRecord) (ids : gset N) :
  Forall (fun r => rc_id r <> 0 /\ rc_domain r <> 0 /\ rc_depth r <= kMaxResourceDepth /\
    rc_nominal_capacity_bps r <= metric_plausible_max MkLinkCapacityBps) l ->
  NoDup (map rc_id l) -> Forall (fun r => rc_id r ∉ ids) l ->
  exists out, validate_resources ids l = Ok out.
Proof.
  revert ids. induction l as [|r l IH]; intros ids Hl Hn Hi; [by exists ids|].
  apply Forall_cons in Hl as [(H1 & H2 & H3 & H4) Hl]. apply Forall_cons in Hi as [Hri Hi].
  cbn [map] in Hn. apply NoDup_cons in Hn as [Hr Hn]. cbn [validate_resources]. unfold guard, valid.
  rewrite (proj2 (N.eqb_neq _ _) H1), (proj2 (N.eqb_neq _ _) H2). cbn [negb].
  rewrite (proj2 (N.ltb_ge _ _) H3), (proj2 (N.ltb_ge _ _) H4), bool_decide_eq_false_2 by done.
  apply IH; [done..|]. rewrite Forall_forall in Hi |- *. intros r' Hin. apply not_elem_of_union. split; [|by apply Hi].
  intros E%elem_of_singleton. apply Hr. apply list_elem_of_fmap. by exists r'.
Qed.

Lemma validate_containment_roots (by_id : gmap N ResourceRecord) (l : list ResourceRecord) :
  Forall (fun r => rc_parent r = 0) l -> validate_containment by_id l = Ok tt.
Proof. induction 1 as [|r l Hr _ IH]; [done|]. cbn [validate_containment]. by rewrite Hr. Qed.

Lemma validate_links_pass (l : list LinkRecord) (ids seen : gset N) :
  Forall (fun k => lk_from k <> 0 /\ lk_to k <> 0 /\ lk_from k ∈ ids /\ lk_to k ∈ ids /\
    lk_capacity_bps k <= metric_plausible_max MkLinkCapacityBps /\
    lk_latency_micros k <= metric_plausible_max MkLatencyMicros) l ->
  NoDup (map lk_id l) -> Forall (fun k => lk_id k ∉ seen) l -> validate_links ids seen l = Ok tt.
Proof.
  revert seen. induction l as [|k l IH]; intros seen Hl Hn Hs; [done|].
  apply Forall_cons in Hl as [(H1 & H2 & H3 & H4 & H5 & H6) Hl]. apply Forall_cons in Hs as [Hk Hs].
  cbn [map] in Hn. apply NoDup_cons in Hn as [Hid Hn]. cbn [validate_links]. unfold guard, valid.
  rewrite (proj2 (N.eqb_neq _ _) H1), (proj2 (N.eqb_neq _ _) H2). cbn [negb orb].
  rewrite !bool_decide_eq_false_2 by (by intros ?). rewrite (proj2 (N.ltb_ge _ _) H5), (proj2 (N.ltb_ge _ _) H6).
  rewrite andb_false_r. apply IH; [done..|]. rewrite Forall_forall in Hs |- *. intros k' Hin. specialize (Hs k' Hin).
  destruct (negb _); [|done]. apply not_elem_of_union. split; [|done].
  intros E%elem_of_singleton. apply Hid. apply list_elem_of_fmap. by exists k'.
Qed.

Lemma validate_hops_pass (ids : gset N) (hops : list N) :
  Forall (fun h => h ∈ ids) hops -> validate_hops ids hops = Ok tt.
Proof.
  induction 1 as [|h hops Hh _ IH]; [done|]. cbn [validate_hops]. unfold guard.
  by rewrite bool_decide_eq_false_2 by (by intros ?).
Qed.

Lemma validate_paths_pass (l : list PathRecord) (ids seen : gset N) :
  Forall (fun p => pa_id p <> 0 /\ pa_hops p <> [] /\ size64 (pa_hops p) <= kMaxResourcesPerPath /\
    pa_capacity_bps p <= metric_plausible_max MkPathCapacityBps /\ Forall (fun h => h ∈ ids) (pa_hops p)) l ->
  NoDup (map pa_id l) -> Forall (fun p => pa_id p ∉ seen) l -> validate_paths ids seen l = Ok tt.
Proof.
  revert seen. induction l as [|p l IH]; intros seen Hl Hn Hs; [done|].
  apply Forall_cons in Hl as [(H1 & H2 & H3 & H4 & H5) Hl]. apply Forall_cons in Hs as [Hk Hs].
  cbn [map] in Hn. apply NoDup_cons in Hn as [Hid Hn]. cbn [validate_paths]. unfold guard, valid.
  rewrite (proj2 (N.eqb_neq _ _) H1), bool_decide_eq_false_2 by done. cbn [negb].
  assert ((size64 (pa_hops p) =? 0) = false) as -> by (apply N.eqb_neq; intros E%size64_zero; done).
  rewrite (proj2 (N.ltb_ge _ _) H3), (proj2 (N.ltb_ge _ _) H4), validate_hops_pass by done. cbn [res_bind].
  apply IH; [done..|]. rewrite Forall_forall in Hs |- *. intros p' Hin. apply not_elem_of_union. split; [|by apply Hs].
  intros E%elem_of_singleton. apply Hid. apply list_elem_of_fmap. by exists p'.
Qed.

Lemma build_topology_Ok (resources paths domain : N) (t : TopologySnapshot) :
  build_topology resources paths domain = Ok t ->
  1 <= resources <= kMaxResourcesPerDomain /\ ts_resources t = map (synthetic_resource domain) (indices resources) /\
  ts_links t = map synthetic_link (indices (resources - 1)) /\
  ts_paths t = map (synthetic_path resources) (indices paths).
Proof.
  unfold build_topology. intros [H0 [H1 H]%guard_Ok]%guard_Ok. apply N.eqb_neq in H0. apply N.ltb_ge in H1.
  apply Ok_inj in H as <-. repeat split; (reflexivity || lia).
Qed.

(** A chain of resources, and paths over neighbours in it: what the programs generate. *)
Record chain (resources paths : N) (resource : N -> ResourceRecord) (path : N -> PathRecord) (t : TopologySnapshot) :
    Prop := {
  ch_bounds : 1 <= resources <= kMaxResourcesPerDomain /\ paths <= kMaxPathsPerTopology;
  ch_resources : ts_resources t = map resource (indices resources);
  ch_links : ts_links t = map synthetic_link (indices (resources - 1));
  ch_paths : ts_paths t = map path (indices paths);
  ch_resource : forall x, 1 <= x <= resources ->
    rc_id (resource x) = x /\ rc_domain (resource x) <> 0 /\ rc_depth (resource x) <= kMaxResourceDepth /\
    rc_nominal_capacity_bps (resource x) = kSyntheticCapacity /\ rc_parent (resource x) = 0;
  ch_path : forall x, 1 <= x <= paths ->
    pa_id (path x) = x /\ pa_hops (path x) = pa_hops (synthetic_path resources x) /\
    pa_capacity_bps (path x) = kSyntheticCapacity
}.

Lemma map_indices {A : Type} (id : A -> N) (f : N -> A) (n : N) :
  (forall x, 1 <= x <= n -> id (f x) = x) -> map id (map f (indices n)) = indices n.
Proof.
  intros H. rewrite map_map. transitivity (map (fun x => x) (indices n)); [|apply map_id]. apply map_ext_in. intros x Hx%list_elem_of_In%indices_elem. by apply H.
Qed.

Lemma chain_validates (resources paths : N) (resource : N -> ResourceRecord) (path : N -> PathRecord)
    (t : TopologySnapshot) :
  chain resources paths resource path t -> validate_topology t = Ok tt.
Proof.
  intros [[[Hlo Hhi] Hpaths] Hr Hl Hp Hres Hpath]. unfold validate_topology. rewrite !guard_Ok_iff.
  rewrite Hl, Hp, !size64_map, !indices_size.
  assert (size64 (ts_resources t) = resources) as -> by (by rewrite Hr, size64_map, indices_size).
  assert (kMaxResourcesPerDomain <= kMaxResourcesPerFabric /\ kMaxResourcesPerDomain <= kMaxLinksPerTopology) as [Hf Hk]
    by (split; discriminate).
  split; [apply N.ltb_ge; lia|]. split; [apply N.ltb_ge; lia|]. split; [apply N.ltb_ge; lia|].
  split. { apply bool_decide_eq_false_2. intros E. apply (f_equal size64) in E. rewrite Hr, size64_map, indices_size in E.
           unfold size64 in E. cbn in E. lia. }
  assert (map rc_id (ts_resources t) = indices resources) as Hids
    by (rewrite Hr; apply map_indices; intros x Hx; apply (Hres x Hx)).
  destruct (validate_resources_pass (ts_resources t) ∅) as [out Hout].
  - rewrite Hr. apply Forall_map, Forall_forall. intros x Hx%indices_elem. destruct (Hres x Hx) as (E & H1 & H2 & E3 & _).
    rewrite E, E3. repeat split; (lia || discriminate || done).
  - rewrite Hids. apply indices_NoDup.
  - apply Forall_forall. intros r _. apply not_elem_of_empty.
  - rewrite Hout. cbn [res_bind].
    apply validate_resources_Ok in Hout as (_ & _ & _ & Hmem). rewrite Hids in Hmem.
    assert (forall x, 1 <= x <= resources -> x ∈ out) as Hin by (intros x Hx; apply Hmem; right; by apply indices_elem).
    rewrite validate_containment_roots.
    2:{ rewrite Hr. apply Forall_map, Forall_forall. intros x Hx%indices_elem. by apply Hres. }
    cbn [res_bind]. rewrite validate_links_pass; cbn [res_bind].
    + apply validate_paths_pass.
      * apply Forall_map, Forall_forall. intros x Hx%indices_elem. destruct (Hpath x Hx) as (-> & -> & ->).
        unfold synthetic_path. cbn [pa_hops].
        pose proof (N.mod_lt (x - 1) resources ltac:(lia)). pose proof (N.mod_lt x resources ltac:(lia)).
        split; [lia|]. split; [done|]. split; [destruct (_ =? _); discriminate|]. split; [discriminate|].
        set (first := (x - 1) mod resources) in *. set (second := x mod resources) in *. clearbody first second.
        apply Forall_cons. split; [apply Hin; lia|]. destruct (_ =? _); [constructor|]. apply Forall_singleton, Hin. lia.
      * rewrite map_indices by (intros x Hx; apply (Hpath x Hx)). apply indices_NoDup.
      * apply Forall_forall. intros r _. apply not_elem_of_empty.
    + apply Forall_map, Forall_forall. intros x Hx%indices_elem. cbn.
      repeat split; first [lia | discriminate | apply Hin; lia].
    + rewrite map_indices by done. apply indices_NoDup.
    + apply Forall_forall. intros r _. apply not_elem_of_empty.
Qed.

Lemma synthetic_validates (resources paths domain : N) (t : TopologySnapshot) :
  build_topology resources paths domain = Ok t -> domain <> 0 -> paths <= kMaxPathsPerTopology ->
  validate_topology t = Ok tt.
Proof.
  intros (Hbounds & Hr & Hl & Hp)%build_topology_Ok Hd Hpaths.
  apply (chain_validates resources paths (synthetic_resource domain) (synthetic_path resources)).
  split; try done; intros x Hx; cbn; repeat split; (done || lia || discriminate).
Qed.

(** The synthetic topology is accepted exactly when its domain is valid and the paths are within
    the bound: the only mistakes left to the command line. *)
Theorem generated_topology_valid (resources paths domain : N) (t : TopologySnapshot)
    (Ht : build_topology resources paths domain = Ok t) :
  validate_topology t = Ok tt <-> valid domain = true /\ paths <= kMaxPathsPerTopology.
Proof.
  split.
  - intros H. pose proof (tpo_resources _ (validate_topology_Ok t H)) as Hres.
    unfold validate_topology in H. apply guard_Ok in H as [_ H]. apply guard_Ok in H as [_ H]. apply guard_Ok in H as [Hp _].
    apply build_topology_Ok in Ht as ([Hlo _] & Hr & _ & Ep). rewrite Ep, size64_map, indices_size in Hp.
    split; [|by apply N.ltb_ge in Hp]. rewrite Hr in Hres. apply Forall_map in Hres. rewrite Forall_forall in Hres.
    destruct (Hres 1) as (_ & Hd & _); [apply indices_elem; lia|]. unfold valid. by apply negb_true_iff, N.eqb_neq.
  - intros [Hd Hp]. apply (synthetic_validates resources paths domain); [done| |done].
    unfold valid in Hd. by apply negb_true_iff, N.eqb_neq in Hd.
Qed.

Lemma generated_topology_valid_witness :
  exists t, build_topology 3 2 7 = Ok t /\ validate_topology t = Ok tt.
Proof.
  destruct (build_topology 3 2 7) as [e|t] eqn:Ht; [discriminate Ht|]. exists t. split; [reflexivity|].
  apply (proj2 (generated_topology_valid 3 2 7 t Ht)). split; [reflexivity|discriminate].
Defined.

(** ** The policy *)

Lemma build_policy_valid (a : Args) (ok : bool) (p : CongestionPolicy) :
  build_policy a ok = (p, true) -> policy_ok p /\ cpol_fingerprint p = fingerprint_policy p.
Proof.
  unfold build_policy. destruct (requested_policy a ok) as [q ok'].
  destruct (validate_policy _) as [e|v] eqn:Hv; intros [= <- _]. by apply validated_policy_ok in Hv.
Qed.

(** ** The denials *)

Fixpoint join_names (names : list string) : string :=
  match names with
  | [] => EmptyString
  | [name] => name
  | name :: rest => (name ++ String "," (join_names rest))%string
  end.

Lemma capability_no_comma (name : string) (c : Authority) : capability_of name = Some c -> no_comma name = true /\ c <> AuNone.
Proof.
  unfold capability_of. intros H.
  repeat match type of H with (if String.eqb name ?s then _ else _) = _ =>
    destruct (String.eqb_spec name s) as [->|_]; [injection H as <-; by split|] end.
  discriminate H.
Qed.

Lemma scan_denials_entry (s rest current : string) (denied : N) (ok : bool) :
  no_comma s = true -> scan_denials (s ++ rest) current denied ok = scan_denials rest (current ++ s) denied ok.
Proof.
  revert current. induction s as [|c s IH]; intros current Hs.
  - by rewrite str_app_nil, append_nil_r.
  - cbn [no_comma] in Hs. apply andb_true_iff in Hs as [Hc Hs]. apply negb_true_iff in Hc.
    rewrite str_app_cons. cbn [scan_denials]. rewrite Hc, IH by done. f_equal. by rewrite append_assoc.
Qed.

Lemma scan_denials_names (names : list string) (caps : list Authority) (denied : N) (ok : bool) :
  Forall2 (fun name c => capability_of name = Some c) names caps -> names <> [] ->
  exists bits, scan_denials (join_names names) "" denied ok = (bits, ok) /\
    forall c, c <> AuNone -> auth_grants bits c = bool_decide (c ∈ caps) || auth_grants denied c.
Proof.
  intros H. revert denied. induction H as [|name c names caps Hc Hall IH]; intros denied Hne; [done|].
  destruct (capability_no_comma name c Hc) as [Hcomma Hnone].
  assert (forall b, b <> AuNone -> forall cs, bool_decide (b ∈ c :: cs) || auth_grants denied b
    = bool_decide (b ∈ cs) || auth_grants (auth_grant denied c) b) as Hstep.
  { intros b Hb cs. rewrite auth_grants_grant by done. destruct (decide (c = b)) as [<-|Hcb].
    - rewrite (bool_decide_eq_true_2 (c ∈ c :: cs)) by left. rewrite (bool_decide_eq_true_2 (c = c)) by done.
      by destruct (bool_decide (c ∈ cs)).
    - rewrite (bool_decide_eq_false_2 (c = b)) by done. cbn [orb]. f_equal. apply bool_decide_ext. rewrite elem_of_cons.
      naive_solver. }
  assert (deny name denied ok = (auth_grant denied c, ok)) as Hd by (unfold deny; by rewrite Hc).
  destruct Hall as [|name' c' names caps Hc' Hall].
  - exists (auth_grant denied c). split; [|intros b Hb; by rewrite Hstep, bool_decide_eq_false_2 by (done || apply not_elem_of_nil)].
    cbn [join_names]. rewrite <- (append_nil_r name), scan_denials_entry by done. by rewrite str_app_nil.
  - destruct (IH (auth_grant denied c)) as (bits & E & Hbits); [done|]. exists bits.
    split; [|intros b Hb; by rewrite Hbits, Hstep].
    change (join_names (name :: name' :: names)) with (name ++ String "," (join_names (name' :: names)))%string.
    rewrite scan_denials_entry, str_app_nil by done. cbn [scan_denials Ascii.eqb]. rewrite Hd. exact E.
Qed.

Lemma join_names_neq (names : list string) (caps : list Authority) :
  Forall2 (fun name c => capability_of name = Some c) names caps -> names <> [] -> join_names names <> EmptyString.
Proof.
  intros [|name c names' caps' Hc H] Hne; [done|]. destruct names' as [|name' names'].
  - cbn [join_names]. by intros ->.
  - change (join_names (name :: name' :: names')) with (name ++ String "," (join_names (name' :: names')))%string.
    by destruct name.
Qed.

(** ** The coordinator *)

Lemma u64_or_ok (a : Args) (name : string) (fallback value : N) (ok : bool) :
  u64_or a name fallback ok = (value, true) -> ok = true.
Proof.
  unfold u64_or. destruct (args_value a name) as [[|c text]|]; [by intros [= _ ->]| |by intros [= _ ->]].
  destruct (strtoull 10 _) as [parsed rest]. destruct (String.eqb rest ""); [by intros [= _ ->]|discriminate].
Qed.

(** A coordinator that says it is ready. *)
Lemma prepare_coordinator_Ok (clock : N -> N) (io : StoreIo) (dir : Directory) (listens reports : bool) (a : Args)
    (f : Fabric) :
  prepare_coordinator clock io dir listens reports a = inr f ->
  exists domain resources paths topology denied f0 f1,
    u64_or a "domain" 1 true = (domain, true) /\ u64_or a "resources" 4 true = (resources, true) /\
    u64_or a "paths" 1 true = (paths, true) /\ parse_denials a true = (denied, true) /\
    fabric_open clock io (node_fabric_options a denied) dir = Ok f0 /\
    build_topology resources paths domain = Ok topology /\
    fabric_set_topology clock io topology f0 = (Ok tt, f1) /\
    (args_has a "policy" = false /\ f = f1 \/
     exists p, build_policy a true = (p, true) /\ fabric_set_policy clock io p f1 = (Ok tt, f)).
Proof.
  unfold prepare_coordinator.
  destruct (u64_or a "domain" 1 true) as [domain ok1] eqn:E1. destruct (u64_or a "resources" 4 ok1) as [resources ok2] eqn:E2.
  destruct (u64_or a "paths" 1 ok2) as [paths ok3] eqn:E3. destruct (u64_or a "run-ms" 0 ok3) as [run ok4] eqn:E4.
  destruct (u64_or a "eval-interval-ms" 25 ok4) as [period ok5] eqn:E5. destruct ok5; [|discriminate].
  apply u64_or_ok in E5 as ->. apply u64_or_ok in E4 as ->. pose proof (u64_or_ok _ _ _ _ _ E3) as ->.
  pose proof (u64_or_ok _ _ _ _ _ E2) as ->. cbn [negb].
  destruct (parse_denials a true) as [denied ok6] eqn:E6. destruct ok6; [|discriminate]. cbn [negb].
  destruct listens; [|discriminate]. cbn [negb].
  destruct (fabric_open clock io (node_fabric_options a denied) dir) as [e|f0] eqn:Ef; [discriminate|].
  destruct (negb (String.eqb _ _) && negb reports); [discriminate|].
  destruct (build_topology resources paths domain) as [e|topology] eqn:Et; [discriminate|].
  destruct (fabric_set_topology clock io topology f0) as [[e|[]] f1] eqn:Es; [discriminate|]. intros H.
  exists domain, resources, paths, topology, denied, f0, f1. repeat (split; [done|]).
  destruct (args_has a "policy"); [right|left; by injection H as ->].
  destruct (build_policy a true) as [p ok7]. destruct ok7; [|discriminate H]. cbn [negb] in H.
  exists p. split; [done|]. destruct (fabric_set_policy clock io p f1) as [[e|[]] f2]; [discriminate H|]. by injection H as ->.
Qed.

(** What the two configuration calls leave behind. *)
Lemma set_topology_index (clock : N -> N) (io : StoreIo) (topology : TopologySnapshot) (f g : Fabric) (u : unit) :
  fabric_set_topology clock io topology f = (Ok u, g) ->
  exists index, fb_topology g = Some index /\ index_of topology index.
Proof.
  unfold fabric_set_topology. rewrite bind_lift. destruct (build_index topology) as [e|index] eqn:Hi; [discriminate|].
  rewrite bind_open. destruct (fb_closed f); [discriminate|]. rewrite bind_modify. intros H.
  exists index. split; [|by apply build_index_Ok].
  match type of H with _ ?x = _ => pose proof (neutral_persist clock PkLocalPolicy (set_topology io (ti_snapshot index)) x) as Hn end.
  rewrite H in Hn. cbn [snd] in Hn. by apply same_core_fields in Hn as (_ & (-> & _) & _).
Qed.

Lemma set_policy_topology (clock : N -> N) (io : StoreIo) (p : CongestionPolicy) (f g : Fabric) (u : unit) :
  fabric_set_policy clock io p f = (Ok u, g) -> fb_topology g = fb_topology f.
Proof.
  unfold fabric_set_policy. rewrite bind_lift. destruct (validate_policy p) as [e|q]; [discriminate|].
  rewrite bind_open. destruct (fb_closed f); [discriminate|]. rewrite bind_get, bind_guard.
  destruct (_ <? _); [discriminate|]. rewrite bind_modify. intros H.
  match type of H with _ ?x = _ => pose proof (neutral_persist clock PkLocalPolicy (set_policy io q) x) as Hn end.
  rewrite H in Hn. cbn [snd] in Hn. by apply same_core_fields in Hn as (_ & (-> & _) & _).
Qed.

(** A denial on the command line holds for the life of the process: what is named is withheld
    locally, in every state the coordinator reaches, and nothing else is. *)
Theorem denials_hold (clock : N -> N) (io : StoreIo) (dir : Directory) (listens reports : bool) (a : Args)
    (names : list string) (caps : list Authority) (f g : Fabric)
    (Hready : prepare_coordinator clock io dir listens reports a = inr f) (Hg : follows f g)
    (Hdeny : args_value a "deny" = Some (join_names names)) (Hne : names <> [])
    (Hcaps : Forall2 (fun name c => capability_of name = Some c) names caps) :
  forall c, c <> AuNone -> auth_grants (fo_local_denied (fb_options g)) c = bool_decide (c ∈ caps).
Proof.
  rewrite (follows_options f g Hg).
  destruct (prepare_coordinator_Ok _ _ _ _ _ _ _ Hready) as (domain & resources & paths & topology & denied & f0 & f1 &
    _ & _ & _ & Hparse & Hopen & _ & Htopology & Hpolicy).
  assert (fb_options f = node_fabric_options a denied) as ->.
  { apply open_options in Hopen. rewrite <- Hopen.
    pose proof (perform_options clock io (CaSetTopology topology) f0) as H1. cbn [perform] in H1. unfold after in H1.
    rewrite Htopology in H1. destruct Hpolicy as [[_ ->]|(p & _ & Hp)]; [exact H1|].
    pose proof (perform_options clock io (CaSetPolicy p) f1) as H2. cbn [perform] in H2. unfold after in H2.
    rewrite Hp in H2. by etransitivity. }
  unfold parse_denials in Hparse. rewrite Hdeny in Hparse.
  destruct (scan_denials_names names caps auth_none true Hcaps Hne) as (bits & Hscan & Hbits).
  pose proof (join_names_neq names caps Hcaps Hne) as Hjoin.
  assert ((bits, true) = (denied, true)) as [= <-] by (rewrite <- Hscan; by destruct (join_names names)).
  intros c Hc. cbn [node_fabric_options fo_local_denied set fabric_options_default]. rewrite (Hbits c Hc).
  unfold auth_none, auth_grants. by rewrite N.land_0_l, orb_false_r.
Qed.

(** C22. A coordinator that says it is ready serves a reachable fabric: the topology it was asked
    for is installed and indexed, and the policy in force is valid. *)
Theorem ready_is_sound (clock : N -> N) (io : StoreIo) (dir : Directory) (listens reports : bool) (a : Args) (f : Fabric)
    (Hready : prepare_coordinator clock io dir listens reports a = inr f) :
  reachable_fabric f /\ policy_ok (fb_policy f) /\
  exists domain resources paths topology index,
    u64_or a "domain" 1 true = (domain, true) /\ u64_or a "resources" 4 true = (resources, true) /\
    u64_or a "paths" 1 true = (paths, true) /\ build_topology resources paths domain = Ok topology /\
    fb_topology f = Some index /\ index_of topology index.
Proof.
  destruct (prepare_coordinator_Ok _ _ _ _ _ _ _ Hready) as (domain & resources & paths & topology & denied & f0 & f1 &
    Hd & Hr & Hp & _ & Hopen & Ht & Htopology & Hpolicy).
  pose proof (reach_opened clock io _ dir f0 Hopen) as H0.
  pose proof (reach_call clock io (CaSetTopology topology) f0 H0) as H1. cbn [perform] in H1. unfold after in H1.
  rewrite Htopology in H1. cbn [snd] in H1.
  assert (reachable_fabric f /\ fb_topology f = fb_topology f1) as [Hf Ef].
  { destruct Hpolicy as [[_ ->]|(p & _ & Hset)]; [by split|].
    pose proof (reach_call clock io (CaSetPolicy p) f1 H1) as H2. cbn [perform] in H2. unfold after in H2.
    rewrite Hset in H2. split; [exact H2|]. by apply set_policy_topology in Hset. }
  split; [exact Hf|]. split; [apply (fok_policy _ (reachable_ok f Hf))|].
  apply set_topology_index in Htopology as (index & Hi & Hindex).
  exists domain, resources, paths, topology, index. rewrite Ef. repeat (split; [done|]). exact Hindex.
Qed.
