(* ===== verification/Tools.v ===== *)
(** * Tools: the roles of src/cli/ncf_node_main.cpp and src/cli/ncf_ctl_main.cpp

    What the command line programs decide: the publisher role and the dispatch of the
    node program, and the inspection tool, which opens a store read-only and judges it.
    What they print is left out; a program is its exit code.  Running the coordinator,
    running the publisher and the usage are parameters. *)

From stdpp Require Import base list strings.
From Stdlib Require Import Strings.Byte.
From S2P Require Import Prelude Core Enums Policy Explanation Args OMap StoreCodec Journal Snapshot Store Publisher.

Open Scope N_scope.

(** ** The publisher role *)

(** The options and the script of the command line, each option read with the [ok]
    the ones before it left. *)
Definition publisher_request (a : Args) (ok : bool) : PublisherClientOptions * PublisherScript * bool :=
  let '(publisher, ok) := u64_or a "publisher" 1 ok in
  let '(boot, ok) := u64_or a "boot" 1 ok in
  let '(timeout, ok) := u64_or a "connect-timeout-us" 5000000 ok in
  let '(domain, ok) := u64_or a "domain" 1 ok in
  let '(resources, ok) := id_list a "resources" ok in
  let '(samples, ok) := u64_or a "samples" 1 ok in
  let '(repeats, ok) := u64_or a "repeats" 1 ok in
  let '(interval, ok) := u64_or a "interval-ms" 0 ok in
  let '(utilization, ok) := u64_or a "utilization-ppm" 0 ok in
  let '(queue, ok) := u64_or a "queue-ppm" 0 ok in
  let '(buffer, ok) := u64_or a "buffer-ppm" 0 ok in
  let '(loss, ok) := u64_or a "loss-ppm" 0 ok in
  let '(latency, ok) := u64_or a "latency-us" 0 ok in
  let '(jitter, ok) := u64_or a "jitter-us" 0 ok in
  let '(residual, ok) := u64_or a "residual-bps" 0 ok in
  let '(egress, ok) := u64_or a "egress-bps" 0 ok in
  let '(utilization_step, ok) := i64_or a "util-step-ppm" 0 ok in
  let '(loss_step, ok) := i64_or a "loss-step-ppm" 0 ok in
  let '(queue_step, ok) := i64_or a "queue-step-ppm" 0 ok in
  let '(generation, ok) := u64_or a "generation" 1 ok in
  (mkPublisherClientOptions (value_or_else a "endpoint" "") publisher boot timeout "ncf-publisher",
   mkPublisherScript domain resources samples interval utilization queue buffer loss latency jitter residual egress
     utilization_step loss_step queue_step generation true (negb (args_has a "no-goodbye")) true repeats
     (args_has a "skip-handshake"), ok).

Definition publisher_role (run : PublisherClientOptions -> PublisherScript -> Result PublisherReport) (a : Args) : N :=
  let '(options, script, ok) := publisher_request a true in
  if negb ok then 2
  else if String.eqb (pc_endpoint options) "" || bool_decide (ps_resources script = []) then 2
  else
    match run options script with
    | Err _ => 1
    | Ok report => if pu_errors report =? 0 then 0 else 3
    end.

(** ** The node program *)

Definition run_selfcheck : N := match validate_policy make_default_policy with Ok _ => 0 | Err _ => 1 end.

(** [main] of the node; [usage] is the exit code of a line that is not understood. *)
Definition node_main (coordinator : Args -> N) (run : PublisherClientOptions -> PublisherScript -> Result PublisherReport)
    (a : Args) : N :=
  let role := ar_role a in
  if String.eqb role "" || String.eqb role "help" || String.eqb role "--help" then 2
  else if String.eqb role "coordinator" then coordinator a
  else if String.eqb role "publisher" then publisher_role run a
  else if String.eqb role "selfcheck" then run_selfcheck
  else 2.

(** ** The inspection tool *)

Section Inspection.
Context (io : StoreIo).

Definition read_only_options : StoreOptions :=
  mkStoreOptions (sto_max_history_entries store_options_default) (sto_max_intervention_records store_options_default)
    (sto_max_fences store_options_default) (sto_max_attempts store_options_default)
    (sto_max_provenance store_options_default) (sto_max_domains store_options_default)
    (sto_sync_on_append store_options_default) true true.

Definition open_read_only (path : string) (dir : Directory) : Result Store := open_store io path read_only_options dir.

Definition run_inspect (path : string) (dir : Directory) : N :=
  match open_read_only path dir with Err _ => 1 | Ok _ => 0 end.

Definition verify_clean (report : StoreReplay) : bool := negb (sr_integrity_failure report) && negb (sr_snapshot_corrupt report).

Definition run_verify (path : string) (dir : Directory) : N :=
  match open_read_only path dir with
  | Err _ => 1
  | Ok s => if verify_clean (sto_report s) then 0 else 1
  end.

Definition ctl_main (a : Args) (dir : Directory) : N :=
  let role := ar_role a in
  if String.eqb role "version" || String.eqb role "" then if String.eqb role "" then 2 else 0
  else
    let directory := value_or_else a "state-dir" "" in
    if String.eqb directory "" && (String.eqb role "inspect" || String.eqb role "verify") then 2
    else if String.eqb role "inspect" then run_inspect directory dir
    else if String.eqb role "verify" then run_verify directory dir
    else 2.
End Inspection.

(** * Properties *)

Section Verified.
Context (io : StoreIo).

(** The options of a store that is used: as the tool's, but for the two switches. *)
Definition with_switches (read_only tolerate : bool) (o : StoreOptions) : StoreOptions :=
  mkStoreOptions (sto_max_history_entries o) (sto_max_intervention_records o) (sto_max_fences o) (sto_max_attempts o)
    (sto_max_provenance o) (sto_max_domains o) (sto_sync_on_append o) read_only tolerate.

(** The snapshot of a store whose report ends without a corrupt snapshot is loaded the
    same whatever is tolerated. *)
Lemma load_snapshot_tolerance (o : StoreOptions) (read_only tolerate : bool) (snapshot : option (list byte))
    (d : DurableDocument) (report : StoreReplay) :
  load_snapshot o snapshot = Ok (d, report) -> sr_snapshot_corrupt report = false ->
  load_snapshot (with_switches read_only tolerate o) snapshot = Ok (d, report).
Proof.
  unfold load_snapshot. destruct snapshot as [bytes|]; [|done].
  change (snapshot_options_of (with_switches read_only tolerate o)) with (snapshot_options_of o).
  destruct (read_snapshot _ _) as [e|contents]; [|done].
  destruct (negb (sto_tolerate_corrupt_snapshot o)); [done|]. intros [= <- <-]. done.
Qed.

Lemma journal_open_file (options options' : JournalOptions) (j : Io) (file : option (list byte)) (journal : Journal) :
  jo_read_only options = true -> journal_open j options file = Ok journal ->
  journal_open j options' file = Ok (journal <| j_options := options' |>) /\ file = Some (j_file journal) /\
  j_options journal = options.
Proof.
  unfold journal_open. intros ->. destruct file as [bytes|]; [|done]. destruct (io_open j); [|done].
  by intros [= <-].
Qed.

Lemma cut_nothing (o : StoreOptions) (replay : JournalReplay) (s : Store) :
  rp_status replay <> RsTruncatedTail -> cut_torn_tail io o replay s = Ok s.
Proof. intros H. unfold cut_torn_tail. by rewrite bool_decide_false. Qed.
(** Replaying the journal leaves what was found of the snapshot. *)
Definition flags (report : StoreReplay) : bool * bool := (sr_integrity_failure report, sr_snapshot_corrupt report).

Lemma replay_record_flags (st : ReplayState) (r : JournalRecord) :
  flags (rs_report (replay_record st r)) = flags (rs_report st).
Proof.
  unfold replay_record. cbv zeta. destruct (_ <=? _); [done|]. unfold replay_commit.
  destruct (record_type_of _); try done; [by destruct (decode_intent_kind _)|].
  destruct (om_find _ _) as [slot|]; [|done]. destruct (negb _); [done|]. by destruct (res_bind _ _).
Qed.

Lemma replay_records_flags (st : ReplayState) (l : list JournalRecord) :
  flags (rs_report (replay_records st l)) = flags (rs_report st).
Proof.
  unfold replay_records. revert st. induction l as [|r l IH]; intros st; [done|]. cbn [foldl].
  by rewrite IH, replay_record_flags.
Qed.

Lemma report_unfinished_flags (st : ReplayState) : flags (rs_report (report_unfinished st)) = flags (rs_report st).
Proof.
  unfold report_unfinished. generalize (rs_pending st). intros l. revert st. induction l as [|[id slot] l IH]; intros st; [done|].
  cbn [foldl]. rewrite IH. unfold report_pending. by destruct (negb _).
Qed.

(** What is open when nothing had to be cut. *)
Definition opened (o : StoreOptions) (journal : Journal) (files : SnapshotFiles) (st : ReplayState) : Store :=
  mkStore o (resume_sequence (w64 (doc_last_sequence (rs_document st) + 1)) journal) files (rs_document st)
    ((rs_report st) <| sr_last_epoch := doc_epoch (rs_document st) |>
       <| sr_last_sequence := doc_last_sequence (rs_document st) |>) 0 true.
Definition replayed (d : DurableDocument) (report : StoreReplay) (replay : JournalReplay) : ReplayState :=
  report_unfinished (replay_records
    (mkReplayState d (report <| sr_journal_present := true |> <| sr_journal_status := rp_status replay |>) [])
    (rp_records replay)).

Lemma open_store_whole (path : string) (o : StoreOptions) (dir : Directory) (d : DurableDocument) (report : StoreReplay)
    (journal : Journal) (replay : JournalReplay) :
  String.eqb path "" = false -> sio_directory io = true -> sio_stat io = true ->
  load_snapshot o (fs_snapshot (dir_files dir)) = Ok (d, report) ->
  journal_open (sio_journal io) (journal_options_of o) (dir_journal dir) = Ok journal ->
  journal_replay (j_options journal) (Some (j_file journal)) = Ok replay ->
  rp_status replay <> RsCorrupt -> rp_status replay <> RsTruncatedTail ->
  open_store io path o dir = Ok (opened o journal (dir_files dir) (replayed d report replay)).
Proof.
  intros Hpath Hdir Hstat Hload Hjournal Hreplay Hc Ht. unfold open_store. rewrite Hpath, Hdir, Hstat. cbn [guard negb].
  rewrite Hload. cbn [res_bind]. rewrite Hjournal. cbn [res_bind]. rewrite Hreplay. cbn [res_bind].
  rewrite (bool_decide_false _ Hc). cbv zeta. rewrite cut_nothing by exact Ht. cbn [res_bind].
  fold (replayed d report replay). generalize (replayed d report replay). intros st. reflexivity.
Qed.

Lemma opened_parts (o : StoreOptions) (journal : Journal) (files : SnapshotFiles) (st : ReplayState) :
  flags (sto_report (opened o journal files st)) = flags (rs_report st) /\
  j_file (sto_journal (opened o journal files st)) = j_file journal.
Proof. split; [done|]. cbn. unfold resume_sequence. by destruct (_ <? _). Qed.

Lemma replayed_flags (d : DurableDocument) (report : StoreReplay) (replay : JournalReplay) :
  flags (rs_report (replayed d report replay)) = flags report.
Proof. unfold replayed. by rewrite report_unfinished_flags, replay_records_flags. Qed.

(** A store the tool calls clean is one a coordinator opens: for writing, and whether or
    not it tolerates a corrupt snapshot, with the document and the report the tool saw.
    Nothing is cut from its journal. *)
Theorem verified_store_opens (path : string) (dir : Directory) (tolerate : bool)
    (Hverify : run_verify io path dir = 0) :
  exists s s', open_read_only io path dir = Ok s /\
    open_store io path (with_switches false tolerate read_only_options) dir = Ok s' /\
    sto_document s' = sto_document s /\ sto_report s' = sto_report s /\
    dir_journal dir = Some (j_file (sto_journal s')).
Proof.
  unfold run_verify in Hverify. destruct (open_read_only io path dir) as [e|s] eqn:Hopen; [done|].
  destruct (verify_clean (sto_report s)) eqn:Hclean; [|done]. clear Hverify. exists s.
  unfold open_read_only in Hopen. pose proof Hopen as Hsteps. unfold open_store in Hsteps. peel_guards Hsteps.
  destruct x as [document report]. peel_guards Hsteps. reflect_bools.
  destruct (bool_decide (rp_status x0 = RsCorrupt)) eqn:Hcorrupt; [done|]. apply bool_decide_eq_false in Hcorrupt.
  destruct (decide (rp_status x0 = RsTruncatedTail)) as [Htorn|Htorn].
  { exfalso. unfold cut_torn_tail in Hsteps. rewrite bool_decide_true in Hsteps by done. cbn [sto_read_only] in Hsteps.
    apply Ok_inj in Hsteps. rewrite <- Hsteps in Hclean. discriminate Hclean. }
  clear Hsteps.
  destruct (journal_open_file (journal_options_of read_only_options)
              (journal_options_of (with_switches false tolerate read_only_options)) _ _ _ eq_refl Hx0)
    as (Hjournal & Hfile & Hoptions).
  rewrite (open_store_whole path read_only_options dir document report x x0) in Hopen by done.
  pose proof (replayed_flags document report x0) as Hflags.
  assert (sr_snapshot_corrupt report = false) as Hwhole.
  { unfold verify_clean in Hclean. apply andb_true_iff in Hclean as [_ Hc]. apply negb_true_iff in Hc.
    apply Ok_inj in Hopen. rewrite <- Hopen in Hc. injection Hflags as _ Hf. rewrite <- Hf. exact Hc. }
  pose proof (load_snapshot_tolerance read_only_options false tolerate _ _ _ Hx Hwhole) as Hload.
  eexists. split; [done|]. split.
  { eapply (open_store_whole path _ dir document report _ x0); try done. cbn [set j_options j_file].
    rewrite <- Hx1, Hoptions. reflexivity. }
  apply Ok_inj in Hopen. rewrite <- Hopen. generalize (replayed document report x0). intros st.
  split; [reflexivity|]. split; [reflexivity|]. rewrite (proj2 (opened_parts _ _ _ st)). exact Hfile.
Qed.
End Verified.

(** ** Concrete stores *)

Definition committed_directory : Directory :=
  directory_of (commit steady_store_io MuHistoryAppend demo_history demo_stamp demo_store).2.

Lemma verified_store_opens_witness :
  run_verify steady_store_io "store" committed_directory = 0 /\
  exists s s', open_read_only steady_store_io "store" committed_directory = Ok s /\
    open_store steady_store_io "store" (with_switches false false read_only_options) committed_directory = Ok s' /\
    sto_document s' = sto_document s.
Proof.
  assert (run_verify steady_store_io "store" committed_directory = 0) as H by (vm_compute; reflexivity).
  split; [exact H|]. destruct (verified_store_opens steady_store_io "store" committed_directory false H) as (s & s' & H1 & H2 & H3 & _).
  exists s, s'. exact (conj H1 (conj H2 H3)).
Defined.

(** A journal that ends inside a record is damaged, and so is a corrupt one; a missing
    one cannot be opened. *)
Example verify_judges :
  let verdict journal := run_verify steady_store_io "store" (mkDirectory (mkSnapshotFiles None None) journal) in
  let bytes := j_file (sto_journal (commit steady_store_io MuHistoryAppend demo_history demo_stamp demo_store).2) in
  (verdict (Some bytes), verdict (Some (take (length bytes - 1) bytes)), verdict (Some (<[80%nat := x01]> bytes)), verdict None)
  = (0, 1, 1, 1).
Proof. vm_compute. reflexivity. Qed.

(** What a replay rejects is not an integrity failure: a journal whose only record is the
    commit of a transaction that has no payload is clean. *)
Example rejected_commit_is_clean :
  let journal := (append steady_io RtCommit 1 5 1 (commit_body MuHistoryAppend demo_history) new_journal).2 in
  let dir := mkDirectory (mkSnapshotFiles None None) (Some (j_file journal)) in
  (run_verify steady_store_io "store" dir,
   match open_read_only steady_store_io "store" dir with Ok s => sr_records_rejected (sto_report s) | Err _ => 0 end)
  = (0, 1).
Proof. vm_compute. reflexivity. Qed.
