(* ===== verification/Bench.v ===== *)
(** * Bench: src/cli/ncf_bench_main.cpp

    The synthetic benchmark: the scenarios, the population each generates and the
    evaluations it counts.  What is measured and printed is left out: a result is its
    counters.  The evaluator and the planner are those the fabric uses. *)

From stdpp Require Import base list gmap strings.
From S2P Require Import Prelude Core Enums Evidence Authority Policy Topology State Intervention Evaluator Planner.
From S2P Require Import Args Node.

Open Scope N_scope.

(** ** Scenarios *)

Record Scenario := mkScenario {
  sn_name : string;
  sn_resources : N;
  sn_metrics : N;
  sn_paths : N;
  sn_domains : N;
  sn_intervention_rules : N;
  sn_evaluations : N
}.

Record ScenarioResult := mkScenarioResult {
  br_name : string;
  br_resources : N;
  br_metrics : N;
  br_paths : N;
  br_domains : N;
  br_intervention_rules : N;
  br_iterations : N;
  br_evaluations : N;
  br_transitions : N;
  br_authorized : N;
  br_suppressed : N
}.

#[export] Instance ScenarioResult_settable : Settable ScenarioResult :=
  fields! mkScenarioResult < br_name; br_resources; br_metrics; br_paths; br_domains; br_intervention_rules;
    br_iterations; br_evaluations; br_transitions; br_authorized; br_suppressed >.

(** ** The population *)

Definition kMetricPool : list MetricKind :=
  [MkUtilizationPpm; MkQueueOccupancyPpm; MkLossRatePpm; MkLatencyMicros; MkBufferUtilizationPpm; MkJitterMicros;
   MkQueueDepthPackets; MkEgressRateBps; MkIngressRateBps; MkResidualCapacityBps; MkAdmissibleRateBps;
   MkMarkedFractionPpm; MkDeliveryRatioPpm; MkDiscardCount; MkQueueDelayMicros; MkLinkCapacityBps;
   MkPathCapacityBps; MkTopologyVersion; MkCapacityVersion; MkUnknown].

(** A triangle wave. *)
Definition severity_level (iteration : N) : N := let phase := iteration mod 64 in if phase <? 32 then phase else 63 - phase.

Definition metric_value_for (kind : MetricKind) (index : N) : N :=
  let level := severity_level index in
  match kind with
  | MkUtilizationPpm => 150000 + level * 26000
  | MkQueueOccupancyPpm => 1000 + level * 29000
  | MkBufferUtilizationPpm => 50000 + level * 24000
  | MkLossRatePpm => 10 + level * 10000
  | MkLatencyMicros => 200 + level * 1800
  | MkJitterMicros => 50 + index mod 10 * 30
  | MkQueueDepthPackets => 1000 + index mod 64 * 40
  | MkDiscardCount => 10 + index mod 8
  | MkEgressRateBps => 40000000000 + index mod 16 * 1000000000
  | MkIngressRateBps => 42000000000 + index mod 16 * 1000000000
  | MkResidualCapacityBps => 50000000000 - index mod 32 * 1000000000
  | MkAdmissibleRateBps => 30000000000 + index mod 16 * 1000000000
  | MkMarkedFractionPpm => 1000 + index mod 32 * 500
  | MkDeliveryRatioPpm => 1000000 - index mod 64 * 5000
  | MkQueueDelayMicros => 100 + index mod 40 * 200
  | MkLinkCapacityBps => 100000000000
  | MkPathCapacityBps => 100000000000
  | MkTopologyVersion => 1 + index mod 4
  | MkCapacityVersion => 1 + index mod 4
  | _ => 0
  end.

Definition bench_resource (resources domains index : N) : ResourceRecord :=
  let per_domain := resources / domains in
  mkResourceRecord index ((index - 1) / (if per_domain =? 0 then 1 else per_domain) + 1) 0 0 RkPort (index mod 8)
    kSyntheticCapacity 0.
Definition bench_path (resources index : N) : PathRecord :=
  let first := (index - 1) mod resources + 1 in
  let second := index mod resources + 1 in
  mkPathRecord index (first :: (if second =? first then [] else [second])) kSyntheticCapacity 0.

Definition make_topology (scenario : Scenario) : TopologySnapshot :=
  let resources := sn_resources scenario in
  let t := mkTopologySnapshot 1 1 1 0 (map (bench_resource resources (sn_domains scenario)) (indices resources))
             (map synthetic_link (indices (resources - 1))) (map (bench_path resources) (indices (sn_paths scenario))) 0 in
  t <| ts_fingerprint := fingerprint_topology t |>.

Definition kKindPool : list InterventionKind :=
  [IkReduceAdmissibleBudget; IkRequestRateReduction; IkRequestPacing; IkRequestReroute; IkRequestRebalance;
   IkRequestBackpressure; IkProtectCriticalClasses; IkEnterDegradedMode].

Definition extra_rule (index : N) : InterventionRule :=
  mkInterventionRule SevCongested (nth (N.to_nat (index mod 8)) kKindPool IkNone) 0 0 true true 0 1000000 100000
    (w32 (100 + index)) 0.

(** The default rules, more or fewer of them; a policy that is not valid is used as it is. *)
Definition make_policy (scenario : Scenario) : CongestionPolicy :=
  let p := make_default_policy in
  let wanted := sn_intervention_rules scenario in
  let present := size64 (cpol_interventions p) in
  let extra := if present <? wanted then wanted - present else 0 in
  let rules := cpol_interventions p ++ map (fun i => extra_rule (i - 1)) (indices extra) in
  let rules := if wanted <? size64 rules then take (N.to_nat wanted) rules else rules in
  let p := p <| cpol_interventions := rules |> in
  let p := p <| cpol_id := fingerprint_policy p |> in
  match validate_policy p with Ok p => p | Err _ => p end.

(** ** A run *)

(** [set], whose refusal is ignored. *)
Definition put_reading (iteration : N) (readings : list MetricReading) (kind : MetricKind) : list MetricReading :=
  if bool_decide (kind = MkUnknown) then readings
  else match metric_set readings kind (metric_value_for kind iteration) with Ok l => l | Err _ => readings end.

Definition bench_metrics (fan_in iteration : N) : list MetricReading :=
  foldl (put_reading iteration) [] (map (fun metric => nth (metric mod 20) kMetricPool MkUnknown) (seq 0 (N.to_nat fan_in))).

Definition bench_sample (fan_in iteration now resource : N) : EvidenceSample :=
  let s := mkEvidenceSample resource 0 (bench_metrics fan_in iteration) 1 1 1 (1 + iteration) (1 + iteration) now 0 0 0 0 in
  s <| es_snapshot := compute_snapshot_id s |>.

Definition bench_authority (p : CongestionPolicy) : AuthorityVector :=
  mkAuthorityVector 1 1 (cpol_id p) (cpol_fingerprint p) 0 auth_all auth_none 0 0 0.
Definition bench_context (p : CongestionPolicy) (t : TopologyIndex) (now : N) : EvaluationContext :=
  mkEvaluationContext (Some p) (Some t) None 1 (bench_authority p) now kMaxEvidencePerBatch.

Definition bench_batch (scenario : Scenario) (t : TopologyIndex) (iteration now domain : N) : EvidenceBatch :=
  let fan_in := N.min (sn_metrics scenario) 20 in
  let batch := mkEvidenceBatch 0 1 0 0 (map (bench_sample fan_in iteration now) (domain_resources t domain)) in
  batch <| eb_id := compute_batch_id batch |>.

(** The evaluation of a domain: the result and the state the next evaluation starts
    from, or the result a failure ends the run with. *)
Definition bench_domain (scenario : Scenario) (p : CongestionPolicy) (t : TopologyIndex) (iteration now domain : N)
    (b : ScenarioResult * DomainState) : ScenarioResult + ScenarioResult * DomainState :=
  let '(result, prior) := b in
  let request := mkEvaluationRequest domain (bench_batch scenario t iteration now domain) 1 (bench_authority p) now 0 in
  match evaluate request prior (bench_context p t now) with
  | Err _ => inl result
  | Ok out =>
      let result := result <| br_evaluations ::= N.succ |> in
      let result := if eo_transitioned out then result <| br_transitions ::= N.succ |> else result in
      let result :=
        if domain =? 1 then
          match make_plan out (mkPlanningContext (Some p) (Some t) now 1 (bench_authority p)) [] with
          | Err _ => result
          | Ok plan => result <| br_authorized ::= N.add (size64 (ip_authorized plan)) |>
                              <| br_suppressed ::= N.add (size64 (ip_suppressed plan)) |>
          end
        else result in
      inr (result, eo_updated out)
  end.

Fixpoint bench_domains (scenario : Scenario) (p : CongestionPolicy) (t : TopologyIndex) (iteration now : N)
    (domains : list N) (b : ScenarioResult * DomainState) : ScenarioResult + ScenarioResult * DomainState :=
  match domains with
  | [] => inr b
  | domain :: rest =>
      match bench_domain scenario p t iteration now domain b with
      | inl result => inl result
      | inr b => bench_domains scenario p t iteration now rest b
      end
  end.

Fixpoint bench_iterations (scenario : Scenario) (p : CongestionPolicy) (t : TopologyIndex) (turns : nat)
    (iteration now : N) (b : ScenarioResult * DomainState) : ScenarioResult :=
  match turns with
  | O => b.1
  | S turns =>
      let b := (b.1 <| br_iterations ::= N.succ |>, b.2) in
      match bench_domains scenario p t iteration now (indices (sn_domains scenario)) b with
      | inl result => result
      | inr b => bench_iterations scenario p t turns (iteration + 1) (manual_advance now 1000) b
      end
  end.

(** [None] stands for an exception of [TopologyIndex::build]. *)
Definition run_scenario (scenario : Scenario) : option ScenarioResult :=
  let result := mkScenarioResult (sn_name scenario) (sn_resources scenario) (sn_metrics scenario) (sn_paths scenario)
                  (sn_domains scenario) (sn_intervention_rules scenario) 0 0 0 0 0 in
  match build (make_topology scenario) with
  | None => None
  | Some (Err _) => Some result
  | Some (Ok t) =>
      Some (bench_iterations scenario (make_policy scenario) t (N.to_nat (sn_evaluations scenario)) 0
              (manual_clock 1000) (result, domain_state_default <| ds_domain := 1 |>))
  end.

(** The scenarios of [main]. *)
Definition bench_scenarios (scale : N) : list Scenario :=
  map (fun n => mkScenario "resource-count" n 4 8 1 5 scale) [16; 256; 2048] ++
  map (fun n => mkScenario "metric-fan-in" 256 n 8 1 5 scale) [2; 8; 20] ++
  map (fun n => mkScenario "path-count" 256 4 n 1 5 scale) [0; 64; 512] ++
  map (fun n => mkScenario "domain-count" 256 4 8 n 5 scale) [1; 8; 64] ++
  map (fun n => mkScenario "intervention-complexity" 256 4 8 1 n scale) [1; 5; 12].

(** * Properties *)

(** ** The wave *)

Lemma severity_level_bound (iteration : N) : severity_level iteration <= 31.
Proof.
  unfold severity_level. pose proof (N.mod_lt iteration 64 ltac:(done)).
  destruct (N.ltb_spec (iteration mod 64) 32); lia.
Qed.

(** Every reading the benchmark generates is plausible, at every iteration. *)
Lemma metric_value_plausible (kind : MetricKind) (iteration : N) :
  kind ∈ kMetricPool -> kind <> MkUnknown -> validate_metric_value kind (metric_value_for kind iteration) = None.
Proof.
  intros Hin Hk. pose proof (severity_level_bound iteration) as Hl.
  pose proof (N.mod_lt iteration 10 ltac:(done)). pose proof (N.mod_lt iteration 64 ltac:(done)).
  pose proof (N.mod_lt iteration 8 ltac:(done)). pose proof (N.mod_lt iteration 16 ltac:(done)).
  pose proof (N.mod_lt iteration 32 ltac:(done)). pose proof (N.mod_lt iteration 40 ltac:(done)).
  pose proof (N.mod_lt iteration 4 ltac:(done)).
  unfold metric_value_for. cbv zeta.
  generalize dependent (severity_level iteration). generalize dependent (iteration mod 10).
  generalize dependent (iteration mod 64). generalize dependent (iteration mod 8). generalize dependent (iteration mod 16).
  generalize dependent (iteration mod 32). generalize dependent (iteration mod 40). generalize dependent (iteration mod 4).
  intros. unfold validate_metric_value. unfold kMetricPool in Hin. rewrite !elem_of_cons in Hin.
  repeat destruct Hin as [->|Hin]; try done; cbn [bool_decide]; try (by apply not_elem_of_nil in Hin);
    rewrite !bool_decide_false by done; cbn [orb];
    match goal with |- (if md_plausible_max ?d <? _ then _ else _) = _ =>
      let m := eval vm_compute in (md_plausible_max d) in change (md_plausible_max d) with m end;
    match goal with |- (if ?a <? ?b then _ else _) = _ => destruct (N.ltb_spec a b) end; done || lia.
Qed.

(** Setting distinct kinds of the pool one after another refuses none of them. *)
Lemma put_readings (iteration : N) (kinds : list MetricKind) :
  NoDup kinds -> kinds ⊆ kMetricPool -> size64 kinds <= kMaxMetricReadings ->
  let readings := foldl (put_reading iteration) [] kinds in
  metric_set_ok readings /\ size64 readings <= size64 kinds /\
  forall k, metric_get readings k =
    if bool_decide (k ∈ kinds /\ k <> MkUnknown) then Some (metric_value_for k iteration) else None.
Proof.
  cbv zeta. induction kinds as [|kind kinds IH] using rev_ind; intros Hn Hsub Hsize.
  { split; [eauto with ncf|]. split; [done|]. intros k. rewrite bool_decide_false; [done|]. intros [H%not_elem_of_nil _]. done. }
  apply NoDup_app in Hn as (Hn & Hnew & _). rewrite size64_app in Hsize. rewrite size64_app.
  assert (size64 [kind] = 1) as E1 by done. rewrite E1 in *.
  destruct IH as (Hok & Hle & Hget); [done|set_solver|lia|]. rewrite foldl_app. cbn [foldl].
  set (l := foldl (put_reading iteration) [] kinds) in *. clearbody l. unfold put_reading.
  case_bool_decide as Hu.
  { split; [done|]. split; [lia|]. intros k. rewrite Hget. erewrite bool_decide_ext; [reflexivity|]. rewrite elem_of_app, list_elem_of_singleton.
    naive_solver. }
  assert (metric_has l kind = false) as Hfresh.
  { rewrite metric_has_get, Hget. apply bool_decide_false. rewrite bool_decide_false; [by intros [? ?]|].
    intros [Hin _]. apply (Hnew kind); [done|]. by apply list_elem_of_singleton. }
  destruct (metric_set l kind (metric_value_for kind iteration)) as [e|l'] eqn:Hset.
  - exfalso. unfold metric_set in Hset. rewrite metric_value_plausible in Hset; [|set_solver|done].
    unfold guard in Hset. rewrite Hfresh, (proj2 (N.leb_gt _ _)) in Hset by lia. done.
  - destruct (metric_set_Ok _ _ _ _ Hok Hset) as [Hok' Hperm]. split; [done|]. split.
    { unfold size64 in *. rewrite Hperm. cbn [length]. lia. }
    intros k. rewrite (metric_get_set _ _ _ _ _ Hok Hset), Hget. case_bool_decide as E; [subst k|].
    + rewrite bool_decide_true; [done|]. split; [|done]. apply elem_of_app. right. by apply list_elem_of_singleton.
    + erewrite bool_decide_ext; [reflexivity|]. rewrite elem_of_app, list_elem_of_singleton. naive_solver.
Qed.

Lemma pool_prefix (fan_in : N) :
  fan_in <= 20 ->
  map (fun metric => nth (metric mod 20) kMetricPool MkUnknown) (seq 0 (N.to_nat fan_in)) =
  take (N.to_nat fan_in) kMetricPool.
Proof.
  intros H. assert (N.to_nat fan_in <= 20)%nat as Hn by lia. generalize dependent (N.to_nat fan_in). clear. intros n Hn.
  do 21 (destruct n as [|n]; [reflexivity|]). lia.
Qed.

(** The sample of a resource carries exactly the kinds asked for, [Unknown] excepted:
    the widest fan-in, of 20, measures nineteen. *)
Theorem samples_are_complete (fan_in iteration now resource : N) (Hf : fan_in <= 20) :
  let s := bench_sample fan_in iteration now resource in
  es_resource s = resource /\ es_snapshot s = compute_snapshot_id s /\ metric_set_ok (es_metrics s) /\
  forall k, metric_get (es_metrics s) k =
    if bool_decide (k ∈ take (N.to_nat fan_in) kMetricPool /\ k <> MkUnknown) then Some (metric_value_for k iteration)
    else None.
Proof.
  assert (metric_set_ok (bench_metrics fan_in iteration) /\ forall k, metric_get (bench_metrics fan_in iteration) k =
    if bool_decide (k ∈ take (N.to_nat fan_in) kMetricPool /\ k <> MkUnknown) then Some (metric_value_for k iteration)
    else None) as [Hok Hget].
  { unfold bench_metrics. rewrite pool_prefix by done.
    destruct (put_readings iteration (take (N.to_nat fan_in) kMetricPool)) as (Hok & _ & Hget); [| | |done].
    - apply (NoDup_app (take (N.to_nat fan_in) kMetricPool) (drop (N.to_nat fan_in) kMetricPool)). rewrite take_drop.
      by apply (bool_decide_unpack _).
    - intros k Hk. apply elem_of_take in Hk as (i & Hi & _). by apply list_elem_of_lookup_2 in Hi.
    - unfold size64. rewrite length_take. assert (N.of_nat (length kMetricPool) = 20) as E by done.
      assert (20 <= kMaxMetricReadings) by done. lia. }
  unfold bench_sample. cbv zeta. generalize dependent (bench_metrics fan_in iteration). intros readings Hok Hget.
  split; [reflexivity|]. split; [|split; [exact Hok|exact Hget]].
  unfold compute_snapshot_id. cbn -[update_u64 update_u32 finish hasher metric_fingerprint]. reflexivity.
Qed.

Lemma samples_are_complete_witness :
  2 <= 20 /\ metric_get (es_metrics (bench_sample 2 0 1000 7)) MkLossRatePpm = None.
Proof.
  assert (2 <= 20) as H by lia. split; [exact H|].
  pose proof (samples_are_complete 2 0 1000 7 H) as (_ & _ & _ & Hget). rewrite Hget. reflexivity.
Defined.

(** The widest scenario has twenty columns and nineteen readings. *)
Example nineteen_of_twenty : size64 (es_metrics (bench_sample 20 0 1000 7)) = 19.
Proof. vm_compute. reflexivity. Qed.

(** ** The population is accepted *)

Lemma bench_topology_chain (scenario : Scenario) :
  1 <= sn_resources scenario <= kMaxResourcesPerDomain -> sn_paths scenario <= kMaxPathsPerTopology ->
  chain (sn_resources scenario) (sn_paths scenario) (bench_resource (sn_resources scenario) (sn_domains scenario))
    (bench_path (sn_resources scenario)) (make_topology scenario).
Proof.
  intros Hr Hp. split.
  - exact (conj Hr Hp).
  - reflexivity.
  - reflexivity.
  - reflexivity.
  - intros x Hx. unfold bench_resource. cbn [rc_id rc_domain rc_depth rc_nominal_capacity_bps rc_parent].
    pose proof (N.mod_lt x 8 ltac:(done)) as Hm. assert (7 <= kMaxResourceDepth) as Hd by done.
    split; [done|]. split; [apply N.neq_0_lt_0, N.add_pos_r; done|]. split; [|done].
    revert Hm Hd. generalize (x mod 8) kMaxResourceDepth. lia.
  - intros x Hx. repeat split.
Qed.

(** Every index is built: the benchmark never measures a rejected population. *)
Lemma bench_topology_builds (scenario : Scenario)
    (Hr : 1 <= sn_resources scenario <= kMaxResourcesPerDomain) (Hp : sn_paths scenario <= kMaxPathsPerTopology) :
  exists t, build (make_topology scenario) = Some (Ok t).
Proof.
  pose proof (chain_validates _ _ _ _ _ (bench_topology_chain scenario Hr Hp)) as Hv.
  destruct (build_total (make_topology scenario)) as [r Hb]. unfold build in *. rewrite Hv in *.
  destruct (build_edges _ _ _ _) as [[out_edges in_edges]|]; [|done]. destruct (build_domains _) as [[slots domains] members].
  eauto.
Qed.

(** ** What is counted *)

(** Between two results of one iteration: [n] more evaluations, no more transitions than that. *)
Definition counted (n : N) (r r' : ScenarioResult) : Prop :=
  br_iterations r' = br_iterations r /\ br_evaluations r' = br_evaluations r + n /\
  br_transitions r' - br_transitions r <= n /\ br_transitions r <= br_transitions r'.

Lemma bench_domain_counts (scenario : Scenario) (p : CongestionPolicy) (t : TopologyIndex) (iteration now domain : N)
    (b : ScenarioResult * DomainState) :
  match bench_domain scenario p t iteration now domain b with
  | inl r => counted 0 b.1 r
  | inr b' => counted 1 b.1 b'.1
  end.
Proof.
  destruct b as [r prior]. unfold bench_domain. destruct (evaluate _ prior _) as [e|out]; cbn [fst].
  { unfold counted. lia. }
  set (plan := make_plan _ _ _). clearbody plan. unfold counted.
  destruct (eo_transitioned out), (domain =? 1), plan; cbn; lia.
Qed.

Lemma bench_domains_counts (scenario : Scenario) (p : CongestionPolicy) (t : TopologyIndex) (iteration now : N)
    (domains : list N) (b : ScenarioResult * DomainState) :
  match bench_domains scenario p t iteration now domains b with
  | inl r => exists n, n < size64 domains /\ counted n b.1 r
  | inr b' => counted (size64 domains) b.1 b'.1
  end.
Proof.
  revert b. induction domains as [|domain domains IH]; intros b; cbn [bench_domains].
  { unfold counted. change (size64 []) with 0. lia. }
  rewrite size64_cons. pose proof (bench_domain_counts scenario p t iteration now domain b) as H.
  destruct (bench_domain scenario p t iteration now domain b) as [r|b1]; [exists 0; split; [lia|done]|].
  specialize (IH b1). destruct (bench_domains _ _ _ _ _ domains b1) as [r|b2].
  - destruct IH as (n & Hn & Hc). exists (n + 1). unfold counted in *. lia.
  - unfold counted in *. lia.
Qed.

(** A run of [turns] iterations from a result that counts [i] complete ones. *)
Lemma bench_iterations_count (scenario : Scenario) (p : CongestionPolicy) (t : TopologyIndex) (turns : nat)
    (iteration now i : N) (b : ScenarioResult * DomainState) :
  let d := sn_domains scenario in
  br_iterations b.1 = i -> br_evaluations b.1 = i * d -> br_transitions b.1 <= br_evaluations b.1 ->
  let r := bench_iterations scenario p t turns iteration now b in
  br_transitions r <= br_evaluations r /\
  ((br_iterations r = i + N.of_nat turns /\ br_evaluations r = br_iterations r * d) \/
   (i < br_iterations r <= i + N.of_nat turns /\
    (br_iterations r - 1) * d <= br_evaluations r < br_iterations r * d)).
Proof.
  cbv zeta. revert iteration now i b. induction turns as [|turns IH]; intros iteration now i b Hi He Ht; cbn [bench_iterations].
  { split; [done|]. left. rewrite N.add_0_r, Hi. done. }
  set (b0 := (b.1 <| br_iterations ::= N.succ |>, b.2)).
  pose proof (bench_domains_counts scenario p t iteration now (indices (sn_domains scenario)) b0) as H.
  rewrite indices_size in H. subst b0. unfold counted in H. cbn [fst] in H.
  destruct (bench_domains _ _ _ _ _ _ _) as [r|b1].
  - destruct H as (n & Hn & H1 & H2 & H3 & H4). cbn in H1, H2, H3, H4. split; [lia|]. right. rewrite H1, H2, Hi, He.
    split; nia.
  - destruct H as (H1 & H2 & H3 & H4). cbn in H1, H2, H3, H4.
    destruct (IH (iteration + 1) (manual_advance now 1000) (i + 1) b1) as [HT HD]; [lia|nia|lia|].
    split; [done|]. destruct HD as [[E1 E2]|[E1 E2]]; [left|right]; (split; [lia|done]).
Qed.

(** A run counts what completed: every evaluation of every iteration, or, when one
    fails, the iterations before it and a part of its own. *)
Theorem run_counts_completed (scenario : Scenario)
    (Hr : 1 <= sn_resources scenario <= kMaxResourcesPerDomain) (Hp : sn_paths scenario <= kMaxPathsPerTopology) :
  exists r, run_scenario scenario = Some r /\ br_transitions r <= br_evaluations r /\
    ((br_iterations r = sn_evaluations scenario /\ br_evaluations r = br_iterations r * sn_domains scenario) \/
     (1 <= br_iterations r <= sn_evaluations scenario /\
      (br_iterations r - 1) * sn_domains scenario <= br_evaluations r < br_iterations r * sn_domains scenario)).
Proof.
  destruct (bench_topology_builds scenario Hr Hp) as [t Ht]. unfold run_scenario. rewrite Ht. eexists. split; [reflexivity|].
  match goal with |- context [bench_iterations ?s ?p ?t ?n ?i ?c ?b] =>
    pose proof (bench_iterations_count s p t n i c 0 b eq_refl eq_refl (N.le_refl 0)) as [HT HD] end.
  split; [exact HT|]. rewrite N2Nat.id, N.add_0_l in HD. destruct HD as [HD|[HD1 HD2]]; [left; exact HD|right].
  split; [lia|exact HD2].
Qed.

Lemma run_counts_completed_witness :
  exists r, run_scenario (mkScenario "resource-count" 2 4 1 1 5 2) = Some r /\ br_evaluations r <= 2.
Proof.
  destruct (run_counts_completed (mkScenario "resource-count" 2 4 1 1 5 2)) as (r & Hr & _ & H);
    [split; discriminate|discriminate|]. exists r. split; [exact Hr|]. cbn [sn_evaluations sn_domains] in H. lia.
Defined.

(** The policies of the rule counts measured are valid, and a short run completes. *)
Example bench_policies_valid :
  forallb (fun n => match validate_policy (make_policy (mkScenario "x" 16 4 8 1 n 1)) with Ok _ => true | Err _ => false end)
    [1; 5; 12] = true.
Proof. vm_compute. reflexivity. Qed.
Example short_run :
  option_map (fun r => (br_evaluations r, br_transitions r, br_authorized r)) (run_scenario (mkScenario "x" 2 2 1 1 1 2)) =
  Some (2, 1, 0).
Proof. vm_compute. reflexivity. Qed.
