(* ===== verification/Scenarios.v ===== *)
(** * Scenarios: a concrete fabric

    A small topology, batches of evidence and authority on which the evaluation
    and planning theorems are applied, and the scenarios behind the findings. *)

From S2P Require Import Prelude Core Enums OMap Evidence Authority Policy Topology State Intervention Hysteresis Propagation Evaluator Planner.

Open Scope N_scope.

(** ** Fixtures *)

Definition demo_resource (id : N) : ResourceRecord := mkResourceRecord id 1 0 0 RkPort 0 1000000 0.

(** Three ports of domain 1; a link from 1 to 2 and a path 1, 2, 3. *)
Definition demo_topology : TopologySnapshot :=
  mkTopologySnapshot 1 1 1 1 [demo_resource 1; demo_resource 2; demo_resource 3]
    [mkLinkRecord 1 1 2 1000 10 1] [mkPathRecord 9 [1; 2; 3] 1000 0] 0.

Definition empty_index : TopologyIndex := mkTopologyIndex demo_topology ∅ ∅ ∅ [] [] [] [] [].
Definition demo_index : TopologyIndex :=
  match build demo_topology with Some (Ok t) => t | _ => empty_index end.

Lemma demo_index_of : index_of demo_topology demo_index.
Proof.
  apply (build_index_of demo_topology). unfold demo_index.
  assert (exists t, build demo_topology = Some (Ok t)) as [t E] by (eexists; vm_compute; reflexivity).
  by rewrite E.
Qed.

Definition demo_sample (resource publisher sequence tick : N) (metrics : list MetricReading) : EvidenceSample :=
  mkEvidenceSample resource 0 metrics publisher 1 5 1 sequence tick tick 0 (resource * 1000 + publisher * 10 + sequence) 0.

Definition demo_batch (samples : list EvidenceSample) : EvidenceBatch := mkEvidenceBatch 77 5 0 100 samples.

Definition demo_authority : AuthorityVector :=
  mkAuthorityVector 5 1 (cpol_id make_default_policy) (cpol_fingerprint make_default_policy) 3
    auth_all auth_none 1 0 0.

Definition demo_request (samples : list EvidenceSample) : EvaluationRequest :=
  mkEvaluationRequest 1 (demo_batch samples) 5 demo_authority 100 0.

Definition demo_context (topology : option TopologyIndex) : EvaluationContext :=
  mkEvaluationContext (Some make_default_policy) topology None 5 demo_authority 100 kMaxEvidencePerBatch.

Lemma demo_context_ok : context_ok (demo_context (Some demo_index)).
Proof.
  split; simpl.
  - intros p [= <-]. apply default_policy_ok.
  - intros t [= <-]. exists demo_topology. apply demo_index_of.
Qed.

(** Utilization and queue both past their CONGESTED thresholds. *)
Definition hot_metrics : list MetricReading :=
  [mkMetricReading MkQueueOccupancyPpm 600000; mkMetricReading MkUtilizationPpm 900000].
Definition hot_sample (resource : N) : EvidenceSample := demo_sample resource 11 1 99 hot_metrics.

(** The outcome of an evaluation that succeeds. *)
Definition outcome_or (default : EvaluationOutcome) (r : Result EvaluationOutcome) : EvaluationOutcome :=
  match r with Ok out => out | Err _ => default end.

Definition no_outcome : EvaluationOutcome :=
  mkEvaluationOutcome 0 0 StUnknown StUnknown SevClear false false false evidence_vector_default
    domain_state_default demo_authority 0 0 0 0 0 "" [].

Definition demo_outcome (samples : list EvidenceSample) : EvaluationOutcome :=
  outcome_or no_outcome (evaluate (demo_request samples) domain_state_default (demo_context (Some demo_index))).

Definition demo_planning : PlanningContext :=
  mkPlanningContext (Some make_default_policy) (Some demo_index) 100 5 demo_authority.

Lemma demo_evaluates (samples : list EvidenceSample) :
  samples = [hot_sample 1] \/ samples = [] ->
  evaluate (demo_request samples) domain_state_default (demo_context (Some demo_index))
  = Ok (demo_outcome samples).
Proof. intros [->| ->]; vm_compute; reflexivity. Qed.

(** ** The evaluation theorems on the fabric *)

Lemma escalation_corroborated_witness :
  eo_state (demo_outcome [hot_sample 1]) = StCongested /\
  exists resources resource rules,
    scope (demo_request [hot_sample 1]) (demo_context (Some demo_index)) (cpol_limits make_default_policy)
      = Ok resources /\
    resource ∈ resources /\ NoDup (map tr_metric rules) /\
    N.max 1 (cpol_min_agreeing_rules_for_congested make_default_policy) <= size64 rules /\
    Forall (fun rule => rule ∈ cpol_rules make_default_policy /\ exists queue value publisher,
      reading_from make_default_policy (demo_context (Some demo_index)) 100 resources [hot_sample 1]
        (resource, queue, tr_metric rule) value publisher /\
      sev_leb SevCongested (classify rule value) = true) rules.
Proof.
  split; [vm_compute; reflexivity|].
  refine (escalation_corroborated make_default_policy (demo_request [hot_sample 1]) domain_state_default
    (demo_context (Some demo_index)) (demo_outcome [hot_sample 1]) demo_context_ok eq_refl
    (demo_evaluates _ (or_introl eq_refl)) _ _); vm_compute; reflexivity.
Defined.

Lemma authoritative_backed_witness :
  eo_authoritative (demo_outcome [hot_sample 1]) = true /\
  0 < ev_samples_accepted (eo_evidence (demo_outcome [hot_sample 1])).
Proof.
  assert (eo_authoritative (demo_outcome [hot_sample 1]) = true) as Ha by (vm_compute; reflexivity).
  split; [exact Ha|].
  exact (proj1 (authoritative_backed _ _ _ _ demo_context_ok (demo_evaluates _ (or_introl eq_refl)) Ha)).
Defined.

Lemma bindings_explained_witness :
  length (ev_bindings (eo_evidence (demo_outcome [hot_sample 1]))) = 2%nat /\
  exists resources,
    scope (demo_request [hot_sample 1]) (demo_context (Some demo_index)) (cpol_limits make_default_policy)
      = Ok resources /\
    Forall (binding_ok make_default_policy (demo_context (Some demo_index)) 100 resources [hot_sample 1])
      (ev_bindings (eo_evidence (demo_outcome [hot_sample 1]))).
Proof.
  split; [vm_compute; reflexivity|].
  exact (bindings_explained make_default_policy (demo_request [hot_sample 1]) domain_state_default
    (demo_context (Some demo_index)) (demo_outcome [hot_sample 1]) demo_context_ok eq_refl
    (demo_evaluates _ (or_introl eq_refl))).
Defined.

Lemma reports_bounded_witness :
  ev_samples_seen (eo_evidence (demo_outcome [hot_sample 1])) = 1 /\
  size64 (ev_stale (eo_evidence (demo_outcome [hot_sample 1]))) <= 64.
Proof.
  split; [vm_compute; reflexivity|].
  exact (proj1 (reports_bounded make_default_policy (demo_request [hot_sample 1]) domain_state_default
    (demo_context (Some demo_index)) (demo_outcome [hot_sample 1]) demo_context_ok eq_refl
    (demo_evaluates _ (or_introl eq_refl)))).
Defined.

Lemma evaluate_total_witness :
  exists out, evaluate (demo_request []) domain_state_default (demo_context (Some demo_index)) = Ok out.
Proof.
  refine (evaluate_total make_default_policy (demo_request []) domain_state_default
    (demo_context (Some demo_index)) [1; 2; 3] demo_context_ok eq_refl eq_refl _ _ _).
  - discriminate.
  - vm_compute. discriminate.
  - vm_compute. reflexivity.
Defined.

Lemma evaluation_is_one_step_witness :
  eo_state (demo_outcome []) = StUnknown /\ hysteresis_ok (eo_updated (demo_outcome [])).
Proof.
  split; [vm_compute; reflexivity|].
  refine (proj2 (evaluation_is_one_step make_default_policy (demo_request []) domain_state_default
    (demo_context (Some demo_index)) (demo_outcome []) demo_context_ok eq_refl
    (demo_evaluates _ (or_intror eq_refl))) _).
  split; [right; reflexivity|discriminate|]. cbv. discriminate.
Defined.

(** Two publishers that disagree on the utilization of a resource. *)
Definition disputed_samples : list EvidenceSample :=
  [demo_sample 1 11 1 99 [mkMetricReading MkUtilizationPpm 100000];
   demo_sample 1 12 1 99 [mkMetricReading MkUtilizationPpm 900000]].

Definition disputed_bucket : list Reading :=
  [mkReading 100000 11 1 1 1111 99 false false; mkReading 900000 12 1 1 1121 99 false false].

Lemma disputed_bucket_contradicts :
  disputed (cpol_contradiction make_default_policy) disputed_bucket.
Proof.
  exists (mkReading 100000 11 1 1 1111 99 false false), (mkReading 900000 12 1 1 1121 99 false false).
  split; [vm_compute; discriminate|vm_compute; repeat constructor|vm_compute; repeat constructor| |].
  - repeat constructor; vm_compute; discriminate.
  - split; vm_compute; reflexivity.
Qed.

Lemma contradiction_commits_witness :
  eo_state (demo_outcome disputed_samples) = StConflict /\
  eo_authoritative (demo_outcome disputed_samples) = false.
Proof.
  assert (evaluate (demo_request disputed_samples) domain_state_default (demo_context (Some demo_index))
          = Ok (demo_outcome disputed_samples)) as He by (vm_compute; reflexivity).
  assert (scope (demo_request disputed_samples) (demo_context (Some demo_index)) (cpol_limits make_default_policy)
          = Ok [1; 2; 3]) as Hsc by (vm_compute; reflexivity).
  assert (am_readings (admit_samples make_default_policy (demo_context (Some demo_index))
            (eq_now (demo_request disputed_samples)) [1; 2; 3] (initial_vector (demo_request disputed_samples))
            (eb_samples (eq_evidence (demo_request disputed_samples))))
          = [((1, 0, MkUtilizationPpm), disputed_bucket)]) as Ha by (vm_compute; reflexivity).
  destruct (contradiction_commits make_default_policy _ _ _ _ [1; 2; 3] demo_context_ok eq_refl Hsc He)
    as (Hcommit & _ & _).
  destruct Hcommit as [Hauth Hstate].
  - split; [reflexivity|]. rewrite Ha. constructor. exact disputed_bucket_contradicts.
  - split; [apply Hstate; reflexivity|exact Hauth].
Defined.

Lemma propagation_sound_witness :
  exists out keys,
    propagate demo_index [mkSource 1 SevSevere] (cpol_propagation make_default_policy) 16 = Ok out /\
    strictly_ordered (map fst (pres_induced out)) /\
    result_ok demo_topology (cpol_propagation make_default_policy) [mkSource 1 SevSevere] 16 keys out.
Proof.
  refine (propagation_sound demo_topology demo_index [mkSource 1 SevSevere]
    (cpol_propagation make_default_policy) 16 demo_index_of _ _).
  - vm_compute. discriminate.
  - split; vm_compute; [reflexivity|discriminate].
Defined.

(** ** The planning theorems *)

Definition demo_plan (policy : CongestionPolicy) (out : EvaluationOutcome) : Result InterventionPlan :=
  make_plan out (mkPlanningContext (Some policy) (Some demo_index) 100 5 demo_authority) [].

Lemma plan_justified_witness :
  exists plan, make_plan (demo_outcome [hot_sample 1]) demo_planning [] = Ok plan /\
    Forall (authorized_ok make_default_policy demo_planning (demo_outcome [hot_sample 1]) [])
      (ip_authorized plan) /\
    Forall (fun i => exists rule, rule ∈ cpol_interventions make_default_policy /\ ii_kind i = ir_kind rule /\
              ir_parameter_min rule <= ii_parameter i <= ir_parameter_max rule) (ip_authorized plan).
Proof.
  exact (plan_justified make_default_policy (demo_outcome [hot_sample 1]) demo_planning [] eq_refl
    default_policy_ok).
Defined.

Lemma plan_bounded_witness :
  exists plan, make_plan (demo_outcome [hot_sample 1]) demo_planning [] = Ok plan /\
    size64 (ip_authorized plan) = 3 /\ size64 (ip_authorized plan) <= 64 + 3.
Proof.
  assert (exists plan, make_plan (demo_outcome [hot_sample 1]) demo_planning [] = Ok plan /\
    size64 (ip_authorized plan) = 3) as (plan & Hp & Hs) by (eexists; split; vm_compute; reflexivity).
  exists plan. split; [exact Hp|]. split; [exact Hs|].
  refine (plan_bounded make_default_policy (demo_outcome [hot_sample 1]) demo_planning [] plan 3 eq_refl _ Hp).
  assert (Forall (fun rule => size64 (rule_targets demo_planning (demo_outcome [hot_sample 1]) rule) <= 3)
    (cpol_interventions make_default_policy)) as Hall
    by (repeat constructor; vm_compute; discriminate).
  rewrite Forall_forall in Hall. exact Hall.
Defined.

Lemma make_plan_indeterminate_witness :
  exists plan, make_plan (demo_outcome []) demo_planning [] = Ok plan /\ ip_authorized plan = [].
Proof.
  assert (exists plan, make_plan (demo_outcome []) demo_planning [] = Ok plan) as [plan Hp]
    by (eexists; vm_compute; reflexivity).
  exists plan. split; [exact Hp|].
  refine (make_plan_indeterminate _ _ _ _ Hp _). vm_compute. reflexivity.
Defined.

(** ** Scenarios behind the findings *)

(** A policy that bounds a plan to one intervention. *)
Definition one_per_plan : CongestionPolicy :=
  make_default_policy <| cpol_limits := mkPolicyLimits 4096 64 1024 8 1024 1 32 64 |>.

(** The per-plan bound is tested once per rule: with a bound of one and a domain
    of three covered resources, one rule authorizes three interventions. *)
Theorem plan_bound_overrun :
  is_Some (match validate_policy one_per_plan with Ok p => Some p | Err _ => None end) /\
  exists plan,
    demo_plan one_per_plan (demo_outcome [hot_sample 1; hot_sample 2; hot_sample 3]) = Ok plan /\
    pl_max_interventions_per_plan (cpol_limits one_per_plan) = 1 /\ size64 (ip_authorized plan) = 3.
Proof.
  split; [eexists; vm_compute; reflexivity|]. eexists. split; [vm_compute; reflexivity|].
  split; vm_compute; reflexivity.
Qed.

(** A resource that reported nothing at all does not hold the domain back, although
    the policy requires a metric of every resource: two of three resources are
    silent and the domain is CLEAR, authoritatively, with no reason given. *)
Theorem silent_resource_is_ignored :
  let out := demo_outcome [demo_sample 1 11 1 99 [mkMetricReading MkUtilizationPpm 100]] in
  has_required_rules make_default_policy = true /\
  map ra_coverage (ev_resources (eo_evidence out)) = [CovFull; CovNone; CovNone] /\
  eo_state out = StClear /\ eo_authoritative out = true /\ eo_reason_detail out = [].
Proof. vm_compute. repeat split. Qed.
