(* ===== verification/FabricScenarios.v ===== *)
(** * FabricScenarios: a coordinator at work

    A concrete fabric on which the theorems of FabricSafety.v and FabricDurability.v
    are applied, and the runs behind the findings about the coordinator. *)

From stdpp Require Import gmap.
From Stdlib Require Import Strings.Byte.
From S2P Require Import Prelude Core Enums OMap Evidence Authority Policy Topology State Intervention.
From S2P Require Import Explanation Evaluator Planner Scenarios.
From S2P Require Import Journal StoreCodec Snapshot Store Fabric FabricInvariant FabricSafety FabricDurability.

Open Scope N_scope.

(** ** Fixtures *)

(** A clock that ticks at each reading. *)
Definition demo_clock (n : N) : N := 100 + n.

(** In memory, and with a state directory. *)
Definition transient_options : FabricOptions := fabric_options_default.
Definition durable_options : FabricOptions := fabric_options_default <| fo_state_directory := "state"%string |>.

Definition open_fabric (options : FabricOptions) (dir : Directory) : Result Fabric :=
  fabric_open demo_clock steady_store_io options dir.
Definition opened (options : FabricOptions) : Fabric :=
  match open_fabric options empty_directory with Ok f => f | Err _ => fresh_fabric options end.

Definition run_calls (calls : list FabricCall) (f : Fabric) : Fabric :=
  foldl (fun f call => perform demo_clock steady_store_io call f) f calls.

(** A hot reading of port 1 by boot [boot] of publisher 11. *)
Definition hot_reading (epoch boot generation sequence tick : N) : EvidenceSample :=
  mkEvidenceSample 1 0 hot_metrics 11 boot epoch generation sequence tick tick 0 0 0.

(** A port is reported hot and evaluated twice, which commits CONGESTED. *)
Definition hot_calls : list FabricCall :=
  [CaSetTopology demo_topology; CaRegister 11 1 auth_all; CaIngest (demo_batch [hot_reading 1 1 1 1 100]);
   CaEvaluate 1 false false].
Definition congested_calls : list FabricCall := hot_calls ++ [CaEvaluate 1 false false].

Lemma run_calls_follows (calls : list FabricCall) (f : Fabric) : follows f (run_calls calls f).
Proof.
  unfold run_calls. apply (foldl_inv (fun g => follows f g)); [reflexivity|]. intros g call _ H. by apply follows_call.
Qed.

Lemma opened_reachable (options : FabricOptions) :
  ok (open_fabric options empty_directory) = true -> reachable_fabric (opened options).
Proof.
  unfold opened. destruct (open_fabric options empty_directory) as [e|f] eqn:E; [discriminate|]. intros _.
  by apply (reach_opened demo_clock steady_store_io options empty_directory).
Qed.

Lemma run_reachable (options : FabricOptions) (calls : list FabricCall) :
  ok (open_fabric options empty_directory) = true -> reachable_fabric (run_calls calls (opened options)).
Proof. intros H. apply (reachable_follows (opened options)); [by apply opened_reachable|apply run_calls_follows]. Qed.

Lemma transient_opens : ok (open_fabric transient_options empty_directory) = true.
Proof. vm_compute. reflexivity. Qed.

Lemma durable_opens : ok (open_fabric durable_options empty_directory) = true.
Proof. vm_compute. reflexivity. Qed.

(** The fabric after [calls], in memory and durable. *)
Definition transient_after (calls : list FabricCall) : Fabric := run_calls calls (opened transient_options).
Definition durable_after (calls : list FabricCall) : Fabric := run_calls calls (opened durable_options).

Definition domain_in (f : Fabric) : CongestionState := ds_state (default domain_state_default (om_find 1 (fb_domains f))).

Example hot_is_congested : domain_in (transient_after congested_calls) = StCongested.
Proof. vm_compute. reflexivity. Qed.

(** ** The theorems on the fabric *)

(** A computation that succeeds, as an equation. *)
Definition value_or {A : Type} (default : A) (r : Result A) : A := match r with Ok a => a | Err _ => default end.

Lemma succeeds {A : Type} (default : A) (r : Result A * Fabric) :
  ok r.1 = true -> r = (Ok (value_or default r.1), r.2).
Proof. by destruct r as [[e|a] f]. Qed.

Lemma reachable_fabric_ok_witness :
  size (fb_publishers (transient_after hot_calls)) = 1%nat /\ length (fb_evidence (transient_after hot_calls)) = 1%nat /\
  fabric_ok (transient_after hot_calls).
Proof.
  split; [vm_compute; reflexivity|]. split; [vm_compute; reflexivity|].
  exact (proj1 (reachable_fabric_ok _ (run_reachable _ _ transient_opens))).
Defined.

Definition fenced_calls : list FabricCall := take 3 hot_calls ++ [CaFence 11 1 FrPublisherDeath ""%string].

Lemma fenced_forever_witness :
  let f := transient_after fenced_calls in
  let g := run_calls [CaRegister 11 1 auth_all; CaIngest (demo_batch [hot_reading 1 1 2 1 100])] f in
  fabric_is_fenced 11 1 f = true /\ registered 11 1 g = None.
Proof.
  intros f g. assert (fabric_is_fenced 11 1 f = true) as H by (vm_compute; reflexivity). split; [exact H|].
  exact (proj1 (proj2 (fenced_forever f g 11 1 (run_reachable _ _ transient_opens) H (run_calls_follows _ f)))).
Defined.

Lemma advance_epoch_fences_witness :
  let f := transient_after (take 3 hot_calls) in
  length (fb_evidence f) = 1%nat /\ is_Some (registered 11 1 f) /\
  powerless (fabric_advance_epoch demo_clock steady_store_io FrEpochAdvance f).2.
Proof.
  intros f. split; [vm_compute; reflexivity|]. split; [vm_compute; by eexists|].
  assert (fb_closed f = false) as H by (vm_compute; reflexivity).
  exact (proj1 (proj2 (proj2 (advance_epoch_fences demo_clock steady_store_io FrEpochAdvance f
    (run_reachable _ _ transient_opens) H)))).
Defined.

Lemma closed_refuses_witness :
  let f := transient_after [CaClose] in
  let call := CaRegister 11 1 auth_all in
  fb_closed f = true /\
  (perform demo_clock steady_store_io call f = f \/
   call = CaNow /\ perform demo_clock steady_store_io call f = f <| fb_clock_reads ::= N.succ |> \/
   call = CaCancelled /\ perform demo_clock steady_store_io call f
     = f <| fb_stats ::= fun s => s <| fbs_cancellations ::= N.succ |> |>).
Proof.
  intros f call. assert (fb_closed f = true) as H by (vm_compute; reflexivity). split; [exact H|].
  exact (closed_refuses demo_clock steady_store_io call f H).
Defined.

Lemma cancelled_evaluation_applies_nothing_witness :
  let f := transient_after (take 3 hot_calls) in
  let r := fabric_evaluate_cancellable demo_clock steady_store_io 1 false true f in
  ok r.1 = false /\ only_counted f r.2.
Proof. exact (cancelled_evaluation_applies_nothing demo_clock steady_store_io 1 false true _ eq_refl). Defined.

(** A batch with a reading, the same once more, one of an unknown boot and a later one. *)
Definition mixed_batch : EvidenceBatch :=
  demo_batch [hot_reading 1 1 1 1 100; hot_reading 1 1 1 1 100; hot_reading 1 7 1 1 100; hot_reading 1 1 1 2 101].

Lemma ingest_accounts_witness :
  let f := transient_after (take 2 hot_calls) in
  let r := fabric_ingest demo_clock mixed_batch f in
  let report := value_or ingest_report_default r.1 in
  report = mkIngestReport 2 1 1 1 0 0 0 /\ window_step (demo_clock (fb_clock_reads f)) (eb_samples mixed_batch) f r.2.
Proof.
  intros f r report. split; [vm_compute; reflexivity|].
  refine (proj2 (ingest_accounts demo_clock mixed_batch f r.2 report _)). apply succeeds. vm_compute. reflexivity.
Defined.

(** The evaluation of the hot port. *)
Definition hot_evaluation (f : Fabric) : Result EvaluationOutcome * Fabric :=
  fabric_evaluate demo_clock steady_store_io 1 f.

Lemma evaluation_on_current_evidence_witness :
  let f := transient_after (take 3 hot_calls) in
  let out := value_or no_outcome (hot_evaluation f).1 in
  eo_authoritative out = true /\
  exists batch, evaluated f 1 batch out /\ Forall (current_evidence f) (eb_samples batch) /\
    size64 (eb_samples batch) <= kMaxEvidencePerBatch /\
    (eo_authoritative out = true -> 0 < ev_samples_accepted (eo_evidence out) <= size64 (eb_samples batch)).
Proof.
  intros f out. split; [vm_compute; reflexivity|].
  refine (evaluation_on_current_evidence demo_clock steady_store_io 1 f (hot_evaluation f).2 out
    (run_reachable _ _ transient_opens) _). apply succeeds. vm_compute. reflexivity.
Defined.

Definition empty_plan : InterventionPlan := mkInterventionPlan 0 0 0 0 0 0 0 [] [].

Lemma plan_under_live_authority_witness :
  let f := transient_after hot_calls in
  let out := default no_outcome (om_find 1 (fb_last_outcomes f)) in
  let r := plan_evaluated demo_clock steady_store_io 1 out f in
  length (ip_authorized (value_or empty_plan r.1)) = 3%nat /\ Forall (current_intent f) (active_intents 1 r.2).
Proof.
  intros f out r. split; [vm_compute; reflexivity|].
  assert (r = (Ok (value_or empty_plan r.1), r.2)) as E by (apply succeeds; vm_compute; reflexivity).
  destruct (plan_under_live_authority demo_clock steady_store_io 1 out f r.2 (value_or empty_plan r.1)
    (run_reachable _ _ transient_opens) E) as (_ & _ & H). exact H.
Defined.

(** The words of a state, decided. *)
Definition domain_state_wordsb (s : DomainState) : bool :=
  forallb (fun x => x <? 2 ^ 64) [ds_domain s; ds_last_change_tick s; ds_last_authoritative_tick s;
    ds_last_evaluated_tick s; ds_last_evaluation s; ds_last_evidence s; ds_epoch s; ds_topology_generation s;
    ds_capacity_generation s; ds_policy s; ds_policy_fingerprint s; ds_authority_generation s;
    ds_transition_count s; ds_evaluation_count s]
  && forallb (fun x => x <? 2 ^ 8) [state_val (ds_state s); state_val (ds_candidate s); sev_val (ds_last_committed_severity s)]
  && (ds_candidate_streak s <? 2 ^ 32).

Lemma domain_state_wordsb_words (s : DomainState) : domain_state_wordsb s = true -> domain_state_words s.
Proof.
  unfold domain_state_wordsb, domain_state_words. rewrite !andb_true_iff, !forallb_forall, N.ltb_lt.
  intros [[H1 H2] H3]. split; [|split; [|exact H3]]; apply Forall_forall; intros x Hx%list_elem_of_In; apply N.ltb_lt; auto.
Qed.

(** An evaluation on a durable fabric, with the outcome in the document. *)
Lemma evaluation_durable_witness :
  let f := durable_after (take 3 hot_calls) in
  let out := value_or no_outcome (hot_evaluation f).1 in
  let g := (hot_evaluation f).2 in
  eo_state out = StCongested /\ is_Some (fb_store f) /\
  forall s, fb_store f = Some s -> exists s', fb_store g = Some s' /\ find_domain 1 (sto_document s') = Some (eo_updated out).
Proof.
  intros f out g. split; [vm_compute; reflexivity|]. split; [vm_compute; by eexists|].
  assert (ok (hot_evaluation f).1 = true) as Hok by (vm_compute; reflexivity).
  pose proof (succeeds no_outcome (hot_evaluation f) Hok) as E.
  assert (domain_state_words (eo_updated out)) as Hw by (apply domain_state_wordsb_words; vm_compute; reflexivity).
  intros s Hs. destruct (proj2 (evaluation_durable demo_clock steady_store_io 1 f g out (run_reachable _ _ durable_opens) E Hw) s Hs)
    as (s' & Hs' & Hd). exists s'. split; [exact Hs'|exact (Hd 1)].
Defined.

(** A state directory with a congested domain, evaluated at tick 500000, and a fence. *)
Definition worked_domain : DomainState :=
  domain_state_default <| ds_domain := 1 |> <| ds_state := StCongested |> <| ds_last_change_tick := 400000 |>
    <| ds_last_authoritative_tick := 500000 |> <| ds_last_evaluated_tick := 500000 |> <| ds_epoch := 6 |>
    <| ds_last_committed_severity := SevCongested |>.
Definition old_fence : FenceRecord :=
  let record := mkFenceRecord 0 6 11 3 9 FrPublisherDeath 450000 1 ""%string in record <| fr_id := fence_identity record |>.
Definition worked_store : Result Store :=
  then_run (then_run (then_run (open_demo store_options_default empty_directory)
    (advance_epoch steady_store_io 6 77 1 demo_stamp))
    (put_domain_state steady_store_io worked_domain demo_stamp))
    (append_fence steady_store_io old_fence demo_stamp).
Definition worked_directory : Directory :=
  match worked_store with Ok s => directory_of s | Err _ => empty_directory end.

(** The store and the fabric of the next process on that directory. *)
#[local] Abbreviation reopening :=
  (open_store steady_store_io (fo_state_directory durable_options) (fo_store durable_options) worked_directory).
#[local] Abbreviation restarting := (fabric_open demo_clock steady_store_io durable_options worked_directory).
Definition restarted_store : Store := value_or demo_store reopening.
Definition restarted_fabric : Fabric := value_or (fresh_fabric durable_options) restarting.

Lemma result_succeeds {A : Type} (default : A) (r : Result A) : ok r = true -> r = Ok (value_or default r).
Proof. by destruct r. Qed.

Lemma open_demotes_witness :
  fb_epoch restarted_fabric = 7 /\ domain_in restarted_fabric = StStale /\ powerless restarted_fabric /\
  map fst (fb_domains restarted_fabric) = [1] /\ fabric_is_fenced 11 3 restarted_fabric = true /\
  Forall (fun record => fabric_is_fenced (fr_publisher record) (fr_boot record) restarted_fabric = true)
    (doc_fences (sto_document restarted_store)).
Proof.
  split; [vm_compute; reflexivity|]. split; [vm_compute; reflexivity|].
  assert (ok reopening = true) as Hs by (vm_compute; reflexivity).
  assert (ok restarting = true) as Hf by (vm_compute; reflexivity).
  assert (fo_state_directory durable_options <> ""%string) as Hdir by discriminate.
  destruct (open_demotes demo_clock steady_store_io durable_options worked_directory _ _ (conj eq_refl Hdir)
    (result_succeeds demo_store _ Hs) (result_succeeds (fresh_fabric durable_options) _ Hf)) as (_ & H2 & _ & _ & H5).
  split; [exact H2|]. split; [vm_compute; reflexivity|]. split; [vm_compute; reflexivity|exact H5].
Defined.

(** ** Findings *)

(** [plan_last] after an epoch advance: every fence is up, the domain is STALE and there is
    no evidence, and yet the outcome of the last epoch is planned from: intents with
    basis CONGESTED are authorized and bound to the new epoch. *)
Theorem plan_last_outlives_epoch :
  let f := transient_after (hot_calls ++ [CaAdvanceEpoch FrEpochAdvance]) in
  let r := fabric_plan_last demo_clock steady_store_io 1 f in
  fb_epoch f = 2 /\ domain_in f = StStale /\ fb_evidence f = [] /\ fabric_is_fenced 11 1 f = true /\
  map (fun i => (ii_epoch i, ii_basis_state i)) (ip_authorized (value_or empty_plan r.1))
  = [(2, StCongested); (2, StCongested); (2, StCongested)].
Proof. vm_compute. repeat split. Qed.

(** The clock of a process starts near zero, and the ticks of the domains survive a
    restart: fresh evidence for a restored domain is held as a tick regression until
    the new process has run longer than the old one. *)
Theorem restart_freezes_domain :
  let f := run_calls (take 2 hot_calls ++ [CaIngest (demo_batch [hot_reading 7 1 1 1 100])]) restarted_fabric in
  let out := value_or no_outcome (hot_evaluation f).1 in
  length (fb_evidence f) = 1%nat /\ eo_state out = StStale /\ eo_reason_code out = "tick-regression"%string.
Proof. vm_compute. repeat split. Qed.

(** A publisher that restarts under a new boot numbers its samples from the start
    again; the window still holds the reading of the old boot, which is no longer
    registered, and the new readings are refused as duplicates. *)
Theorem new_boot_refused :
  let f := transient_after [CaRegister 11 1 auth_all; CaIngest (demo_batch [hot_reading 1 1 1 9 100]);
                            CaRegister 11 2 auth_all] in
  let r := fabric_ingest demo_clock (demo_batch [hot_reading 1 2 1 1 200]) f in
  value_or ingest_report_default r.1 = mkIngestReport 0 0 1 0 0 0 0 /\
  registered 11 1 r.2 = None /\ map (fun e => es_publisher_boot e.2) (fb_evidence r.2) = [1].
Proof. vm_compute. repeat split. Qed.
