(* ===== verification/RuntimeScenarios.v ===== *)
(** * RuntimeScenarios: connections at work

    A coordinator that serves concrete streams: the theorems of CoordinatorSafety.v are
    applied to it, and the runs behind the findings about the runtime. *)

From stdpp Require Import gmap.
From Stdlib Require Import Strings.Byte.
From S2P Require Import Prelude Core Enums OMap Bytes Evidence Authority Policy Topology State Intervention.
From S2P Require Import Explanation Evaluator Planner Scenarios Frame Messages.
From S2P Require Import Journal StoreCodec Snapshot Store Fabric FabricInvariant FabricSafety FabricScenarios.
From S2P Require Import Coordinator CoordinatorSafety Args Node Publisher Channel.

Open Scope N_scope.

(** ** Fixtures *)

(** The fabric is used by this connection alone, and every write succeeds. *)
Definition undisturbed (n : N) (f : Fabric) : Fabric := f.
Definition writable (n : N) : bool := true.

Lemma undisturbed_follows (n : N) (f : Fabric) : follows f (undisturbed n f).
Proof. reflexivity. Qed.

Definition serving (f : Fabric) : Serving := mkServing f 0 [] 0 0 0 0 (Some []) new_connection.

Definition request_frame (type : FrameType) (sequence : N) (payload : Result (list byte)) : Frame :=
  mkFrame (mkFrameHeader kFrameMagic 0 (frame_type_val type) 0 0 0 0 0 1 1 11 0 sequence 77 0 0) (value_or [] payload).

Definition hello_frame (publisher boot sequence : N) : Frame :=
  request_frame FtHello sequence (encode_hello (mkHelloMessage publisher boot 1 1 auth_all "demo")).
Definition hot_frame (sequence : N) : Frame :=
  request_frame FtEvidence sequence (encode_evidence (demo_batch [hot_reading 1 1 1 sequence 100])).
Definition goodbye_frame (sequence : N) : Frame := request_frame FtGoodbye sequence (Ok []).

Definition stream_of (frames : list Frame) : list byte := concat (map frame_bytes frames).
(** The stream in two pieces, cut inside the first frame. *)
Definition cut_stream (frames : list Frame) : list (list byte) := [take 50 (stream_of frames); drop 50 (stream_of frames)].

(** A node with the demo topology. *)
Definition demo_node : Serving := serving (transient_after [CaSetTopology demo_topology]).
Definition serve_demo (frames : list Frame) (s : Serving) : Serving :=
  connection_loop demo_clock steady_store_io undisturbed writable 1000 (cut_stream frames) s.

Definition hot_stream : list Frame := [hello_frame 11 1 1; hot_frame 1; hot_frame 2].

Lemma demo_node_reachable : reachable_fabric (sv_fabric demo_node).
Proof. apply run_reachable, transient_opens. Qed.

Lemma hot_stream_ok : Forall frame_ok hot_stream.
Proof. repeat apply Forall_cons_2; [..|apply Forall_nil_2]; (split; [..|split]); vm_compute; (reflexivity || discriminate). Qed.

Lemma hot_stream_cut : concat (cut_stream hot_stream) = stream_of hot_stream.
Proof. unfold cut_stream. cbn [concat]. rewrite app_nil_r. apply take_drop. Qed.

(** The first batch makes the port hot, the second commits CONGESTED; every request was
    answered; at the end the incarnation is fenced. *)
Example connection_congests :
  let s := serve_demo hot_stream demo_node in
  (domain_in (sv_fabric s), size64 (sv_sent s), fabric_is_fenced 11 1 (sv_fabric s)) = (StCongested, 3, true).
Proof. vm_compute. reflexivity. Qed.

(** ** The theorems at work *)

Lemma connection_follows_witness :
  reachable_fabric (sv_fabric demo_node) /\ follows (sv_fabric demo_node) (sv_fabric (serve_demo hot_stream demo_node)).
Proof.
  split; [exact demo_node_reachable|].
  exact (proj1 (proj1 (connection_follows demo_clock steady_store_io undisturbed writable undisturbed_follows 1000
    (cut_stream hot_stream) 0 demo_node demo_node_reachable eq_refl))).
Defined.

Lemma connection_death_fences_witness :
  let before := serve demo_clock steady_store_io undisturbed writable 1000 (cut_stream hot_stream)
                  (demo_node <| sv_conn := new_connection |>) in
  let ended := connection_loop demo_clock steady_store_io undisturbed writable 1000 (cut_stream hot_stream) demo_node in
  cn_registered (sv_conn before) = true /\ fb_closed (undisturbed (sv_calls before) (sv_fabric before)) = false /\
  fabric_is_fenced (cn_publisher (sv_conn before)) (cn_boot (sv_conn before)) (sv_fabric ended) = true.
Proof.
  intros before ended.
  assert (cn_registered (sv_conn before) = true) as Hr by (vm_compute; reflexivity).
  assert (fb_closed (undisturbed (sv_calls before) (sv_fabric before)) = false) as Hopen by (vm_compute; reflexivity).
  pose proof (connection_death_fences demo_clock steady_store_io undisturbed writable undisturbed_follows 1000
      (cut_stream hot_stream) demo_node demo_node_reachable) as H.
  fold before in H. fold ended in H. destruct H as [_ H]. specialize (H Hr Hopen (sv_fabric ended) (follows_refl _)).
  exact (conj Hr (conj Hopen (proj1 H))).
Defined.

Lemma stream_pieces (frames : list Frame) :
  concat (cut_stream frames) = concat (map frame_bytes frames).
Proof. unfold cut_stream, stream_of. cbn [concat]. rewrite app_nil_r. apply take_drop. Qed.

Lemma hot_stream_pieces :
  Forall (fun chunk => chunk <> []) (cut_stream hot_stream) /\
  size64 (concat (cut_stream hot_stream)) <= fd_max_buffered default_frame_decoder.
Proof. split; [repeat constructor; vm_compute; discriminate|vm_compute; discriminate]. Qed.

Lemma stream_served_witness :
  Forall frame_ok hot_stream /\
  exists d, serve_demo hot_stream demo_node
    = finish_connection demo_clock steady_store_io undisturbed
        (with_decoder d (handle_frames demo_clock steady_store_io undisturbed writable 1000 (map sealed_frame hot_stream)
          (demo_node <| sv_conn := new_connection |>))).
Proof.
  split; [exact hot_stream_ok|].
  exact (stream_served demo_clock steady_store_io undisturbed writable 1000 hot_stream (cut_stream hot_stream) demo_node
    hot_stream_ok (stream_pieces hot_stream) (proj1 hot_stream_pieces) (proj2 hot_stream_pieces)).
Defined.

(** Evidence and a heartbeat from nobody, then bytes that are no frame. *)
Definition stranger_stream : list Frame := [hot_frame 1; request_frame FtHeartbeat 2 (Ok [])].
Definition stranger_chunks : list (list byte) := cut_stream stranger_stream ++ [replicate 100 x00; [x01]].

Lemma stranger_chunks_heard : map frame_type (heard default_frame_decoder stranger_chunks) = [FtEvidence; FtHeartbeat].
Proof. vm_compute. reflexivity. Qed.

Lemma strangers_reach_nothing_witness :
  Forall (fun f => frame_type f <> FtHello) (heard default_frame_decoder stranger_chunks) /\
  sv_fabric (connection_loop demo_clock steady_store_io undisturbed writable 1000 stranger_chunks demo_node)
  = sv_fabric demo_node.
Proof.
  assert (Forall (fun f => frame_type f <> FtHello) (heard default_frame_decoder stranger_chunks)) as H.
  { apply Forall_forall. intros f Hf.
    assert (frame_type f ∈ map frame_type (heard default_frame_decoder stranger_chunks)) as Hin
      by (apply list_elem_of_fmap; by exists f).
    rewrite stranger_chunks_heard in Hin.
    by apply elem_of_cons in Hin as [->|[->|Hin%not_elem_of_nil]%elem_of_cons]. }
  split; [exact H|].
  exact (proj1 (strangers_reach_nothing demo_clock steady_store_io undisturbed writable 1000 stranger_chunks demo_node H)).
Defined.

(** A node whose connection is registered as boot 1 of publisher 11. *)
Definition registered_node : Serving :=
  (serving (transient_after [CaSetTopology demo_topology; CaRegister 11 1 auth_all]))
    <| sv_conn := mkConnection default_frame_decoder 11 1 true true 1 |>.

Definition hot_batch : EvidenceBatch :=
  value_or (demo_batch []) (decode_evidence (fr_payload (hot_frame 1))).

Lemma hot_batch_decodes : decode_evidence (fr_payload (hot_frame 1)) = Ok hot_batch.
Proof. vm_compute. reflexivity. Qed.

Lemma evidence_acknowledged_witness :
  exists bytes payload ack,
    sv_sent (handle_evidence demo_clock steady_store_io undisturbed writable (hot_frame 1) registered_node)
    = sv_sent registered_node ++ [bytes] /\ answers (hot_frame 1) FtEvidenceAck payload bytes /\
    decode_evidence_ack payload = Ok ack /\
    ea_accepted ack + ea_rejected ack + ea_duplicate ack = size64 (eb_samples hot_batch).
Proof.
  refine (evidence_acknowledged demo_clock steady_store_io undisturbed writable (hot_frame 1) hot_batch registered_node
    _ eq_refl eq_refl hot_batch_decodes _); [split|]; vm_compute; reflexivity.
Defined.

(** *** The node program *)

Abbreviation prepare_demo tokens :=
  (prepare_coordinator demo_clock steady_store_io empty_directory true true (parse_args tokens no_args)).

Definition is_ready (r : N + Fabric) : bool := match r with inr _ => true | inl _ => false end.
Definition ready_fabric (r : N + Fabric) : Fabric :=
  match r with inr f => f | inl _ => fresh_fabric fabric_options_default end.

Lemma ready_eq (r : N + Fabric) : is_ready r = true -> r = inr (ready_fabric r).
Proof. by destruct r. Qed.

Definition node_line : list string := ["coordinator"; "--resources"; "3"; "--paths=2"; "--deny=request-pacing,evaluate"].

Lemma node_line_ready : is_ready (prepare_demo node_line) = true.
Proof. vm_compute. reflexivity. Qed.

Lemma ready_is_sound_witness :
  is_ready (prepare_demo node_line) = true /\ reachable_fabric (ready_fabric (prepare_demo node_line)).
Proof.
  split; [exact node_line_ready|].
  exact (proj1 (ready_is_sound demo_clock steady_store_io empty_directory true true (parse_args node_line no_args) _
    (ready_eq _ node_line_ready))).
Defined.

Lemma denials_hold_witness :
  is_ready (prepare_demo node_line) = true /\
  forall c, c <> AuNone ->
    auth_grants (fo_local_denied (fb_options (ready_fabric (prepare_demo node_line)))) c
    = bool_decide (c ∈ [AuRequestPacing; AuEvaluate]).
Proof.
  split; [exact node_line_ready|].
  refine (denials_hold demo_clock steady_store_io empty_directory true true (parse_args node_line no_args)
    ["request-pacing"; "evaluate"]%string [AuRequestPacing; AuEvaluate] _ _ (ready_eq _ node_line_ready) (follows_refl _)
    _ _ _); [vm_compute; reflexivity|discriminate|repeat constructor].
Defined.

(** ** What the model shows *)

(** The options of the policy are read only when the line also says [--policy], which
    the usage does not mention: here the sample counts stay those of the default. *)
Example policy_options_ignored :
  let f := ready_fabric (prepare_demo ["coordinator"; "--escalate-samples=9"]) in
  hp_escalate_samples (cpol_hysteresis (fb_policy f)) = hp_escalate_samples (cpol_hysteresis make_default_policy) /\
  hp_escalate_samples (cpol_hysteresis make_default_policy) <> 9.
Proof. vm_compute. split; [reflexivity|discriminate]. Qed.


(** A second hello on a connection replaces the identity the connection remembers:
    when it ends, the second incarnation is fenced, and the first, whose connection
    died as well, stays registered and trusted. *)
Example second_hello_strands :
  let s := serve_demo [hello_frame 11 1 1; hello_frame 12 1 2] demo_node in
  fabric_is_fenced 12 1 (sv_fabric s) = true /\ fabric_is_fenced 11 1 (sv_fabric s) = false /\
  bool_decide (is_Some (registered 11 1 (sv_fabric s))) = true.
Proof. vm_compute. repeat split. Qed.

(** A batch is not tied to the connection it arrives on: publisher 12 reports hot
    readings as publisher 11 does, and they are accepted. *)
Example evidence_not_bound_to_connection :
  let node := serving (transient_after [CaSetTopology demo_topology; CaRegister 11 1 auth_all]) in
  let s := serve_demo [hello_frame 12 1 1; hot_frame 1] node in
  bool_decide (length (fb_evidence (sv_fabric s)) = 1%nat) = true /\ sv_frames_rejected s = 0.
Proof. vm_compute. repeat split. Qed.

(** ** A publisher and a coordinator *)

(** What the publisher has sent when its reads answer [reads]. *)
Definition published (reads : list (Result (list byte))) : list (list byte) :=
  pb_sent (converse (N.add 40) (fun _ => true) (mkStatus IoError "write" "") (mkPublisherClientOptions "demo" 11 1 0 "demo")
             (mkPublisherScript 1 [1] 2 0 950000 900000 0 60000 0 0 0 0 0 0 0 1 true true true 1 false) (new_publishing reads)).2.
(** What the node answers to these writes, each of which it reads whole. *)
Definition answered_by (node : Serving) (writes : list (list byte)) : Serving :=
  connection_loop demo_clock steady_store_io undisturbed writable 1000 writes node.

(** The conversation as far as [turns] answers. *)
Fixpoint talk (turns : nat) : list (list byte) :=
  match turns with
  | O => []
  | S turns => sv_sent (answered_by demo_node (published (map Ok (talk turns))))
  end.
Definition same_bytes (a b : list byte) : bool := bool_decide (map Byte.to_N a = map Byte.to_N b).

(** One more turn, and how the node is left. *)
Definition settled (replies : list (list byte)) : (bool * N * N) * (CongestionState * bool * bool) :=
  let writes := published (map Ok replies) in
  let node := answered_by demo_node writes in
  let f := sv_fabric node in
  (same_bytes (concat (sv_sent node)) (concat replies), size64 replies, size64 writes,
   (domain_in f, fabric_is_fenced 11 1 f, bool_decide (fb_publishers f = ∅))).

(** The two sides agree on one conversation: each sends what it sends because of what
    the other sent.  Its three answers are those of the greeting and of two batches; the
    port is severe after the second, and the publisher, which said goodbye, is gone and
    not fenced. *)
Example conversation : settled (talk 3) = (true, 3, 4, (StSevere, false, true)).
Proof. vm_compute. reflexivity. Qed.

(** ** Listeners under load *)

(** A system that grants a pipe instance while fewer than [limit] are open: a listener
    with its cancellation event, and [clients] connections that stay. *)
Fixpoint crowd (limit : N) (clients : nat) (l : PipeListener) (open : Handles) : list (Result unit * N) :=
  match clients with
  | O => []
  | S clients =>
      let instances := N.of_nat (size open) - 1 in
      let replacement := if instances <? limit then inl (100 + instances) else inr ErrorPipeBusy in
      match pipe_accept (mkAcceptAnswers (inl 99) (inl tt) [] replacement) l open with
      | Some (r, l, open) => (match r with Ok _ => Ok tt | Err e => Err e end, 0) :: crowd limit clients l open
      | None => []
      end
  end.

(** [start] asks for eight instances.  The eighth client that is connected at once
    leaves no instance for the listener: it is turned away, the listener is closed, and
    the accept loop, and with it the coordinator, ends. *)
Example eighth_connection_ends_the_loop :
  let a := accept_loop 32 (crowd 8 20 demo_listener {[5; 6]}) new_acceptor in
  (ac_running a, ac_accepted a, ac_failures a) = (false, 7, 1).
Proof. vm_compute. reflexivity. Qed.
